(* ===== verification/_CoqProject ===== *)
-Q . S2P
Prelude.v
FixedWindow.v
F32.v
Text.v
F64.v
Protocol.v
Components.v
Ecs.v
EcsModel.v
Registry.v
Extraction.v
Interaction.v
Adapter.v
AdapterProps.v
Simulate.v
AdapterWitness.v
RateLimit.v
Telemetry.v
TelemetryProps.v
Email.v
Auth.v
AuthProps.v
AuthWitness.v
Google.v
AuthTasks.v
AuthTasksProps.v
AuthRaces.v
AuthTasksWitness.v
Matchmaking.v
Config.v
Tick.v
MultiTransport.v
Renet.v
RenetProps.v
Stress.v
StressProps.v
Certificate.v
WebTransport.v
WebTransportProps.v
Transports.v
TickProps.v
Server.v
TypedUpdates.v
BotServer.v
Outbound.v
Shutdown.v
Main.v
ServerWitness.v
BotWitness.v
TransportsWitness.v
MainWitness.v
