(* ===== verification/Prelude.v ===== *)
(** * Aetheris Engine: a verification library

    Aetheris is an authoritative multiplayer game server in Rust.  This library models the ECS crate
    ([src/crates/aetheris-ecs-bevy]), the server crate with its binary ([src/crates/aetheris-server]),
    the two transports ([src/crates/aetheris-transport-renet], [src/crates/aetheris-transport-webtransport])
    and the load generator ([src/crates/aetheris-stress]) as executable Rocq definitions and proves
    what makes them correct.

    ** The program and its model

    A tick of the server ([tick.rs]) polls the transports, authenticates and applies what clients
    sent, simulates, extracts what changed and sends it.  The world behind the tick is the ECS
    adapter ([adapter.rs]), which maps network ids to entities of Bevy's ECS, decides who may write
    what, and runs the gameplay systems ([extraction.rs], [interaction.rs]); replication goes
    through the component registry ([registry.rs]).  Sessions come from the authentication service
    ([auth/]), which gRPC clients call while the ticks run; matchmaking ([matchmaking/]) and
    telemetry ([telemetry.rs]) sit beside it.  Clients come in over UDP (renet) or WebTransport,
    whose tasks run beside the ticks.  [main.rs] reads the environment and starts it all.  The
    components meet at traits, which are classes here:

    - [WorldState] ([Tick.v]): implemented by the adapter ([Server.v], [adapter_world]);
    - [AuthSessionVerifier] ([Tick.v]): implemented by the authentication service together with
      the readings of the clock ([Server.v], [clocked_verifier]);
    - [PlatformTransport] ([Tick.v]): implemented by the Renet transport ([Renet.v]), by the
      WebTransport bridge ([WebTransport.v]) and by the aggregator of such ([MultiTransport.v]);
      [Transports.v] boxes the two and aggregates them as the binary does;
    - [EcsWorld] with [EcsLaws] ([Ecs.v]): what the engine uses of Bevy, implemented by the
      executable model of [EcsModel.v]; [BiMap], [Allocator], [Wire], [Libm], [RandomRange],
      [StdHasher], [AuthLib], [Encoder], [Reassembler], [WireProtocol], [RenetServer],
      [NetcodeTransport], [Wtransport], [FileSystem], [Rcgen], [PemLoader], [Lettre], [Reqwest],
      [Platform], [OidcLib], [RenetClient]: the other libraries the sources call, each with the laws the
      theorems need and an instance that satisfies them.

    ** Files

    - [Prelude.v]: outcomes of Rust functions (return, panic, divergence), results, unsigned
      integers with their overflow behaviour, loops, sums, automation.
    - [FixedWindow.v]: counting requests in fixed windows, shared by the two rate limiters.
    - [F32.v], [F64.v]: IEEE binary32 and binary64 arithmetic as the code uses it, and the parsing
      of decimal numbers.
    - [Text.v]: strings, trimming and splitting, UTF-8, and the standard library's parsers of IP
      and socket addresses.
    - [Protocol.v]: the data types and constants of the protocol crate, and its id allocator.
    - [Components.v]: component and resource types ([components.rs], [physics_consts.rs],
      [deterministic_rng.rs]).
    - [Ecs.v], [EcsModel.v]: the ECS interface with its laws, and a model of it.
    - [Registry.v]: [registry.rs]: registration, the default replicator, and the input-command
      replicator with its gate, windows and capping.
    - [Extraction.v], [Interaction.v]: the gameplay systems, one definition per system and step.
    - [Adapter.v]: state and methods of [BevyWorldAdapter], its invariant [wf];
      [AdapterProps.v]: the theorems on them; [Simulate.v]: [simulate], the step relation of all
      operations, the invariant over every run; [AdapterWitness.v]: concrete runs.
    - [RateLimit.v]: [auth/rate_limit.rs]; [Email.v]: [auth/email.rs].
    - [Telemetry.v]: [telemetry.rs]; [TelemetryProps.v]: the theorems and witnesses.
    - [Auth.v]: [auth/mod.rs] and [auth/google.rs], every handler in a state and error monad;
      [AuthProps.v]: a weakest-precondition calculus for it and the theorems; [AuthWitness.v];
      [Google.v]: the construction of the Google client.
    - [AuthTasks.v]: the same handlers as sequences of accesses to the shared maps, many at a time,
      with the lock a login holds; [AuthTasksProps.v]: that each, alone, is the handler of [Auth.v],
      and the theorems over every interleaving; [AuthRaces.v]: two interleavings in which the code
      does not do what it means to, with the threads they need; [AuthTasksWitness.v].
    - [Matchmaking.v]: [matchmaking/mod.rs] as a state machine.
    - [Config.v]: [config.rs].
    - [Tick.v]: [tick.rs], the whole of [tick_step] and its helpers; [TickProps.v]: the theorems,
      for every implementation of the traits.
    - [MultiTransport.v]: [multi_transport.rs].
    - [Renet.v]: the Renet transport, with its connection limiter; [RenetProps.v]: the theorems.
    - [Certificate.v]: the certificate of the WebTransport bridge; [WebTransport.v]: the bridge and
      the interleaving of its tasks; [WebTransportProps.v]: the theorems over every interleaving.
    - [Transports.v], [TransportsWitness.v]: the two transports behind one aggregator, and the
      scheduler reading from them.
    - [Stress.v], [StressProps.v]: the load generator.
    - [Server.v]: [lib.rs] ([bootstrap_phase1_world]) and runs of the assembled server.
    - [TypedUpdates.v]: what clients can write, by component type.
    - [BotServer.v], [BotWitness.v]: a bot of the load generator against the assembled server.
    - [Outbound.v]: the outbound channel and task of [TickScheduler::run].
    - [Shutdown.v]: the process from serving to its end, its tasks interleaved.
    - [Main.v]: [main.rs] until it serves, and the server it starts; [MainWitness.v]: a start.
    - [ServerWitness.v]: concrete ticks.

    A structure of the source is a [Record] with its fields, an enumeration an [Inductive] with its
    variants, a method a [Definition] with the method's name (or [multi_..], [auth_..],
    [scheduler_..], [renet_..], [bridge_..] where the name is taken).  Long methods are cut at the comments of the source
    into definitions that are composed as the method composes them.  A [HashMap] whose order can be
    observed is iterated in an order that is a parameter; times, random numbers and fresh
    identifiers are arguments.  Metrics and logging are left out.

    ** What is proved

    - The world: over every sequence of adapter operations, ids, owners, workspaces and trackers
      agree with the world ([adapter_invariant]); updates change nothing the sender does not own
      ([apply_updates_no_hijack]); the cached batch is the plain one ([apply_updates_refines]);
      every change is extracted ([extract_complete]); a client writes only values of the type its
      kind stands for, into entities it owns ([updates_are_typed]); spawning, despawning and clearing do what they
      say on every branch.
    - Input: stored commands strictly increase in tick ([input_ticks_strictly_increase]).
    - Gameplay: extraction conserves payload, never panics and respects capacities; tools obey
      their cooldown; hits, beams, auto-aim and respawning behave as specified.
    - Authentication: at most three guesses per password, single use, the path from request to
      verified session, final logout, rotation on refresh ([refresh_rotates]), no administrator in production; at most
      twice the hourly limit of requests in any hour.
    - Authentication under concurrency: every request ends, after at most six turns of its own,
      waits only for a request that can move, and from every point all can be answered
      ([requests_finish]; the lemma [auth_task_refines] ties the handlers to [Auth.v]); what one password can yield is bounded by the number of requests in
      flight ([otp_yield_bound]); a removed session, the bypass administrator's apart, stays out
      ([logout_is_final_interleaved]).
    - The tick: one session per player, messages gated by a confirmed session, workspace isolation
      of what is sent, fragmentation, idempotent session start, purge of revoked sessions.
    - The assembled server: every run keeps the world sound; in production without golden recording
      no playground command ever reaches the world; the movements of a bot arrive at its agent ([bot_moves_its_agent]).
    - The end: when the process can still end regularly after a signal ([shutdown_ends_iff]).
    - Matchmaking and the aggregator: the choice of server, routing of sends and polls.
    - Renet: a poll returns and reports every pending event and message ([poll_events_spec]); the reported sessions of a
      client are paired, refused connections leave no trace ([reported_sessions_paired]); an address
      gets its burst and no more ([connection_burst]); sends on every branch.
    - WebTransport, over every interleaving of its tasks: the events of a client follow its life
      cycle ([client_lifecycle]); nobody gets in without a first message the validator accepts
      ([only_authenticated_clients]); a disconnected client stays out ([disconnected_stays_out]);
      the value of the counter ([client_counter]); the certificate survives restarts
      ([identity_persists]) and is made with the validity browsers accept ([fresh_certificate]).
    - Telemetry: what reaches the log and the metrics is clean and bounded whatever was submitted
      ([telemetry_output_safe], [sanitize_spec]); both handlers agree ([handlers_agree]); the
      limiter and its prune ([telemetry_accepted_per_minute], [prune_unobservable]).
    - The binary: what a server that serves in production has been checked for
      ([production_startup_is_secure]), what it refuses ([production_without_tls_is_refused]), and
      that the world it starts stays sound over its two transports
      ([started_server_keeps_world_sound]).
    - The load generator: what a bot says ([bot_speaks_protocol]), that it comes to an end once its
      login has been answered and not before ([run_bot_ends]), and the percentile of the summary ([p99_spec]).
    - Where the code does not do what it means to, the theorem says what it does: ticks that
      deadlock on the outbound channel ([large_tick_deadlocks]), a rotation that hangs the
      simulation ([infinite_rotation_hangs]), a bot that waits for ever for its login ([run_bot_ends]),
      an overfilled store ([collection_overfills_store]),
      stale agents after [ClearWorld] ([clear_world_strands_other_agents]), queue requests that
      cancel each other ([rejoin_cancels_both]), events lost by a failing poll
      ([failed_poll_drops_events]), a first command accepted twice
      ([first_input_accepted_twice]), timers that survive clearing ([clear_world_keeps_timers]), a
      client count that runs below zero ([client_counter], [server_client_count]), messages the
      bridge is never asked to send ([large_message_never_reaches_bridge]), a client that comes back
      after its end ([late_auth_reenters_client]), a rate limit clients can evade
      ([client_names_its_address]), guesses beyond the limit by requests in flight together, on as many
      threads ([guess_limit_evaded]), a refresh that outlives the logout it races with
      ([refresh_survives_logout]), a signal lost while the server starts ([shutdown_ends_iff]),
      telemetry open to every origin
      ([telemetry_open_in_production]) and a production certificate that is the development one
      ([default_tls_is_bridge_certificate]).

    ** Bounds and fuel

    Integers are [Z] with the width's overflow written out at each operation.  [spawn_kind] recurses
    with fuel 2, which [spawn_kind_terminates] proves to be enough.  [simulate] takes fuel for its
    angle loops: a run that needs more is [Diverge], and [infinite_rotation_hangs] shows that the
    loops really can run for ever, so no bound would do.  [chunks] and [trim_start_matches] recurse
    on the length of their argument, [decode_utf8] too.  A poll of the Renet transport takes fuel for
    its three [while] loops; [poll_events_spec] gives the bound beyond which the result no longer
    depends on it.  A bot takes fuel for its loop and for the messages of a turn; [run_bot_ends]
    gives such a bound from the clock for a bot whose login is answered, and a call that is never
    answered is [Diverge] too.  A request of the authentication service is a finite tree of accesses;
    [requests_finish] bounds the turns it takes by six.  Everything else is structural.

    ** What is not modelled

    Metrics, logging and tracing, except where their content is the point (the telemetry service);
    in the Renet transport the packet-loss gauge; in the binary the tracing subscriber, the memory
    gauges; in the load generator the command line and the
    layout of the summary.  The crates [aetheris-ecs-custom] and [aetheris-transport-quinn] are
    empty.  The validator the binary gives to the bridge is a pure test of the token here, while the
    service also records the activity of the session (in [AuthTasks.v] that is the call [CVerify]
    without a tick).  [Shutdown.v] says when the process can end
    regularly, not that the runtime will schedule the steps that end it; errors of [main] are a step
    of it, panics of its tasks are not.  In [AuthTasks.v] an access to a map is
    one step: the reads and writes inside one call of [DashMap] are its own business, and the
    scheduler's calls interleave there with the requests but not with the rest of its tick.
    [components.rs] also declares components that no code uses; they have no counterpart here. *)

From stdpp Require Import gmap strings list fin_maps sorting.
From Stdlib Require Import ZArith Lia.

Open Scope Z_scope.

(** ** Outcome of running a Rust function

    [Ret a] is a normal return, [Panic] a panic ([unwrap], [expect], [assert!] or an arithmetic
    overflow, which panics in builds with overflow checks), [Diverge] a loop that used up the fuel
    it was given, or a call that never returns. *)
Inductive exec (A : Type) : Type :=
| Ret (a : A)
| Panic
| Diverge.
Arguments Ret {A} _.
Arguments Panic {A}.
Arguments Diverge {A}.

#[global] Instance exec_ret : MRet exec := fun A a => Ret a.
#[global] Instance exec_bind : MBind exec := fun A B f m =>
  match m with
  | Ret a => f a
  | Panic => Panic
  | Diverge => Diverge
  end.

(** [Option::unwrap] / [Option::expect]. *)
Definition unwrap {A} (o : option A) : exec A :=
  match o with Some a => Ret a | None => Panic end.

(** [assert!]. *)
Definition assert_ (b : bool) : exec unit := if b then Ret () else Panic.

(** A [for] loop that threads a state through a list. *)
Fixpoint for_each {S A} (f : S -> A -> exec S) (s : S) (l : list A) : exec S :=
  match l with
  | [] => Ret s
  | a :: l' => s' ← f s a; for_each f s' l'
  end.

(** [Result<T, E>]. *)
Inductive result (A E : Type) : Type :=
| Ok (a : A)
| Err (e : E).
Arguments Ok {A E} _.
Arguments Err {A E} _.

Definition is_ok {A E} (r : result A E) : bool :=
  match r with Ok _ => true | Err _ => false end.

(** [Result::ok]. *)
Definition ok_of {A E} (r : result A E) : option A :=
  match r with Ok a => Some a | Err _ => None end.

(** ** Unsigned machine integers

    An unsigned [w]-bit integer is a [Z] in [0 .. umax w]; each operation writes out what the
    corresponding Rust operator or method does at the boundary. *)
Definition umax (w : Z) : Z := 2 ^ w - 1.

Definition in_u (w x : Z) : Prop := 0 <= x <= umax w.

(** [saturating_add], [saturating_sub], [wrapping_add]. *)
Definition sat_add (w a b : Z) : Z := Z.min (a + b) (umax w).
Definition sat_sub (a b : Z) : Z := Z.max 0 (a - b).
Definition wrapping_add (w a b : Z) : Z := (a + b) mod 2 ^ w.

(** [+] and [-] on unsigned integers: an overflow panics. *)
Definition chk_add (w a b : Z) : exec Z := if a + b <=? umax w then Ret (a + b) else Panic.
Definition chk_sub (a b : Z) : exec Z := if b <=? a then Ret (a - b) else Panic.

(** [u16::try_from]. *)
Definition u16_try_from (x : Z) : option Z :=
  if (0 <=? x) && (x <=? umax 16) then Some x else None.

(** [is_multiple_of]: a multiple of zero is zero only. *)
Definition is_multiple_of (x d : Z) : bool :=
  if d =? 0 then x =? 0 else x mod d =? 0.

#[global] Instance in_u_dec w x : Decision (in_u w x).
Proof. unfold in_u. apply _. Defined.

Lemma umax_16 : umax 16 = 65535.
Proof. reflexivity. Qed.
Lemma umax_32 : umax 32 = 4294967295.
Proof. reflexivity. Qed.
Lemma umax_64 : umax 64 = 18446744073709551615.
Proof. reflexivity. Qed.

(** ** Automation *)

Create HintDb aetheris.
Create Rewrite HintDb urange.
#[export] Hint Rewrite umax_16 umax_32 umax_64 : urange.

(** Linear arithmetic after unfolding the integer operations. *)
Ltac ulia :=
  unfold in_u, sat_add, sat_sub, is_multiple_of in *;
  autorewrite with urange in *; lia.

(** Case analysis on the boolean tests the definitions branch on. *)
Ltac bdestr :=
  repeat match goal with
  | H : context [Z.leb ?a ?b] |- _ => destruct (Z.leb_spec a b)
  | H : context [Z.ltb ?a ?b] |- _ => destruct (Z.ltb_spec a b)
  | H : context [Z.eqb ?a ?b] |- _ => destruct (Z.eqb_spec a b)
  | |- context [Z.leb ?a ?b] => destruct (Z.leb_spec a b)
  | |- context [Z.ltb ?a ?b] => destruct (Z.ltb_spec a b)
  | |- context [Z.eqb ?a ?b] => destruct (Z.eqb_spec a b)
  end.

(** Inverts one [exec] bind at a time. *)
Lemma bind_Ret_inv {A B} (m : exec A) (f : A -> exec B) b :
  (m ≫= f) = Ret b -> exists a, m = Ret a /\ f a = Ret b.
Proof. destruct m; cbn; try discriminate. eauto. Qed.

Ltac exec_inv :=
  repeat match goal with
  | H : (_ ≫= _) = Ret _ |- _ =>
      let a := fresh "a" in let Ha := fresh "Ha" in
      apply bind_Ret_inv in H as (a & Ha & H)
  | H : Ret _ = Ret _ |- _ => injection H as H; subst
  | H : Panic = Ret _ |- _ => discriminate H
  | H : Diverge = Ret _ |- _ => discriminate H
  | H : unwrap ?o = Ret _ |- _ =>
      let E := fresh "E" in
      destruct o eqn:E; cbn in H; [injection H as H; subst | discriminate H]
  end.

Lemma chk_add_Ret w a b : a + b <= umax w -> chk_add w a b = Ret (a + b).
Proof. intros. unfold chk_add. by rewrite (proj2 (Z.leb_le _ _)). Qed.

Lemma chk_sub_Ret a b : b <= a -> chk_sub a b = Ret (a - b).
Proof. intros. unfold chk_sub. by rewrite (proj2 (Z.leb_le _ _)). Qed.

Lemma u16_try_from_Some x y : u16_try_from x = Some y <-> y = x /\ in_u 16 x.
Proof. unfold u16_try_from, in_u. bdestr; cbn; split; (intros [= <-] || intros [-> ?] || idtac); split_and?; (done || lia). Qed.

(** ** Loops *)

Lemma for_each_cons {S A} (f : S -> A -> exec S) s a l :
  for_each f s (a :: l) = f s a ≫= fun s' => for_each f s' l.
Proof. done. Qed.

(** A loop whose body never fails under an invariant that it keeps returns, and keeps it. *)
Lemma for_each_inv {S A} (I : S -> Prop) (f : S -> A -> exec S) l s :
  I s -> (forall s a, a ∈ l -> I s -> exists s', f s a = Ret s' /\ I s') ->
  exists s', for_each f s l = Ret s' /\ I s'.
Proof.
  revert s. induction l as [|a l IH]; intros s HI Hf; cbn; [eauto|].
  destruct (Hf s a) as (s1 & -> & H1); [set_solver | done |]. cbn.
  apply IH; [done|]. intros. apply Hf; set_solver.
Qed.

(** Same, when the loop is known to have returned. *)
Lemma for_each_pres {S A} (I : S -> Prop) (f : S -> A -> exec S) l s s' :
  for_each f s l = Ret s' -> I s ->
  (forall s a s', a ∈ l -> I s -> f s a = Ret s' -> I s') -> I s'.
Proof.
  revert s. induction l as [|a l IH]; intros s HE HI Hf; cbn in HE; exec_inv; [done|].
  eapply IH; eauto; [|intros; eapply Hf; eauto; set_solver]. eapply Hf; eauto. set_solver.
Qed.

Lemma for_each_app {S A} (f : S -> A -> exec S) s l1 l2 :
  for_each f s (l1 ++ l2) = s1 ← for_each f s l1; for_each f s1 l2.
Proof.
  revert s. induction l1 as [|a l1 IH]; intros s; cbn; [done|].
  destruct (f s a); cbn; [apply IH | done | done].
Qed.

(** [foldl] over a list keeps an invariant of its body. *)
Lemma foldl_inv {S A} (I : S -> Prop) (f : S -> A -> S) l s :
  I s -> (forall s a, a ∈ l -> I s -> I (f s a)) -> I (foldl f s l).
Proof.
  revert s. induction l as [|a l IH]; intros s HI Hf; cbn; [done|].
  apply IH; [apply Hf; set_solver | intros; apply Hf; set_solver].
Qed.

(** A preorder each step of the loop follows is followed by the loop. *)
Lemma foldl_rel {S A} (R : relation S) `{!PreOrder R} (f : S -> A -> S) l s :
  (forall s a, a ∈ l -> R s (f s a)) -> R s (foldl f s l).
Proof.
  revert s. induction l as [|a l IH]; intros s Hf; cbn; [done|].
  transitivity (f s a); [apply Hf; set_solver | apply IH; intros; apply Hf; set_solver].
Qed.

Lemma for_each_rel {S A} (R : relation S) `{!PreOrder R} (f : S -> A -> exec S) l s s' :
  for_each f s l = Ret s' -> (forall s a s', a ∈ l -> f s a = Ret s' -> R s s') -> R s s'.
Proof.
  intros HE Hf. revert HE. generalize (reflexivity (R := R) s).
  intros H HE. eapply (for_each_pres (R s)); eauto.
  intros. etrans; eauto.
Qed.

(** ** Sums over lists *)
Definition sum_over {A} (f : A -> Z) (l : list A) : Z := foldr (fun a s => f a + s) 0 l.

Lemma sum_over_cons {A} (f : A -> Z) a l : sum_over f (a :: l) = f a + sum_over f l.
Proof. done. Qed.

Lemma sum_over_perm {A} (f : A -> Z) l l' : l ≡ₚ l' -> sum_over f l = sum_over f l'.
Proof. induction 1; rewrite ?sum_over_cons; lia. Qed.

Lemma sum_over_ext {A} (f g : A -> Z) l :
  (forall a, a ∈ l -> f a = g a) -> sum_over f l = sum_over g l.
Proof.
  induction l as [|a l IH]; intros H; rewrite ?sum_over_cons; [done|].
  rewrite H, IH by set_solver. done.
Qed.

Lemma sum_over_upd {A} (g f : A -> Z) a l :
  NoDup l -> a ∈ l -> (forall b, a <> b -> g b = f b) ->
  sum_over g l = sum_over f l + (g a - f a).
Proof.
  induction l as [|b l IH]; intros Hnd Hin Hg; [set_solver|].
  apply NoDup_cons in Hnd as [Hb Hnd]. rewrite !sum_over_cons.
  apply elem_of_cons in Hin as [->|Hin].
  - rewrite (sum_over_ext g f l); [lia|]. intros c Hc. apply Hg. set_solver.
  - rewrite IH, Hg by (done || set_solver). lia.
Qed.

Lemma sum_over_nonneg {A} (f : A -> Z) l : (forall a, a ∈ l -> 0 <= f a) -> 0 <= sum_over f l.
Proof.
  induction l as [|a l IH]; intros H; [done|]; rewrite sum_over_cons.
  assert (0 <= f a) by (apply H; set_solver). assert (0 <= sum_over f l) by (apply IH; set_solver).
  lia.
Qed.

(** How many elements of a list satisfy a test. *)
Definition count_if {A} (f : A -> bool) (l : list A) : Z :=
  sum_over (fun a => if f a then 1 else 0) l.

Lemma sum_over_app {A} (f : A -> Z) l l' : sum_over f (l ++ l') = sum_over f l + sum_over f l'.
Proof. induction l; cbn [app]; rewrite ?sum_over_cons; cbn; lia. Qed.

Lemma count_if_app {A} (f : A -> bool) l l' :
  count_if f (l ++ l') = count_if f l + count_if f l'.
Proof. apply sum_over_app. Qed.

Lemma count_if_snoc {A} (f : A -> bool) l a :
  count_if f (l ++ [a]) = count_if f l + Z.b2z (f a).
Proof. rewrite count_if_app. cbn. destruct (f a); cbn; lia. Qed.

Lemma count_if_nonneg {A} (f : A -> bool) l : 0 <= count_if f l.
Proof. apply sum_over_nonneg. intros. destruct (f a); lia. Qed.

Lemma count_if_mono {A} (f g : A -> bool) l :
  (forall a, a ∈ l -> f a = true -> g a = true) -> count_if f l <= count_if g l.
Proof.
  unfold count_if. induction l as [|a l IH]; intros H; [done|]. rewrite !sum_over_cons.
  assert (sum_over (fun a => if f a then 1 else 0) l <= sum_over (fun a => if g a then 1 else 0) l)
    by (apply IH; set_solver).
  destruct (f a) eqn:E; [rewrite (H a) by (done || set_solver) | destruct (g a)]; lia.
Qed.

Lemma count_if_length {A} (f : A -> bool) l : count_if f l <= Z.of_nat (length l).
Proof.
  unfold count_if. induction l as [|a l IH]; [done|]. rewrite sum_over_cons. cbn [length].
  destruct (f a); lia.
Qed.

Lemma count_if_none {A} (f : A -> bool) l : (forall a, a ∈ l -> f a = false) -> count_if f l = 0.
Proof.
  unfold count_if. induction l as [|a l IH]; intros H; [done|].
  rewrite sum_over_cons, IH, H by set_solver. done.
Qed.

(** ** Sums over finite maps *)
Definition map_sum `{Countable K} {A} (f : A -> Z) (m : gmap K A) : Z :=
  sum_over (fun x => f x.2) (map_to_list m).

Lemma map_sum_empty `{Countable K} {A} (f : A -> Z) : map_sum f (∅ : gmap K A) = 0.
Proof. unfold map_sum. by rewrite map_to_list_empty. Qed.

Lemma map_sum_insert_None `{Countable K} {A} (f : A -> Z) (m : gmap K A) k a :
  m !! k = None -> map_sum f (<[k := a]> m) = f a + map_sum f m.
Proof.
  intros Hk. unfold map_sum. by rewrite (sum_over_perm _ _ _ (map_to_list_insert m k a Hk)).
Qed.

Lemma map_sum_delete `{Countable K} {A} (f : A -> Z) (m : gmap K A) k a :
  m !! k = Some a -> map_sum f (delete k m) = map_sum f m - f a.
Proof.
  intros Hk. rewrite <- (insert_delete_id m k a Hk) at 2.
  rewrite map_sum_insert_None by apply lookup_delete_eq. lia.
Qed.

Lemma map_sum_insert_Some `{Countable K} {A} (f : A -> Z) (m : gmap K A) k a b :
  m !! k = Some a -> map_sum f (<[k := b]> m) = map_sum f m - f a + f b.
Proof.
  intros Hk. rewrite <- insert_delete_eq, map_sum_insert_None by apply lookup_delete_eq.
  rewrite (map_sum_delete f m k a Hk). lia.
Qed.

Lemma map_sum_le_size `{Countable K} {A} (f : A -> Z) b (m : gmap K A) :
  (forall a, 0 <= f a <= b) -> 0 <= map_sum f m <= b * Z.of_nat (size m).
Proof.
  intros Hf. induction m as [|k a m Hk IH] using map_ind.
  - rewrite map_sum_empty, map_size_empty. lia.
  - rewrite map_sum_insert_None, map_size_insert_None by done. specialize (Hf a). lia.
Qed.

(** ** Loops that only append to their accumulators *)
Lemma foldl_pair_app {A B C} (f : list A * list B -> C -> list A * list B) g h l a b :
  (forall a b c, f (a, b) c = (a ++ g c, b ++ h c)) ->
  foldl f (a, b) l = (a ++ (l ≫= g), b ++ (l ≫= h)).
Proof.
  intros Hf. revert a b. induction l as [|c l IH]; intros a b; cbn.
  - by rewrite !app_nil_r.
  - rewrite Hf, IH. by rewrite <- !app_assoc.
Qed.

Lemma foldl_triple_app {A B C D} (f : list A * list B * list C -> D -> list A * list B * list C)
    g h k l a b c :
  (forall a b c d, f (a, b, c) d = (a ++ g d, b ++ h d, c ++ k d)) ->
  foldl f (a, b, c) l = (a ++ (l ≫= g), b ++ (l ≫= h), c ++ (l ≫= k)).
Proof.
  intros Hf. revert a b c. induction l as [|d l IH]; intros a b c; cbn.
  - by rewrite !app_nil_r.
  - rewrite Hf, IH. by rewrite <- !app_assoc.
Qed.

Lemma for_each_append {A B} (f : list A -> B -> exec (list A)) g l a :
  (forall a b, f a b = Ret (a ++ g b)) -> for_each f a l = Ret (a ++ (l ≫= g)).
Proof.
  intros Hf. revert a. induction l as [|b l IH]; intros a; cbn; [by rewrite app_nil_r|].
  rewrite Hf. cbn. rewrite IH. by rewrite <- app_assoc.
Qed.

Lemma bind_ext_in {A B} (f g : A -> list B) l : (forall x, x ∈ l -> f x = g x) -> l ≫= f = l ≫= g.
Proof.
  induction l as [|x l IH]; intros H; [done|]. cbn. rewrite H, IH by set_solver. done.
Qed.

(** A partial map that keeps a key keeps the absence of duplicates. *)
Lemma NoDup_omap_key {A B} (f : A -> option B) (g : B -> A) l :
  NoDup l -> (forall x y, f x = Some y -> g y = x) -> NoDup (g <$> omap f l).
Proof.
  intros Hnd Hf. induction Hnd as [|x l Hni Hnd IH]; [constructor|]. cbn.
  destruct (f x) as [y|] eqn:E; [|done]. cbn. apply NoDup_cons. split; [|done].
  rewrite (Hf _ _ E). rewrite list_elem_of_fmap. intros (y' & -> & Hy).
  apply list_elem_of_omap in Hy as (x' & Hx' & E'). apply Hf in E'. congruence.
Qed.

(** ** Results of closed runs *)
Definition is_ret {A} (m : exec A) : bool := match m with Ret _ => true | _ => false end.
Definition get_ret {A} (d : A) (m : exec A) : A := match m with Ret a => a | _ => d end.

Lemma get_ret_eq {A} (d : A) m : is_ret m = true -> m = Ret (get_ret d m).
Proof. by destruct m. Qed.

Lemma is_ret_not_panic {A} (m : exec A) : is_ret m = true -> m <> Panic.
Proof. by destruct m. Qed.
