(* ===== verification/FixedWindow.v ===== *)
(** * Fixed-window counting

    Two limiters of the server, the authentication limiter ([auth/rate_limit.rs]) and the telemetry
    limiter ([telemetry.rs]), count accepted requests in windows of a fixed length that open with
    the first request after the last window has ended.  This file states, on logs of acceptance
    times, what such counting guarantees: with [L] acceptances per window, any interval as long as
    a window holds at most [2 * L] of them, because it meets at most two windows. *)

From stdpp Require Import list.
From Stdlib Require Import ZArith Lia.
From S2P Require Import Prelude.

Open Scope Z_scope.

Section FixedWindow.
(** The length of a window and its quota. *)
Context (W L : Z).

(** Acceptances in the interval of length [W] that starts at [a]. *)
Definition accepted_within (a : Z) (log : list Z) : Z :=
  count_if (fun t => (a <=? t) && (t <? a + W)) log.

(** Acceptances in the interval of length [W] that ends at [u]. *)
Definition recent (u : Z) (log : list Z) : Z := count_if (fun t => u - W <? t) log.

Definition at_most_two_quotas (log : list Z) : Prop := forall a, accepted_within a log <= 2 * L.

(** The log is what earlier windows accepted followed by the [n] acceptances of the window that
    opened at [start]. *)
Definition open_window (start n : Z) (log : list Z) : Prop :=
  exists old cur, log = old ++ cur /\ Z.of_nat (length cur) = n /\
    Forall (fun t => t <= start) old /\ Forall (Z.le start) cur /\
    recent start old <= L /\ at_most_two_quotas old.

(** No window is open from [now] on. *)
Definition closed_window (now : Z) (log : list Z) : Prop :=
  at_most_two_quotas log /\ forall u, now <= u -> recent u log <= L.

(** An interval meets at most two windows: the open one, and what is recent when it opened. *)
Lemma two_quotas_app start old cur :
  at_most_two_quotas old -> recent start old <= L -> Z.of_nat (length cur) <= L ->
  Forall (Z.le start) cur -> at_most_two_quotas (old ++ cur).
Proof.
  intros Hh Hr Hl Hc a. unfold accepted_within. rewrite count_if_app.
  rewrite Forall_forall in Hc. destruct (decide (start - W < a)) as [Ha|Ha].
  - assert (count_if (fun t => (a <=? t) && (t <? a + W)) old <= recent start old).
    { apply count_if_mono. intros t _. bdestr; done || lia. }
    pose proof (count_if_length (fun t => (a <=? t) && (t <? a + W)) cur). lia.
  - rewrite (count_if_none _ cur); [specialize (Hh a); unfold accepted_within in Hh; lia|].
    intros t Ht. specialize (Hc t Ht). bdestr; done || lia.
Qed.

Lemma open_window_quotas start n log : n <= L -> open_window start n log -> at_most_two_quotas log.
Proof. intros HL (old & cur & -> & Hl & Ho & Hc & Hr & Hh). eapply two_quotas_app; eauto. lia. Qed.

Lemma open_window_close start n log now :
  n <= L -> open_window start n log -> start + W <= now -> closed_window now log.
Proof.
  intros HL HW Hnow. split; [by eapply open_window_quotas|].
  destruct HW as (old & cur & -> & Hl & Ho & Hc & Hr & Hh). intros u Hu.
  unfold recent. rewrite count_if_app, (count_if_none _ old).
  - pose proof (count_if_length (fun t => u - W <? t) cur). lia.
  - intros t Ht. rewrite Forall_forall in Ho. specialize (Ho t Ht). cbn in Ho. bdestr; done || lia.
Qed.

(** A request that finds no open window opens one. *)
Lemma closed_window_open log now :
  Forall (fun t => t <= now) log -> closed_window now log -> open_window now 0 log.
Proof.
  intros Hlog [Hh Hr]. exists log, []. cbn. rewrite app_nil_r.
  split_and!; auto. apply Hr. lia.
Qed.

Lemma open_window_accept start n log now :
  open_window start n log -> start <= now -> open_window start (n + 1) (log ++ [now]).
Proof.
  intros (old & cur & -> & Hl & Ho & Hc & Hr & Hh) Hnow.
  exists old, (cur ++ [now]). rewrite <- app_assoc, length_app. cbn.
  split_and!; try done; [lia|]. apply Forall_app. split; [done|]. by constructor.
Qed.

Lemma closed_window_later log now now' :
  closed_window now log -> now <= now' -> closed_window now' log.
Proof. intros [Hh Hr] Hle. split; [done|]. intros. apply Hr. lia. Qed.

Lemma closed_window_new now : 0 <= L -> closed_window now [].
Proof. intros HL. split; [intros a | intros u _]; cbn; lia. Qed.
End FixedWindow.
