(* ===== verification/F32.v ===== *)
(** * IEEE-754 single precision, as the engine uses it

    Rust's [f32] as the standard library's
    [spec_float] at the corresponding precision: every operation is executable and rounds to
    nearest even like the hardware.  NaN payloads are not represented (the engine never looks at
    them).  [sin], [cos] and [atan2] are libm calls whose precision Rust leaves unspecified; they
    are the fields of the class [Libm]. *)

From stdpp Require Import prelude.
From Stdlib Require Import ZArith Lia SpecFloat.
From S2P Require Import Prelude.

Open Scope Z_scope.

Abbreviation f32 := spec_float.

(** ** Arithmetic *)
Definition f_add : f32 -> f32 -> f32 := SFadd 24 128.
Definition f_sub : f32 -> f32 -> f32 := SFsub 24 128.
Definition f_mul : f32 -> f32 -> f32 := SFmul 24 128.
Definition f_div : f32 -> f32 -> f32 := SFdiv 24 128.
Definition f_sqrt : f32 -> f32 := SFsqrt 24 128.
Definition f_neg : f32 -> f32 := SFopp.
Definition f_abs : f32 -> f32 := SFabs.

(** Comparisons; every comparison with a NaN is [false]. *)
Definition f_lt : f32 -> f32 -> bool := SFltb.
Definition f_le : f32 -> f32 -> bool := SFleb.
Definition f_gt (a b : f32) : bool := SFltb b a.
Definition f_ge (a b : f32) : bool := SFleb b a.
Definition f_eq : f32 -> f32 -> bool := SFeqb.

Declare Scope f32_scope.
Delimit Scope f32_scope with f.
Infix "+" := f_add : f32_scope.
Infix "-" := f_sub : f32_scope.
Infix "*" := f_mul : f32_scope.
Infix "/" := f_div : f32_scope.
Infix "<?" := f_lt : f32_scope.
Infix ">?" := f_gt : f32_scope.

(** ** Conversions and literals *)

(** [n as f32], nearest even. *)
Definition f_of_Z (n : Z) : f32 := binary_normalize 24 128 n 0 false.

(** The literal [n / d] ([d] a power of ten small enough to be exact): the division rounds once,
    like the literal's parser. *)
Definition f_lit (n d : Z) : f32 := f_div (f_of_Z n) (f_of_Z d).

Definition f0 : f32 := S754_zero false.
Definition f1 : f32 := f_of_Z 1.

(** [std::f32::consts::PI], [TAU] and [f32::EPSILON]. *)
Definition PI : f32 := S754_finite false 13176795 (-22).
Definition TAU : f32 := S754_finite false 13176795 (-21).
Definition EPSILON : f32 := S754_finite false 8388608 (-46).

Definition is_nan (a : f32) : bool := match a with S754_nan => true | _ => false end.

(** [f32::max]: the other argument when one is NaN. *)
Definition f_max (a b : f32) : f32 :=
  if is_nan a then b else if is_nan b then a else if f_lt a b then b else a.

(** [f32::signum]. *)
Definition f_signum (a : f32) : f32 :=
  match a with
  | S754_nan => S754_nan
  | S754_zero s | S754_infinity s | S754_finite s _ _ => if s then f_neg f1 else f1
  end.

(** The value of a finite float times [2^k], truncated to an integer ([k >= 0]). *)
Definition trunc_shift (m : positive) (e k : Z) : Z :=
  if 0 <=? e + k then Z.pos m * 2 ^ (e + k) else Z.pos m / 2 ^ (- (e + k)).

(** [f32::round]: nearest integer, ties away from zero. *)
Definition f_round (a : f32) : f32 :=
  match a with
  | S754_finite s m e =>
      if 0 <=? e then a else
      let n := (trunc_shift m e 1 + 1) / 2 in
      if n =? 0 then S754_zero s
      else binary_normalize 24 128 (if s then - n else n) 0 s
  | _ => a
  end.

(** [a as u16]: truncates, saturates, NaN becomes 0. *)
Definition f_as_u16 (a : f32) : Z :=
  match a with
  | S754_nan | S754_zero _ | S754_infinity true | S754_finite true _ _ => 0
  | S754_infinity false => umax 16
  | S754_finite false m e => Z.min (trunc_shift m e 0) (umax 16)
  end.

(** The operator [%] on floats: the exact remainder with the sign of the dividend. *)
Definition f_rem (a b : f32) : f32 :=
  match a, b with
  | S754_nan, _ | _, S754_nan | S754_infinity _, _ | _, S754_zero _ => S754_nan
  | S754_zero _, _ => a
  | S754_finite _ _ _, S754_infinity _ => a
  | S754_finite s m e, S754_finite _ m' e' =>
      let k := Z.min e e' in
      let r := Z.rem (Z.pos m * 2 ^ (e - k)) (Z.pos m' * 2 ^ (e' - k)) in
      binary_normalize 24 128 (if s then - r else r) k s
  end.

(** [f32::rem_euclid]. *)
Definition f_rem_euclid (a b : f32) : f32 :=
  let r := f_rem a b in
  if f_lt r f0 then f_add r (f_abs b) else r.

(** [f32::to_radians]: multiplication by the constant [PI / 180.0]. *)
Definition f_to_radians (a : f32) : f32 := f_mul a (f_div PI (f_of_Z 180)).

(** [powi(2)]. *)
Definition f_sq (a : f32) : f32 := f_mul a a.

(** [f32::to_bits]. *)
Definition f_to_bits (a : f32) : Z :=
  match a with
  | S754_zero s => if s then 2 ^ 31 else 0
  | S754_infinity s => (if s then 2 ^ 31 else 0) + 255 * 2 ^ 23
  | S754_nan => 255 * 2 ^ 23 + 2 ^ 22
  | S754_finite s m e =>
      (if s then 2 ^ 31 else 0) +
      (if Z.pos m <? 2 ^ 23 then Z.pos m else (e + 150) * 2 ^ 23 + (Z.pos m - 2 ^ 23))
  end.

(** libm functions of unspecified precision. *)
Class Libm : Type := {
  f_atan2 : f32 -> f32 -> f32;
  f_cos : f32 -> f32;
  f_sin : f32 -> f32;
}.

#[global] Instance f32_eq_dec : EqDecision f32.
Proof. solve_decision. Defined.

(** ** Facts used by the components *)

(** Range of the saturating cast. *)
Lemma f_as_u16_range a : in_u 16 (f_as_u16 a).
Proof.
  unfold f_as_u16, trunc_shift, in_u.
  destruct a as [?|[]| |[] m e]; autorewrite with urange; try lia.
  split; [|lia]. apply Z.min_glb; [|lia].
  destruct (0 <=? e + 0) eqn:?; [nia|].
  apply Z.div_pos; [lia|]. apply Z.pow_pos_nonneg; lia.
Qed.

Lemma f_lt_irrefl a : f_lt a a = false.
Proof.
  unfold f_lt, SFltb, SFcompare. destruct a as [|[]| |[] m e]; try done.
  - rewrite Z.compare_refl. change (Pos.compare_cont Eq m m) with (m ?= m)%positive.
    by rewrite Pos.compare_refl.
  - rewrite Z.compare_refl. change (Pos.compare_cont Eq m m) with (m ?= m)%positive.
    by rewrite Pos.compare_refl.
Qed.

(** Strict comparison of two finite floats of one sign is the lexicographic order of exponent and
    mantissa. *)
Lemma f_lt_finite s1 s2 m1 m2 e1 e2 :
  f_lt (S754_finite s1 m1 e1) (S754_finite s2 m2 e2) = true <->
  match s1, s2 with
  | true, false => True
  | false, true => False
  | false, false => e1 < e2 \/ e1 = e2 /\ (m1 < m2)%positive
  | true, true => e2 < e1 \/ e1 = e2 /\ (m2 < m1)%positive
  end.
Proof.
  unfold f_lt, SFltb, SFcompare.
  change (Pos.compare_cont Eq m1 m2) with (m1 ?= m2)%positive.
  destruct s1, s2; try (split; done);
    (destruct (Z.compare_spec e1 e2); [destruct (Pos.compare_spec m1 m2)|..]; cbn;
     (split; [intros; try discriminate | intros; try done]); lia).
Qed.

Lemma f_lt_trans a b c : f_lt a b = true -> f_lt b c = true -> f_lt a c = true.
Proof.
  destruct a as [s1|s1| |s1 m1 e1], b as [s2|s2| |s2 m2 e2], c as [s3|s3| |s3 m3 e3];
    rewrite ?f_lt_finite; try done;
    try (destruct s1; done); try (destruct s2; done); try (destruct s3; done);
    try (destruct s1, s2; done); try (destruct s2, s3; done); try (destruct s1, s3; done);
    try (destruct s1, s2, s3; done).
  destruct s1, s2, s3; try done; lia.
Qed.

(** Known bit patterns: the literals the engine compares against. *)
Example f_lit_tenth : f_to_bits (f_lit 1 10) = 0x3DCCCCCD.
Proof. reflexivity. Qed.
Example f_lit_thousandth : f_to_bits (f_lit 1 1000) = 0x3A83126F.
Proof. reflexivity. Qed.
Example PI_bits : f_to_bits PI = 0x40490FDB.
Proof. reflexivity. Qed.
Example EPSILON_bits : f_to_bits EPSILON = 0x34000000.
Proof. reflexivity. Qed.
Example rem_euclid_ex : f_rem_euclid (f_of_Z (-130)) (f_of_Z 500) = f_of_Z 370.
Proof. reflexivity. Qed.
Example round_ex : (f_round (f_lit 25 10), f_round (f_lit 24 10), f_round (f_lit 5 10)) =
  (f_of_Z 3, f_of_Z 2, f_of_Z 1).
Proof. reflexivity. Qed.
