(* ===== verification/Text.v ===== *)
(** * Rust strings, character by character

    The telemetry endpoint and the binary look inside strings: at the encoded length of a
    character, at control characters and white space, at separators.  Here a [&str] is the list of
    its characters, a [char] is its code point, and the methods of the standard library that those
    sources call are written out, with the parsers of [IpAddr] and [SocketAddr] in
    [core::net::parser]. *)

From stdpp Require Import strings countable sets list.
From Stdlib Require Import ZArith Lia Ascii.
From S2P Require Import Prelude.

Open Scope Z_scope.

Abbreviation char := Z.
Abbreviation str := (list Z).

(** A literal of ASCII characters. *)
Definition lit (s : string) : str :=
  (fun a => Z.of_N (N_of_ascii a)) <$> String.list_ascii_of_string s.

(** [char::len_utf8]. *)
Definition len_utf8 (c : char) : Z :=
  if c <? 0x80 then 1 else if c <? 0x800 then 2 else if c <? 0x10000 then 3 else 4.

(** [str::len]: the length in bytes. *)
Definition str_len (s : str) : Z := sum_over len_utf8 s.
Arguments str_len : simpl never.

(** [char::is_control]: the general category Cc. *)
Definition is_control (c : char) : bool := (c <=? 0x1F) || ((0x7F <=? c) && (c <=? 0x9F)).

(** [char::is_whitespace]: the property [White_Space]. *)
Definition is_whitespace (c : char) : bool :=
  ((9 <=? c) && (c <=? 13)) || (c =? 32) || (c =? 0x85) || (c =? 0xA0) || (c =? 0x1680) ||
  ((0x2000 <=? c) && (c <=? 0x200A)) || (c =? 0x2028) || (c =? 0x2029) || (c =? 0x202F) ||
  (c =? 0x205F) || (c =? 0x3000).

(** [str::char_indices]: each character with its byte offset. *)
Fixpoint char_indices_from (i : Z) (s : str) : list (Z * char) :=
  match s with
  | [] => []
  | c :: s => (i, c) :: char_indices_from (i + len_utf8 c) s
  end.
Definition char_indices (s : str) : list (Z * char) := char_indices_from 0 s.

(** [Iterator::take_while]. *)
Fixpoint take_while {A} (f : A -> bool) (l : list A) : list A :=
  match l with
  | [] => []
  | a :: l => if f a then a :: take_while f l else []
  end.

(** [s[..n]]: panics unless [n] is a character boundary of the string. *)
Fixpoint slice_to (n : Z) (s : str) : exec str :=
  if n =? 0 then Ret [] else
  match s with
  | [] => Panic
  | c :: s => if len_utf8 c <=? n then r ← slice_to (n - len_utf8 c) s; Ret (c :: r) else Panic
  end.

(** ** Trimming *)
Fixpoint skip_while {A} (f : A -> bool) (l : list A) : list A :=
  match l with
  | [] => []
  | a :: l' => if f a then skip_while f l' else l
  end.
Definition trim_start_by (f : char -> bool) (s : str) : str := skip_while f s.
Definition trim_end_by (f : char -> bool) (s : str) : str := rev (skip_while f (rev s)).

(** [str::trim]. *)
Definition trim (s : str) : str := trim_end_by is_whitespace (trim_start_by is_whitespace s).

(** [str::trim_matches] with a character. *)
Definition trim_matches (c : char) (s : str) : str :=
  trim_end_by (Z.eqb c) (trim_start_by (Z.eqb c) s).

(** [str::strip_prefix] with a string. *)
Fixpoint strip_prefix (p s : str) : option str :=
  match p, s with
  | [], _ => Some s
  | a :: p, b :: s => if a =? b then strip_prefix p s else None
  | _ :: _, [] => None
  end.

(** [str::trim_end_matches] with a string of one or more characters: strips it as often as it
    occurs at the end. *)
Fixpoint trim_prefix_rep (fuel : nat) (p s : str) : str :=
  match fuel with
  | O => s
  | S fuel => match strip_prefix p s with Some r => trim_prefix_rep fuel p r | None => s end
  end.
Definition trim_end_matches (p s : str) : str := rev (trim_prefix_rep (length s) (rev p) (rev s)).

(** ** Splitting *)

(** [str::split] with a character: always at least one part. *)
Fixpoint split (sep : char) (s : str) : list str :=
  match s with
  | [] => [[]]
  | c :: s =>
      if c =? sep then [] :: split sep s
      else match split sep s with
           | part :: parts => (c :: part) :: parts
           | [] => [[c]]
           end
  end.

(** [str::split_once] with a character. *)
Fixpoint split_once (sep : char) (s : str) : option (str * str) :=
  match s with
  | [] => None
  | c :: s =>
      if c =? sep then Some ([], s)
      else '(a, b) ← split_once sep s; Some (c :: a, b)
  end.

(** [str::split_whitespace]: the non-empty parts between white space. *)
Fixpoint split_ws_parts (s : str) : list str :=
  match s with
  | [] => [[]]
  | c :: s =>
      if is_whitespace c then [] :: split_ws_parts s
      else match split_ws_parts s with
           | part :: parts => (c :: part) :: parts
           | [] => [[c]]
           end
  end.
Definition split_whitespace (s : str) : list str :=
  filter (fun p => p <> []) (split_ws_parts s).

(** ** Addresses ([core::net::parser]) *)
Inductive IpAddr := V4 (a b c d : Z) | V6 (groups : list Z).

#[global] Instance IpAddr_eq : EqDecision IpAddr.
Proof. solve_decision. Defined.
#[global] Instance IpAddr_countable : Countable IpAddr.
Proof.
  by apply (inj_countable'
    (fun ip => match ip with V4 a b c d => inl (a, b, c, d) | V6 gs => inr gs end)
    (fun x => match x with inl (a, b, c, d) => V4 a b c d | inr gs => V6 gs end)); intros [].
Defined.

Record SocketAddr := mkSocketAddr { sa_ip : IpAddr; sa_port : Z }.

(** A parser reads from the front and leaves the rest; a failing parser consumes nothing
    ([read_atomically]). *)
Definition parser (A : Type) : Type := str -> option (A * str).

(** [char::to_digit]. *)
Definition to_digit (radix : Z) (c : char) : option Z :=
  let d := if (48 <=? c) && (c <=? 57) then Some (c - 48)
           else if (97 <=? c) && (c <=? 122) then Some (c - 87)
           else if (65 <=? c) && (c <=? 90) then Some (c - 55) else None in
  d ← d; if d <? radix then Some d else None.

(** The digits at the front: their number, their value, the rest. *)
Fixpoint read_digits (radix : Z) (n acc : Z) (s : str) : Z * Z * str :=
  match s with
  | c :: s' =>
      match to_digit radix c with
      | Some d => read_digits radix (n + 1) (acc * radix + d) s'
      | None => (n, acc, s)
      end
  | [] => (n, acc, [])
  end.

(** [read_number] for an integer type of [w] bits; [max_digits] is [None] for ports. *)
Definition read_number (w radix : Z) (max_digits : option Z) (allow_zero_prefix : bool) :
    parser Z := fun s =>
  let '(n, v, r) := read_digits radix 0 0 s in
  let has_leading_zero := match s with c :: _ => c =? 48 | [] => false end in
  if match max_digits with Some m => m <? n | None => false end then None
  else if n =? 0 then None
  else if negb allow_zero_prefix && has_leading_zero && (1 <? n) then None
  else if v <=? umax w then Some (v, r) else None.

(** [read_given_char]. *)
Definition read_given_char (c : char) : parser unit := fun s =>
  match s with x :: s => if x =? c then Some ((), s) else None | [] => None end.

(** [read_separator]: the separator is read before every element but the first. *)
Definition read_separator {A} (sep : char) (index : nat) (inner : parser A) : parser A := fun s =>
  match index with
  | O => inner s
  | S _ => '(_, s) ← read_given_char sep s; inner s
  end.

Definition read_octet (i : nat) : parser Z :=
  read_separator 46 i (read_number 8 10 (Some 3) false).

(** [read_ipv4_addr]. *)
Definition read_ipv4 : parser (Z * Z * Z * Z) := fun s =>
  '(a, s) ← read_octet 0 s; '(b, s) ← read_octet 1 s;
  '(c, s) ← read_octet 2 s; '(d, s) ← read_octet 3 s; Some ((a, b, c, d), s).

(** [read_groups]: at most [limit] groups from index [i] on, the last two possibly as an embedded
    IPv4 address. *)
Fixpoint read_groups (limit i : nat) (s : str) : list Z * bool * str :=
  match limit with
  | O => ([], false, s)
  | S limit =>
      match match limit with O => None | S _ => read_separator 58 i read_ipv4 s end with
      | Some ((a, b, c, d), s) => ([a * 256 + b; c * 256 + d], true, s)
      | None =>
          match read_separator 58 i (read_number 16 16 (Some 4) true) s with
          | Some (g, s) => let '(gs, v4, r) := read_groups limit (S i) s in (g :: gs, v4, r)
          | None => ([], false, s)
          end
      end
  end.

(** [read_ipv6_addr]. *)
Definition read_ipv6 : parser (list Z) := fun s =>
  let '(head, head_ipv4, s) := read_groups 8 0 s in
  if (length head =? 8)%nat then Some (head, s)
  else if head_ipv4 then None
  else
    '(_, s) ← read_given_char 58 s;
    '(_, s) ← read_given_char 58 s;
    let '(tail, _, s) := read_groups (8 - (length head + 1)) 0 s in
    Some (head ++ repeat 0 (8 - length head - length tail) ++ tail, s).

(** [read_ip_addr]. *)
Definition read_ip : parser IpAddr := fun s =>
  match read_ipv4 s with
  | Some ((a, b, c, d), r) => Some (V4 a b c d, r)
  | None => '(gs, r) ← read_ipv6 s; Some (V6 gs, r)
  end.

(** [parse_with]: the whole input must be read. *)
Definition parse_all {A} (p : parser A) (s : str) : option A :=
  match p s with Some (a, []) => Some a | _ => None end.

(** [str::parse::<IpAddr>]. *)
Definition parse_ip : str -> option IpAddr := parse_all read_ip.

Definition read_port : parser Z := fun s =>
  '(_, s) ← read_given_char 58 s; read_number 16 10 None true s.

(** [read_scope_id], [unwrap_or(0)]. *)
Definition skip_scope (s : str) : str :=
  match read_given_char 37 s ≫= fun '(_, s) => read_number 32 10 None true s with
  | Some (_, r) => r
  | None => s
  end.

(** [str::parse::<SocketAddr>]; the scope of an IPv6 address is dropped. *)
Definition read_socket_addr : parser SocketAddr := fun s =>
  match ('(ip, r) ← read_ipv4 s; '(p, r) ← read_port r; Some (ip, p, r)) with
  | Some ((a, b, c, d), p, r) => Some (mkSocketAddr (V4 a b c d) p, r)
  | None =>
      '(_, s) ← read_given_char 91 s; '(gs, s) ← read_ipv6 s;
      '(_, s) ← read_given_char 93 (skip_scope s); '(p, s) ← read_port s;
      Some (mkSocketAddr (V6 gs) p, s)
  end.
Definition parse_socket_addr : str -> option SocketAddr := parse_all read_socket_addr.

(** ** Facts *)
Lemma len_utf8_pos c : 1 <= len_utf8 c <= 4.
Proof. unfold len_utf8. bdestr; lia. Qed.

Lemma str_len_cons c s : str_len (c :: s) = len_utf8 c + str_len s.
Proof. done. Qed.

Lemma str_len_nonneg s : 0 <= str_len s.
Proof. apply sum_over_nonneg. intros c _. pose proof (len_utf8_pos c). lia. Qed.

Lemma str_len_nil s : str_len s = 0 -> s = [].
Proof.
  destruct s as [|c s]; [done|]. rewrite str_len_cons.
  pose proof (len_utf8_pos c). pose proof (str_len_nonneg s). lia.
Qed.

(** The longest prefix of at most [n] bytes. *)
Fixpoint fit (n : Z) (s : str) : str :=
  match s with
  | [] => []
  | c :: s => if len_utf8 c <=? n then c :: fit (n - len_utf8 c) s else []
  end.

Lemma fit_all n s : str_len s <= n -> fit n s = s.
Proof.
  revert n. induction s as [|c s IH]; intros n Hn; [done|]. rewrite str_len_cons in Hn. cbn.
  pose proof (str_len_nonneg s). destruct (Z.leb_spec (len_utf8 c) n); [|lia]. by rewrite IH by lia.
Qed.

(** The end of the longest prefix is a character boundary. *)
Lemma slice_to_fit n s : slice_to (str_len (fit n s)) s = Ret (fit n s).
Proof.
  revert n. induction s as [|c s IH]; intros n; cbn [fit]; [done|].
  destruct (Z.leb_spec (len_utf8 c) n); [|done].
  rewrite str_len_cons. pose proof (len_utf8_pos c). pose proof (str_len_nonneg (fit (n - len_utf8 c) s)).
  cbn [slice_to]. destruct (Z.eqb_spec (len_utf8 c + str_len (fit (n - len_utf8 c) s)) 0); [lia|].
  destruct (Z.leb_spec (len_utf8 c) (len_utf8 c + str_len (fit (n - len_utf8 c) s))); [|lia].
  rewrite Z.add_simpl_l, IH. done.
Qed.

(** The last character that ends within [max] bytes ends the longest prefix. *)
Lemma last_within max i s :
  match last (take_while (fun '(i, c) => i + len_utf8 c <=? max) (char_indices_from i s)) with
  | None => fit (max - i) s = []
  | Some (j, c) => j + len_utf8 c = i + str_len (fit (max - i) s)
  end.
Proof.
  revert i. induction s as [|c s IH]; intros i; cbn; [done|].
  destruct (Z.leb_spec (i + len_utf8 c) max); destruct (Z.leb_spec (len_utf8 c) (max - i)); try lia; [|done].
  specialize (IH (i + len_utf8 c)). rewrite Z.sub_add_distr in IH.
  destruct (take_while _ _) as [|p l]; cbn in *.
  - rewrite IH, str_len_cons. change (str_len []) with 0. lia.
  - rewrite str_len_cons. destruct (last (p :: l)) as [[j d]|] eqn:E; [lia|].
    apply last_None in E. done.
Qed.

Lemma fit_prefix n s :
  exists rest, s = fit n s ++ rest /\ (0 <= n -> str_len (fit n s) <= n) /\
    forall c rest', rest = c :: rest' -> n < str_len (fit n s) + len_utf8 c.
Proof.
  revert n. induction s as [|c s IH]; intros n; cbn [fit].
  - exists []. split_and!; [done | done | done].
  - destruct (Z.leb_spec (len_utf8 c) n).
    + destruct (IH (n - len_utf8 c)) as (rest & E & Hlen & Hmax). exists rest. rewrite str_len_cons.
      split_and!; [cbn; by f_equal | lia |]. intros c' rest' Hr. specialize (Hmax _ _ Hr). lia.
    + exists (c :: s). split_and!; [done | done |]. intros c' rest' [= <- <-].
      change (str_len []) with 0. lia.
Qed.

(** The parts of a split string do not contain the separator. *)
Lemma split_no_sep sep s part : part ∈ split sep s -> sep ∉ part.
Proof.
  revert part. induction s as [|c s IH]; intros part; cbn.
  - intros ->%list_elem_of_singleton. apply not_elem_of_nil.
  - destruct (Z.eqb_spec c sep) as [->|Hne].
    + intros [->|Hin]%elem_of_cons; [apply not_elem_of_nil | by apply IH].
    + destruct (split sep s) as [|p ps].
      * intros ->%list_elem_of_singleton. set_solver.
      * intros [->|Hin]%elem_of_cons; [|apply IH; set_solver].
        intros [->|Hin]%elem_of_cons; [done|]. revert Hin. apply IH. set_solver.
Qed.

Lemma split_no_occurrence sep s : sep ∉ s -> split sep s = [s].
Proof.
  induction s as [|c s IH]; intros Hs; cbn; [done|].
  destruct (Z.eqb_spec c sep) as [->|Hne]; [set_solver|]. rewrite IH by set_solver. done.
Qed.

(** *** Addresses *)
Lemma read_given_char_Some c s u r : read_given_char c s = Some (u, r) -> s = c :: r.
Proof. destruct s as [|x s]; cbn; [done|]. destruct (Z.eqb_spec x c) as [->|]; [|done]. by intros [= _ <-]. Qed.

Lemma read_given_char_None c s : c ∉ s -> read_given_char c s = None.
Proof. destruct s as [|x s]; cbn; [done|]. destruct (Z.eqb_spec x c) as [->|]; [set_solver | done]. Qed.

(** Digits are read from the front. *)
Lemma read_digits_suffix radix n acc s : exists d, s = d ++ (read_digits radix n acc s).2.
Proof.
  revert n acc. induction s as [|c s IH]; intros n acc; cbn; [by exists []|].
  destruct (to_digit radix c); [|by exists []].
  destruct (IH (n + 1) (acc * radix + z)) as [d Hd]. exists (c :: d). cbn. by rewrite <- Hd.
Qed.

Lemma read_number_suffix w radix m z s v r :
  read_number w radix m z s = Some (v, r) -> exists d, s = d ++ r.
Proof.
  unfold read_number. destruct (read_digits_suffix radix 0 0 s) as [d Hd].
  destruct (read_digits radix 0 0 s) as [[n x] r']. cbn in Hd.
  repeat case_match; try done; intros [= <- <-]; eauto.
Qed.

(** A second group needs the separator. *)
Lemma read_groups_no_colon limit i s :
  58 ∉ s -> read_groups limit (S i) s = ([], false, s).
Proof.
  intros Hs. destruct limit as [|limit]; [done|]. cbn. rewrite read_given_char_None by done. cbn.
  by destruct limit.
Qed.

Lemma read_groups_first limit s :
  read_groups (S (S limit)) 0 s =
  match read_ipv4 s with
  | Some ((a, b, c, d), s) => ([a * 256 + b; c * 256 + d], true, s)
  | None =>
      match read_number 16 16 (Some 4) true s with
      | Some (g, s) => let '(gs, v4, r) := read_groups (S limit) 1 s in (g :: gs, v4, r)
      | None => ([], false, s)
      end
  end.
Proof. done. Qed.

(** An IPv6 address is written with a colon. *)
Lemma read_ipv6_colon s gs r : read_ipv6 s = Some (gs, r) -> 58 ∈ s.
Proof.
  intros H. destruct (decide (58 ∈ s)) as [|Hs]; [done|]. exfalso. revert H. unfold read_ipv6.
  destruct (read_groups 8 0 s) as [[head v4] s'] eqn:E. rewrite read_groups_first in E.
  destruct (read_ipv4 s) as [[[[[a b] c] d] s1]|].
  - injection E as <- <- <-. done.
  - destruct (read_number 16 16 (Some 4) true s) as [[g s1]|] eqn:En.
    + apply read_number_suffix in En as [d Hd].
      assert (58 ∉ s1) as Hs1 by (rewrite Hd in Hs; set_solver).
      rewrite read_groups_no_colon in E by done.
      injection E as <- <- <-. cbn. by rewrite (read_given_char_None 58 s1).
    + injection E as <- <- <-. cbn. by rewrite (read_given_char_None 58 s).
Qed.

Lemma parse_ip_v6_colon s gs : parse_ip s = Some (V6 gs) -> 58 ∈ s.
Proof.
  unfold parse_ip, parse_all, read_ip.
  destruct (read_ipv4 s) as [[[[[a b] c] d] r]|]; [by destruct r|].
  destruct (read_ipv6 s) as [[gs' r]|] eqn:E; cbn; [|done]. destruct r; [|done].
  intros _. by eapply read_ipv6_colon.
Qed.

(** [Display] of an octet and of an IPv4 address. *)
Definition show_octet (n : Z) : str :=
  if n <? 10 then [48 + n]
  else if n <? 100 then [48 + n / 10; 48 + n mod 10]
  else [48 + n / 100; 48 + (n / 10) mod 10; 48 + n mod 10].
Definition show_v4 (a b c d : Z) : str :=
  show_octet a ++ 46 :: show_octet b ++ 46 :: show_octet c ++ 46 :: show_octet d.

Lemma to_digit_digit n : 0 <= n < 10 -> to_digit 10 (48 + n) = Some n.
Proof.
  intros H. unfold to_digit. destruct (Z.leb_spec 48 (48 + n)); [|lia].
  destruct (Z.leb_spec (48 + n) 57); [|lia]. cbn. rewrite Z.add_simpl_l.
  by destruct (Z.ltb_spec n 10); [|lia].
Qed.

(** What follows a number that is read back: nothing, or a character that is no digit. *)
Definition no_digit (s : str) : Prop := match s with c :: _ => to_digit 10 c = None | [] => True end.

Lemma read_digits_stop n acc s : no_digit s -> read_digits 10 n acc s = (n, acc, s).
Proof. destruct s as [|c s]; cbn; [done|]. by intros ->. Qed.

Lemma read_octet_show n s :
  0 <= n <= 255 -> no_digit s -> read_number 8 10 (Some 3) false (show_octet n ++ s) = Some (n, s).
Proof.
  intros Hn Hs. unfold read_number, show_octet.
  assert (umax 8 = 255) as Hu by done. rewrite Hu.
  assert (n mod 10 = n - 10 * (n / 10)) as Hm by (rewrite Z.mod_eq; lia).
  assert (0 <= n mod 10 < 10) by (apply Z.mod_pos_bound; lia).
  destruct (Z.ltb_spec n 10); [|destruct (Z.ltb_spec n 100)]; cbn [app read_digits].
  - rewrite to_digit_digit, read_digits_stop by (done || lia). cbn.
    rewrite andb_false_r. cbn. by rewrite (proj2 (Z.leb_le _ _)) by lia.
  - assert (1 <= n / 10 < 10) by (split; [apply Z.div_le_lower_bound | apply Z.div_lt_upper_bound]; lia).
    rewrite !to_digit_digit, read_digits_stop by (done || lia). cbn.
    rewrite (proj2 (Z.eqb_neq (48 + n / 10) 48)) by lia. cbn.
    replace ((0 * 10 + n / 10) * 10 + n mod 10) with n by lia. by rewrite (proj2 (Z.leb_le _ _)) by lia.
  - assert (1 <= n / 100 < 10) by (split; [apply Z.div_le_lower_bound | apply Z.div_lt_upper_bound]; lia).
    assert (0 <= (n / 10) mod 10 < 10) by (apply Z.mod_pos_bound; lia).
    assert ((n / 10) mod 10 = n / 10 - 10 * (n / 100)) as Hm2.
    { rewrite Z.mod_eq by lia. rewrite Z.div_div by lia. done. }
    rewrite !to_digit_digit, read_digits_stop by (done || lia). cbn.
    rewrite (proj2 (Z.eqb_neq (48 + n / 100) 48)) by lia. cbn.
    replace (((0 * 10 + n / 100) * 10 + (n / 10) mod 10) * 10 + n mod 10) with n by lia.
    by rewrite (proj2 (Z.leb_le _ _)) by lia.
Qed.

(** An IPv4 address is read back from its text. *)
Lemma parse_ip_show_v4 a b c d :
  0 <= a <= 255 -> 0 <= b <= 255 -> 0 <= c <= 255 -> 0 <= d <= 255 ->
  parse_ip (show_v4 a b c d) = Some (V4 a b c d).
Proof.
  intros. assert (read_ipv4 (show_v4 a b c d) = Some ((a, b, c, d), [])) as E.
  { unfold read_ipv4, show_v4, read_octet. cbn [read_separator].
    rewrite read_octet_show by done. cbn. rewrite read_octet_show by done. cbn.
    rewrite read_octet_show by done. cbn. rewrite <- (app_nil_r (show_octet d)).
    by rewrite read_octet_show by done. }
  unfold parse_ip, parse_all, read_ip. by rewrite E.
Qed.

(** ** UTF-8 *)

(** A continuation byte's six bits. *)
Definition cont_bits (b : Z) : option Z := if (0x80 <=? b) && (b <=? 0xBF) then Some (b - 0x80) else None.

(** One character from the front of a byte string: no overlong forms, no surrogates, nothing
    above U+10FFFF. *)
Definition decode_char (bs : list Z) : option (char * list Z) :=
  match bs with
  | [] => None
  | b0 :: bs =>
      if b0 <? 0x80 then Some (b0, bs)
      else if (0xC2 <=? b0) && (b0 <=? 0xDF) then
        match bs with
        | b1 :: bs => c1 ← cont_bits b1; Some ((b0 - 0xC0) * 64 + c1, bs)
        | _ => None
        end
      else if (0xE0 <=? b0) && (b0 <=? 0xEF) then
        match bs with
        | b1 :: b2 :: bs =>
            c1 ← cont_bits b1; c2 ← cont_bits b2;
            let c := (b0 - 0xE0) * 4096 + c1 * 64 + c2 in
            if (0x800 <=? c) && negb ((0xD800 <=? c) && (c <=? 0xDFFF)) then Some (c, bs) else None
        | _ => None
        end
      else if (0xF0 <=? b0) && (b0 <=? 0xF4) then
        match bs with
        | b1 :: b2 :: b3 :: bs =>
            c1 ← cont_bits b1; c2 ← cont_bits b2; c3 ← cont_bits b3;
            let c := (b0 - 0xF0) * 262144 + c1 * 4096 + c2 * 64 + c3 in
            if (0x10000 <=? c) && (c <=? 0x10FFFF) then Some (c, bs) else None
        | _ => None
        end
      else None
  end.

Fixpoint decode_utf8_fuel (fuel : nat) (bs : list Z) : option str :=
  match bs with
  | [] => Some []
  | _ =>
      match fuel with
      | O => None
      | S fuel => '(c, bs) ← decode_char bs; s ← decode_utf8_fuel fuel bs; Some (c :: s)
      end
  end.

(** [String::from_utf8]: each character takes at least one byte. *)
Definition decode_utf8 (bs : list Z) : option str := decode_utf8_fuel (length bs) bs.

Example decode_euro : decode_utf8 [0x61; 0xE2; 0x82; 0xAC] = Some [0x61; 0x20AC].
Proof. reflexivity. Qed.
Example decode_bad : decode_utf8 <$> [[0xC0; 0x80]; [0xED; 0xA0; 0x80]; [0xE2; 0x82]; [0x80]] =
  [None; None; None; None].
Proof. reflexivity. Qed.

(** A [char] is a Unicode scalar value. *)
Definition is_scalar (c : char) : bool :=
  (0 <=? c) && (c <=? 0x10FFFF) && negb ((0xD800 <=? c) && (c <=? 0xDFFF)).

(** [str::as_bytes]: the UTF-8 form of a string. *)
Definition encode_char (c : char) : list Z :=
  if c <? 0x80 then [c]
  else if c <? 0x800 then [0xC0 + c / 64; 0x80 + c mod 64]
  else if c <? 0x10000 then [0xE0 + c / 4096; 0x80 + (c / 64) mod 64; 0x80 + c mod 64]
  else [0xF0 + c / 262144; 0x80 + (c / 4096) mod 64; 0x80 + (c / 64) mod 64; 0x80 + c mod 64].
Definition encode_utf8 (s : str) : list Z := s ≫= encode_char.

Lemma cont_bits_cont x : 0 <= x < 64 -> cont_bits (0x80 + x) = Some x.
Proof.
  intros H. unfold cont_bits. rewrite (proj2 (Z.leb_le _ _)), (proj2 (Z.leb_le _ _)) by lia.
  cbn. f_equal. lia.
Qed.

Lemma decode_encode_char c bs : is_scalar c = true -> decode_char (encode_char c ++ bs) = Some (c, bs).
Proof.
  unfold is_scalar, encode_char. intros Hs.
  assert (0 <= c mod 64 < 64 /\ 0 <= (c / 64) mod 64 < 64 /\ 0 <= (c / 4096) mod 64 < 64) as (? & ? & ?)
    by (repeat split; apply Z.mod_pos_bound; lia).
  assert (E1 : c = c / 64 * 64 + c mod 64) by (rewrite (Z.div_mod c 64) at 1; lia).
  assert (E2 : c / 64 = c / 4096 * 64 + (c / 64) mod 64).
  { change 4096 with (64 * 64). rewrite <- Z.div_div by lia. pose proof (Z.div_mod (c / 64) 64). lia. }
  assert (E3 : c / 4096 = c / 262144 * 64 + (c / 4096) mod 64).
  { change 262144 with (4096 * 64). rewrite <- Z.div_div by lia. pose proof (Z.div_mod (c / 4096) 64). lia. }
  set (a := c mod 64) in *. set (b := (c / 64) mod 64) in *. set (d := (c / 4096) mod 64) in *.
  set (x := c / 64) in *. set (y := c / 4096) in *. set (z := c / 262144) in *. clearbody a b d x y z.
  assert (Hr : 0 <= c <= 0x10FFFF /\ ~ (0xD800 <= c <= 0xDFFF)) by
    (rewrite !andb_true_iff, negb_true_iff, andb_false_iff, !Z.leb_le, !Z.leb_gt in Hs; lia).
  clear Hs. bdestr; cbn [app decode_char].
  - rewrite (proj2 (Z.ltb_lt _ _)) by lia. done.
  - rewrite (proj2 (Z.ltb_ge _ _)), !(proj2 (Z.leb_le _ _)) by lia. cbn [andb].
    rewrite cont_bits_cont by lia. cbn. do 2 f_equal. lia.
  - rewrite (proj2 (Z.ltb_ge _ _)), (proj2 (Z.leb_gt (0xE0 + y) 0xDF)), andb_false_r by lia.
    rewrite !(proj2 (Z.leb_le _ _)) by lia. cbn [andb]. rewrite !cont_bits_cont by lia. cbn [mbind option_bind].
    replace ((224 + y - 224) * 4096 + b * 64 + a) with c by lia.
    rewrite (proj2 (Z.leb_le _ _)) by lia. cbn.
    replace ((55296 <=? c) && (c <=? 57343)) with false by (symmetry; bdestr; cbn; lia). done.
  - rewrite (proj2 (Z.ltb_ge _ _)), (proj2 (Z.leb_gt (0xF0 + z) 0xDF)), (proj2 (Z.leb_gt (0xF0 + z) 0xEF)), !andb_false_r by lia.
    rewrite !(proj2 (Z.leb_le _ _)) by lia. cbn [andb]. rewrite !cont_bits_cont by lia. cbn [mbind option_bind].
    replace ((240 + z - 240) * 262144 + d * 4096 + b * 64 + a) with c by lia.
    by rewrite !(proj2 (Z.leb_le _ _)) by lia.
Qed.

Lemma encode_char_length c : (1 <= length (encode_char c))%nat.
Proof. unfold encode_char. bdestr; cbn; lia. Qed.

(** What is encoded is decoded again, whatever fuel beyond the length is given. *)
Lemma decode_encode_utf8 s : Forall (fun c => is_scalar c = true) s -> decode_utf8 (encode_utf8 s) = Some s.
Proof.
  intros H. unfold decode_utf8. cut (forall n, (length (encode_utf8 s) <= n)%nat ->
    decode_utf8_fuel n (encode_utf8 s) = Some s); [auto|].
  induction H as [|c s Hc Hs IH]; intros n Hn; [by destruct n|].
  unfold encode_utf8 in *. cbn [mbind list_bind] in *. fold (mbind encode_char s) in *.
  rewrite length_app in Hn. pose proof (encode_char_length c). destruct n as [|n]; [lia|].
  cbn [decode_utf8_fuel]. rewrite (decode_encode_char c) by done. cbn.
  destruct (encode_char c ++ _) eqn:E; [apply (f_equal length) in E; rewrite length_app in E; cbn in E; lia|].
  rewrite IH by lia. done.
Qed.
