(* ===== verification/F64.v ===== *)
(** * IEEE-754 double precision and decimal numbers

    Rust's [f64] as the standard library's [spec_float] with 53 bits of precision: the arithmetic
    of the connection limiter and of the load generator, and [str::parse::<f64>], which the
    telemetry endpoint applies to text from clients.  Parsing rounds the exact decimal value once,
    to nearest even, as the standard library documents. *)

From stdpp Require Import prelude list strings.
From Stdlib Require Import ZArith Lia SpecFloat.
From S2P Require Import Prelude Text.

Open Scope Z_scope.

Abbreviation f64 := spec_float.

(** ** Arithmetic and comparisons *)
Definition d_add : f64 -> f64 -> f64 := SFadd 53 1024.
Definition d_sub : f64 -> f64 -> f64 := SFsub 53 1024.
Definition d_mul : f64 -> f64 -> f64 := SFmul 53 1024.
Definition d_div : f64 -> f64 -> f64 := SFdiv 53 1024.
Definition d_lt : f64 -> f64 -> bool := SFltb.
Definition d_le : f64 -> f64 -> bool := SFleb.

Declare Scope f64_scope.
Delimit Scope f64_scope with d.
Infix "+" := d_add : f64_scope.
Infix "-" := d_sub : f64_scope.
Infix "*" := d_mul : f64_scope.
Infix "/" := d_div : f64_scope.
Infix "<=?" := d_le : f64_scope.

(** [n as f64] and [f64::from(n)], nearest even. *)
Definition d_of_Z (n : Z) : f64 := binary_normalize 53 1024 n 0 false.
Definition d0 : f64 := S754_zero false.
Definition d1 : f64 := d_of_Z 1.

Definition d_is_nan (a : f64) : bool := match a with S754_nan => true | _ => false end.
(** [f64::is_finite]. *)
Definition d_is_finite (a : f64) : bool :=
  match a with S754_zero _ | S754_finite _ _ _ => true | _ => false end.

(** [f64::min]: the other argument when one is NaN. *)
Definition d_min (a b : f64) : f64 :=
  if d_is_nan a then b else if d_is_nan b then a else if d_lt b a then b else a.

(** [a as u64] and [a as usize]: truncates, saturates, NaN becomes 0. *)
Definition d_as_u64 (a : f64) : Z :=
  match a with
  | S754_nan | S754_zero _ | S754_infinity true | S754_finite true _ _ => 0
  | S754_infinity false => umax 64
  | S754_finite false m e =>
      Z.min (if 0 <=? e then Z.pos m * 2 ^ e else Z.pos m / 2 ^ (- e)) (umax 64)
  end.

(** [Duration::as_secs_f64] of a duration in nanoseconds. *)
Definition as_secs_f64 (ns : Z) : f64 :=
  (d_of_Z (ns / 1000000000) + d_of_Z (ns mod 1000000000) / d_of_Z 1000000000)%d.

(** ** Decimal numbers *)

(** [m / 10^k], rounded once. *)
Definition d_quotient (s : bool) (m : positive) (k : Z) : f64 :=
  let '(mz, ez, lz) := SFdiv_core_binary 53 1024 (Z.pos m) 0 (10 ^ k) 0 in
  binary_round_aux 53 1024 s mz ez lz.

(** The number [m * 10^e] with a sign. *)
Definition d_decimal (s : bool) (m e : Z) : f64 :=
  match m with
  | Z.pos p =>
      if 0 <=? e then binary_normalize 53 1024 (if s then - (m * 10 ^ e) else m * 10 ^ e) 0 s
      else d_quotient s p (- e)
  | _ => S754_zero s
  end.

(** The literal [n / d] for a power of ten [d]. *)
Definition d_lit (n : Z) (k : Z) : f64 := d_decimal false n (- k).

(** The exponent: [e] or [E], a sign, at least one digit; nothing else may follow the number. *)
Definition parse_exponent (s : str) : option Z :=
  match s with
  | [] => Some 0
  | c :: s =>
      if (c =? 101) || (c =? 69) then
        let '(neg, s) := match s with
                         | c :: s' => if c =? 45 then (true, s') else if c =? 43 then (false, s')
                                      else (false, s)
                         | [] => (false, [])
                         end in
        let '(n, v, r) := read_digits 10 0 0 s in
        if (n =? 0) || negb (bool_decide (r = [])) then None else Some (if neg then - v else v)
      else None
  end.

(** [parse_number]: digits, an optional point with digits, an optional exponent; at least one
    digit before the exponent. *)
Definition parse_decimal (neg : bool) (s : str) : option f64 :=
  let '(n1, v1, r1) := read_digits 10 0 0 s in
  let '(n2, v2, r2) := match r1 with
                       | c :: r => if c =? 46 then read_digits 10 0 v1 r else (0, v1, r1)
                       | [] => (0, v1, [])
                       end in
  if n1 + n2 =? 0 then None
  else e ← parse_exponent r2; Some (d_decimal neg v2 (e - n2)).

Definition to_ascii_lower (c : char) : char := if (65 <=? c) && (c <=? 90) then c + 32 else c.

(** [parse_inf_nan]. *)
Definition parse_inf_nan (neg : bool) (s : str) : option f64 :=
  let l := to_ascii_lower <$> s in
  if bool_decide (l = lit "inf") || bool_decide (l = lit "infinity") then Some (S754_infinity neg)
  else if bool_decide (l = lit "nan") then Some S754_nan else None.

(** [str::parse::<f64>]. *)
Definition parse_f64 (s : str) : option f64 :=
  let '(neg, s) := match s with
                   | c :: s' => if c =? 45 then (true, s') else if c =? 43 then (false, s')
                                else (false, s)
                   | [] => (false, [])
                   end in
  match parse_decimal neg s with
  | Some v => Some v
  | None => parse_inf_nan neg s
  end.

(** ** Facts *)
Lemma d_lt_irrefl a : d_lt a a = false.
Proof.
  unfold d_lt, SFltb, SFcompare. destruct a as [|[]| |[] m e]; try done;
    rewrite Z.compare_refl; change (Pos.compare_cont Eq m m) with (m ?= m)%positive;
    by rewrite Pos.compare_refl.
Qed.

(** The cast of a number within an integer bound is within it. *)
Lemma d_as_u64_range a : in_u 64 (d_as_u64 a).
Proof.
  unfold d_as_u64, in_u. destruct a as [?|[]| |[] m e]; autorewrite with urange; try lia.
  split; [|lia]. apply Z.min_glb; [|lia].
  destruct (0 <=? e) eqn:?; [apply Z.mul_nonneg_nonneg; [lia | apply Z.pow_nonneg; lia]|].
  apply Z.div_pos; [lia|]. apply Z.pow_pos_nonneg; lia.
Qed.

(** Rounding leaves at most 53 bits of mantissa. *)
Lemma digits2_pos_lt m : Z.pos m < 2 ^ Z.pos (digits2_pos m).
Proof.
  induction m as [m IH|m IH|]; cbn [digits2_pos]; [| |done];
    rewrite Pos2Z.inj_succ, Z.pow_succ_r by lia; lia.
Qed.

Lemma Zdigits2_lt m : 0 <= m -> m < 2 ^ Zdigits2 m.
Proof. destruct m as [|m|m]; intros; cbn [Zdigits2]; [done | apply digits2_pos_lt | lia]. Qed.

Lemma shr_1_m r : 0 <= shr_m r -> shr_m (shr_1 r) = shr_m r / 2.
Proof.
  destruct r as [[|[p|p|]|] rr ss]; cbn; intros; try lia; try done.
  - rewrite Pos2Z.inj_xI. apply Z.div_unique with 1; lia.
  - rewrite Pos2Z.inj_xO, Z.mul_comm. symmetry. apply Z.div_mul. lia.
Qed.

Lemma shr_iter_m p r : 0 <= shr_m r -> shr_m (iter_pos shr_1 p r) = shr_m r / 2 ^ Z.pos p.
Proof.
  revert r. assert (forall p r, 0 <= shr_m r -> 0 <= shr_m r / 2 ^ Z.pos p) as Hnn.
  { intros q r Hr. apply Z.div_pos; [done|]. apply Z.pow_pos_nonneg; lia. }
  induction p as [p IH|p IH|]; intros r Hr; cbn [iter_pos].
  - assert (0 <= shr_m (shr_1 r)) by (rewrite shr_1_m by done; apply Z.div_pos; lia).
    assert (shr_m (iter_pos shr_1 p (shr_1 r)) = shr_m (shr_1 r) / 2 ^ Z.pos p) as E by auto.
    rewrite IH by (rewrite E; auto). rewrite E, shr_1_m by done.
    rewrite !Z.div_div by (try apply Z.pow_nonzero; try apply Z.pow_pos_nonneg; try apply Z.mul_pos_pos; try apply Z.pow_pos_nonneg; lia).
    f_equal. replace (Z.pos p~1) with (1 + Z.pos p + Z.pos p) by lia.
    rewrite !Z.pow_add_r, Z.pow_1_r by lia. lia.
  - rewrite !IH by (rewrite ?IH; auto). rewrite Z.div_div by (try apply Z.pow_nonzero; try apply Z.pow_pos_nonneg; lia).
    f_equal. replace (Z.pos p~0) with (Z.pos p + Z.pos p) by lia.
    by rewrite Z.pow_add_r by lia.
  - by rewrite shr_1_m.
Qed.

Lemma shr_fexp_lt m e l : 0 <= m -> 0 <= shr_m (shr_fexp 53 1024 m e l).1 < 2 ^ 53.
Proof.
  intros Hm. pose proof (Zdigits2_lt m Hm) as Hd. unfold shr_fexp.
  assert (shr_m (shr_record_of_loc m l) = m) as Hr by (by destruct l as [|[]]).
  assert (Zdigits2 m - 53 <= fexp 53 1024 (Zdigits2 m + e) - e) as Hf by (unfold fexp; lia).
  assert (0 <= Zdigits2 m) by (destruct m; cbn; lia).
  unfold shr. destruct (fexp 53 1024 (Zdigits2 m + e) - e) as [|p|p] eqn:E; cbn [fst].
  - rewrite Hr. split; [done|]. eapply Z.lt_le_trans; [exact Hd|]. apply Z.pow_le_mono_r; lia.
  - rewrite shr_iter_m, Hr by lia. split; [apply Z.div_pos; [done|apply Z.pow_pos_nonneg; lia]|].
    apply Z.div_lt_upper_bound; [apply Z.pow_pos_nonneg; lia|]. rewrite <- Z.pow_add_r by lia.
    eapply Z.lt_le_trans; [exact Hd|]. apply Z.pow_le_mono_r; lia.
  - rewrite Hr. split; [done|]. eapply Z.lt_le_trans; [exact Hd|]. apply Z.pow_le_mono_r; lia.
Qed.

Definition d_valid (a : f64) : Prop := match a with S754_finite _ m _ => Z.pos m < 2 ^ 53 | _ => True end.

Lemma round_aux_valid s m e l : 0 <= m -> d_valid (binary_round_aux 53 1024 s m e l).
Proof.
  intros Hm. unfold binary_round_aux. pose proof (shr_fexp_lt m e l Hm) as H1.
  destruct (shr_fexp 53 1024 m e l) as [r e']. cbn [fst] in H1.
  assert (0 <= round_nearest_even (shr_m r) (loc_of_shr_record r)) as Hn.
  { unfold round_nearest_even. repeat case_match; lia. }
  pose proof (shr_fexp_lt _ e' loc_Exact Hn) as H2.
  destruct (shr_fexp 53 1024 (round_nearest_even _ _) e' loc_Exact) as [r' e'']. cbn [fst] in H2.
  destruct (shr_m r') as [|p|p]; [done | | done]. case_match; [cbn; lia | done].
Qed.

Lemma normalize_valid m e z : d_valid (binary_normalize 53 1024 m e z).
Proof.
  unfold binary_normalize, binary_round. destruct m as [|p|p]; [done|..];
    destruct (shl_align _ _ _); by apply round_aux_valid.
Qed.

Lemma d_decimal_valid s m e : d_valid (d_decimal s m e).
Proof.
  unfold d_decimal. destruct m as [|p|p]; [done| |done]. case_match; [apply normalize_valid|].
  unfold d_quotient. destruct (SFdiv_core_binary _ _ _ _ _ _) as [[mz ez] lz] eqn:E.
  apply round_aux_valid. unfold SFdiv_core_binary in E. revert E.
  match goal with |- context [Z.div_eucl ?a ?b] =>
    pose proof (Z.div_pos a b) as Hp; unfold Z.div in Hp; destruct (Z.div_eucl a b) end.
  intros [= <- _ _]. apply Hp; [|apply Z.pow_pos_nonneg; [lia | bdestr; lia]].
  case_match; [lia | | lia]. apply Z.shiftl_nonneg. lia.
Qed.

Lemma parse_f64_valid s v : parse_f64 s = Some v -> d_valid v.
Proof.
  unfold parse_f64. destruct (match s with [] => _ | _ :: _ => _ end) as [neg r].
  destruct (parse_decimal neg r) as [x|] eqn:E.
  - intros [= <-]. unfold parse_decimal in E.
    destruct (read_digits 10 0 0 r) as [[n1 v1] r1].
    destruct (match r1 with [] => _ | _ :: _ => _ end) as [[n2 v2] r2].
    case_match; [done|]. destruct (parse_exponent r2); [|done]. injection E as <-. apply d_decimal_valid.
  - unfold parse_inf_nan. repeat case_match; try done; by intros [= <-].
Qed.

Lemma d_le_finite m1 e1 m2 e2 :
  d_le (S754_finite false m1 e1) (S754_finite false m2 e2) = true <->
  e1 < e2 \/ e1 = e2 /\ (m1 <= m2)%positive.
Proof.
  unfold d_le, SFleb, SFcompare. change (Pos.compare_cont Eq m1 m2) with (m1 ?= m2)%positive.
  destruct (Z.compare_spec e1 e2); [destruct (Pos.compare_spec m1 m2)|..]; cbn;
    (split; [intros; try discriminate | intros; try done]); lia.
Qed.

Lemma d_million : d_of_Z 1000000 = S754_finite false 8589934592000000 (-33).
Proof. vm_compute. reflexivity. Qed.

(** The cast of a number of at most a million. *)
Lemma d_as_u64_million v : d_valid v -> (v <=? d_of_Z 1000000)%d = true -> d_as_u64 v <= 1000000.
Proof.
  rewrite d_million. destruct v as [?|[]| |[] m e]; cbn [d_valid d_as_u64]; intros Hm Hle;
    try lia; try discriminate.
  assert (e < -33 \/ e = -33 /\ Z.pos m <= 8589934592000000) as He.
  { apply d_le_finite in Hle as [?|[? ?]]; [by left | right; split; assumption]. }
  etrans; [apply Z.le_min_l|]. destruct (Z.leb_spec 0 e); [lia|].
  destruct He as [He | [-> He]].
  - apply Z.div_le_upper_bound; [apply Z.pow_pos_nonneg; lia|].
    assert (2 ^ 34 <= 2 ^ (- e)) by (apply Z.pow_le_mono_r; lia). lia.
  - apply Z.div_le_upper_bound; lia.
Qed.

(** Decimal literals with their known bit patterns. *)
Example parse_tenth : parse_f64 (lit "0.1") = Some (S754_finite false 7205759403792794 (-56)).
Proof. vm_compute. reflexivity. Qed.
Example parse_large : parse_f64 (lit "1.5e6") = Some (d_of_Z 1500000).
Proof. vm_compute. reflexivity. Qed.
Example parse_tiny : parse_f64 (lit "4.9e-324") = Some (S754_finite false 1 (-1074)).
Proof. vm_compute. reflexivity. Qed.
Example parse_special :
  parse_f64 <$> [lit "-INF"; lit "NaN"; lit "."; lit "1e"; lit ""; lit "1e400"] =
  [Some (S754_infinity true); Some S754_nan; None; None; None; Some (S754_infinity false)].
Proof. vm_compute. reflexivity. Qed.

(** Without NaN the comparison is a total preorder: the lexicographic order of the class, the
    signed exponent and the signed mantissa. *)
Definition d_key (a : f64) : Z * Z * Z :=
  match a with
  | S754_infinity true => (-2, 0, 0)
  | S754_finite true m e => (-1, - e, Z.neg m)
  | S754_zero _ | S754_nan => (0, 0, 0)
  | S754_finite false m e => (1, e, Z.pos m)
  | S754_infinity false => (2, 0, 0)
  end.
Definition key_le (x y : Z * Z * Z) : Prop :=
  x.1.1 < y.1.1 \/ (x.1.1 = y.1.1 /\ (x.1.2 < y.1.2 \/ (x.1.2 = y.1.2 /\ x.2 <= y.2))).

Lemma d_le_key a b : d_is_nan a = false -> d_is_nan b = false -> d_le a b = true <-> key_le (d_key a) (d_key b).
Proof.
  unfold d_le, SFleb, SFcompare, key_le.
  destruct a as [?|[]| |[] m1 e1], b as [?|[]| |[] m2 e2]; cbn; try done; intros _ _; try lia.
  all: change (PosDef.Pos.compare_cont Eq m1 m2) with (m1 ?= m2)%positive;
    destruct (Z.compare_spec e1 e2); [destruct (Pos.compare_spec m1 m2)|..]; cbn; split; intros; try done; lia.
Qed.

Lemma d_le_total a b : d_is_nan a = false -> d_is_nan b = false -> d_le a b = true \/ d_le b a = true.
Proof. intros Ha Hb. rewrite !d_le_key by done. unfold key_le. lia. Qed.

Lemma d_le_trans a b c :
  d_is_nan a = false -> d_is_nan b = false -> d_is_nan c = false ->
  d_le a b = true -> d_le b c = true -> d_le a c = true.
Proof. intros Ha Hb Hc. rewrite !d_le_key by done. unfold key_le. lia. Qed.
