(* ===== verification/Protocol.v ===== *)
(** * The protocol crate's types and what the engine calls of it

    [aetheris-protocol] is a separate published crate: its data types appear here with the
    constructors and fields the engine's sources name, and its constants and functions are the
    fields of classes, so that every definition that uses them takes them as parameters.  A
    variant the engine only ever meets through a wildcard pattern is the constructor
    [Other...]. *)

From stdpp Require Import gmap strings list.
From Stdlib Require Import ZArith Lia.
From S2P Require Import Prelude F32.

Open Scope Z_scope.

(** ** Identifiers *)
Record NetworkId := mkNid { nid_val : Z }.
Record ClientId := mkCid { cid_val : Z }.
Record ComponentKind := mkKind { kind_val : Z }.
(** [bevy_ecs::entity::Entity], as the 64 bits [Entity::to_bits] returns. *)
Record Entity := mkEntity { entity_bits : Z }.
(** [LocalId(e.to_bits())]. *)
Record LocalId := mkLid { lid_val : Z }.

#[global] Instance NetworkId_eq : EqDecision NetworkId.
Proof. solve_decision. Defined.
#[global] Instance ClientId_eq : EqDecision ClientId.
Proof. solve_decision. Defined.
#[global] Instance ComponentKind_eq : EqDecision ComponentKind.
Proof. solve_decision. Defined.
#[global] Instance Entity_eq : EqDecision Entity.
Proof. solve_decision. Defined.
#[global] Instance LocalId_eq : EqDecision LocalId.
Proof. solve_decision. Defined.
#[global] Instance NetworkId_countable : Countable NetworkId.
Proof. by apply (inj_countable' nid_val mkNid); intros []. Defined.
#[global] Instance ClientId_countable : Countable ClientId.
Proof. by apply (inj_countable' cid_val mkCid); intros []. Defined.
#[global] Instance ComponentKind_countable : Countable ComponentKind.
Proof. by apply (inj_countable' kind_val mkKind); intros []. Defined.
#[global] Instance Entity_countable : Countable Entity.
Proof. by apply (inj_countable' entity_bits mkEntity); intros []. Defined.

Definition to_bits (e : Entity) : Z := entity_bits e.
Definition from_bits (b : Z) : Entity := mkEntity b.

Abbreviation bytes := (list Byte.byte).

(** ** Replicated data *)
Record Transform := mkTransform {
  t_x : f32; t_y : f32; t_z : f32; t_rotation : f32; t_entity_type : Z }.

Record AgentProperties := mkAgentProperties {
  ap_integrity : Z; ap_max_integrity : Z; ap_priority : Z; ap_max_priority : Z;
  ap_energy : Z; ap_max_energy : Z; ap_priority_regen_per_s : Z; ap_energy_regen_per_s : Z }.

Inductive AgentKind := Standard | Heavy | Carrier.
Inductive InteractionBeamType := PulseBeam | OtherBeam (code : Z).

Record Tool := mkTool { tl_cooldown_ticks : Z; tl_last_fired_tick : Z }.
Record PriorityPool := mkPriorityPool { pp_current : Z; pp_max : Z }.
Record IntegrityPool := mkIntegrityPool { ip_current : Z; ip_max : Z }.

Inductive WorkspaceAccessPolicy := Open | OtherAccess (code : Z).
Record WorkspaceDefinition := mkWorkspaceDefinition {
  wd_name : string; wd_capacity : Z; wd_access : WorkspaceAccessPolicy; wd_is_template : bool }.
Record WorkspaceBounds := mkWorkspaceBounds {
  wb_min_x : f32; wb_min_y : f32; wb_max_x : f32; wb_max_y : f32 }.

Inductive RespawnLocation := Coordinate (x y : f32) | OtherLocation (code : Z).

Inductive PlayerInputKind :=
| Move (x y : f32)
| ToggleExtraction (target : NetworkId)
| OtherInput (code : Z).

Record InputCommand := mkInputCommand {
  ic_tick : Z; ic_actions : list PlayerInputKind; ic_actions_mask : Z;
  ic_last_seen_input_tick : option Z }.

(** ** Events *)
Record ReplicationEvent := mkReplicationEvent {
  re_network_id : NetworkId; re_component_kind : ComponentKind; re_payload : bytes; re_tick : Z }.
Record ComponentUpdate := mkComponentUpdate {
  cu_network_id : NetworkId; cu_component_kind : ComponentKind; cu_payload : bytes; cu_tick : Z }.

Record FragmentedEvent := mkFragmentedEvent {
  fe_message_id : Z; fe_fragment_index : Z; fe_total_fragments : Z; fe_payload : bytes }.

Inductive PlatformEvent :=
| ResourceExhausted (network_id : NetworkId)
| PayloadCollected (network_id : NetworkId) (amount : Z)
| Interaction (source target : NetworkId) (amount : Z)
| Termination (target : NetworkId)
| Possession (network_id : NetworkId)
| WorkspaceManifest (manifest : gmap string string).

Inductive WireEvent :=
| WPlatformEvent (event : PlatformEvent)
| WEntityDespawned (network_id : NetworkId).

Inductive NetworkEvent :=
| ClientConnected (id : ClientId)
| ClientDisconnected (id : ClientId)
| Disconnected (id : ClientId)
| SessionClosed (id : ClientId)
| StreamReset (id : ClientId)
| UnreliableMessage (client_id : ClientId) (data : bytes)
| ReliableMessage (client_id : ClientId) (data : bytes)
| Fragment (client_id : ClientId) (fragment : FragmentedEvent)
| Ping (client_id : ClientId) (tick : Z)
| Pong (tick : Z)
| Auth (session_token : string)
| ClearWorld (client_id : ClientId)
| StartSession (client_id : ClientId)
| RequestWorkspaceManifest (client_id : ClientId)
| NPlatformEvent (client_id : ClientId) (event : PlatformEvent)
| StressTest (client_id : ClientId) (count : Z) (rotate : bool)
| ReplicationBatch (client_id : ClientId) (events : list ReplicationEvent)
| EntitySpawned (client_id : ClientId) (network_id : NetworkId)
| EntityDespawned (client_id : ClientId) (network_id : NetworkId)
| Spawn (client_id : ClientId) (entity_type : Z) (x y rot : f32).

Inductive WorldError := EntityNotFound (network_id : NetworkId).

Inductive TransportError :=
| ClientNotConnected (client_id : ClientId)
| PayloadTooLarge (size max : Z)
| TransportIo (msg : string).

Inductive EncodeError :=
| BufferOverflow
| EncodeIo (msg : string).

(** ** Constants and pure functions of the protocol crate *)
Class ProtocolConsts : Type := {
  ENTITY_TYPE_AGENT : Z;
  ENTITY_TYPE_AI_AGENT : Z;
  ENTITY_TYPE_HEAVY_AGENT : Z;
  ENTITY_TYPE_CARRIER_AGENT : Z;
  ENTITY_TYPE_RESOURCE : Z;
  ENTITY_TYPE_DATA_DROP : Z;
  ENTITY_TYPE_TRAINING_TARGET : Z;
  ENTITY_TYPE_BEAM : Z;
  ACTION_USE_TOOL : Z;
  BEAM_MARKER_KIND : ComponentKind;
  INPUT_COMMAND_KIND : ComponentKind;
  WORKSPACE_DEFINITION_KIND : ComponentKind;
  WORKSPACE_BOUNDS_KIND : ComponentKind;
  WORKSPACE_MEMBERSHIP_KIND : ComponentKind;
  EXTRACTION_BEAM_KIND : ComponentKind;
  DATA_STORE_KIND : ComponentKind;
  RESOURCE_KIND : ComponentKind;
  TOOL_KIND : ComponentKind;
  PRIORITY_POOL_KIND : ComponentKind;
  INTEGRITY_POOL_KIND : ComponentKind;
  DATA_DROP_KIND : ComponentKind;
  (** (integrity, priority) of a kind of entity. *)
  get_default_properties : Z -> Z * Z;
}.

(** The values the engine's own comments give the constants ([registry.rs] writes the number of
    each kind in a comment; the entity types and vitals are in [docs/ENGINE_DESIGN.md] §6.4): the
    instance the witnesses run on. *)
Definition documented_consts : ProtocolConsts := {|
  ENTITY_TYPE_AGENT := 1; ENTITY_TYPE_AI_AGENT := 2; ENTITY_TYPE_HEAVY_AGENT := 3;
  ENTITY_TYPE_CARRIER_AGENT := 4; ENTITY_TYPE_RESOURCE := 5; ENTITY_TYPE_DATA_DROP := 6;
  ENTITY_TYPE_TRAINING_TARGET := 10; ENTITY_TYPE_BEAM := 20; ACTION_USE_TOOL := 1;
  BEAM_MARKER_KIND := mkKind 13; INPUT_COMMAND_KIND := mkKind 128;
  WORKSPACE_DEFINITION_KIND := mkKind 129; WORKSPACE_BOUNDS_KIND := mkKind 130;
  WORKSPACE_MEMBERSHIP_KIND := mkKind 131; EXTRACTION_BEAM_KIND := mkKind 1024;
  DATA_STORE_KIND := mkKind 1025; RESOURCE_KIND := mkKind 1026; TOOL_KIND := mkKind 1027;
  PRIORITY_POOL_KIND := mkKind 1028; INTEGRITY_POOL_KIND := mkKind 1029;
  DATA_DROP_KIND := mkKind 1030;
  get_default_properties k :=
    if (k =? 1) || (k =? 2) then (200, 100) else if k =? 3 then (1500, 500)
    else if k =? 4 then (600, 200) else if k =? 5 then (500, 0)
    else if k =? 10 then (100, 50) else if (k =? 6) || (k =? 20) then (1, 0) else (100, 100) |}.

(** [NetworkIdAllocator]: [allocate] fails when the id space is used up. *)
Class Allocator (A : Type) : Type := {
  alloc_new : Z -> A;
  allocate : A -> option (NetworkId * A);
  alloc_reset : A -> A;
}.

(** What the engine relies on: an id is handed out at most once between resets.  [issued a i]
    says that [a] has handed [i] out. *)
Class AllocatorLaws (A : Type) `{!Allocator A} (issued : A -> NetworkId -> Prop) : Prop := {
  alloc_fresh a i a' : allocate a = Some (i, a') -> ~ issued a i;
  alloc_issued a i a' j : allocate a = Some (i, a') -> issued a' j <-> j = i \/ issued a j;
}.

(** The documented allocator ([docs/ENGINE_DESIGN.md] §6.3): a counter that starts at 1. *)
#[global] Instance counter_allocator : Allocator Z := {|
  alloc_new n := n;
  allocate n := if n <=? umax 64 then Some (mkNid n, n + 1) else None;
  alloc_reset _ := 1;
|}.

#[global] Instance counter_allocator_laws :
  AllocatorLaws Z (fun n i => nid_val i < n).
Proof.
  split; cbn.
  - intros n i n'. case_match; [|done]. intros [= <- <-]. cbn. lia.
  - intros n i n' [j]. case_match; [|done]. intros [= <- <-]. cbn. split.
    + intros. destruct (decide (j = n)) as [->|]; [by left | right; lia].
    + intros [[= ->]|]; lia.
Qed.
