(* ===== verification/Components.v ===== *)
(** * Components and resources of the ECS world

    The data of [crates/aetheris-ecs-bevy/src/components.rs] (and [Networked] of [lib.rs],
    [BeamSpawn] of [interaction.rs], [DeterministicRng] of [deterministic_rng.rs]): one record per
    component the systems read or write, the enumeration [ckind] of component types with the type
    of each, and the same for the world's resources. *)

From stdpp Require Import gmap strings list.
From Stdlib Require Import ZArith Lia.
From S2P Require Import Prelude F32 Protocol.

Open Scope Z_scope.

(** ** Replicated components *)
Record Velocity := mkVelocity { v_dx : f32; v_dy : f32; v_dz : f32 }.

Record AgentConfiguration := mkAgentConfiguration {
  ac_agent_kind : AgentKind; ac_tool_ids : list Z; ac_tool_count : Z;
  ac_integrity_tier : Z; ac_mobility_tier : Z; ac_priority_tier : Z }.

Record PlayerName := mkPlayerName { pn_name : string }.
Record FactionTag := mkFactionTag { ft_faction_id : Z }.
Record ResourceIntegrity := mkResourceIntegrity { ri_integrity : Z; ri_max_integrity : Z }.
Record ResourceYield := mkResourceYield { ry_payload_type : Z; ry_payload_per_exhaust : Z }.
Record DataDrop := mkDataDrop { dd_payload_type : Z; dd_amount : Z }.
Record Station := mkStation { st_position : f32 * f32; st_safe_zone_radius : f32 }.
Record ZoneGate := mkZoneGate { zg_destination_zone : Z; zg_activation_radius : f32 }.

Record BeamMarker := mkBeamMarker {
  bm_beam_type : InteractionBeamType; bm_spawn_pos : f32 * f32; bm_max_range : f32;
  bm_owner : NetworkId; bm_lifetime_ticks : Z }.

Record DockedState := mkDockedState { ds_station_id : NetworkId; ds_docked_at_tick : Z }.

(** [last_seen_input_tick] is [serde(skip)]: it does not travel. *)
Record ExtractionBeam := mkExtractionBeam {
  eb_active : bool; eb_target : option NetworkId; eb_extraction_range : f32;
  eb_base_extraction_rate : Z; eb_last_seen_input_tick : option Z }.

(** [ExtractionBeam::default()]. *)
Definition ExtractionBeam_default : ExtractionBeam := mkExtractionBeam false None f0 0 None.

Record DataStore := mkDataStore { st_payload_count : Z; st_capacity : Z }.
Record Resource := mkResource { rs_payload_remaining : Z; rs_total_capacity : Z }.

(** [aetheris_protocol::types::DataDrop], inside [DataDropComponent]. *)
Record DataDropComponent := mkDataDropComponent { ddc_amount : Z }.

(** ** Server-only components *)
Record PhysicsBody := mkPhysicsBody {
  pb_base_mass : f32; pb_thrust_force : f32; pb_max_velocity : f32;
  pb_turn_rate : f32; pb_drag : f32; pb_mass_per_payload : f32 }.

Record ResourceRespawn := mkResourceRespawn {
  rr_delay_ticks : Z; rr_remaining : Z; rr_x : f32; rr_y : f32; rr_total_capacity : Z }.

Record PriorityRegenTimer := mkPriorityRegenTimer { prt_ticks_until_regen : Z }.
Record RespawnTimer := mkRespawnTimer { rt_delay_ticks : Z; rt_location : RespawnLocation }.
Record LatestInput := mkLatestInput { li_command : InputCommand; li_last_client_tick : Z }.

(** ** Component types *)
Inductive ckind : Type :=
| CTransform | CVelocity | CAgentProperties | CAgentConfiguration | CAgentKind | CPlayerName
| CFactionTag | CResourceIntegrity | CResourceYield | CDataDrop | CStation | CZoneGate
| CBeamMarker | CDockedState | CExtractionBeam | CDataStore | CResource | CTool
| CPriorityPool | CIntegrityPool | CDataDropComponent
| CWorkspaceDefinition | CWorkspaceBounds | CWorkspaceMembership
| CPhysicsBody | CResourceRespawn | CPriorityRegenTimer | CRespawnTimer | CLatestInput
| CNetworkOwner | CSessionAgent | CTrainingTarget | CAiControlled | CNetworked.

#[global] Instance ckind_eq : EqDecision ckind.
Proof. solve_decision. Defined.

Definition ctype (k : ckind) : Type :=
  match k with
  | CTransform => Transform
  | CVelocity => Velocity
  | CAgentProperties => AgentProperties
  | CAgentConfiguration => AgentConfiguration
  | CAgentKind => AgentKind
  | CPlayerName => PlayerName
  | CFactionTag => FactionTag
  | CResourceIntegrity => ResourceIntegrity
  | CResourceYield => ResourceYield
  | CDataDrop => DataDrop
  | CStation => Station
  | CZoneGate => ZoneGate
  | CBeamMarker => BeamMarker
  | CDockedState => DockedState
  | CExtractionBeam => ExtractionBeam
  | CDataStore => DataStore
  | CResource => Resource
  | CTool => Tool
  | CPriorityPool => PriorityPool
  | CIntegrityPool => IntegrityPool
  | CDataDropComponent => DataDropComponent
  | CWorkspaceDefinition => WorkspaceDefinition
  | CWorkspaceBounds => WorkspaceBounds
  | CWorkspaceMembership => NetworkId
  | CPhysicsBody => PhysicsBody
  | CResourceRespawn => ResourceRespawn
  | CPriorityRegenTimer => PriorityRegenTimer
  | CRespawnTimer => RespawnTimer
  | CLatestInput => LatestInput
  | CNetworkOwner => ClientId
  | CSessionAgent | CTrainingTarget | CAiControlled => unit
  | CNetworked => NetworkId
  end.

(** A component together with its type: one element of a Bevy bundle. *)
Definition component : Type := sigT ctype.
Notation "k ⤳ v" := (existT k v : component) (at level 30, only parsing).

(** ** Resources *)
Record BeamSpawn := mkBeamSpawn {
  bs_pos : f32 * f32; bs_vel : f32 * f32; bs_owner : NetworkId }.

Record WorkspaceIndex := mkWorkspaceIndex {
  wi_memberships : gmap NetworkId (gset Entity);
  wi_client_workspaces : gmap ClientId NetworkId }.

(** The wrapped [ChaCha8Rng]: the seed it was made from and the position in its stream. *)
Record DeterministicRng := mkRng { rng_seed : Z; rng_position : Z }.

Definition DeterministicRng_new (seed : Z) : DeterministicRng := mkRng seed 0.
Definition DeterministicRng_default : DeterministicRng := DeterministicRng_new 0xCAFEBABE.

(** The queue of reliable events: (recipient or everybody, event). *)
Abbreviation reliable_queue := (list (option ClientId * WireEvent)).

Inductive rkind : Type :=
| RServerTick | RReliableEvents | RBeamSpawnRequests | RWorkspaceIndex | RRng.

#[global] Instance rkind_eq : EqDecision rkind.
Proof. solve_decision. Defined.

Definition rtype (r : rkind) : Type :=
  match r with
  | RServerTick => Z
  | RReliableEvents => reliable_queue
  | RBeamSpawnRequests => list BeamSpawn
  | RWorkspaceIndex => WorkspaceIndex
  | RRng => DeterministicRng
  end.

Definition WorkspaceIndex_default : WorkspaceIndex := mkWorkspaceIndex ∅ ∅.

(** ** Physics constants ([physics_consts.rs]) *)
Definition DEFAULT_BASE_MASS : f32 := f_of_Z 100.
Definition DEFAULT_THRUST_FORCE : f32 := f_of_Z 10000.
Definition DEFAULT_MAX_VELOCITY : f32 := f_of_Z 100.
Definition DEFAULT_DRAG : f32 := f_of_Z 2.
Definition MASS_PER_PAYLOAD : f32 := f_of_Z 2.
