(* ===== verification/Ecs.v ===== *)
(** * The ECS world and the id map, as interfaces

    [bevy_ecs::World] and [bimap::BiHashMap] are third-party code.  The engine's definitions take
    them as the classes [EcsWorld] and [BiMap]; what the engine relies on is stated by the classes
    [EcsLaws] and [BiMapLaws], each law a sentence of those crates' documentation.  [EcsModel.v]
    gives an implementation of both interfaces that satisfies the laws and computes. *)

From stdpp Require Import gmap strings list.
From Stdlib Require Import ZArith Lia.
From S2P Require Import Prelude F32 Protocol Components.

Open Scope Z_scope.

(** ** The world *)
Class EcsWorld (W : Type) : Type := {
  (** [World::new]. *)
  w_new : W;
  (** [World::get_entity(e).is_ok()]. *)
  w_alive : W -> Entity -> bool;
  (** [World::get::<T>(e)]. *)
  w_get : W -> Entity -> forall k, option (ctype k);
  (** [EntityWorldMut::insert(T)], and a write through [Mut<T>]. *)
  w_put : W -> Entity -> forall k, ctype k -> W;
  (** [World::spawn_empty]. *)
  w_spawn : W -> Entity * W;
  (** [World::despawn]. *)
  w_despawn : W -> Entity -> W;
  (** The entities a query over the listed components visits, in its order. *)
  w_query : W -> list ckind -> list Entity;
  (** [EntityRef::get_change_ticks::<T>().changed]. *)
  w_changed : W -> Entity -> ckind -> option Z;
  (** [World::change_tick], [World::increment_change_tick], [World::clear_trackers]. *)
  w_change_tick : W -> Z;
  w_increment_change_tick : W -> W;
  w_clear_trackers : W -> W;
  (** [ComponentTicks::is_changed(last_run, this_run)], on the [changed] tick. *)
  w_is_changed : Z -> Z -> Z -> bool;
  (** [World::get_resource], [World::insert_resource] and a write through [ResMut]. *)
  w_res : W -> forall r, option (rtype r);
  w_put_res : W -> forall r, rtype r -> W;
}.

(** Number of increments from tick [c] to tick [t]; ticks are 32-bit and wrap. *)
Definition tick_age (t c : Z) : Z := (t - c) mod 2 ^ 32.

Class EcsLaws (W : Type) `{!EcsWorld W} : Prop := {
  get_alive (w : W) e k v : w_get w e k = Some v -> w_alive w e = true;
  put_alive (w : W) e k v e' : w_alive (w_put w e k v) e' = w_alive w e';
  put_get_eq (w : W) e k v : w_alive w e = true -> w_get (w_put w e k v) e k = Some v;
  put_get_ne (w : W) e k v e' k' :
    e <> e' \/ k <> k' -> w_get (w_put w e k v) e' k' = w_get w e' k';
  spawn_fresh (w : W) : w_alive w (w_spawn w).1 = false;
  spawn_alive (w : W) e :
    w_alive (w_spawn w).2 e = bool_decide (e = (w_spawn w).1) || w_alive w e;
  spawn_get (w : W) e k : w_get (w_spawn w).2 e k = w_get w e k;
  despawn_alive (w : W) e e' :
    w_alive (w_despawn w e) e' = negb (bool_decide (e = e')) && w_alive w e';
  despawn_get (w : W) e e' k : e <> e' -> w_get (w_despawn w e) e' k = w_get w e' k;
  query_spec (w : W) ks e :
    e ∈ w_query w ks <-> w_alive w e = true /\ forall k, k ∈ ks -> is_Some (w_get w e k);
  query_NoDup (w : W) ks : NoDup (w_query w ks);
  (** Change detection. *)
  changed_put_eq (w : W) e k v :
    w_alive w e = true -> w_changed (w_put w e k v) e k = Some (w_change_tick w);
  changed_put_ne (w : W) e k v e' k' :
    e <> e' \/ k <> k' -> w_changed (w_put w e k v) e' k' = w_changed w e' k';
  changed_get (w : W) e k : is_Some (w_changed w e k) <-> is_Some (w_get w e k);
  put_change_tick (w : W) e k v : w_change_tick (w_put w e k v) = w_change_tick w;
  spawn_change_tick (w : W) : w_change_tick (w_spawn w).2 = w_change_tick w;
  spawn_changed (w : W) e k : w_changed (w_spawn w).2 e k = w_changed w e k;
  despawn_change_tick (w : W) e : w_change_tick (w_despawn w e) = w_change_tick w;
  despawn_changed (w : W) e e' k :
    e <> e' -> w_changed (w_despawn w e) e' k = w_changed w e' k;
  increment_change_tick (w : W) :
    w_change_tick (w_increment_change_tick w) = (w_change_tick w + 1) mod 2 ^ 32;
  increment_get (w : W) e k : w_get (w_increment_change_tick w) e k = w_get w e k;
  increment_alive (w : W) e : w_alive (w_increment_change_tick w) e = w_alive w e;
  increment_changed (w : W) e k : w_changed (w_increment_change_tick w) e k = w_changed w e k;
  increment_res (w : W) r : w_res (w_increment_change_tick w) r = w_res w r;
  clear_get (w : W) e k : w_get (w_clear_trackers w) e k = w_get w e k;
  clear_alive (w : W) e : w_alive (w_clear_trackers w) e = w_alive w e;
  clear_res (w : W) r : w_res (w_clear_trackers w) r = w_res w r;
  clear_changed (w : W) e k : w_changed (w_clear_trackers w) e k = w_changed w e k;
  (** [clear_trackers] advances the change tick by at most one. *)
  clear_change_tick (w : W) : tick_age (w_change_tick (w_clear_trackers w)) (w_change_tick w) <= 1;
  (** A change is newer than the last run when fewer ticks have passed since the change than
      since that run (for ages below half of the tick space). *)
  is_changed_spec changed last this :
    tick_age this changed < 2 ^ 31 -> tick_age this last < 2 ^ 31 ->
    w_is_changed changed last this = (tick_age this changed <? tick_age this last);
  (** Resources. *)
  put_res_eq (w : W) r v : w_res (w_put_res w r v) r = Some v;
  put_res_ne (w : W) r v r' : r <> r' -> w_res (w_put_res w r v) r' = w_res w r';
  put_res_get (w : W) r v e k : w_get (w_put_res w r v) e k = w_get w e k;
  put_res_alive (w : W) r v e : w_alive (w_put_res w r v) e = w_alive w e;
  put_res_changed (w : W) r v e k : w_changed (w_put_res w r v) e k = w_changed w e k;
  put_res_change_tick (w : W) r v : w_change_tick (w_put_res w r v) = w_change_tick w;
  put_res_frame (w : W) e k v r : w_res (w_put w e k v) r = w_res w r;
  spawn_res (w : W) r : w_res (w_spawn w).2 r = w_res w r;
  despawn_res (w : W) e r : w_res (w_despawn w e) r = w_res w r;
}.

(** ** The bidirectional id map *)
Class BiMap (B : Type) : Type := {
  bi_empty : B;
  (** [get_by_left], [get_by_right], [insert], [remove_by_left], [iter]. *)
  bi_left : B -> NetworkId -> option Entity;
  bi_right : B -> Entity -> option NetworkId;
  bi_insert : B -> NetworkId -> Entity -> B;
  bi_remove : B -> NetworkId -> B;
  bi_iter : B -> list (NetworkId * Entity);
}.

Class BiMapLaws (B : Type) `{!BiMap B} : Prop := {
  bi_bij (b : B) n e : bi_left b n = Some e <-> bi_right b e = Some n;
  bi_empty_left n : bi_left bi_empty n = None;
  (** [insert] drops every pair that shares a side with the new one. *)
  bi_insert_left (b : B) n e n' :
    bi_left (bi_insert b n e) n' =
      if decide (n' = n) then Some e
      else match bi_left b n' with
           | Some e' => if decide (e' = e) then None else Some e'
           | None => None
           end;
  bi_remove_left (b : B) n n' :
    bi_left (bi_remove b n) n' = if decide (n' = n) then None else bi_left b n';
  bi_iter_spec (b : B) n e : (n, e) ∈ bi_iter b <-> bi_left b n = Some e;
  bi_iter_NoDup (b : B) : NoDup (bi_iter b);
}.

(** ** Derived operations *)
Section derived.
Context {W : Type} `{!EcsWorld W}.

(** [entity_mut.insert((A, B, ...))]: the components of a bundle, in order. *)
Definition insert_bundle (w : W) (e : Entity) (l : list component) : W :=
  foldl (fun w c => w_put w e (projT1 c) (projT2 c)) w l.

(** [world.spawn((A, B, ...))]. *)
Definition spawn_bundle (w : W) (l : list component) : Entity * W :=
  let '(e, w') := w_spawn w in (e, insert_bundle w' e l).

(** [if let Some(mut c) = world.get_mut::<T>(e) { *c = f(c) }]. *)
Definition modify (w : W) (e : Entity) (k : ckind) (f : ctype k -> ctype k) : W :=
  match w_get w e k with
  | Some v => w_put w e k (f v)
  | None => w
  end.

(** [if let Some(mut r) = world.get_resource_mut::<R>() { *r = f(r) }]. *)
Definition modify_res (w : W) (r : rkind) (f : rtype r -> rtype r) : W :=
  match w_res w r with
  | Some v => w_put_res w r (f v)
  | None => w
  end.

(** [world.get_resource::<ServerTick>().map_or(0, |t| t.0)]. *)
Definition server_tick (w : W) : Z := default 0 (w_res w RServerTick).

Definition has (w : W) (e : Entity) (k : ckind) : bool :=
  match w_get w e k with Some _ => true | None => false end.

(** [world.entity_mut(e)] panics when the entity is gone. *)
Definition entity_mut (w : W) (e : Entity) : exec unit := assert_ (w_alive w e).
End derived.

(** Appends to the queue of reliable events, if the resource is there. *)
Definition push_reliable {W} `{!EcsWorld W} (w : W) (evs : reliable_queue) : W :=
  modify_res w RReliableEvents (fun q => q ++ evs).

(** ** Reasoning about worlds *)
Section laws.
Context {W : Type} `{!EcsWorld W, !EcsLaws W}.
Implicit Types (w : W) (e : Entity).

Lemma has_Some w e k : has w e k = true <-> is_Some (w_get w e k).
Proof. unfold has. destruct (w_get w e k); naive_solver. Qed.

Lemma dead_get w e k : w_alive w e = false -> w_get w e k = None.
Proof.
  intros Hd. destruct (w_get w e k) as [v|] eqn:E; [|done].
  apply get_alive in E. congruence.
Qed.

Lemma spawn_ne w e : w_alive w e = true -> e <> (w_spawn w).1.
Proof. intros H ->. by rewrite spawn_fresh in H. Qed.

Lemma spawn_new_get w k : w_get w (w_spawn w).1 k = None.
Proof. apply dead_get, spawn_fresh. Qed.

(** What a write changes, and what it leaves alone. *)
Record touches (ks : list ckind) (rs : list rkind) w w' : Prop := {
  tc_alive e : w_alive w' e = w_alive w e;
  tc_get e k : k ∉ ks -> w_get w' e k = w_get w e k;
  tc_some e k : is_Some (w_get w e k) -> is_Some (w_get w' e k);
  tc_res r : r ∉ rs -> w_res w' r = w_res w r;
}.

(** Every component that differs is stamped with the current change tick (or is gone). *)
Definition tracked w w' : Prop :=
  w_change_tick w' = w_change_tick w /\
  forall e k,
    (w_get w' e k = w_get w e k /\ w_changed w' e k = w_changed w e k) \/
    w_get w' e k = None \/ w_changed w' e k = Some (w_change_tick w).

#[global] Instance touches_preorder ks rs : PreOrder (touches ks rs).
Proof.
  split; [split; naive_solver|].
  intros w1 w2 w3 H1 H2. split; intros.
  - by rewrite (tc_alive _ _ _ _ H2), (tc_alive _ _ _ _ H1).
  - by rewrite (tc_get _ _ _ _ H2), (tc_get _ _ _ _ H1).
  - by eapply tc_some, tc_some.
  - by rewrite (tc_res _ _ _ _ H2), (tc_res _ _ _ _ H1).
Qed.

#[global] Instance tracked_preorder : PreOrder tracked.
Proof.
  split; [intros w; split; naive_solver|].
  intros w1 w2 w3 [T1 H1] [T2 H2]. split; [congruence|]. intros e k.
  destruct (H2 e k) as [[G2 C2]|[|]]; [|naive_solver congruence..].
  destruct (H1 e k) as [[G1 C1]|[|]]; naive_solver congruence.
Qed.

Lemma touches_mono ks rs ks' rs' w w' :
  ks ⊆ ks' -> rs ⊆ rs' -> touches ks rs w w' -> touches ks' rs' w w'.
Proof. intros Hk Hr []. split; eauto; set_solver. Qed.

Lemma touches_put w e k v : touches [k] [] w (w_put w e k v).
Proof.
  split.
  - intros. apply put_alive.
  - intros. apply put_get_ne. set_solver.
  - intros e' k' [v' Hv]. destruct (decide (e = e' /\ k = k')) as [[-> ->]|Hne].
    + rewrite put_get_eq; [eauto|]. by eapply get_alive.
    + rewrite put_get_ne; [eauto|]. destruct (decide (e = e')); naive_solver.
  - intros. apply put_res_frame.
Qed.

Lemma touches_put_res w r v : touches [] [r] w (w_put_res w r v).
Proof.
  split.
  - intros. apply put_res_alive.
  - intros. apply put_res_get.
  - intros. by rewrite put_res_get.
  - intros. apply put_res_ne. set_solver.
Qed.

Lemma tracked_put w e k v : w_alive w e = true -> tracked w (w_put w e k v).
Proof.
  intros Ha. split; [apply put_change_tick|]. intros e' k'.
  destruct (decide (e = e' /\ k = k')) as [[-> ->]|Hne].
  - right; right. by apply changed_put_eq.
  - left. assert (e <> e' \/ k <> k') by (destruct (decide (e = e')); naive_solver).
    by rewrite put_get_ne, changed_put_ne.
Qed.

Lemma tracked_put_res w r v : tracked w (w_put_res w r v).
Proof.
  split; [apply put_res_change_tick|]. left. by rewrite put_res_get, put_res_changed.
Qed.

Lemma tracked_spawn w : tracked w (w_spawn w).2.
Proof.
  split; [apply spawn_change_tick|]. left. by rewrite spawn_get, spawn_changed.
Qed.

Lemma tracked_despawn w e : tracked w (w_despawn w e).
Proof.
  split; [apply despawn_change_tick|]. intros e' k.
  destruct (decide (e = e')) as [->|Hne].
  - right; left. apply dead_get. rewrite despawn_alive. by rewrite bool_decide_eq_true_2.
  - left. by rewrite despawn_get, despawn_changed.
Qed.

Lemma touches_modify w e k f : touches [k] [] w (modify w e k f).
Proof. unfold modify. case_match; [apply touches_put | reflexivity]. Qed.

Lemma tracked_modify w e k f : tracked w (modify w e k f).
Proof.
  unfold modify. case_match eqn:E; [|reflexivity]. apply tracked_put. by eapply get_alive.
Qed.

Lemma touches_modify_res w r f : touches [] [r] w (modify_res w r f).
Proof. unfold modify_res. case_match; [apply touches_put_res | reflexivity]. Qed.

Lemma tracked_modify_res w r f : tracked w (modify_res w r f).
Proof. unfold modify_res. case_match; [apply tracked_put_res | reflexivity]. Qed.

Lemma modify_get_eq w e k f : w_get (modify w e k f) e k = f <$> w_get w e k.
Proof.
  unfold modify. destruct (w_get w e k) as [v|] eqn:E; cbn; [|done].
  apply put_get_eq. by eapply get_alive.
Qed.

Lemma modify_get_ne w e k f e' k' :
  e <> e' \/ k <> k' -> w_get (modify w e k f) e' k' = w_get w e' k'.
Proof. intros. unfold modify. case_match; [by apply put_get_ne | done]. Qed.

Lemma modify_alive w e k f e' : w_alive (modify w e k f) e' = w_alive w e'.
Proof. apply (tc_alive _ _ _ _ (touches_modify w e k f)). Qed.

Lemma modify_res_eq w r f : w_res (modify_res w r f) r = f <$> w_res w r.
Proof. unfold modify_res. destruct (w_res w r) eqn:E; cbn; [apply put_res_eq | done]. Qed.

Lemma modify_res_get w r f e k : w_get (modify_res w r f) e k = w_get w e k.
Proof. unfold modify_res. case_match; [apply put_res_get | done]. Qed.

Lemma modify_res_alive w r f e : w_alive (modify_res w r f) e = w_alive w e.
Proof. unfold modify_res. case_match; [apply put_res_alive | done]. Qed.

(** Entities a query visits are alive and have the components asked for. *)
Lemma query_alive w ks e : e ∈ w_query w ks -> w_alive w e = true.
Proof. rewrite query_spec. naive_solver. Qed.

Lemma query_get w ks e k : e ∈ w_query w ks -> k ∈ ks -> exists v, w_get w e k = Some v.
Proof. rewrite query_spec. intros [_ H] Hk. by apply H. Qed.

(** Bundles. *)
Lemma insert_bundle_alive w e l e' : w_alive (insert_bundle w e l) e' = w_alive w e'.
Proof.
  unfold insert_bundle. revert w. induction l as [|c l IH]; intros w; cbn; [done|].
  by rewrite IH, put_alive.
Qed.

Lemma insert_bundle_get_ne w e l e' k :
  e <> e' -> w_get (insert_bundle w e l) e' k = w_get w e' k.
Proof.
  intros Hne. unfold insert_bundle. revert w. induction l as [|c l IH]; intros w; cbn; [done|].
  rewrite IH, put_get_ne; [done | by left].
Qed.

Lemma insert_bundle_get_other w e l e' k :
  k ∉ projT1 <$> l -> w_get (insert_bundle w e l) e' k = w_get w e' k.
Proof.
  unfold insert_bundle. revert w. induction l as [|c l IH]; intros w Hk; cbn; [done|].
  rewrite IH by set_solver. apply put_get_ne. right. set_solver.
Qed.

Lemma insert_bundle_app w e l1 l2 :
  insert_bundle w e (l1 ++ l2) = insert_bundle (insert_bundle w e l1) e l2.
Proof. apply foldl_app. Qed.

Lemma insert_bundle_get w e l1 k v l2 :
  w_alive w e = true -> k ∉ projT1 <$> l2 ->
  w_get (insert_bundle w e (l1 ++ existT k v :: l2)) e k = Some v.
Proof.
  intros Ha Hk. rewrite insert_bundle_app.
  change (insert_bundle ?w0 e (existT k v :: l2)) with (insert_bundle (w_put w0 e k v) e l2).
  rewrite insert_bundle_get_other by done. apply put_get_eq. by rewrite insert_bundle_alive.
Qed.

Lemma insert_bundle_res w e l r : w_res (insert_bundle w e l) r = w_res w r.
Proof.
  unfold insert_bundle. revert w. induction l as [|c l IH]; intros w; cbn; [done|].
  by rewrite IH, put_res_frame.
Qed.

Lemma tracked_insert_bundle w e l : w_alive w e = true -> tracked w (insert_bundle w e l).
Proof.
  unfold insert_bundle. revert w. induction l as [|c l IH]; intros w Ha; cbn; [reflexivity|].
  etrans; [by apply tracked_put | apply IH; by rewrite put_alive].
Qed.

Lemma tracked_spawn_bundle w l : tracked w (spawn_bundle w l).2.
Proof.
  unfold spawn_bundle. destruct (w_spawn w) as [e w'] eqn:E. cbn.
  etrans; [apply (tracked_spawn w)|]. rewrite E. apply tracked_insert_bundle.
  pose proof (spawn_alive w e) as Ha. rewrite E in Ha. cbn in Ha. rewrite Ha.
  by rewrite bool_decide_eq_true_2.
Qed.

Lemma spawn_bundle_get_other w l e k :
  k ∉ projT1 <$> l -> w_get (spawn_bundle w l).2 e k = w_get w e k.
Proof.
  intros Hk. unfold spawn_bundle. destruct (w_spawn w) as [e' w'] eqn:E. cbn.
  rewrite insert_bundle_get_other by done. pose proof (spawn_get w e k) as H. by rewrite E in H.
Qed.

Lemma spawn_bundle_alive w l e :
  w_alive (spawn_bundle w l).2 e = bool_decide (e = (spawn_bundle w l).1) || w_alive w e.
Proof.
  pose proof (spawn_alive w e) as H. unfold spawn_bundle.
  destruct (w_spawn w) as [e' w'] eqn:E. cbn in *. by rewrite insert_bundle_alive.
Qed.

Lemma spawn_bundle_fresh w l : w_alive w (spawn_bundle w l).1 = false.
Proof.
  pose proof (spawn_fresh w) as H. unfold spawn_bundle. by destruct (w_spawn w) as [e' w'].
Qed.

Lemma spawn_bundle_get_ne w l e k :
  w_alive w e = true -> w_get (spawn_bundle w l).2 e k = w_get w e k.
Proof.
  intros Ha. pose proof (spawn_ne w e Ha) as Hne. pose proof (spawn_get w e k) as H.
  unfold spawn_bundle. destruct (w_spawn w) as [e' w'] eqn:E. cbn in *.
  by rewrite insert_bundle_get_ne.
Qed.

Lemma spawn_bundle_get w l1 k v l2 :
  k ∉ projT1 <$> l2 ->
  let r := spawn_bundle w (l1 ++ existT k v :: l2) in w_get r.2 r.1 k = Some v.
Proof.
  intros Hk. unfold spawn_bundle. destruct (w_spawn w) as [e' w'] eqn:E.
  cbv zeta beta iota delta [fst snd].
  apply insert_bundle_get; [|done]. pose proof (spawn_alive w e') as H. rewrite E in H.
  cbn in H. rewrite H. by rewrite bool_decide_eq_true_2.
Qed.

Lemma spawn_bundle_res w l r : w_res (spawn_bundle w l).2 r = w_res w r.
Proof.
  unfold spawn_bundle. destruct (w_spawn w) as [e' w'] eqn:E. cbn.
  rewrite insert_bundle_res. pose proof (spawn_res w r) as H. by rewrite E in H.
Qed.

(** One component of every entity of a list, and the despawning of a list. *)
Definition modify_all w k (g : ctype k -> ctype k) (l : list Entity) : W :=
  foldl (fun w e => modify w e k g) w l.

Lemma modify_all_get_ne w k g l e k' :
  e ∉ l \/ k <> k' -> w_get (modify_all w k g l) e k' = w_get w e k'.
Proof.
  unfold modify_all. revert w. induction l as [|e' l IH]; intros w H; cbn; [done|].
  rewrite IH by set_solver. apply modify_get_ne. set_solver.
Qed.

Lemma modify_all_get w k g l e :
  NoDup l -> e ∈ l -> w_get (modify_all w k g l) e k = g <$> w_get w e k.
Proof.
  unfold modify_all. revert w. induction l as [|e' l IH]; intros w Hnd He; [set_solver|].
  apply NoDup_cons in Hnd as [Hni Hnd]. cbn. apply elem_of_cons in He as [->|He].
  - fold (modify_all (modify w e' k g) k g l). rewrite modify_all_get_ne by (by left).
    apply modify_get_eq.
  - rewrite IH by done. rewrite modify_get_ne; [done|]. left. set_solver.
Qed.

Lemma modify_all_get_idem w k g l e :
  (forall v, g (g v) = g v) -> e ∈ l -> w_get (modify_all w k g l) e k = g <$> w_get w e k.
Proof.
  intros Hg. unfold modify_all. revert w. induction l as [|e' l IH]; intros w He; [set_solver|].
  cbn. destruct (decide (e ∈ l)) as [Hl|Hl].
  - rewrite IH by done. destruct (decide (e' = e)) as [->|].
    + rewrite modify_get_eq, <- option_fmap_compose. apply option_fmap_ext. intros. apply Hg.
    + rewrite modify_get_ne; [done | by left].
  - assert (e = e') as -> by set_solver.
    fold (modify_all (modify w e' k g) k g l). rewrite modify_all_get_ne by (by left).
    apply modify_get_eq.
Qed.

Lemma touches_modify_all w k g l : touches [k] [] w (modify_all w k g l).
Proof. apply (foldl_rel (touches [k] [])). intros. apply touches_modify. Qed.

Lemma tracked_modify_all w k g l : tracked w (modify_all w k g l).
Proof. apply (foldl_rel tracked). intros. apply tracked_modify. Qed.

Lemma despawn_all_alive w l e :
  w_alive (foldl w_despawn w l) e = negb (bool_decide (e ∈ l)) && w_alive w e.
Proof.
  revert w. induction l as [|e' l IH]; intros w; cbn; [done|].
  rewrite IH, despawn_alive, andb_assoc, <- negb_orb, <- bool_decide_or.
  f_equal. f_equal. apply bool_decide_ext. set_solver.
Qed.

Lemma despawn_all_get w l e k : e ∉ l -> w_get (foldl w_despawn w l) e k = w_get w e k.
Proof.
  revert w. induction l as [|e' l IH]; intros w H; cbn; [done|].
  rewrite IH by set_solver. apply despawn_get. set_solver.
Qed.

Lemma despawn_all_get_in w l e k : e ∈ l -> w_get (foldl w_despawn w l) e k = None.
Proof.
  intros H. apply dead_get. rewrite despawn_all_alive. by rewrite bool_decide_eq_true_2.
Qed.

Lemma despawn_all_res w l r : w_res (foldl w_despawn w l) r = w_res w r.
Proof.
  revert w. induction l as [|e' l IH]; intros w; cbn; [done|]. by rewrite IH, despawn_res.
Qed.

Lemma tracked_despawn_all w l : tracked w (foldl w_despawn w l).
Proof. apply (foldl_rel tracked). intros. apply tracked_despawn. Qed.

(** A loop over distinct entities whose body looks at, and writes, one entity only. *)
Lemma foldl_local_ne (f : W -> Entity -> W) l w e k :
  (forall w e e' k, e <> e' -> w_get (f w e) e' k = w_get w e' k) ->
  e ∉ l -> w_get (foldl f w l) e k = w_get w e k.
Proof.
  intros Hf. revert w. induction l as [|x l IH]; intros w He; cbn; [done|].
  rewrite IH by set_solver. apply Hf. set_solver.
Qed.

Lemma foldl_local (f : W -> Entity -> W) l w e k :
  (forall w e e' k, e <> e' -> w_get (f w e) e' k = w_get w e' k) ->
  (forall w w', (forall k, w_get w e k = w_get w' e k) ->
     forall k, w_get (f w e) e k = w_get (f w' e) e k) ->
  NoDup l -> e ∈ l -> w_get (foldl f w l) e k = w_get (f w e) e k.
Proof.
  intros Hne Heq. revert w. induction l as [|x l IH]; intros w Hnd He; [set_solver|]. cbn.
  apply NoDup_cons in Hnd as [Hni Hnd]. apply elem_of_cons in He as [->|He].
  - by apply foldl_local_ne.
  - rewrite IH by done. apply Heq. intros k'. apply Hne. set_solver.
Qed.

(** ** Totals of a quantity over the entities that carry a component *)
Definition quantity (k : ckind) (f : ctype k -> Z) w (e : Entity) : Z :=
  match w_get w e k with Some v => f v | None => 0 end.

Definition ctotal (k : ckind) (f : ctype k -> Z) w : Z := sum_over (quantity k f w) (w_query w [k]).

Lemma query_one_Some w k e : e ∈ w_query w [k] <-> is_Some (w_get w e k).
Proof.
  rewrite query_spec. split; [intros [_ H]; apply H; set_solver|].
  intros H. split; [destruct H; by eapply get_alive|]. intros k' ->%list_elem_of_singleton. done.
Qed.

Lemma query_one_perm w w' k :
  (forall e, is_Some (w_get w' e k) <-> is_Some (w_get w e k)) ->
  w_query w' [k] ≡ₚ w_query w [k].
Proof.
  intros H. apply NoDup_Permutation; try apply query_NoDup. intros e.
  by rewrite !query_one_Some.
Qed.

Lemma ctotal_frame k f w w' :
  (forall e, w_get w' e k = w_get w e k) -> ctotal k f w' = ctotal k f w.
Proof.
  intros H. unfold ctotal. rewrite (sum_over_perm _ _ (w_query w [k])).
  - apply sum_over_ext. intros e _. unfold quantity. by rewrite H.
  - apply query_one_perm. intros e. by rewrite H.
Qed.

Lemma ctotal_put_ne k f w e k' v : k <> k' -> ctotal k f (w_put w e k' v) = ctotal k f w.
Proof. intros. apply ctotal_frame. intros. apply put_get_ne. naive_solver. Qed.

Lemma ctotal_put k f w e v v' :
  w_get w e k = Some v -> ctotal k f (w_put w e k v') = ctotal k f w + (f v' - f v).
Proof.
  intros Hv. assert (Ha := get_alive w e k v Hv). unfold ctotal.
  rewrite (sum_over_perm _ _ (w_query w [k])).
  - rewrite (sum_over_upd _ (quantity k f w) e).
    + unfold quantity. by rewrite put_get_eq, Hv.
    + apply query_NoDup.
    + apply query_one_Some. eauto.
    + intros e' Hne. unfold quantity. rewrite put_get_ne; [done | by left].
  - apply query_one_perm. intros e'. destruct (decide (e = e')) as [<-|].
    + rewrite put_get_eq, Hv by done. naive_solver.
    + rewrite put_get_ne; [done | by left].
Qed.

Lemma ctotal_modify k f w e g :
  (forall v, w_get w e k = Some v -> f (g v) = f v) -> ctotal k f (modify w e k g) = ctotal k f w.
Proof.
  intros H. unfold modify. destruct (w_get w e k) as [v|] eqn:E; [|done].
  rewrite (ctotal_put _ _ _ _ v) by done. rewrite H by done. lia.
Qed.
End laws.

Create HintDb ecs.
#[export] Hint Resolve touches_put touches_put_res touches_modify touches_modify_res
  tracked_put tracked_put_res tracked_modify tracked_modify_res tracked_spawn tracked_despawn
  tracked_insert_bundle tracked_spawn_bundle touches_modify_all tracked_modify_all
  tracked_despawn_all query_alive : ecs.

(** Facts about the id map. *)
Section bimap.
Context {B : Type} `{!BiMap B, !BiMapLaws B}.
Implicit Types b : B.

Lemma bi_left_inj b n1 n2 e : bi_left b n1 = Some e -> bi_left b n2 = Some e -> n1 = n2.
Proof. rewrite !bi_bij. congruence. Qed.

Lemma bi_insert_eq b n e : bi_left (bi_insert b n e) n = Some e.
Proof. rewrite bi_insert_left. by case_decide. Qed.

(** Inserting an entity nobody maps to keeps every other pair. *)
Lemma bi_insert_ne b n e n' :
  n' <> n -> bi_right b e = None -> bi_left (bi_insert b n e) n' = bi_left b n'.
Proof.
  intros Hn He. rewrite bi_insert_left. case_decide; [done|].
  destruct (bi_left b n') as [e'|] eqn:E; [|done]. case_decide; [|done]. subst.
  apply bi_bij in E. congruence.
Qed.

Lemma bi_right_None b e : bi_right b e = None <-> forall n, bi_left b n <> Some e.
Proof.
  split.
  - intros H n. rewrite bi_bij. congruence.
  - intros H. destruct (bi_right b e) as [n|] eqn:E; [|done]. by apply bi_bij, H in E.
Qed.
End bimap.

(** Closes [w_alive w e = true] from a component the entity is known to have. *)
Ltac alive :=
  rewrite ?put_alive, ?put_res_alive, ?modify_alive, ?modify_res_alive, ?insert_bundle_alive;
  match goal with
  | |- w_alive _ _ = true => assumption
  | H : w_get ?w ?e ?k = Some ?v |- w_alive ?w ?e = true => exact (get_alive w e k v H)
  | |- w_alive _ _ = true => eauto with ecs
  end.

(** Closes [touches ks rs w w'] when [w'] is [w] with a sequence of writes on top. *)
Ltac touching :=
  lazymatch goal with
  | |- touches _ _ ?w ?w => reflexivity
  | |- touches ?ks ?rs ?w (w_put ?w0 ?e ?k ?v) =>
      transitivity w0; [touching | apply (touches_mono [k] []), (touches_put w0 e k v); set_solver]
  | |- touches ?ks ?rs ?w (w_put_res ?w0 ?r ?v) =>
      transitivity w0; [touching | apply (touches_mono [] [r]), (touches_put_res w0 r v); set_solver]
  | |- touches ?ks ?rs ?w (modify ?w0 ?e ?k ?f) =>
      transitivity w0; [touching | apply (touches_mono [k] []), (touches_modify w0 e k f); set_solver]
  | |- touches ?ks ?rs ?w (modify_all ?w0 ?k ?f ?l) =>
      transitivity w0;
        [touching | apply (touches_mono [k] []), (touches_modify_all w0 k f l); set_solver]
  | |- touches ?ks ?rs ?w (modify_res ?w0 ?r ?f) =>
      transitivity w0;
        [touching | apply (touches_mono [] [r]), (touches_modify_res w0 r f); set_solver]
  | |- touches ?ks ?rs ?w (push_reliable ?w0 ?evs) =>
      unfold push_reliable; touching
  | |- _ => assumption
  end.
