(* ===== verification/EcsModel.v ===== *)
(** * An implementation of the world and id-map interfaces

    A map from entities to their components (each stamped with the change tick of its last write)
    and a list of pairs with no repeated side.  It shows that the laws of [Ecs.v] can hold
    together, and the witnesses of the development run on it. *)

From stdpp Require Import gmap strings list.
From Stdlib Require Import ZArith Lia.
From S2P Require Import Prelude F32 Protocol Components Ecs.

Open Scope Z_scope.

(** ** The world *)
Abbreviation entity_data := (forall k, option (ctype k * Z)).

Record mworld := mkWorld {
  mw_next : Z;
  mw_entities : gmap Entity entity_data;
  mw_tick : Z;
  mw_resources : forall r, option (rtype r) }.

Definition no_components : entity_data := fun _ => None.

Definition set_component (d : entity_data) (k : ckind) (v : ctype k) (t : Z) : entity_data :=
  fun k' => match decide (k = k') with
            | left E => match E in _ = k'' return option (ctype k'' * Z) with
                        | eq_refl => Some (v, t)
                        end
            | right _ => d k'
            end.

Definition set_resource (f : forall r, option (rtype r)) (r : rkind) (v : rtype r) :
    forall r', option (rtype r') :=
  fun r' => match decide (r = r') with
            | left E => match E in _ = r'' return option (rtype r'') with
                        | eq_refl => Some v
                        end
            | right _ => f r'
            end.

Definition mw_data (w : mworld) (e : Entity) (k : ckind) : option (ctype k * Z) :=
  match mw_entities w !! e with Some d => d k | None => None end.

Definition mw_has_all (d : entity_data) (ks : list ckind) : bool :=
  forallb (fun k => match d k with Some _ => true | None => false end) ks.

(** The matching entities, in the order of the map. *)
Definition mw_query (w : mworld) (ks : list ckind) : list Entity :=
  (filter (fun p : Entity * entity_data => mw_has_all p.2 ks = true)
     (map_to_list (mw_entities w))).*1.

(** Entity numbers are never reused. *)
Definition mw_fresh (w : mworld) : Entity :=
  mkEntity (1 + foldr Z.max (mw_next w) ((fun p => entity_bits p.1) <$> map_to_list (mw_entities w))).

#[global] Instance mworld_ecs : EcsWorld mworld := {|
  w_new := mkWorld 0 ∅ 0 (fun _ => None);
  w_alive w e := match mw_entities w !! e with Some _ => true | None => false end;
  w_get w e k := fst <$> mw_data w e k;
  w_put w e k v :=
    match mw_entities w !! e with
    | Some d => mkWorld (mw_next w) (<[e := set_component d k v (mw_tick w)]> (mw_entities w))
                        (mw_tick w) (mw_resources w)
    | None => w
    end;
  w_spawn w := (mw_fresh w, mkWorld (entity_bits (mw_fresh w))
                                    (<[mw_fresh w := no_components]> (mw_entities w))
                                    (mw_tick w) (mw_resources w));
  w_despawn w e := mkWorld (mw_next w) (delete e (mw_entities w)) (mw_tick w) (mw_resources w);
  w_query := mw_query;
  w_changed w e k := snd <$> mw_data w e k;
  w_change_tick := mw_tick;
  w_increment_change_tick w :=
    mkWorld (mw_next w) (mw_entities w) ((mw_tick w + 1) mod 2 ^ 32) (mw_resources w);
  w_clear_trackers w :=
    mkWorld (mw_next w) (mw_entities w) ((mw_tick w + 1) mod 2 ^ 32) (mw_resources w);
  w_is_changed changed last this := tick_age this changed <? tick_age this last;
  w_res w r := mw_resources w r;
  w_put_res w r v :=
    mkWorld (mw_next w) (mw_entities w) (mw_tick w) (set_resource (mw_resources w) r v);
|}.

Lemma set_component_eq d k v t : set_component d k v t k = Some (v, t).
Proof.
  unfold set_component. destruct (decide (k = k)) as [E|]; [|done].
  by rewrite (proof_irrel E eq_refl).
Qed.
Lemma set_component_ne d k v t k' : k <> k' -> set_component d k v t k' = d k'.
Proof. intros. unfold set_component. by destruct (decide (k = k')). Qed.
Lemma set_resource_eq f r v : set_resource f r v r = Some v.
Proof.
  unfold set_resource. destruct (decide (r = r)) as [E|]; [|done].
  by rewrite (proof_irrel E eq_refl).
Qed.
Lemma set_resource_ne f r v r' : r <> r' -> set_resource f r v r' = f r'.
Proof. intros. unfold set_resource. by destruct (decide (r = r')). Qed.

Lemma mw_has_all_spec d ks : mw_has_all d ks = true <-> forall k, k ∈ ks -> is_Some (d k).
Proof.
  unfold mw_has_all. rewrite forallb_forall.
  setoid_rewrite <- list_elem_of_In. split; intros H k Hk; specialize (H k Hk).
  - destruct (d k); naive_solver.
  - destruct H as [? ->]. done.
Qed.

Lemma mw_fresh_None w : mw_entities w !! mw_fresh w = None.
Proof.
  destruct (mw_entities w !! mw_fresh w) as [d|] eqn:E; [|done]. exfalso.
  apply elem_of_map_to_list in E. unfold mw_fresh in E.
  set (l := map_to_list (mw_entities w)) in *.
  assert (Hmax : forall p, p ∈ l ->
    entity_bits p.1 <= foldr Z.max (mw_next w) ((fun p => entity_bits p.1) <$> l)).
  { generalize (mw_next w). clear E. intros z. induction l as [|q l IH]; [set_solver|].
    intros p [->|Hp]%elem_of_cons; cbn; [lia|]. specialize (IH p Hp). lia. }
  specialize (Hmax _ E). cbn in Hmax. lia.
Qed.

Lemma mw_data_Some w e d k : mw_entities w !! e = Some d -> mw_data w e k = d k.
Proof. intros H. unfold mw_data. by rewrite H. Qed.

Lemma mw_query_spec w ks e :
  e ∈ mw_query w ks <->
  w_alive w e = true /\ forall k, k ∈ ks -> is_Some (w_get w e k).
Proof.
  unfold mw_query. rewrite list_elem_of_fmap. cbn. split.
  - intros ([e' d] & He & [Ha Hd]%list_elem_of_filter). apply elem_of_map_to_list in Hd.
    cbn in He, Ha. subst e'. rewrite Hd. split; [done|]. intros k Hk.
    rewrite (mw_data_Some _ _ _ _ Hd), fmap_is_Some. by apply (proj1 (mw_has_all_spec d ks)).
  - destruct (mw_entities w !! e) as [d|] eqn:E; [|naive_solver]. intros [_ Hks].
    exists (e, d). split; [done|]. apply list_elem_of_filter. rewrite elem_of_map_to_list.
    split; [|done]. apply mw_has_all_spec. intros k Hk. specialize (Hks k Hk).
    by rewrite (mw_data_Some _ _ _ _ E), fmap_is_Some in Hks.
Qed.

#[local] Arguments no_components : simpl never.
#[local] Arguments mw_fresh : simpl never.
#[local] Arguments set_component : simpl never.

#[global] Instance mworld_laws : EcsLaws mworld.
Proof.
  split; cbn; unfold mw_data; cbn; try (intros; done).
  - intros w e k v. by destruct (mw_entities w !! e).
  - intros w e k v e'. destruct (mw_entities w !! e) eqn:E; cbn; [|done].
    rewrite lookup_insert. case_decide; [subst; by rewrite E | done].
  - intros w e k v. destruct (mw_entities w !! e) eqn:E; cbn; [|done]. intros _.
    by rewrite lookup_insert_eq, set_component_eq.
  - intros w e k v e' k' Hne. destruct (mw_entities w !! e) as [d|] eqn:E; cbn; [|done].
    rewrite lookup_insert. case_decide; [|done]. subst. rewrite E, set_component_ne; naive_solver.
  - intros w. by rewrite mw_fresh_None.
  - intros w e. rewrite lookup_insert. case_decide.
    + subst. by rewrite bool_decide_eq_true_2.
    + by rewrite bool_decide_eq_false_2.
  - intros w e k. rewrite lookup_insert. case_decide; [subst; by rewrite mw_fresh_None | done].
  - intros w e e'. rewrite lookup_delete. case_decide.
    + by rewrite bool_decide_eq_true_2.
    + by rewrite bool_decide_eq_false_2.
  - intros w e e' k Hne. by rewrite lookup_delete_ne.
  - apply mw_query_spec.
  - intros w ks. unfold mw_query.
    eapply sublist_NoDup; [apply (NoDup_fst_map_to_list (mw_entities w))|].
    apply fmap_sublist, sublist_filter.
  - intros w e k v. destruct (mw_entities w !! e) eqn:E; cbn; [|done]. intros _.
    by rewrite lookup_insert_eq, set_component_eq.
  - intros w e k v e' k' Hne. destruct (mw_entities w !! e) as [d|] eqn:E; cbn; [|done].
    rewrite lookup_insert. case_decide; [|done]. subst. rewrite E, set_component_ne; naive_solver.
  - intros w e k. by rewrite !fmap_is_Some.
  - intros w e k v. by destruct (mw_entities w !! e).
  - intros w e k. rewrite lookup_insert. case_decide; [subst; by rewrite mw_fresh_None | done].
  - intros w e e' k Hne. by rewrite lookup_delete_ne.
  - intros w. unfold tick_age. rewrite Zminus_mod_idemp_l.
    replace (mw_tick w + 1 - mw_tick w) with 1 by lia. done.
  - intros w r v. apply set_resource_eq.
  - intros w r v r' Hne. by apply set_resource_ne.
  - intros w e k v r. by destruct (mw_entities w !! e).
Qed.

(** ** The id map *)
Definition bi_ok (l : list (NetworkId * Entity)) : bool :=
  bool_decide (NoDup l.*1) && bool_decide (NoDup l.*2).

Record bilist := mkBi { bl_pairs : list (NetworkId * Entity); bl_ok : bi_ok bl_pairs = true }.

Fixpoint find_left (l : list (NetworkId * Entity)) (n : NetworkId) : option Entity :=
  match l with
  | [] => None
  | (n', e) :: l' => if decide (n = n') then Some e else find_left l' n
  end.

Fixpoint find_right (l : list (NetworkId * Entity)) (e : Entity) : option NetworkId :=
  match l with
  | [] => None
  | (n, e') :: l' => if decide (e = e') then Some n else find_right l' e
  end.

Definition drop_pairs (l : list (NetworkId * Entity)) n e : list (NetworkId * Entity) :=
  filter (fun p : NetworkId * Entity => p.1 <> n /\ p.2 <> e) l.
Definition drop_left (l : list (NetworkId * Entity)) n : list (NetworkId * Entity) :=
  filter (fun p : NetworkId * Entity => p.1 <> n) l.

Lemma bi_ok_spec l : bi_ok l = true <-> NoDup l.*1 /\ NoDup l.*2.
Proof. unfold bi_ok. by rewrite andb_true_iff, !bool_decide_eq_true. Qed.

Lemma find_left_Some l n e : NoDup l.*1 -> find_left l n = Some e <-> (n, e) ∈ l.
Proof.
  induction l as [|[n' e'] l IH]; cbn; [set_solver|].
  intros [Hni Hnd]%NoDup_cons. rewrite elem_of_cons. case_decide.
  - subst. split; [intros [= ->]; by left|]. intros [[= ->]|Hin]; [done|].
    destruct Hni. apply list_elem_of_fmap. by exists (n', e).
  - rewrite IH by done. naive_solver.
Qed.

Lemma find_right_Some l n e : NoDup l.*2 -> find_right l e = Some n <-> (n, e) ∈ l.
Proof.
  induction l as [|[n' e'] l IH]; cbn; [set_solver|].
  intros [Hni Hnd]%NoDup_cons. rewrite elem_of_cons. case_decide.
  - subst. split; [intros [= ->]; by left|]. intros [[= ->]|Hin]; [done|].
    destruct Hni. apply list_elem_of_fmap. by exists (n, e').
  - rewrite IH by done. naive_solver.
Qed.

Lemma bi_ok_filter (P : NetworkId * Entity -> Prop) `{!forall p, Decision (P p)} l :
  bi_ok l = true -> bi_ok (filter P l) = true.
Proof.
  rewrite !bi_ok_spec. intros [H1 H2].
  split; (eapply sublist_NoDup; [done | apply fmap_sublist, sublist_filter]).
Qed.

Lemma bi_ok_insert l n e : bi_ok l = true -> bi_ok ((n, e) :: drop_pairs l n e) = true.
Proof.
  intros H. pose proof (bi_ok_filter (fun p => p.1 <> n /\ p.2 <> e) l H) as [H1 H2]%bi_ok_spec.
  apply bi_ok_spec. cbn. rewrite !NoDup_cons. split_and!; try done.
  - rewrite list_elem_of_fmap. intros ([] & -> & [? ?]%list_elem_of_filter). naive_solver.
  - rewrite list_elem_of_fmap. intros ([] & -> & [? ?]%list_elem_of_filter). naive_solver.
Qed.

#[global] Instance bilist_bimap : BiMap bilist := {|
  bi_empty := mkBi [] eq_refl;
  bi_left b n := find_left (bl_pairs b) n;
  bi_right b e := find_right (bl_pairs b) e;
  bi_insert b n e := mkBi ((n, e) :: drop_pairs (bl_pairs b) n e) (bi_ok_insert _ n e (bl_ok b));
  bi_remove b n := mkBi (drop_left (bl_pairs b) n) (bi_ok_filter _ _ (bl_ok b));
  bi_iter b := bl_pairs b;
|}.

Lemma bilist_left_Some (b : bilist) n e : bi_left b n = Some e <-> (n, e) ∈ bl_pairs b.
Proof. destruct b as [l Hl]. cbn. apply find_left_Some. by apply bi_ok_spec. Qed.

#[global] Instance bilist_laws : BiMapLaws bilist.
Proof.
  split.
  - intros b n e. rewrite bilist_left_Some. destruct b as [l Hl]; cbn.
    rewrite find_right_Some; [done|]. by apply bi_ok_spec.
  - done.
  - intros b n e n'. apply option_eq. intros x. rewrite bilist_left_Some. cbn.
    rewrite elem_of_cons. unfold drop_pairs. rewrite list_elem_of_filter.
    rewrite <- bilist_left_Some. case_decide; [naive_solver|].
    change (find_left (bl_pairs b) n') with (bi_left b n').
    destruct (bi_left b n') as [e'|] eqn:E; [case_decide|]; cbn; split; try done.
    + intros [[= -> ->]|[[? ?] [= <-]]]; naive_solver.
    + intros [[= -> ->]|[[? ?] [= <-]]]; naive_solver.
    + intros [= <-]. right. naive_solver.
    + intros [[= -> ->]|[[? ?] ?]]; naive_solver.
  - intros b n n'. apply option_eq. intros x. rewrite bilist_left_Some. cbn.
    unfold drop_left. rewrite list_elem_of_filter. rewrite <- bilist_left_Some.
    case_decide; cbn; naive_solver.
  - intros b n e. by rewrite bilist_left_Some.
  - intros [l Hl]. cbn. destruct (proj1 (bi_ok_spec l) Hl) as [H1 _]. by eapply NoDup_fmap_1.
Qed.
