(* ===== verification/Registry.v ===== *)
(** * Component registry and replicators

    [crates/aetheris-ecs-bevy/src/registry.rs]: the registry of component descriptors, the default
    replicator (serialise a changed component, deserialise an update into the world), the
    replicator of input commands with its access gate and anti-replay window, and the registration
    of the platform's 25 components. *)

From stdpp Require Import gmap strings list sorting.
From Stdlib Require Import ZArith Lia SpecFloat.
From S2P Require Import Prelude F32 Protocol Components Ecs EcsModel.

Open Scope Z_scope.

(** [rmp_serde] on components and input commands, and [InputCommand::validate]. *)
Class Wire : Type := {
  encode_component : forall k, ctype k -> option bytes;
  decode_component : forall k, bytes -> option (ctype k);
  decode_input : bytes -> option InputCommand;
  validate_input : InputCommand -> bool;
}.

(** What survives serialisation: [ExtractionBeam::last_seen_input_tick] is [serde(skip)]. *)
Definition wire_norm (k : ckind) : ctype k -> ctype k :=
  match k with
  | CExtractionBeam => fun b =>
      mkExtractionBeam (eb_active b) (eb_target b) (eb_extraction_range b)
                       (eb_base_extraction_rate b) None
  | _ => fun v => v
  end.

Class WireLaws `{!Wire} : Prop := {
  decode_encode k v b :
    encode_component k v = Some b -> decode_component k b = Some (wire_norm k v);
}.

Inductive ComponentScope := Core | Platform | Visual.
Inductive ComponentClassification := Persistent | Transient | Simulated.

Definition MAX_FORWARD_TICK_JUMP : Z := 600.

(** The anti-replay tests of [apply_command_update], on the server tick [s], the last accepted
    client tick [last] and the tick [t] of the command. *)
Definition is_valid_jump (last t : Z) : bool :=
  (last <? t) && (t <=? sat_add 64 last MAX_FORWARD_TICK_JUMP).
Definition in_server_window (s t : Z) : bool :=
  (t <=? sat_add 64 s MAX_FORWARD_TICK_JUMP) && (sat_sub s MAX_FORWARD_TICK_JUMP <=? t).
Definition accepts (s last t : Z) : bool :=
  is_valid_jump last t || (in_server_window s t && negb (in_server_window s last)).

Definition set_tick (c : InputCommand) (t : Z) : InputCommand :=
  mkInputCommand t (ic_actions c) (ic_actions_mask c) (ic_last_seen_input_tick c).

Section registry.
Context {W : Type} `{!EcsWorld W} {Wi : Wire} {PC : ProtocolConsts}.

(** ** The replicator trait *)
Record ComponentReplicator := mkReplicator {
  rep_kind : ComponentKind;
  rep_extract : W -> Entity -> NetworkId -> Z -> option Z -> option ReplicationEvent;
  rep_apply : W -> Entity -> ComponentUpdate -> W }.

Record ComponentDescriptor := mkDescriptor {
  cd_kind : ComponentKind;
  cd_name : string;
  cd_scope : ComponentScope;
  cd_classification : ComponentClassification;
  cd_replicator : ComponentReplicator }.

(** ** Registry *)
Abbreviation ComponentRegistry := (gmap ComponentKind ComponentDescriptor).

Definition register (registry : ComponentRegistry) (d : ComponentDescriptor) :
    exec ComponentRegistry :=
  _ ← assert_ (bool_decide (registry !! cd_kind d = None));
  Ret (<[cd_kind d := d]> registry).

(** ** The default replicator *)
Definition default_extract (k : ckind) (kind : ComponentKind) (w : W) (e : Entity)
    (network_id : NetworkId) (tick : Z) (last_tick : option Z) : option ReplicationEvent :=
  component ← w_get w e k;
  ticks ← (if w_alive w e then w_changed w e k else None);
  let current_tick := w_change_tick w in
  let is_changed := match last_tick with
                    | Some last => w_is_changed ticks last current_tick
                    | None => true
                    end in
  if is_changed then
    payload ← encode_component k component;
    Some (mkReplicationEvent network_id kind payload tick)
  else None.

Definition default_apply (k : ckind) (w : W) (e : Entity) (update : ComponentUpdate) : W :=
  match decode_component k (cu_payload update), w_alive w e with
  | Some component, true => w_put w e k component
  | _, _ => w
  end.

Definition DefaultReplicator (k : ckind) (kind : ComponentKind) : ComponentReplicator :=
  mkReplicator kind (default_extract k kind) (default_apply k).

(** ** The replicator of input commands *)
Definition validate_access_gate (w : W) (e : Entity) : bool :=
  let has_owner := has w e CNetworkOwner in
  let has_session := has w e CSessionAgent in
  if negb has_owner then false else if negb has_session then false else true.

Definition deserialize_command (payload : bytes) : option InputCommand :=
  cmd ← decode_input payload;
  if validate_input cmd then Some cmd else None.

Definition apply_command_update (w : W) (e : Entity) (command : InputCommand) : W :=
  let s := server_tick w in
  if w_alive w e then
    match w_get w e CLatestInput with
    | Some latest =>
        if accepts s (li_last_client_tick latest) (ic_tick command) then
          w_put w e CLatestInput (mkLatestInput command (ic_tick command))
        else w
    | None =>
        let capped_tick := Z.min (ic_tick command) (sat_add 64 s MAX_FORWARD_TICK_JUMP) in
        w_put w e CLatestInput (mkLatestInput (set_tick command capped_tick) capped_tick)
    end
  else w.

Definition input_apply (w : W) (e : Entity) (update : ComponentUpdate) : W :=
  if negb (validate_access_gate w e) then w
  else match deserialize_command (cu_payload update) with
       | None => w
       | Some command => apply_command_update w e command
       end.

Definition InputCommandReplicator : ComponentReplicator :=
  mkReplicator INPUT_COMMAND_KIND (fun _ _ _ _ _ => None) input_apply.

(** ** Registration of the platform's components *)
Definition simulated (kind : ComponentKind) (name : string) (scope : ComponentScope)
    (k : ckind) (rkind : ComponentKind) : ComponentDescriptor :=
  mkDescriptor kind name scope Simulated (DefaultReplicator k rkind).

(** Kinds 1 to 14. *)
Definition canonical_descriptors : list ComponentDescriptor := [
  simulated (mkKind 1) "Transform" Core CTransform (mkKind 1);
  simulated (mkKind 2) "Velocity" Core CVelocity (mkKind 2);
  simulated (mkKind 3) "AgentProperties" Platform CAgentProperties (mkKind 3);
  simulated (mkKind 4) "AgentConfiguration" Platform CAgentConfiguration (mkKind 4);
  simulated (mkKind 5) "AgentKind" Core CAgentKind (mkKind 5);
  simulated (mkKind 6) "PlayerName" Core CPlayerName (mkKind 6);
  simulated (mkKind 7) "FactionTag" Platform CFactionTag (mkKind 7);
  simulated (mkKind 8) "ResourceIntegrity" Platform CResourceIntegrity (mkKind 8);
  simulated (mkKind 9) "ResourceYield" Platform CResourceYield (mkKind 9);
  simulated (mkKind 10) "DataDrop" Platform CDataDrop (mkKind 10);
  simulated (mkKind 11) "Station" Core CStation (mkKind 11);
  simulated (mkKind 12) "ZoneGate" Core CZoneGate (mkKind 12);
  simulated (mkKind 13) "BeamMarker" Platform CBeamMarker BEAM_MARKER_KIND;
  simulated (mkKind 14) "DockedState" Core CDockedState (mkKind 14)].

(** Kinds 1024 to 1030. *)
Definition platform_descriptors : list ComponentDescriptor := [
  simulated EXTRACTION_BEAM_KIND "ExtractionBeam" Platform CExtractionBeam EXTRACTION_BEAM_KIND;
  simulated DATA_STORE_KIND "DataStore" Platform CDataStore DATA_STORE_KIND;
  simulated RESOURCE_KIND "Resource" Platform CResource RESOURCE_KIND;
  simulated TOOL_KIND "ToolComponent" Platform CTool TOOL_KIND;
  simulated PRIORITY_POOL_KIND "PriorityPoolComponent" Platform CPriorityPool PRIORITY_POOL_KIND;
  simulated INTEGRITY_POOL_KIND "IntegrityPoolComponent" Platform CIntegrityPool
    INTEGRITY_POOL_KIND;
  simulated DATA_DROP_KIND "DataDropComponent" Platform CDataDropComponent DATA_DROP_KIND].

(** Kinds 128 to 131. *)
Definition workspace_descriptors : list ComponentDescriptor := [
  simulated WORKSPACE_DEFINITION_KIND "WorkspaceDefinition" Platform CWorkspaceDefinition
    WORKSPACE_DEFINITION_KIND;
  simulated WORKSPACE_BOUNDS_KIND "WorkspaceBounds" Platform CWorkspaceBounds
    WORKSPACE_BOUNDS_KIND;
  simulated WORKSPACE_MEMBERSHIP_KIND "WorkspaceMembership" Platform CWorkspaceMembership
    WORKSPACE_MEMBERSHIP_KIND;
  mkDescriptor INPUT_COMMAND_KIND "InputCommand" Core Transient InputCommandReplicator].

Definition register_platform_components (registry : ComponentRegistry) :
    exec ComponentRegistry :=
  for_each register registry
    (canonical_descriptors ++ platform_descriptors ++ workspace_descriptors).
End registry.
Arguments ComponentReplicator W : clear implicits.
Arguments ComponentDescriptor W : clear implicits.

(** A delivery of input commands, each at the server tick it arrives at. *)
Section runs.
Context {W : Type} `{!EcsWorld W}.

Definition deliver (w : W) (e : Entity) (ev : Z * InputCommand) : W :=
  apply_command_update (w_put_res w RServerTick ev.1) e ev.2.

Definition last_client_tick (w : W) (e : Entity) : option Z :=
  li_last_client_tick <$> w_get w e CLatestInput.

(** The ticks of the commands that were stored, in order. *)
Fixpoint accepted_ticks (w : W) (e : Entity) (evs : list (Z * InputCommand)) : list Z :=
  match evs with
  | [] => []
  | ev :: evs' =>
      match last_client_tick w e with
      | Some last => if accepts ev.1 last (ic_tick ev.2) then [ic_tick ev.2] else []
      | None => []
      end ++ accepted_ticks (deliver w e ev) e evs'
  end.

(** The client stays synchronised: whenever a command arrives, the last accepted tick is within
    600 ticks of the server's. *)
Fixpoint synchronised (w : W) (e : Entity) (evs : list (Z * InputCommand)) : Prop :=
  match evs with
  | [] => True
  | ev :: evs' =>
      match last_client_tick w e with
      | Some last => in_server_window ev.1 last = true
      | None => False
      end /\ synchronised (deliver w e ev) e evs'
  end.
End runs.

(** ** Lemmas *)
Section lemmas.
Context {W : Type} `{!EcsWorld W, !EcsLaws W} {Wi : Wire} {PC : ProtocolConsts}.
Implicit Types (w : W) (e : Entity).

Lemma server_tick_put w s : server_tick (w_put_res w RServerTick s) = s.
Proof. unfold server_tick. by rewrite put_res_eq. Qed.

(** In a synchronised client only a later tick is accepted. *)
Lemma accepts_synced s last t :
  in_server_window s last = true -> accepts s last t = is_valid_jump last t.
Proof. intros H. unfold accepts. rewrite H. by rewrite andb_false_r, orb_false_r. Qed.

Lemma is_valid_jump_lt last t : is_valid_jump last t = true -> last < t.
Proof. unfold is_valid_jump. rewrite andb_true_iff, Z.ltb_lt. lia. Qed.

(** The two outcomes of a command for an entity that has already sent one. *)
Lemma apply_command_accept w e latest c :
  w_get w e CLatestInput = Some latest ->
  accepts (server_tick w) (li_last_client_tick latest) (ic_tick c) = true ->
  apply_command_update w e c = w_put w e CLatestInput (mkLatestInput c (ic_tick c)).
Proof.
  intros H Ha. unfold apply_command_update. by rewrite (get_alive w e CLatestInput latest H), H, Ha.
Qed.

Lemma apply_command_reject w e latest c :
  w_get w e CLatestInput = Some latest ->
  accepts (server_tick w) (li_last_client_tick latest) (ic_tick c) = false ->
  apply_command_update w e c = w.
Proof.
  intros H Ha. unfold apply_command_update. by rewrite (get_alive w e CLatestInput latest H), H, Ha.
Qed.

Lemma apply_command_first w e c :
  w_alive w e = true -> w_get w e CLatestInput = None ->
  let capped := Z.min (ic_tick c) (sat_add 64 (server_tick w) MAX_FORWARD_TICK_JUMP) in
  apply_command_update w e c = w_put w e CLatestInput (mkLatestInput (set_tick c capped) capped).
Proof. intros Ha H. unfold apply_command_update. by rewrite Ha, H. Qed.

Lemma deliver_last w e ev last :
  last_client_tick w e = Some last ->
  last_client_tick (deliver w e ev) e =
    Some (if accepts ev.1 last (ic_tick ev.2) then ic_tick ev.2 else last).
Proof.
  unfold last_client_tick. intros (l & Hl & ->)%fmap_Some. unfold deliver.
  assert (Hl' : w_get (w_put_res w RServerTick ev.1) e CLatestInput = Some l)
    by by rewrite put_res_get.
  destruct (accepts ev.1 _ _) eqn:E.
  - rewrite (apply_command_accept _ _ l); [| done | by rewrite server_tick_put].
    rewrite put_get_eq; [done|]. alive.
  - rewrite (apply_command_reject _ _ l); [by rewrite Hl' | done | by rewrite server_tick_put].
Qed.

Lemma input_apply_gate w e u :
  validate_access_gate w e = false -> input_apply w e u = w.
Proof. intros H. unfold input_apply. by rewrite H. Qed.

Lemma touches_input_apply w e u : touches [CLatestInput] [] w (input_apply w e u).
Proof.
  unfold input_apply. case_match; [reflexivity|]. case_match; [|reflexivity].
  unfold apply_command_update. repeat case_match; auto with ecs; reflexivity.
Qed.

Lemma touches_default_apply k w e u : touches [k] [] w (default_apply k w e u).
Proof. unfold default_apply. repeat case_match; auto with ecs; reflexivity. Qed.

Lemma tracked_input_apply w e u : tracked w (input_apply w e u).
Proof.
  unfold input_apply. case_match; [reflexivity|]. case_match; [|reflexivity].
  unfold apply_command_update. repeat case_match; auto with ecs; reflexivity.
Qed.

Lemma tracked_default_apply k w e u : tracked w (default_apply k w e u).
Proof. unfold default_apply. repeat case_match; auto with ecs; reflexivity. Qed.

Lemma register_fresh (reg : gmap ComponentKind (ComponentDescriptor W)) d :
  reg !! cd_kind d = None -> register reg d = Ret (<[cd_kind d := d]> reg).
Proof. intros H. unfold register. by rewrite bool_decide_eq_true_2. Qed.

(** Registering descriptors of distinct, unused kinds succeeds and adds exactly them. *)
Lemma register_all (l : list (ComponentDescriptor W)) reg :
  NoDup (cd_kind <$> l) -> (forall d, d ∈ l -> reg !! cd_kind d = None) ->
  exists reg', for_each register reg l = Ret reg' /\
    size reg' = (size reg + length l)%nat /\
    forall k d, reg' !! k = Some d <-> reg !! k = Some d \/ (d ∈ l /\ cd_kind d = k).
Proof.
  revert reg. induction l as [|d l IH]; intros reg Hnd Hfree.
  { exists reg. cbn. split_and!; [done | lia | set_solver]. }
  apply NoDup_cons in Hnd as [Hni Hnd].
  assert (Hd : reg !! cd_kind d = None) by (apply Hfree; set_solver).
  rewrite for_each_cons, register_fresh by done.
  change (Ret ?x ≫= ?f) with (f x). cbv beta.
  destruct (IH (<[cd_kind d := d]> reg)) as (reg' & -> & Hsz & Hlk); [done | |].
  { intros d' Hd'. rewrite lookup_insert_ne; [apply Hfree; set_solver|].
    intros E. apply Hni. rewrite E. by apply list_elem_of_fmap_2. }
  exists reg'. split_and!; [done | rewrite Hsz, map_size_insert_None by done; cbn [length]; lia |].
  intros k d'. rewrite Hlk, lookup_insert. case_decide as Hk.
  - subst k. split; [intros [[= ->]|]; set_solver|].
    intros [Hc|[[->|]%elem_of_cons E]]; [congruence | by left |].
    right. split; [done|]. done.
  - set_solver.
Qed.

(** The kinds the platform registers, in order. *)
Lemma platform_kinds :
  cd_kind <$> (canonical_descriptors ++ platform_descriptors ++ workspace_descriptors
                 : list (ComponentDescriptor W)) =
  (mkKind <$> [1; 2; 3; 4; 5; 6; 7; 8; 9; 10; 11; 12; 13; 14]) ++
  [EXTRACTION_BEAM_KIND; DATA_STORE_KIND; RESOURCE_KIND; TOOL_KIND; PRIORITY_POOL_KIND;
   INTEGRITY_POOL_KIND; DATA_DROP_KIND; WORKSPACE_DEFINITION_KIND; WORKSPACE_BOUNDS_KIND;
   WORKSPACE_MEMBERSHIP_KIND; INPUT_COMMAND_KIND].
Proof. done. Qed.

(** Every descriptor's replicator answers for the kind it is registered under. *)
Lemma platform_replicator_kinds :
  BEAM_MARKER_KIND = mkKind 13 ->
  Forall (fun d => rep_kind (cd_replicator d) = cd_kind d)
    (canonical_descriptors ++ platform_descriptors ++ workspace_descriptors
       : list (ComponentDescriptor W)).
Proof. intros H. repeat constructor. exact H. Qed.

Lemma register_again (reg : gmap ComponentKind (ComponentDescriptor W)) d :
  is_Some (reg !! cd_kind d) -> register reg d = Panic.
Proof. intros [d' H]. unfold register. by rewrite H, bool_decide_eq_false_2. Qed.

(** What [extract] reports is the stored value, on a first or a changed extraction. *)
Lemma default_extract_Some k kind w e n t last ev :
  default_extract k kind w e n t last = Some ev ->
  exists v p, w_get w e k = Some v /\ encode_component k v = Some p /\
    ev = mkReplicationEvent n kind p t.
Proof.
  unfold default_extract. intros (v & Hv & H)%bind_Some. exists v.
  destruct (w_alive w e); cbn in H; [|done].
  apply bind_Some in H as (c & _ & H). revert H. case_match; [|done].
  intros (p & Hp & [= <-])%bind_Some. eauto.
Qed.

Lemma default_extract_first k kind w e n t v p :
  w_get w e k = Some v -> encode_component k v = Some p ->
  default_extract k kind w e n t None = Some (mkReplicationEvent n kind p t).
Proof.
  intros Hv Hp. unfold default_extract. rewrite Hv. cbn.
  rewrite (get_alive w e k v Hv). cbn.
  destruct (proj2 (changed_get w e k)) as [c Hc]; [eauto|]. rewrite Hc. cbn. by rewrite Hp.
Qed.

Lemma default_apply_some k w e u v :
  w_alive w e = true -> decode_component k (cu_payload u) = Some v ->
  default_apply k w e u = w_put w e k v.
Proof. intros Ha Hd. unfold default_apply. by rewrite Hd, Ha. Qed.

Lemma accepted_sorted evs w e last :
  last_client_tick w e = Some last -> synchronised w e evs ->
  StronglySorted Z.lt (last :: accepted_ticks w e evs).
Proof.
  revert w last. induction evs as [|ev evs IH]; intros w last Hl Hs; cbn.
  { repeat constructor. }
  destruct Hs as [Hw Hs]. rewrite Hl in Hw |- *.
  specialize (IH _ _ (deliver_last w e ev last Hl) Hs).
  rewrite (accepts_synced _ _ _ Hw) in IH |- *.
  destruct (is_valid_jump last (ic_tick ev.2)) eqn:Hj; cbn; [|exact IH].
  constructor; [done|]. apply is_valid_jump_lt in Hj. constructor; [done|].
  inversion IH as [|? ? _ Hall]; subst. eapply Forall_impl; [exact Hall|]. lia.
Qed.
End lemmas.
#[export] Hint Resolve touches_input_apply touches_default_apply
  tracked_input_apply tracked_default_apply : ecs.

(** ** Properties *)
Section properties.
Context {W : Type} `{!EcsWorld W, !EcsLaws W} {Wi : Wire} {PC : ProtocolConsts}.
Implicit Types (w : W) (e : Entity).


(** A command for an agent that has sent one before is stored, with its own
    tick, exactly when it moves forward by at most 600 ticks or when it falls within 600 ticks of
    the server while the last accepted tick does not; otherwise the world is left as it was. *)
Theorem apply_command_update_spec w e latest c :
  w_get w e CLatestInput = Some latest ->
  let s := server_tick w in
  let last := li_last_client_tick latest in
  let t := ic_tick c in
  let near x := s - 600 <= x <= s + 600 in
  0 <= t <= umax 64 -> 0 <= last <= umax 64 -> 0 <= s <= umax 64 ->
  ((last < t <= last + 600 \/ (near t /\ ~ near last)) /\
     apply_command_update w e c = w_put w e CLatestInput (mkLatestInput c t)) \/
  (~ (last < t <= last + 600 \/ (near t /\ ~ near last)) /\ apply_command_update w e c = w).
Proof.
  intros Hl s last t near Ht Hlast Hs.
  assert (Hacc : accepts s last t = true <-> last < t <= last + 600 \/ (near t /\ ~ near last)).
  { unfold near, accepts, is_valid_jump, in_server_window, MAX_FORWARD_TICK_JUMP, sat_add, sat_sub.
    rewrite umax_64 in *. bdestr; cbn; split; (done || lia). }
  destruct (accepts s last t) eqn:E.
  - left. split; [by apply Hacc|]. by eapply apply_command_accept.
  - right. split; [intros H%Hacc; congruence|]. by eapply apply_command_reject.
Qed.

(** The first command of an agent is stored with its tick capped at 600
    ticks ahead of the server; when its own tick lies in the next 600, the very same command is
    stored a second time when it is delivered again. *)
Theorem first_input_accepted_twice w e c :
  w_alive w e = true -> w_get w e CLatestInput = None ->
  server_tick w + 600 < ic_tick c <= server_tick w + 1200 ->
  0 <= server_tick w -> ic_tick c <= umax 64 ->
  let w1 := apply_command_update w e c in
  last_client_tick w1 e = Some (server_tick w + 600) /\
  apply_command_update w1 e c = w_put w1 e CLatestInput (mkLatestInput c (ic_tick c)).
Proof.
  intros Ha Hn Ht Hs Hm w1. subst w1. rewrite (apply_command_first _ _ _ Ha Hn).
  set (s := server_tick w) in *.
  assert (Hc : Z.min (ic_tick c) (sat_add 64 s MAX_FORWARD_TICK_JUMP) = s + 600)
    by (unfold MAX_FORWARD_TICK_JUMP; ulia).
  rewrite Hc. unfold last_client_tick. rewrite put_get_eq by done. split; [done|].
  eapply apply_command_accept; [by apply put_get_eq|]. cbn.
  unfold accepts, is_valid_jump, MAX_FORWARD_TICK_JUMP.
  apply orb_true_iff. left. rewrite andb_true_iff, Z.ltb_lt, Z.leb_le. ulia.
Qed.

(** An input-command update changes nothing unless its entity is owned by a
    client, is a session agent, and the payload decodes to a valid command; when it does change
    something, only the latest input of that entity is affected. *)
Theorem input_apply_gated w e u :
  (input_apply w e u <> w ->
     is_Some (w_get w e CNetworkOwner) /\ is_Some (w_get w e CSessionAgent) /\
     exists c, decode_input (cu_payload u) = Some c /\ validate_input c = true) /\
  forall e' k, (e', k) <> (e, CLatestInput) ->
    w_get (input_apply w e u) e' k = w_get w e' k.
Proof.
  split.
  - intros Hne. unfold input_apply, validate_access_gate, deserialize_command in Hne.
    rewrite <- !has_Some.
    destruct (has w e CNetworkOwner), (has w e CSessionAgent); try done.
    destruct (decode_input (cu_payload u)) as [c|]; [|done]. cbn in Hne.
    destruct (validate_input c) eqn:Hv; [by eauto | done].
  - intros e' k Hne. unfold input_apply. case_match; [done|]. case_match; [|done].
    unfold apply_command_update. repeat case_match; try done;
      (apply put_get_ne; destruct (decide (e = e')); naive_solver).
Qed.

(** On an empty registry the platform's registration succeeds and registers
    exactly 25 component kinds, each under the kind its replicator answers for; registering any of
    them again panics. *)
Theorem register_platform_components_ok :
  BEAM_MARKER_KIND = mkKind 13 ->
  NoDup (cd_kind <$> (canonical_descriptors ++ platform_descriptors ++ workspace_descriptors
                        : list (ComponentDescriptor W))) ->
  exists reg, register_platform_components (W := W) ∅ = Ret reg /\ size reg = 25%nat /\
    forall k d, reg !! k = Some d ->
      cd_kind d = k /\ rep_kind (cd_replicator d) = k /\ register reg d = Panic.
Proof.
  intros Hb Hnd.
  destruct (register_all _ ∅ Hnd) as (reg & Hreg & Hsz & Hlk); [by intros; apply lookup_empty|].
  exists reg. split; [exact Hreg|]. split; [by rewrite Hsz|]. intros k d Hd.
  assert (Hd' := Hd). apply Hlk in Hd' as [H|[Hin Hk]]; [by rewrite lookup_empty in H|].
  pose proof (platform_replicator_kinds Hb) as Hall. rewrite Forall_forall in Hall.
  specialize (Hall d Hin). split; [done|]. split; [congruence|].
  apply register_again. rewrite Hk. eauto.
Qed.

(** Applying, to any live entity of any world, the event extracted
    for a component reproduces the component up to what serialisation drops. *)
Theorem replicate_roundtrip `{!WireLaws} k kind w e n t last ev w' e' v :
  default_extract k kind w e n t last = Some ev -> w_get w e k = Some v ->
  w_alive w' e' = true ->
  w_get (default_apply k w' e'
    (mkComponentUpdate (re_network_id ev) (re_component_kind ev) (re_payload ev) (re_tick ev))) e' k
  = Some (wire_norm k v).
Proof.
  intros (v' & p & Hv & Hp & ->)%default_extract_Some Hv' Ha.
  assert (v' = v) as -> by congruence.
  rewrite (default_apply_some _ _ _ _ (wire_norm k v)); [by apply put_get_eq | done |].
  by apply decode_encode.
Qed.
End properties.

(** ** Witnesses *)

(** A wire format for the witnesses: faction tags as one byte, input commands as their tick on
    two bytes, and any one byte for a transform that points to minus infinity. *)
Definition sample_wire : Wire := {|
  encode_component k := match k return ctype k -> option bytes with
                        | CFactionTag => fun v =>
                            (fun n => [n]) <$> Byte.of_N (Z.to_N (ft_faction_id v))
                            ≫= fun b => if decide (0 <= ft_faction_id v) then Some b else None
                        | _ => fun _ => None
                        end;
  decode_component k := match k return bytes -> option (ctype k) with
                        | CFactionTag => fun b =>
                            match b with
                            | [n] => Some (mkFactionTag (Z.of_N (Byte.to_N n)))
                            | _ => None
                            end
                        | CTransform => fun b =>
                            match b with
                            | [n] => Some (mkTransform f0 f0 f0 (S754_infinity true) 1)
                            | _ => None
                            end
                        | _ => fun _ => None
                        end;
  decode_input b := match b with
                    | [h; l] => Some (mkInputCommand
                        (256 * Z.of_N (Byte.to_N h) + Z.of_N (Byte.to_N l)) [] 0 None)
                    | _ => None
                    end;
  validate_input c := ic_actions_mask c <? 2 ^ 16 |}.

#[global] Instance sample_wire_laws : @WireLaws sample_wire.
Proof.
  split. intros k v b. destruct k; cbn; try discriminate.
  destruct v as [n]; cbn. destruct (Byte.of_N (Z.to_N n)) as [x|] eqn:E; cbn; [|done].
  case_decide; cbn; [|done]. intros [= <-]. apply Byte.to_of_N in E. rewrite E, Z2N.id by done. done.
Qed.

Module RegistryWitness.

Definition input (t : Z) : InputCommand := mkInputCommand t [] 0 None.

(** A session agent of client 7 that has not sent a command, and one that has. *)
Definition agent : Entity := (spawn_bundle (W := mworld) w_new []).1.
Definition w1 : mworld :=
  (spawn_bundle w_new [CNetworkOwner ⤳ mkCid 7; CSessionAgent ⤳ (); CFactionTag ⤳ mkFactionTag 3]).2.
Definition w2 : mworld := w_put w1 agent CLatestInput (mkLatestInput (input 10) 10).

Definition deliveries : list (Z * InputCommand) :=
  [(12, input 11); (12, input 11); (13, input 9); (14, input 15)].


Lemma apply_command_update_spec_witness :
  apply_command_update w2 agent (input 11) = w_put w2 agent CLatestInput (mkLatestInput (input 11) 11).
Proof.
  destruct (apply_command_update_spec w2 agent (mkLatestInput (input 10) 10) (input 11))
    as [[_ H]|[H _]]; [reflexivity | vm_compute; split; discriminate .. | exact H |].
  exfalso. apply H. left. vm_compute. split; [reflexivity | discriminate].
Defined.

Lemma first_input_accepted_twice_witness :
  last_client_tick (apply_command_update w1 agent (input 700)) agent = Some 600.
Proof.
  destruct (first_input_accepted_twice w1 agent (input 700)) as [H _];
    [reflexivity | reflexivity | split; [reflexivity | discriminate] | discriminate
    | discriminate | exact H].
Defined.

Lemma input_apply_gated_witness :
  w_get (@input_apply mworld _ sample_wire w2 agent
          (mkComponentUpdate (mkNid 1) (mkKind 128) [Byte.x00; Byte.x0b] 5)) agent CFactionTag
  = w_get w2 agent CFactionTag.
Proof.
  apply (proj2 (@input_apply_gated mworld _ _ sample_wire w2 agent
    (mkComponentUpdate (mkNid 1) (mkKind 128) [Byte.x00; Byte.x0b] 5))).
  discriminate.
Defined.

Lemma register_platform_components_ok_witness :
  exists reg, @register_platform_components mworld _ sample_wire documented_consts ∅ = Ret reg /\
    size reg = 25%nat.
Proof.
  destruct (@register_platform_components_ok mworld _ _ sample_wire documented_consts)
    as (reg & H1 & H2 & _); [reflexivity | apply (bool_decide_eq_true_1 _); vm_compute; reflexivity |].
  exists reg. exact (conj H1 H2).
Defined.

Lemma replicate_roundtrip_witness :
  w_get (@default_apply mworld _ sample_wire CFactionTag w2 agent
          (mkComponentUpdate (mkNid 1) (mkKind 7) [Byte.x03] 5)) agent CFactionTag
  = Some (mkFactionTag 3).
Proof.
  exact (@replicate_roundtrip mworld _ _ sample_wire _ CFactionTag (mkKind 7) w1 agent (mkNid 1) 5
    None (mkReplicationEvent (mkNid 1) (mkKind 7) [Byte.x03] 5) w2 agent (mkFactionTag 3)
    eq_refl eq_refl eq_refl).
Defined.
End RegistryWitness.
