(* ===== verification/Extraction.v ===== *)
(** * Resource extraction and payload collection

    [crates/aetheris-ecs-bevy/src/extraction.rs]: extraction beams move payload from resources to
    the data stores of agents, exhausted resources are despawned and tracked until they respawn,
    and agents pick up data drops that lie near them. *)

From stdpp Require Import gmap strings list sorting.
From Stdlib Require Import ZArith Lia.
From S2P Require Import Prelude F32 Protocol Components Ecs EcsModel.

Open Scope Z_scope.

(** [dx * dx + dy * dy] between two transforms. *)
Definition dist_sq (t a : Transform) : f32 :=
  let dx := (t_x t - t_x a)%f in
  let dy := (t_y t - t_y a)%f in
  (dx * dx + dy * dy)%f.

Record attempt := mkAttempt {
  at_agent : Entity; at_target : Entity; at_transform : Transform; at_store : DataStore;
  at_beam : ExtractionBeam }.

Record transfer := mkTransfer { tr_agent : Entity; tr_resource : Entity; tr_amount : Z }.

(** Payload one active beam moves, before the limits of the two stores. *)
Definition extraction_amount (beam : ExtractionBeam) (d2 : f32) : Z :=
  let dist := f_sqrt d2 in
  let efficiency := f_max (f1 - (dist / eb_extraction_range beam))%f (f_lit 1 10) in
  let amount := f_as_u16 (f_round (f_of_Z (eb_base_extraction_rate beam) * efficiency)%f) in
  Z.max amount 1.

Definition beam_off (b : ExtractionBeam) : ExtractionBeam :=
  mkExtractionBeam false (eb_target b) (eb_extraction_range b) (eb_base_extraction_rate b)
                   (eb_last_seen_input_tick b).

Definition set_count (s : DataStore) (n : Z) : DataStore := mkDataStore n (st_capacity s).
Definition set_remaining (r : Resource) (n : Z) : Resource := mkResource n (rs_total_capacity r).
Definition tick_respawn (r : ResourceRespawn) : ResourceRespawn :=
  mkResourceRespawn (rr_delay_ticks r) (sat_sub (rr_remaining r) 1) (rr_x r) (rr_y r)
                    (rr_total_capacity r).

Section extraction.
Context {W : Type} `{!EcsWorld W} {B : Type} `{!BiMap B}.
Implicit Types (w : W) (bimap : B).

(** ** [process_extraction] *)

(** Step 1: beams that are on, with their target; those without a known target are disabled. *)
Definition collect_attempt w bimap (acc : list attempt * list Entity) (e : Entity) :
    list attempt * list Entity :=
  let '(attempts, disable) := acc in
  match w_get w e CExtractionBeam, w_get w e CTransform, w_get w e CDataStore with
  | Some beam, Some transform, Some store =>
      if negb (eb_active beam) then acc else
      match eb_target beam with
      | Some target_id =>
          match bi_left bimap target_id with
          | Some target => (attempts ++ [mkAttempt e target transform store beam], disable)
          | None => (attempts, disable ++ [e])
          end
      | None => (attempts, disable ++ [e])
      end
  | _, _, _ => acc
  end.

Definition collect_attempts w bimap : list attempt * list Entity :=
  foldl (collect_attempt w bimap) ([], []) (w_query w [CExtractionBeam; CTransform; CDataStore]).

(** Step 2: range, capacity, and every tenth tick the amount. *)
Definition validate_attempt w (tick : Z) (acc : list transfer * list Entity) (a : attempt) :
    list transfer * list Entity :=
  let '(transfers, disable) := acc in
  match w_get w (at_target a) CResource, w_get w (at_target a) CTransform with
  | Some resource, Some t_transform =>
      let d2 := dist_sq t_transform (at_transform a) in
      let range := eb_extraction_range (at_beam a) in
      if (d2 >? range * range)%f then (transfers, disable ++ [at_agent a])
      else if st_capacity (at_store a) <=? st_payload_count (at_store a)
      then (transfers, disable ++ [at_agent a])
      else if (0 <? rs_payload_remaining resource) && is_multiple_of tick 10
      then (transfers ++ [mkTransfer (at_agent a) (at_target a) (extraction_amount (at_beam a) d2)],
            disable)
      else acc
  | _, _ => (transfers, disable ++ [at_agent a])
  end.

(** Step 3: switch beams off, then move the payload. *)
Definition disable_beams w (l : list Entity) : W :=
  modify_all w CExtractionBeam beam_off l.

Definition execute_transfer w (t : transfer) : exec W :=
  store ← unwrap (w_get w (tr_agent t) CDataStore);
  resource ← unwrap (w_get w (tr_resource t) CResource);
  room ← chk_sub (st_capacity store) (st_payload_count store);
  let amount := Z.min (Z.min (tr_amount t) (rs_payload_remaining resource)) room in
  if 0 <? amount then
    count ← chk_add 16 (st_payload_count store) amount;
    let w1 := w_put w (tr_agent t) CDataStore (set_count store count) in
    resource ← unwrap (w_get w1 (tr_resource t) CResource);
    remaining ← chk_sub (rs_payload_remaining resource) amount;
    Ret (w_put w1 (tr_resource t) CResource (set_remaining resource remaining))
  else Ret w.

(** Step 4: exhausted resources of the id map are announced, tracked, and reported back. *)
Definition exhausted_resources w : list (Entity * Transform * Z) :=
  omap (fun e => match w_get w e CResource, w_get w e CTransform with
                 | Some r, Some t =>
                     if rs_payload_remaining r =? 0 then Some (e, t, rs_total_capacity r) else None
                 | _, _ => None
                 end) (w_query w [CResource; CTransform]).

Definition exhaust (bimap : B) (acc : reliable_queue * list ResourceRespawn * list Entity)
    (x : Entity * Transform * Z) : reliable_queue * list ResourceRespawn * list Entity :=
  let '(events, trackers, to_despawn) := acc in
  let '(e, transform, capacity) := x in
  match bi_right bimap e with
  | Some network_id =>
      (events ++ [(None, WPlatformEvent (ResourceExhausted network_id))],
       trackers ++ [mkResourceRespawn 300 301 (t_x transform) (t_y transform) capacity],
       to_despawn ++ [e])
  | None => acc
  end.

Definition spawn_tracker w (t : ResourceRespawn) : W :=
  (spawn_bundle w [CResourceRespawn ⤳ t]).2.

Definition handle_resource_exhaustion w bimap : W * list Entity :=
  match exhausted_resources w with
  | [] => (w, [])
  | exhausted =>
      let '(events, trackers, to_despawn) := foldl (exhaust bimap) ([], [], []) exhausted in
      (foldl spawn_tracker (push_reliable w events) trackers, to_despawn)
  end.

Definition process_extraction w bimap : exec (W * list Entity) :=
  let tick := server_tick w in
  let '(attempts, disable) := collect_attempts w bimap in
  let '(transfers, disable) := foldl (validate_attempt w tick) ([], disable) attempts in
  let w := disable_beams w disable in
  w ← for_each execute_transfer w transfers;
  Ret (handle_resource_exhaustion w bimap).

(** ** [process_respawn] *)
Definition respawn_step (acc : W * list (f32 * f32 * Z) * list Entity) (e : Entity) :
    W * list (f32 * f32 * Z) * list Entity :=
  let '(w, to_spawn, to_despawn) := acc in
  match w_get w e CResourceRespawn with
  | Some r =>
      let r := tick_respawn r in
      let w := w_put w e CResourceRespawn r in
      if rr_remaining r =? 0
      then (w, to_spawn ++ [(rr_x r, rr_y r, rr_total_capacity r)], to_despawn ++ [e])
      else (w, to_spawn, to_despawn)
  | None => acc
  end.

Definition process_respawn w : W * list (f32 * f32 * Z) :=
  let '(w, to_spawn, to_despawn) := foldl respawn_step (w, [], []) (w_query w [CResourceRespawn]) in
  (foldl w_despawn w to_despawn, to_spawn).

(** ** [process_payload_collection] *)

(** The first agent within ten metres of the drop that has room. *)
Fixpoint find_collector w (d : Entity) (d_comp : DataDropComponent) (d_transform : Transform)
    (agents : list Entity) : option (Entity * Entity * Z) :=
  match agents with
  | [] => None
  | a :: agents' =>
      match w_get w a CDataStore, w_get w a CTransform with
      | Some a_store, Some a_transform =>
          if bool_decide (d = a) then find_collector w d d_comp d_transform agents'
          else if (dist_sq d_transform a_transform <? f_of_Z 10 * f_of_Z 10)%f then
            let available_space := sat_sub (st_capacity a_store) (st_payload_count a_store) in
            if 0 <? available_space
            then Some (a, d, Z.min (ddc_amount d_comp) available_space)
            else find_collector w d d_comp d_transform agents'
          else find_collector w d d_comp d_transform agents'
      | _, _ => find_collector w d d_comp d_transform agents'
      end
  end.

Definition find_collections w : list (Entity * Entity * Z) :=
  omap (fun d => match w_get w d CDataDropComponent, w_get w d CTransform with
                 | Some d_comp, Some d_transform =>
                     find_collector w d d_comp d_transform (w_query w [CDataStore; CTransform])
                 | _, _ => None
                 end) (w_query w [CDataDropComponent; CTransform]).

Definition apply_collection (bimap : B) (acc : W * list Entity) (c : Entity * Entity * Z) :
    exec (W * list Entity) :=
  let '(w, to_despawn) := acc in
  let '(a, d, amount) := c in
  if 0 <? amount then
    w ← match w_get w a CDataStore with
        | Some a_store =>
            count ← chk_add 16 (st_payload_count a_store) amount;
            Ret (w_put w a CDataStore (set_count a_store count))
        | None => Ret w
        end;
    '(w, to_despawn) ←
      match w_get w d CDataDropComponent with
      | Some d_comp =>
          if ddc_amount d_comp <=? amount
          then Ret (w_put w d CDataDropComponent (mkDataDropComponent 0), to_despawn ++ [d])
          else rest ← chk_sub (ddc_amount d_comp) amount;
               Ret (w_put w d CDataDropComponent (mkDataDropComponent rest), to_despawn)
      | None => Ret (w, to_despawn)
      end;
    Ret (match bi_right bimap d with
         | Some drop_id =>
             push_reliable w [(None, WPlatformEvent (PayloadCollected drop_id amount))]
         | None => w
         end, to_despawn)
  else Ret (w, to_despawn).

Definition process_payload_collection w bimap : exec (W * list Entity) :=
  for_each (apply_collection bimap) (w, []) (find_collections w).
End extraction.

(** ** Lemmas *)

(** The fields are 16-bit. *)
Definition u16_stores {W} `{!EcsWorld W} (w : W) : Prop := forall e,
  (forall s, w_get w e CDataStore = Some s ->
     in_u 16 (st_payload_count s) /\ in_u 16 (st_capacity s)) /\
  (forall r, w_get w e CResource = Some r -> in_u 16 (rs_payload_remaining r)).

(** All the payload there is: in the agents' stores and in the resources. *)
Definition payload {W} `{!EcsWorld W} (w : W) : Z :=
  ctotal CDataStore st_payload_count w + ctotal CResource rs_payload_remaining w.

Section extraction_lemmas.
Context {W : Type} `{!EcsWorld W, !EcsLaws W} {B : Type} `{!BiMap B, !BiMapLaws B}.
Implicit Types (w : W) (bimap : B).

(** What the steps of the extraction may do to the world. *)
Record extracts w0 w : Prop := {
  ex_alive e : w_alive w0 e = true -> w_alive w e = true;
  ex_store e s : w_get w0 e CDataStore = Some s ->
    exists n, w_get w e CDataStore = Some (set_count s n) /\ st_payload_count s <= n /\
      (n = st_payload_count s \/ n <= st_capacity s);
  ex_resource e r : w_get w0 e CResource = Some r ->
    exists n, w_get w e CResource = Some (set_remaining r n) /\ n <= rs_payload_remaining r /\
      (0 <= rs_payload_remaining r -> 0 <= n);
  ex_frame e k : k ∉ [CDataStore; CResource; CExtractionBeam; CResourceRespawn] ->
    w_get w e k = w_get w0 e k;
  ex_total : payload w = payload w0;
}.

#[global] Instance extracts_preorder : PreOrder extracts.
Proof.
  split.
  - intros w. split; try done.
    + intros e [n c] H. exists n. cbn. auto with lia.
    + intros e [n c] H. exists n. cbn. auto with lia.
  - intros w1 w2 w3 H1 H2. split.
    + intros. by apply (ex_alive _ _ H2), (ex_alive _ _ H1).
    + intros e s Hs. destruct (ex_store _ _ H1 e s Hs) as (n & Hn & ? & ?).
      destruct (ex_store _ _ H2 e _ Hn) as (m & Hm & ? & ?). exists m. cbn in *.
      split; [done|]. lia.
    + intros e s Hs. destruct (ex_resource _ _ H1 e s Hs) as (n & Hn & ? & ?).
      destruct (ex_resource _ _ H2 e _ Hn) as (m & Hm & ? & ?). exists m. cbn in *.
      split; [done|]. lia.
    + intros e k Hk. by rewrite (ex_frame _ _ H2), (ex_frame _ _ H1).
    + by rewrite (ex_total _ _ H2), (ex_total _ _ H1).
Qed.

(** A step that leaves stores and resources alone. *)
Lemma extracts_frame w w' :
  (forall e, w_alive w e = true -> w_alive w' e = true) ->
  (forall e k, k <> CExtractionBeam -> k <> CResourceRespawn -> w_get w' e k = w_get w e k) ->
  extracts w w'.
Proof.
  intros Ha Hg. split; [done | | | |].
  - intros e [n c] H. exists n. rewrite Hg by done. cbn. auto with lia.
  - intros e [n c] H. exists n. rewrite Hg by done. cbn. auto with lia.
  - intros e k Hk. apply Hg; set_solver.
  - unfold payload. f_equal; (apply ctotal_frame; intros e; by apply Hg).
Qed.

Lemma extracts_disable w l : extracts w (disable_beams w l).
Proof.
  apply extracts_frame.
  - intros e He. unfold disable_beams. by rewrite (tc_alive _ _ _ _ (touches_modify_all _ _ _ _)).
  - intros e k Hk _. apply modify_all_get_ne. by right.
Qed.

(** *** One transfer *)
Definition transfer_ready w (t : transfer) : Prop :=
  exists s r, w_get w (tr_agent t) CDataStore = Some s /\
    w_get w (tr_resource t) CResource = Some r /\
    0 <= st_payload_count s <= st_capacity s /\ st_capacity s <= umax 16 /\
    0 <= rs_payload_remaining r.

Lemma transfer_ready_mono w w' t : extracts w w' -> transfer_ready w t -> transfer_ready w' t.
Proof.
  intros H (s & r & Hs & Hr & ? & ? & ?).
  destruct (ex_store _ _ H _ _ Hs) as (n & Hn & ? & ?).
  destruct (ex_resource _ _ H _ _ Hr) as (m & Hm & ? & ?).
  exists (set_count s n), (set_remaining r m). cbn. split_and!; (done || lia).
Qed.

(** Payload moved by a transfer. *)
Definition moved (t : transfer) (s : DataStore) (r : Resource) : Z :=
  Z.min (Z.min (tr_amount t) (rs_payload_remaining r)) (st_capacity s - st_payload_count s).

Lemma execute_transfer_eq w t s r :
  w_get w (tr_agent t) CDataStore = Some s -> w_get w (tr_resource t) CResource = Some r ->
  0 <= st_payload_count s <= st_capacity s -> st_capacity s <= umax 16 ->
  0 <= rs_payload_remaining r ->
  execute_transfer w t = Ret
    (if 0 <? moved t s r then
       w_put (w_put w (tr_agent t) CDataStore (set_count s (st_payload_count s + moved t s r)))
             (tr_resource t) CResource (set_remaining r (rs_payload_remaining r - moved t s r))
     else w).
Proof.
  intros Hs Hr Hc Hm Hp. unfold execute_transfer. rewrite Hs, Hr. cbn.
  rewrite chk_sub_Ret by lia. cbn. fold (moved t s r).
  destruct (Z.ltb_spec 0 (moved t s r)); [|done].
  assert (moved t s r <= st_capacity s - st_payload_count s) by (unfold moved; lia).
  assert (moved t s r <= rs_payload_remaining r) by (unfold moved; lia).
  rewrite chk_add_Ret by lia. cbn. rewrite put_get_ne by (by right). rewrite Hr. cbn.
  by rewrite chk_sub_Ret.
Qed.

Lemma extracts_transfer w t s r :
  w_get w (tr_agent t) CDataStore = Some s -> w_get w (tr_resource t) CResource = Some r ->
  0 < moved t s r ->
  extracts w
    (w_put (w_put w (tr_agent t) CDataStore (set_count s (st_payload_count s + moved t s r)))
           (tr_resource t) CResource (set_remaining r (rs_payload_remaining r - moved t s r))).
Proof.
  intros Hs Hr Hm. set (m := moved t s r) in *.
  assert (m <= st_capacity s - st_payload_count s) by (unfold m, moved; lia).
  assert (m <= rs_payload_remaining r) by (unfold m, moved; lia).
  assert (Has := get_alive _ _ _ _ Hs). assert (Har := get_alive _ _ _ _ Hr).
  split.
  - intros e He. by rewrite !put_alive.
  - intros e s' He. rewrite put_get_ne by (by right).
    destruct (decide (tr_agent t = e)) as [<-|].
    + assert (s' = s) as -> by congruence. rewrite put_get_eq by done.
      eexists. split; [done|]. lia.
    + rewrite put_get_ne by (by left). exists (st_payload_count s').
      destruct s'. cbn in *. auto with lia.
  - intros e r' He. destruct (decide (tr_resource t = e)) as [<-|].
    + assert (r' = r) as -> by congruence. rewrite put_get_eq by (by rewrite put_alive).
      eexists. split; [done|]. lia.
    + rewrite put_get_ne by (by left). rewrite put_get_ne by (by right).
      exists (rs_payload_remaining r'). destruct r'. cbn in *. auto with lia.
  - intros e k Hk. rewrite !put_get_ne by set_solver. done.
  - unfold payload. rewrite (ctotal_put_ne CDataStore) by done.
    rewrite (ctotal_put CDataStore _ _ _ s) by done.
    rewrite (ctotal_put CResource _ _ _ r) by (by rewrite put_get_ne by (by right)).
    rewrite (ctotal_put_ne CResource) by done. cbn. lia.
Qed.

Lemma execute_transfer_ok w t :
  transfer_ready w t -> exists w', execute_transfer w t = Ret w' /\ extracts w w'.
Proof.
  intros (s & r & Hs & Hr & Hc & Hm & Hp). rewrite (execute_transfer_eq w t s r) by done.
  eexists. split; [done|]. destruct (Z.ltb_spec 0 (moved t s r)); [|reflexivity].
  by apply extracts_transfer.
Qed.

Lemma execute_transfers_ok w l :
  Forall (transfer_ready w) l -> exists w', for_each execute_transfer w l = Ret w' /\ extracts w w'.
Proof.
  rewrite Forall_forall. intros Hl. apply (for_each_inv (extracts w)); [reflexivity|].
  intros w' t Ht Hw'. destruct (execute_transfer_ok w' t) as (w'' & H & Hw'').
  - eapply transfer_ready_mono; eauto.
  - exists w''. split; [done|]. by etrans.
Qed.

(** *** Steps 1 and 2, as list comprehensions *)
Definition attempts_of w bimap (e : Entity) : list attempt :=
  match w_get w e CExtractionBeam, w_get w e CTransform, w_get w e CDataStore with
  | Some beam, Some transform, Some store =>
      if negb (eb_active beam) then [] else
      match eb_target beam ≫= bi_left bimap with
      | Some target => [mkAttempt e target transform store beam]
      | None => []
      end
  | _, _, _ => []
  end.

Definition lost_target w bimap (e : Entity) : list Entity :=
  match w_get w e CExtractionBeam, w_get w e CTransform, w_get w e CDataStore with
  | Some beam, Some transform, Some store =>
      if negb (eb_active beam) then [] else
      match eb_target beam ≫= bi_left bimap with
      | Some target => []
      | None => [e]
      end
  | _, _, _ => []
  end.

Definition attempt_valid w (a : attempt) : bool :=
  match w_get w (at_target a) CResource, w_get w (at_target a) CTransform with
  | Some resource, Some t_transform =>
      let range := eb_extraction_range (at_beam a) in
      negb (dist_sq t_transform (at_transform a) >? range * range)%f &&
      (st_payload_count (at_store a) <? st_capacity (at_store a))
  | _, _ => false
  end.

Definition transfers_of w (tick : Z) (a : attempt) : list transfer :=
  match w_get w (at_target a) CResource, w_get w (at_target a) CTransform with
  | Some resource, Some t_transform =>
      if attempt_valid w a && (0 <? rs_payload_remaining resource) && is_multiple_of tick 10
      then [mkTransfer (at_agent a) (at_target a)
              (extraction_amount (at_beam a) (dist_sq t_transform (at_transform a)))]
      else []
  | _, _ => []
  end.

Definition invalid_agent w (a : attempt) : list Entity :=
  if attempt_valid w a then [] else [at_agent a].

Lemma collect_attempts_eq w bimap :
  let l := w_query w [CExtractionBeam; CTransform; CDataStore] in
  collect_attempts w bimap = (l ≫= attempts_of w bimap, l ≫= lost_target w bimap).
Proof.
  cbv zeta. unfold collect_attempts.
  apply (foldl_pair_app _ (attempts_of w bimap) (lost_target w bimap) _ [] []).
  intros a b e. unfold collect_attempt, attempts_of, lost_target.
  repeat case_match; cbn in *; simplify_eq; rewrite ?app_nil_r; try done; congruence.
Qed.

Lemma validate_attempts_eq w tick l d :
  foldl (validate_attempt w tick) ([], d) l =
    (l ≫= transfers_of w tick, d ++ (l ≫= invalid_agent w)).
Proof.
  apply (foldl_pair_app _ (transfers_of w tick) (invalid_agent w) _ [] d). intros a b x.
  unfold validate_attempt, transfers_of, invalid_agent, attempt_valid.
  repeat case_match; bdestr; cbn in *; simplify_eq; rewrite ?app_nil_r; try done; lia.
Qed.

(** What an attempt of the list was made from. *)
Lemma attempts_of_inv w bimap e a :
  a ∈ attempts_of w bimap e ->
  at_agent a = e /\ w_get w e CExtractionBeam = Some (at_beam a) /\
  w_get w e CTransform = Some (at_transform a) /\ w_get w e CDataStore = Some (at_store a) /\
  eb_active (at_beam a) = true /\ eb_target (at_beam a) ≫= bi_left bimap = Some (at_target a).
Proof.
  unfold attempts_of. destruct (w_get w e CExtractionBeam) as [b|]; [|set_solver].
  destruct (w_get w e CTransform) as [t|]; [|set_solver].
  destruct (w_get w e CDataStore) as [s|]; [|set_solver].
  destruct (eb_active b) eqn:Eb; cbn; [|set_solver].
  destruct (eb_target b ≫= bi_left bimap) eqn:Et; [|set_solver].
  intros ->%list_elem_of_singleton. cbn. done.
Qed.

Lemma attempt_valid_room w a :
  attempt_valid w a = true ->
  is_Some (w_get w (at_target a) CResource) /\
  st_payload_count (at_store a) < st_capacity (at_store a).
Proof.
  unfold attempt_valid. repeat case_match; try done. rewrite andb_true_iff, Z.ltb_lt. naive_solver.
Qed.

Lemma transfers_ready w bimap tick :
  u16_stores w ->
  Forall (transfer_ready w)
    ((w_query w [CExtractionBeam; CTransform; CDataStore] ≫= attempts_of w bimap)
       ≫= transfers_of w tick).
Proof.
  intros Hu. apply Forall_forall. intros t (a & Ht & Ha)%list_elem_of_bind.
  apply list_elem_of_bind in Ha as (e & Ha & _).
  apply attempts_of_inv in Ha as (<- & _ & _ & Hs & _).
  unfold transfers_of in Ht. destruct (w_get w (at_target a) CResource) as [r|] eqn:Er; [|set_solver].
  destruct (w_get w (at_target a) CTransform); [|set_solver].
  destruct (attempt_valid w a) eqn:Ev; cbn in Ht; [|set_solver].
  revert Ht. case_match; [|set_solver]. intros ->%list_elem_of_singleton.
  apply attempt_valid_room in Ev as [_ Hroom].
  destruct (proj1 (Hu (at_agent a)) _ Hs) as [[] []].
  destruct (proj2 (Hu (at_target a)) _ Er) as [].
  exists (at_store a), r. cbn. split_and!; (done || lia).
Qed.

(** *** Exhaustion *)
Definition exhausted_pairs w bimap : list (NetworkId * ResourceRespawn * Entity) :=
  exhausted_resources w ≫= fun '(e, t, c) =>
    match bi_right bimap e with
    | Some n => [(n, mkResourceRespawn 300 301 (t_x t) (t_y t) c, e)]
    | None => []
    end.

Definition exhausted_event (p : NetworkId * ResourceRespawn * Entity) : option ClientId * WireEvent :=
  (None, WPlatformEvent (ResourceExhausted p.1.1)).

Lemma handle_resource_exhaustion_eq w bimap :
  let l := exhausted_pairs w bimap in
  handle_resource_exhaustion w bimap =
    match exhausted_resources w with
    | [] => (w, [])
    | _ => (foldl spawn_tracker (push_reliable w (exhausted_event <$> l)) ((fun p => p.1.2) <$> l),
            (fun p => p.2) <$> l)
    end.
Proof.
  cbv zeta. unfold handle_resource_exhaustion, exhausted_pairs.
  destruct (exhausted_resources w) as [|x l]; [done|].
  rewrite (foldl_triple_app (exhaust bimap)
    (fun x => match bi_right bimap x.1.1 with
              | Some n => [(None, WPlatformEvent (ResourceExhausted n))] | None => [] end)
    (fun x => match bi_right bimap x.1.1 with
              | Some n => [mkResourceRespawn 300 301 (t_x x.1.2) (t_y x.1.2) x.2] | None => [] end)
    (fun x => match bi_right bimap x.1.1 with Some n => [x.1.1] | None => [] end)).
  2: { intros a b c [[e t] n]. cbn. destruct (bi_right bimap e); by rewrite ?app_nil_r. }
  cbn [app]. generalize (x :: l). clear x l. intros l.
  assert (Hm : forall {A} (f : NetworkId * ResourceRespawn * Entity -> A)
      (g : Entity * Transform * Z -> list A),
    (forall e t c, g (e, t, c) = f <$> match bi_right bimap e with
       | Some n => [(n, mkResourceRespawn 300 301 (t_x t) (t_y t) c, e)] | None => [] end) ->
    l ≫= g = f <$> (l ≫= fun '(e, t, c) => match bi_right bimap e with
       | Some n => [(n, mkResourceRespawn 300 301 (t_x t) (t_y t) c, e)] | None => [] end)).
  { intros A f g Hg. induction l as [|[[e t] c] l IH]; [done|].
    cbn. rewrite fmap_app, <- IH, Hg. done. }
  f_equal; [f_equal; [f_equal|]|];
    (apply Hm; intros; cbn; destruct (bi_right bimap e); done).
Qed.

Lemma exhausted_resources_in w e t c :
  (e, t, c) ∈ exhausted_resources w <-> exists r, w_get w e CResource = Some r /\
    w_get w e CTransform = Some t /\ rs_payload_remaining r = 0 /\ c = rs_total_capacity r.
Proof.
  unfold exhausted_resources. rewrite list_elem_of_omap. split.
  - intros (e' & _ & H). destruct (w_get w e' CResource) as [r|] eqn:Er; [|done].
    destruct (w_get w e' CTransform) as [t'|] eqn:Et; [|done].
    destruct (Z.eqb_spec (rs_payload_remaining r) 0); [|done]. injection H as -> -> <-. eauto.
  - intros (r & Hr & Ht & Hz & ->). exists e. rewrite Hr, Ht, Hz. split; [|done].
    apply query_spec. split; [exact (get_alive _ _ _ _ Hr)|].
    intros k Hk. repeat (apply elem_of_cons in Hk as [->|Hk]; [by eexists|]).
    by apply not_elem_of_nil in Hk.
Qed.

Lemma exhausted_pairs_in w bimap e r t n :
  w_get w e CResource = Some r -> w_get w e CTransform = Some t ->
  bi_right bimap e = Some n -> rs_payload_remaining r = 0 ->
  (n, mkResourceRespawn 300 301 (t_x t) (t_y t) (rs_total_capacity r), e) ∈ exhausted_pairs w bimap.
Proof.
  intros Hr Ht Hn Hz. unfold exhausted_pairs. apply list_elem_of_bind.
  exists (e, t, rs_total_capacity r). rewrite Hn. split; [set_solver|].
  apply exhausted_resources_in. eauto.
Qed.

Lemma exhausted_pairs_entities w bimap e :
  e ∈ ((fun p => p.2) <$> exhausted_pairs w bimap) <-> exists r t n,
    w_get w e CResource = Some r /\ w_get w e CTransform = Some t /\
    bi_right bimap e = Some n /\ rs_payload_remaining r = 0.
Proof.
  rewrite list_elem_of_fmap. split.
  - intros (p & -> & H). unfold exhausted_pairs in H.
    apply list_elem_of_bind in H as ([[e' t] c] & H & He).
    apply exhausted_resources_in in He as (r & Hr & Ht & Hz & _).
    destruct (bi_right bimap e') as [n|] eqn:En; [|set_solver].
    apply list_elem_of_singleton in H as ->. exists r, t, n. done.
  - intros (r & t & n & Hr & Ht & Hn & Hz). eexists. split; [|by eapply exhausted_pairs_in]. done.
Qed.

Lemma exhausted_pairs_events w bimap :
  exhausted_event <$> exhausted_pairs w bimap =
  omap (fun e => (fun n => (None, WPlatformEvent (ResourceExhausted n))) <$> bi_right bimap e)
    ((fun p => p.2) <$> exhausted_pairs w bimap).
Proof.
  unfold exhausted_pairs. induction (exhausted_resources w) as [|[[e t] c] l IH]; [done|].
  cbn. rewrite !fmap_app, omap_app, IH. f_equal.
  destruct (bi_right bimap e) as [n|] eqn:En; [|done]. cbn. by rewrite En.
Qed.

Lemma spawn_trackers_get w l e k :
  k <> CResourceRespawn -> w_get (foldl spawn_tracker w l) e k = w_get w e k.
Proof.
  intros Hk. revert w. induction l as [|t l IH]; intros w; cbn; [done|].
  rewrite IH. unfold spawn_tracker. apply spawn_bundle_get_other. set_solver.
Qed.

Lemma spawn_trackers_alive w l e : w_alive w e = true -> w_alive (foldl spawn_tracker w l) e = true.
Proof.
  revert w. induction l as [|t l IH]; intros w He; cbn; [done|].
  apply IH. unfold spawn_tracker. rewrite spawn_bundle_alive, He. apply orb_true_r.
Qed.

Lemma spawn_trackers_keep w l e k v :
  w_get w e k = Some v -> w_get (foldl spawn_tracker w l) e k = Some v.
Proof.
  revert w. induction l as [|t l IH]; intros w He; cbn; [done|].
  apply IH. unfold spawn_tracker. rewrite spawn_bundle_get_ne; [done|]. alive.
Qed.

Lemma spawn_trackers_res w l r : w_res (foldl spawn_tracker w l) r = w_res w r.
Proof.
  revert w. induction l as [|t l IH]; intros w; cbn; [done|].
  rewrite IH. apply spawn_bundle_res.
Qed.

(** Each tracker of the list is an entity of its own. *)
Lemma spawn_trackers_in w l t :
  t ∈ l -> exists e, w_alive w e = false /\
    w_get (foldl spawn_tracker w l) e CResourceRespawn = Some t.
Proof.
  revert w. induction l as [|t' l IH]; intros w Ht; [set_solver|]. cbn.
  apply elem_of_cons in Ht as [<-|Ht].
  - exists (spawn_bundle w [CResourceRespawn ⤳ t]).1. split; [apply spawn_bundle_fresh|].
    apply (spawn_trackers_keep _ _ _ CResourceRespawn t). unfold spawn_tracker.
    apply (spawn_bundle_get w [] CResourceRespawn t []). set_solver.
  - destruct (IH (spawn_tracker w t') Ht) as (e & Ha & He). exists e. split; [|done].
    unfold spawn_tracker in Ha. rewrite spawn_bundle_alive, orb_false_iff in Ha. naive_solver.
Qed.

Lemma extracts_exhaustion w bimap : extracts w (handle_resource_exhaustion w bimap).1.
Proof.
  rewrite handle_resource_exhaustion_eq. cbv zeta.
  destruct (exhausted_resources w) as [|x l]; [reflexivity|]. cbn [fst]. apply extracts_frame.
  - intros e He. apply spawn_trackers_alive. unfold push_reliable. by rewrite modify_res_alive.
  - intros e k _ Hk. rewrite spawn_trackers_get by done. apply modify_res_get.
Qed.

Lemma process_extraction_eq w bimap :
  let l := w_query w [CExtractionBeam; CTransform; CDataStore] in
  let attempts := l ≫= attempts_of w bimap in
  process_extraction w bimap =
    w' ← for_each execute_transfer
           (disable_beams w ((l ≫= lost_target w bimap) ++ (attempts ≫= invalid_agent w)))
           (attempts ≫= transfers_of w (server_tick w));
    Ret (handle_resource_exhaustion w' bimap).
Proof.
  cbv zeta. unfold process_extraction. rewrite collect_attempts_eq. cbv zeta iota beta.
  by rewrite validate_attempts_eq.
Qed.

Lemma process_extraction_total w bimap :
  u16_stores w -> exists w1 w2,
    for_each execute_transfer
      (disable_beams w
        ((w_query w [CExtractionBeam; CTransform; CDataStore] ≫= lost_target w bimap) ++
         ((w_query w [CExtractionBeam; CTransform; CDataStore] ≫= attempts_of w bimap)
            ≫= invalid_agent w)))
      ((w_query w [CExtractionBeam; CTransform; CDataStore] ≫= attempts_of w bimap)
         ≫= transfers_of w (server_tick w)) = Ret w1 /\
    process_extraction w bimap = Ret (w2, (handle_resource_exhaustion w1 bimap).2) /\
    w2 = (handle_resource_exhaustion w1 bimap).1 /\
    extracts w w1 /\ extracts w w2.
Proof.
  intros Hu. rewrite process_extraction_eq. cbv zeta.
  set (d := _ ++ (_ ≫= invalid_agent w)).
  pose proof (transfers_ready w bimap (server_tick w) Hu) as Hr.
  assert (Hd := extracts_disable w d).
  destruct (execute_transfers_ok (disable_beams w d)
    ((w_query w [CExtractionBeam; CTransform; CDataStore] ≫= attempts_of w bimap)
       ≫= transfers_of w (server_tick w))) as (w1 & H1 & He).
  { eapply Forall_impl; [exact Hr|]. intros. by eapply transfer_ready_mono. }
  exists w1, (handle_resource_exhaustion w1 bimap).1. rewrite H1.
  split_and!; [done | cbn; f_equal; by destruct (handle_resource_exhaustion w1 bimap) | done | |].
  - by etrans.
  - do 2 (etrans; [eassumption|]). apply extracts_exhaustion.
Qed.

(** *** Beams *)

(** A beam keeps running on a known target that is a resource in range, while its agent has
    room. *)
Definition valid_target w bimap (e : Entity) (b : ExtractionBeam) (t : Transform) (s : DataStore) :
    bool :=
  match eb_target b ≫= bi_left bimap with
  | Some target => attempt_valid w (mkAttempt e target t s b)
  | None => false
  end.

Lemma execute_transfer_touches w t w' :
  execute_transfer w t = Ret w' -> touches [CDataStore; CResource] [] w w'.
Proof.
  unfold execute_transfer. intros H. exec_inv. destruct (0 <? _) in H; exec_inv; [|reflexivity].
  touching.
Qed.

Lemma execute_transfers_touches w l w' :
  for_each execute_transfer w l = Ret w' -> touches [CDataStore; CResource] [] w w'.
Proof.
  intros H. apply (for_each_rel (touches [CDataStore; CResource] []) _ _ _ _ H).
  intros. by eapply execute_transfer_touches.
Qed.

Lemma exhaustion_get w bimap e k :
  k <> CResourceRespawn -> w_get (handle_resource_exhaustion w bimap).1 e k = w_get w e k.
Proof.
  intros Hk. rewrite handle_resource_exhaustion_eq. cbv zeta.
  destruct (exhausted_resources w); [done|]. cbn [fst]. rewrite spawn_trackers_get by done.
  apply modify_res_get.
Qed.

(** The beams step 3 switches off. *)
Lemma disabled_iff w bimap e b t s :
  w_get w e CExtractionBeam = Some b -> w_get w e CTransform = Some t ->
  w_get w e CDataStore = Some s ->
  let l := w_query w [CExtractionBeam; CTransform; CDataStore] in
  e ∈ (l ≫= lost_target w bimap) ++ ((l ≫= attempts_of w bimap) ≫= invalid_agent w) <->
  eb_active b = true /\ valid_target w bimap e b t s = false.
Proof.
  intros Hb Ht Hs l. assert (Hl : e ∈ l).
  { apply query_spec. split; [exact (get_alive _ _ _ _ Hb)|].
    intros k Hk. repeat (apply elem_of_cons in Hk as [->|Hk]; [by eexists|]).
    by apply not_elem_of_nil in Hk. }
  rewrite elem_of_app, !list_elem_of_bind. setoid_rewrite list_elem_of_bind. split.
  - intros [(e' & He' & _)|(a & Ha & e' & He' & _)].
    + unfold lost_target in He'. repeat case_match; try by apply not_elem_of_nil in He'.
      apply list_elem_of_singleton in He' as <-. simplify_eq. unfold valid_target.
      case_match; [congruence|]. split; [by apply negb_false_iff | done].
    + apply attempts_of_inv in He' as (<- & ? & ? & ? & ? & Htg).
      unfold invalid_agent in Ha. destruct (attempt_valid w a) eqn:Ev; [set_solver|].
      apply list_elem_of_singleton in Ha as ->. simplify_eq. split; [done|].
      unfold valid_target. rewrite Htg. by destruct a.
  - unfold valid_target. intros [Ha Hv].
    destruct (eb_target b ≫= bi_left bimap) as [tg|] eqn:E.
    + right. exists (mkAttempt e tg t s b). unfold invalid_agent. rewrite Hv. cbn.
      split; [set_solver|]. exists e. split; [|done]. unfold attempts_of.
      rewrite Hb, Ht, Hs, Ha, E. set_solver.
    + left. exists e. split; [|done]. unfold lost_target. rewrite Hb, Ht, Hs, Ha, E. set_solver.
Qed.

(** *** Respawn timers *)
Definition due (r : ResourceRespawn) : bool := rr_remaining (tick_respawn r) =? 0.

Definition due_at w (e : Entity) : list Entity :=
  match w_get w e CResourceRespawn with Some r => if due r then [e] else [] | None => [] end.
Definition respawns_at w (e : Entity) : list (f32 * f32 * Z) :=
  match w_get w e CResourceRespawn with
  | Some r => if due r then [(rr_x r, rr_y r, rr_total_capacity r)] else []
  | None => []
  end.

Lemma respawn_loop w l ts td :
  NoDup l ->
  foldl respawn_step (w, ts, td) l =
    (modify_all w CResourceRespawn tick_respawn l,
     ts ++ (l ≫= respawns_at w), td ++ (l ≫= due_at w)).
Proof.
  revert w ts td. induction l as [|e l IH]; intros w ts td Hnd; cbn.
  { by rewrite !app_nil_r. }
  apply NoDup_cons in Hnd as [Hni Hnd].
  assert (Hext : forall x v, x ∈ l ->
    w_get (w_put w e CResourceRespawn v) x CResourceRespawn = w_get w x CResourceRespawn).
  { intros x v Hx. apply put_get_ne. left. set_solver. }
  assert (Hl : forall v, l ≫= respawns_at (w_put w e CResourceRespawn v) = l ≫= respawns_at w /\
                         l ≫= due_at (w_put w e CResourceRespawn v) = l ≫= due_at w).
  { intros v. split; apply Forall_bind_ext, Forall_forall; intros x Hx;
      unfold respawns_at, due_at; by rewrite Hext. }
  unfold modify_all, modify, respawns_at at 1, due_at at 1. cbn.
  destruct (w_get w e CResourceRespawn) as [r|] eqn:Er; cbn.
  - change (sat_sub (rr_remaining r) 1 =? 0) with (due r).
    destruct (due r); rewrite IH by done; destruct (Hl (tick_respawn r)) as [-> ->];
      unfold modify_all, modify; by rewrite <- ?app_assoc.
  - by rewrite IH.
Qed.

Lemma process_respawn_eq w :
  let l := w_query w [CResourceRespawn] in
  process_respawn w =
    (foldl w_despawn (modify_all w CResourceRespawn tick_respawn l) (l ≫= due_at w),
     l ≫= respawns_at w).
Proof. cbv zeta. unfold process_respawn. by rewrite respawn_loop by apply query_NoDup. Qed.

Lemma process_respawn_tracker w e r :
  w_get w e CResourceRespawn = Some r ->
  if due r then w_alive (process_respawn w).1 e = false /\
                (rr_x r, rr_y r, rr_total_capacity r) ∈ (process_respawn w).2
  else w_get (process_respawn w).1 e CResourceRespawn = Some (tick_respawn r).
Proof.
  intros Hr. rewrite process_respawn_eq. cbv zeta. cbn [fst snd].
  assert (Hq : e ∈ w_query w [CResourceRespawn]) by (apply query_one_Some; eauto).
  assert (Hdue : e ∈ (w_query w [CResourceRespawn] ≫= due_at w) <-> due r = true).
  { rewrite list_elem_of_bind. split.
    - intros (e' & H & _). unfold due_at in H. repeat case_match; try by apply not_elem_of_nil in H.
      apply list_elem_of_singleton in H as <-. congruence.
    - intros Hd. exists e. split; [|done]. unfold due_at. rewrite Hr, Hd. set_solver. }
  destruct (due r) eqn:Ed.
  - split.
    + rewrite despawn_all_alive. by rewrite bool_decide_eq_true_2 by by apply Hdue.
    + apply list_elem_of_bind. exists e. unfold respawns_at. rewrite Hr, Ed. set_solver.
  - rewrite despawn_all_get by (intros H%Hdue; congruence).
    rewrite modify_all_get; [by rewrite Hr | apply query_NoDup | done].
Qed.

(** The world after [n] calls. *)
Definition respawn_ticks (n : nat) w : W := Nat.iter n (fun w => (process_respawn w).1) w.

Definition with_remaining (r : ResourceRespawn) (n : Z) : ResourceRespawn :=
  mkResourceRespawn (rr_delay_ticks r) n (rr_x r) (rr_y r) (rr_total_capacity r).

Lemma respawn_ticks_remaining n w e r :
  w_get w e CResourceRespawn = Some r -> Z.of_nat n < rr_remaining r ->
  w_get (respawn_ticks n w) e CResourceRespawn =
    Some (with_remaining r (rr_remaining r - Z.of_nat n)).
Proof.
  intros Hr Hn. induction n as [|n IH].
  - cbn. rewrite Hr, Z.sub_0_r. by destruct r.
  - specialize (IH ltac:(lia)). pose proof (process_respawn_tracker _ _ _ IH) as H.
    unfold due in H. cbn in H. destruct (Z.eqb_spec (sat_sub (rr_remaining r - Z.of_nat n) 1) 0) as [E|].
    + unfold sat_sub in E. lia.
    + change (respawn_ticks (S n) w) with (process_respawn (respawn_ticks n w)).1. rewrite H.
      unfold tick_respawn, with_remaining. cbn. do 2 f_equal. unfold sat_sub. lia.
Qed.

(** *** Collection of drops *)

(** The payload in the agents' stores and in the drops. *)
Definition loose_payload w : Z :=
  ctotal CDataStore st_payload_count w + ctotal CDataDropComponent ddc_amount w.

Definition claim_agent (c : Entity * Entity * Z) : Entity := c.1.1.
Definition claim_drop (c : Entity * Entity * Z) : Entity := c.1.2.

(** A claim that can still be carried out in [w]. *)
Definition claim_ok w (c : Entity * Entity * Z) : Prop :=
  exists st dc, w_get w (claim_agent c) CDataStore = Some st /\
    w_get w (claim_drop c) CDataDropComponent = Some dc /\ c.2 <= ddc_amount dc.

Definition claim_fits w (c : Entity * Entity * Z) : Prop :=
  exists st, w_get w (claim_agent c) CDataStore = Some st /\
    0 <= st_payload_count st /\ st_payload_count st + c.2 <= st_capacity st <= umax 16.

Lemma find_collector_Some w d dc dt agents a d' m :
  find_collector w d dc dt agents = Some (a, d', m) ->
  d' = d /\ exists st, w_get w a CDataStore = Some st /\
    st_payload_count st < st_capacity st /\
    m = Z.min (ddc_amount dc) (st_capacity st - st_payload_count st).
Proof.
  induction agents as [|x agents IH]; cbn; [done|].
  destruct (w_get w x CDataStore) as [st|] eqn:Est; [|done].
  destruct (w_get w x CTransform) as [t|]; [|done].
  case_bool_decide; [done|]. destruct (f_lt _ _); [|done].
  destruct (Z.ltb_spec 0 (sat_sub (st_capacity st) (st_payload_count st))); [|done].
  intros [= <- <- <-]. split; [done|]. exists st. unfold sat_sub in *. split_and!; (done || lia).
Qed.

Lemma find_collections_ok w : Forall (claim_ok w) (find_collections w).
Proof.
  apply Forall_forall. intros [[a d] m] (d0 & _ & H)%list_elem_of_omap.
  destruct (w_get w d0 CDataDropComponent) as [dc|] eqn:Edc; [|done].
  destruct (w_get w d0 CTransform); [|done].
  apply find_collector_Some in H as (-> & st & Hst & _ & ->).
  exists st, dc. cbn. split_and!; (done || lia).
Qed.

Lemma find_collections_drops w : NoDup (claim_drop <$> find_collections w).
Proof.
  apply NoDup_omap_key; [apply query_NoDup|]. intros d [[a d'] m]. cbn.
  destruct (w_get w d CDataDropComponent); [|done]. destruct (w_get w d CTransform); [|done].
  by intros [-> _]%find_collector_Some.
Qed.

Lemma find_collections_fit w : u16_stores w -> Forall (claim_fits w) (find_collections w).
Proof.
  intros Hu. apply Forall_forall. intros [[a d] m] (d0 & _ & H)%list_elem_of_omap.
  destruct (w_get w d0 CDataDropComponent) as [dc|] eqn:Edc; [|done].
  destruct (w_get w d0 CTransform); [|done].
  apply find_collector_Some in H as (-> & st & Hst & ? & ->).
  destruct (proj1 (Hu a) _ Hst) as [[] []]. exists st. cbn. split_and!; (done || lia).
Qed.

(** Announces a collection. *)
Definition announce bimap w (d : Entity) (m : Z) : W :=
  match bi_right bimap d with
  | Some drop_id => push_reliable w [(None, WPlatformEvent (PayloadCollected drop_id m))]
  | None => w
  end.

Lemma announce_get bimap w d m e k : w_get (announce bimap w d m) e k = w_get w e k.
Proof. unfold announce, push_reliable. case_match; [apply modify_res_get | done]. Qed.

(** The world after a claim of [m > 0] units. *)
Definition collect bimap w a d m st dc : W :=
  announce bimap
    (w_put (w_put w a CDataStore (set_count st (st_payload_count st + m))) d CDataDropComponent
       (mkDataDropComponent (ddc_amount dc - m))) d m.

Lemma apply_collection_eq bimap w ds a d m st dc :
  w_get w a CDataStore = Some st -> w_get w d CDataDropComponent = Some dc ->
  m <= ddc_amount dc -> 0 < m ->
  apply_collection bimap (w, ds) (a, d, m) =
    if st_payload_count st + m <=? umax 16
    then Ret (collect bimap w a d m st dc, if ddc_amount dc <=? m then ds ++ [d] else ds)
    else Panic.
Proof.
  intros Hs Hd Hm Hp. unfold apply_collection. rewrite (proj2 (Z.ltb_lt 0 m) Hp), Hs.
  unfold chk_add. destruct (st_payload_count st + m <=? umax 16); [|done]. cbn.
  rewrite put_get_ne by (by right). rewrite Hd. cbn.
  destruct (Z.leb_spec (ddc_amount dc) m); cbn.
  - unfold collect, announce. replace (ddc_amount dc - m) with 0 by lia. done.
  - rewrite chk_sub_Ret by lia. done.
Qed.

Lemma apply_collection_zero bimap w ds a d m :
  m <= 0 -> apply_collection bimap (w, ds) (a, d, m) = Ret (w, ds).
Proof. intros. unfold apply_collection. by rewrite (proj2 (Z.ltb_ge 0 m)). Qed.

Lemma collect_store bimap w a d m st dc e :
  w_get w a CDataStore = Some st ->
  w_get (collect bimap w a d m st dc) e CDataStore =
    if decide (a = e) then Some (set_count st (st_payload_count st + m))
    else w_get w e CDataStore.
Proof.
  intros Hs. unfold collect. rewrite announce_get, put_get_ne by (by right). case_decide.
  - subst e. apply put_get_eq. alive.
  - apply put_get_ne. by left.
Qed.

Lemma collect_drop bimap w a d m st dc e :
  d <> e -> w_get (collect bimap w a d m st dc) e CDataDropComponent = w_get w e CDataDropComponent.
Proof. intros. unfold collect. rewrite announce_get, !put_get_ne; naive_solver. Qed.

Lemma collect_total bimap w a d m st dc :
  w_get w a CDataStore = Some st -> w_get w d CDataDropComponent = Some dc ->
  loose_payload (collect bimap w a d m st dc) = loose_payload w.
Proof.
  intros Hs Hd. unfold loose_payload, collect.
  rewrite !(ctotal_frame _ _ _ (announce _ _ _ _)) by (intros; apply announce_get).
  rewrite (ctotal_put_ne CDataStore) by done.
  rewrite (ctotal_put CDataStore _ _ _ st) by done.
  rewrite (ctotal_put CDataDropComponent _ _ _ dc) by (by rewrite put_get_ne by (by right)).
  rewrite (ctotal_put_ne CDataDropComponent) by done. cbn. lia.
Qed.

(** A claim of another drop stays possible. *)
Lemma claim_ok_collect bimap w a d m st dc c :
  w_get w a CDataStore = Some st -> claim_drop c <> d -> claim_ok w c ->
  claim_ok (collect bimap w a d m st dc) c.
Proof.
  intros Hs Hne (st' & dc' & Hst & Hdc & Hm). unfold claim_ok.
  rewrite collect_store by done. rewrite collect_drop by done. case_decide; eauto.
Qed.

Lemma collections_total bimap cs w ds w' ds' :
  NoDup (claim_drop <$> cs) -> Forall (claim_ok w) cs ->
  for_each (apply_collection bimap) (w, ds) cs = Ret (w', ds') ->
  loose_payload w' = loose_payload w.
Proof.
  revert w ds. induction cs as [|[[a d] m] cs IH]; intros w ds Hnd Hok HE.
  { cbn in HE. by injection HE as -> _. }
  apply NoDup_cons in Hnd as [Hni Hnd]. apply Forall_cons in Hok as [(st & dc & Hs & Hd & Hm) Hok].
  cbn in Hs, Hd, Hm. rewrite for_each_cons in HE.
  destruct (decide (0 < m)) as [Hp|Hp].
  - rewrite (apply_collection_eq bimap w ds a d m st dc) in HE by done.
    case_match; [|done]. cbn in HE. apply IH in HE; [|done|].
    + rewrite HE. by apply collect_total.
    + rewrite Forall_forall in Hok |- *. intros c Hc. apply claim_ok_collect; [done| |by apply Hok].
      intros E. apply Hni. by apply (list_elem_of_fmap_2' claim_drop cs c).
  - rewrite apply_collection_zero in HE by lia. cbn in HE. by eapply IH.
Qed.

Lemma collections_fit bimap cs w ds :
  NoDup (claim_drop <$> cs) -> NoDup (claim_agent <$> cs) ->
  Forall (claim_ok w) cs -> Forall (claim_fits w) cs ->
  exists w' ds', for_each (apply_collection bimap) (w, ds) cs = Ret (w', ds') /\
    forall e s, w_get w e CDataStore = Some s ->
      exists n, w_get w' e CDataStore = Some (set_count s n) /\ st_payload_count s <= n /\
        (n = st_payload_count s \/ n <= st_capacity s).
Proof.
  revert w ds. induction cs as [|[[a d] m] cs IH]; intros w ds Hd Ha Hok Hfit.
  { exists w, ds. split; [done|]. intros e [n c] Hs. exists n. cbn. auto with lia. }
  apply NoDup_cons in Hd as [Hnd Hd]. apply NoDup_cons in Ha as [Hna Ha].
  apply Forall_cons in Hok as [(st & dc & Hs & Hdc & Hm) Hok].
  apply Forall_cons in Hfit as [(st' & Hs' & Hn & Hf) Hfit].
  cbn in Hs, Hdc, Hm, Hs', Hf. assert (st' = st) as -> by congruence.
  rewrite for_each_cons. destruct (decide (0 < m)) as [Hp|Hp].
  2: { rewrite apply_collection_zero by lia. cbn. by apply IH. }
  rewrite (apply_collection_eq bimap w ds a d m st dc) by done.
  rewrite (proj2 (Z.leb_le _ _)) by lia. cbn.
  edestruct (IH (collect bimap w a d m st dc)) as (w' & ds' & HE & Hw'); [done | done | | |].
  - rewrite Forall_forall in Hok |- *. intros c Hc. apply claim_ok_collect; [done| |by apply Hok].
    intros E. apply Hnd. by apply (list_elem_of_fmap_2' claim_drop cs c).
  - rewrite Forall_forall in Hfit |- *. intros c Hc. unfold claim_fits.
    rewrite collect_store by done. rewrite decide_False; [by apply Hfit|].
    intros E. apply Hna. by apply (list_elem_of_fmap_2' claim_agent cs c).
  - exists w', ds'. split; [exact HE|]. intros e s He.
    destruct (decide (a = e)) as [<-|Hne].
    + assert (s = st) as -> by congruence.
      destruct (Hw' a (set_count st (st_payload_count st + m))) as (n & Hn' & H1 & H2).
      { rewrite collect_store by done. by rewrite decide_True. }
      exists n. cbn in *. split; [done|]. lia.
    + apply Hw'. rewrite collect_store by done. by rewrite decide_False.
Qed.
End extraction_lemmas.

(** ** Properties *)
Section extraction_properties.
Context {W : Type} `{!EcsWorld W, !EcsLaws W} {B : Type} `{!BiMap B, !BiMapLaws B}.
Implicit Types (w : W) (bimap : B).

(** C33 (safety): On 16-bit stores [process_extraction] never panics (none of its
    unwraps, additions and subtractions fails), an agent's payload only grows and never beyond the
    capacity of its store, and a resource's payload only shrinks and never below zero. *)
Theorem process_extraction_safe w bimap :
  u16_stores w ->
  exists w' despawned, process_extraction w bimap = Ret (w', despawned) /\
    (forall e s, w_get w e CDataStore = Some s ->
       exists n, w_get w' e CDataStore = Some (mkDataStore n (st_capacity s)) /\
         st_payload_count s <= n /\ (n = st_payload_count s \/ n <= st_capacity s)) /\
    (forall e r, w_get w e CResource = Some r ->
       exists n, w_get w' e CResource = Some (mkResource n (rs_total_capacity r)) /\
         0 <= n <= rs_payload_remaining r).
Proof.
  intros Hu. destruct (process_extraction_total w bimap Hu) as (w1 & w2 & _ & HE & _ & _ & Hx).
  exists w2, (handle_resource_exhaustion w1 bimap).2. split; [done|]. split.
  - intros e s Hs. apply (ex_store _ _ Hx e s Hs).
  - intros e r Hr. destruct (ex_resource _ _ Hx e r Hr) as (n & Hn & ? & ?).
    exists n. destruct (proj2 (Hu e) r Hr). split; [done | lia].
Qed.

(** C12 (invariant): Extraction neither creates nor destroys payload: the sum over
    all agents of what they carry and over all resources of what is left is the same before and
    after. *)
Theorem process_extraction_conserves w bimap w' despawned :
  u16_stores w -> process_extraction w bimap = Ret (w', despawned) -> payload w' = payload w.
Proof.
  intros Hu HE. destruct (process_extraction_total w bimap Hu) as (w1 & w2 & _ & HE' & _ & _ & Hx).
  rewrite HE in HE'. injection HE' as -> _. exact (ex_total _ _ Hx).
Qed.

(** After extraction a beam is exactly what it was, except that it is
    switched off when it was on and its target is not a known resource within its range or its
    agent's store is full. *)
Theorem process_extraction_beams w bimap w' despawned e b t s :
  u16_stores w -> process_extraction w bimap = Ret (w', despawned) ->
  w_get w e CExtractionBeam = Some b -> w_get w e CTransform = Some t ->
  w_get w e CDataStore = Some s ->
  w_get w' e CExtractionBeam =
    Some (if eb_active b && negb (valid_target w bimap e b t s) then beam_off b else b).
Proof.
  intros Hu HE Hb Ht Hs.
  destruct (process_extraction_total w bimap Hu) as (w1 & w2 & HT & HE' & Hw2 & _ & _).
  rewrite HE in HE'. injection HE' as -> _. rewrite Hw2, exhaustion_get by done.
  rewrite (tc_get _ _ _ _ (execute_transfers_touches _ _ _ HT)) by set_solver.
  pose proof (disabled_iff w bimap e b t s Hb Ht Hs) as Hd. cbv zeta in Hd.
  unfold disable_beams. destruct (eb_active b && negb (valid_target w bimap e b t s)) eqn:Ev.
  - rewrite modify_all_get_idem; [by rewrite Hb | done |].
    apply Hd. by rewrite andb_true_iff, negb_true_iff in Ev.
  - rewrite modify_all_get_ne; [done|]. left. intros [H1 H2]%Hd. by rewrite H1, H2 in Ev.
Qed.

(** The resources reported for despawning are exactly those of the id map whose
    payload is used up; each is announced to everybody once, in the same order, and gets a
    tracker of 301 remaining ticks at its position with its capacity, on a new entity. *)
Theorem handle_resource_exhaustion_spec w bimap q :
  w_res w RReliableEvents = Some q ->
  let '(w', despawned) := handle_resource_exhaustion w bimap in
  (forall e, e ∈ despawned <-> exists r t n, w_get w e CResource = Some r /\
     w_get w e CTransform = Some t /\ bi_right bimap e = Some n /\ rs_payload_remaining r = 0) /\
  w_res w' RReliableEvents = Some (q ++ omap (fun e => (fun n =>
     (None, WPlatformEvent (ResourceExhausted n))) <$> bi_right bimap e) despawned) /\
  (forall e r t, e ∈ despawned -> w_get w e CResource = Some r -> w_get w e CTransform = Some t ->
     exists tracker, w_alive w tracker = false /\
       w_get w' tracker CResourceRespawn =
         Some (mkResourceRespawn 300 301 (t_x t) (t_y t) (rs_total_capacity r))).
Proof.
  intros Hq. rewrite handle_resource_exhaustion_eq. cbv zeta.
  assert (Hin : forall e, e ∈ ((fun p => p.2) <$> exhausted_pairs w bimap) <-> exists r t n,
    w_get w e CResource = Some r /\ w_get w e CTransform = Some t /\
    bi_right bimap e = Some n /\ rs_payload_remaining r = 0).
  { apply exhausted_pairs_entities. }
  destruct (exhausted_resources w) as [|x l] eqn:El.
  { unfold exhausted_pairs in Hin. rewrite El in Hin. cbn in Hin. cbn. rewrite app_nil_r. set_solver. }
  split; [exact Hin|]. split.
  - rewrite spawn_trackers_res. unfold push_reliable. rewrite modify_res_eq, Hq. cbn. do 2 f_equal.
    apply exhausted_pairs_events.
  - intros e r t He Hr Ht. apply Hin in He as (r' & t' & n & ? & ? & Hn & Hz).
    assert (r' = r) as -> by congruence. assert (t' = t) as -> by congruence.
    edestruct (spawn_trackers_in (push_reliable w (exhausted_event <$> exhausted_pairs w bimap))
      ((fun p => p.1.2) <$> exhausted_pairs w bimap)) as (tr & Ha & Hg).
    2: { exists tr. split; [|exact Hg]. unfold push_reliable in Ha. by rewrite modify_res_alive in Ha. }
    apply (list_elem_of_fmap_2' (fun p => p.1.2) _
      (n, mkResourceRespawn 300 301 (t_x t) (t_y t) (rs_total_capacity r), e)); [|done].
    by apply exhausted_pairs_in.
Qed.

(** A tracker with [n > 0] ticks left is still there, one tick from the
    end, after [n - 1] calls of [process_respawn]; the [n]-th call reports its position and
    capacity and despawns it.  With the 301 ticks of a fresh tracker, and the first call in the
    tick of the exhaustion itself, the resource comes back 300 ticks later. *)
Theorem respawn_countdown w e r n :
  w_get w e CResourceRespawn = Some r -> rr_remaining r = Z.of_nat (S n) ->
  let w1 := respawn_ticks n w in
  w_get w1 e CResourceRespawn = Some (with_remaining r 1) /\
  (rr_x r, rr_y r, rr_total_capacity r) ∈ (process_respawn w1).2 /\
  w_alive (process_respawn w1).1 e = false.
Proof.
  intros Hr Hn w1.
  assert (Hw1 : w_get w1 e CResourceRespawn = Some (with_remaining r 1)).
  { unfold w1. rewrite (respawn_ticks_remaining n w e r Hr) by lia. do 3 f_equal. lia. }
  pose proof (process_respawn_tracker _ _ _ Hw1) as H.
  replace (due (with_remaining r 1)) with true in H by done. naive_solver.
Qed.

(** When agents pick up drops, what leaves the drops is exactly
    what enters the stores. *)
Theorem process_payload_collection_conserves w bimap w' despawned :
  process_payload_collection w bimap = Ret (w', despawned) -> loose_payload w' = loose_payload w.
Proof.
  intros HE. eapply collections_total; [apply find_collections_drops | | exact HE].
  apply find_collections_ok.
Qed.

(** On 16-bit stores, when no two drops are claimed by the same
    agent, collection does not panic and no store grows beyond its capacity. *)
Theorem process_payload_collection_capacity w bimap :
  u16_stores w -> NoDup (claim_agent <$> find_collections w) ->
  exists w' despawned, process_payload_collection w bimap = Ret (w', despawned) /\
    forall e s, w_get w e CDataStore = Some s ->
      exists n, w_get w' e CDataStore = Some (mkDataStore n (st_capacity s)) /\
        st_payload_count s <= n /\ (n = st_payload_count s \/ n <= st_capacity s).
Proof.
  intros Hu Hnd. apply collections_fit; [apply find_collections_drops | done | |].
  - apply find_collections_ok.
  - by apply find_collections_fit.
Qed.
End extraction_properties.

(** ** Witnesses and counterexamples *)
Module ExtractionWitness.

Definition at_pos (x y : Z) : Transform := mkTransform (f_of_Z x) (f_of_Z y) f0 f0 1.
Definition beam_on : ExtractionBeam := mkExtractionBeam true (Some (mkNid 2)) (f_of_Z 50) 10 None.

(** An agent at the origin whose beam points at a resource three metres away with 4 units left. *)
Definition p1 := spawn_bundle (W := mworld) (w_put_res w_new RReliableEvents [])
  [CExtractionBeam ⤳ beam_on; CTransform ⤳ at_pos 0 0; CDataStore ⤳ mkDataStore 0 10].
Definition p2 := spawn_bundle p1.2 [CResource ⤳ mkResource 4 500; CTransform ⤳ at_pos 3 0].
Definition w1 : mworld := p2.2.
Definition ids : bilist := bi_insert (bi_insert bi_empty (mkNid 1) p1.1) (mkNid 2) p2.1.

(** The same world once the resource is used up. *)
Definition w2 : mworld := match process_extraction w1 ids with Ret (w, _) => w | _ => w1 end.
Definition tracker : Entity := mkEntity 3.

(** An agent with room for ten units between two drops of six. *)
Definition d1 := spawn_bundle (W := mworld) (w_put_res w_new RReliableEvents [])
  [CTransform ⤳ at_pos 0 0; CDataStore ⤳ mkDataStore 0 10].
Definition d2 := spawn_bundle d1.2 [CDataDropComponent ⤳ mkDataDropComponent 6; CTransform ⤳ at_pos 3 0].
Definition d3 := spawn_bundle d2.2 [CDataDropComponent ⤳ mkDataDropComponent 6; CTransform ⤳ at_pos 0 3].

Definition u16_stores_b (w : mworld) : bool :=
  forallb (fun e => match w_get w e CDataStore with
                    | Some s => bool_decide (in_u 16 (st_payload_count s)) &&
                                bool_decide (in_u 16 (st_capacity s))
                    | None => true
                    end) (w_query w []) &&
  forallb (fun e => match w_get w e CResource with
                    | Some r => bool_decide (in_u 16 (rs_payload_remaining r))
                    | None => true
                    end) (w_query w []).

Lemma u16_stores_b_ok w : u16_stores_b w = true -> u16_stores w.
Proof.
  unfold u16_stores_b. rewrite andb_true_iff, !forallb_forall. intros [H1 H2] e.
  assert (Hq : forall k v, w_get w e k = Some v -> In e (w_query w [])).
  { intros k v Hv. apply list_elem_of_In, query_spec. split; [exact (get_alive _ _ _ _ Hv)|].
    intros ? ?%not_elem_of_nil. done. }
  split.
  - intros s Hs. specialize (H1 e (Hq CDataStore s Hs)). rewrite Hs in H1.
    by rewrite andb_true_iff, !bool_decide_eq_true in H1.
  - intros r Hr. specialize (H2 e (Hq CResource r Hr)). rewrite Hr in H2.
    by rewrite bool_decide_eq_true in H2.
Qed.

Lemma process_extraction_safe_witness :
  exists w' l, process_extraction w1 ids = Ret (w', l).
Proof.
  destruct (process_extraction_safe w1 ids) as (w' & l & H & _).
  - apply u16_stores_b_ok. vm_compute. reflexivity.
  - exists w', l. exact H.
Defined.

Lemma process_extraction_conserves_witness : payload w2 = 4.
Proof.
  rewrite (process_extraction_conserves w1 ids w2 [mkEntity 2]).
  - vm_compute. reflexivity.
  - apply u16_stores_b_ok. vm_compute. reflexivity.
  - vm_compute. reflexivity.
Defined.

Lemma process_extraction_beams_witness :
  w_get w2 p1.1 CExtractionBeam = Some beam_on.
Proof.
  rewrite (process_extraction_beams w1 ids w2 [mkEntity 2] p1.1 beam_on (at_pos 0 0)
             (mkDataStore 0 10)).
  - vm_compute. reflexivity.
  - apply u16_stores_b_ok. vm_compute. reflexivity.
  - vm_compute. reflexivity.
  - reflexivity.
  - reflexivity.
  - reflexivity.
Defined.

Definition drained : mworld := w_put w1 p2.1 CResource (mkResource 0 500).

Lemma handle_resource_exhaustion_spec_witness :
  w_res (handle_resource_exhaustion drained ids).1 RReliableEvents =
    Some [(None, WPlatformEvent (ResourceExhausted (mkNid 2)))].
Proof.
  pose proof (handle_resource_exhaustion_spec drained ids [] eq_refl) as H.
  destruct (handle_resource_exhaustion drained ids) as [w' l] eqn:E.
  cbn [fst]. destruct H as (_ & -> & _). vm_compute in E. injection E as _ <-. reflexivity.
Defined.

Lemma respawn_countdown_witness :
  w_alive (process_respawn (respawn_ticks 300 w2)).1 tracker = false.
Proof.
  apply (respawn_countdown w2 tracker (mkResourceRespawn 300 301 (f_of_Z 3) f0 500) 300);
    vm_compute; reflexivity.
Defined.

Lemma process_payload_collection_conserves_witness :
  exists w l, process_payload_collection d3.2 ids = Ret (w, l) /\ loose_payload w = 12.
Proof.
  destruct (process_payload_collection d3.2 ids) as [[w l]| |] eqn:E; [|vm_compute in E; discriminate..].
  exists w, l. split; [reflexivity|].
  rewrite (process_payload_collection_conserves d3.2 ids w l E). vm_compute. reflexivity.
Defined.

Lemma process_payload_collection_capacity_witness :
  exists w l, process_payload_collection d2.2 ids = Ret (w, l).
Proof.
  destruct (process_payload_collection_capacity d2.2 ids) as (w & l & H & _).
  - apply u16_stores_b_ok. vm_compute. reflexivity.
  - apply (bool_decide_eq_true_1 _). vm_compute. reflexivity.
  - exists w, l. exact H.
Defined.

(** An agent with room for ten units that stands between two
    drops of six ends the tick with twelve: every drop is matched against the room the store had at
    the start of the tick. *)
Theorem collection_overfills_store :
  exists w' despawned, process_payload_collection d3.2 ids = Ret (w', despawned) /\
    w_get w' d1.1 CDataStore = Some (mkDataStore 12 10).
Proof.
  destruct (process_payload_collection d3.2 ids) as [[w l]| |] eqn:E;
    [|vm_compute in E; discriminate..].
  exists w, l. split; [done|]. vm_compute in E. injection E as <- _. vm_compute. reflexivity.
Qed.
End ExtractionWitness.
