(* ===== verification/Interaction.v ===== *)
(** * Tools, beams, regeneration and training targets

    [crates/aetheris-ecs-bevy/src/interaction.rs]: tool use with its cooldown and auto-aim, the
    flight, lifetime and hits of beams, the regeneration of priority pools and the
    re-initialisation of training targets. *)

From stdpp Require Import gmap strings list sorting.
From Stdlib Require Import ZArith Lia SpecFloat.
From S2P Require Import Prelude F32 Protocol Components Ecs EcsModel Extraction.

Open Scope Z_scope.

Definition fired_at (t : Tool) (tick : Z) : Tool := mkTool (tl_cooldown_ticks t) tick.

Definition lifetime_step (m : BeamMarker) : BeamMarker :=
  mkBeamMarker (bm_beam_type m) (bm_spawn_pos m) (bm_max_range m) (bm_owner m)
               (sat_sub (bm_lifetime_ticks m) 1).

Definition tick_timer (t : RespawnTimer) : RespawnTimer :=
  mkRespawnTimer (sat_sub (rt_delay_ticks t) 1) (rt_location t).

Section interaction.
Context {W : Type} `{!EcsWorld W} {B : Type} `{!BiMap B} {PC : ProtocolConsts} {LM : Libm}.
Implicit Types (w : W) (bimap : B).

(** ** [process_interaction] *)

(** Step 1: the agents that use their tool, off cooldown. *)
Definition use_tool (tick : Z) (acc : W * list (Entity * Transform)) (e : Entity) :
    exec (W * list (Entity * Transform)) :=
  let '(w, use_attempts) := acc in
  match w_get w e CLatestInput, w_get w e CTool, w_get w e CTransform with
  | Some latest, Some tool, Some transform =>
      if negb (Z.land (ic_actions_mask (li_command latest)) ACTION_USE_TOOL =? 0) then
        ready ← chk_add 64 (tl_last_fired_tick tool) (tl_cooldown_ticks tool);
        if ready <=? tick
        then Ret (w_put w e CTool (fired_at tool tick), use_attempts ++ [(e, transform)])
        else Ret acc
      else Ret acc
  | _, _, _ => Ret acc
  end.

(** Step 2: the closest entity with integrity within 200 metres. *)
Definition aim_at w (attacker : Entity) (attacker_transform : Transform)
    (acc : option Entity * f32) (t : Entity) : option Entity * f32 :=
  let '(best_target, closest_dist_sq) := acc in
  match w_get w t CTransform with
  | Some t_transform =>
      if bool_decide (t = attacker) then acc
      else if negb (has w t CIntegrityPool) && negb (has w t CResourceIntegrity) then acc
      else
        let d2 := dist_sq t_transform attacker_transform in
        if (d2 <? closest_dist_sq)%f then (Some t, d2) else acc
  | None => acc
  end.

Definition auto_aim w (attacker : Entity) (attacker_transform : Transform) : option Entity :=
  (foldl (aim_at w attacker attacker_transform) (None, (f_of_Z 200 * f_of_Z 200)%f)
         (w_query w [CTransform])).1.

Definition aim_direction w (attacker_transform : Transform) (best : option Entity) :
    exec (f32 * f32) :=
  let ahead := (f_cos (t_rotation attacker_transform), f_sin (t_rotation attacker_transform)) in
  match best with
  | Some target =>
      target_transform ← unwrap (w_get w target CTransform);
      let dx := (t_x target_transform - t_x attacker_transform)%f in
      let dy := (t_y target_transform - t_y attacker_transform)%f in
      let dist := f_sqrt (dx * dx + dy * dy)%f in
      if (dist >? f_lit 1 1000)%f then Ret ((dx / dist)%f, (dy / dist)%f) else Ret ahead
  | None => Ret ahead
  end.

Definition fire_beam bimap w (a : Entity * Transform) : exec W :=
  let '(attacker, transform) := a in
  direction ← aim_direction w transform (auto_aim w attacker transform);
  let vel := ((direction.1 * f_of_Z 35)%f, (direction.2 * f_of_Z 35)%f) in
  let owner := default (mkNid 0) (bi_right bimap attacker) in
  Ret (modify_res w RBeamSpawnRequests (fun reqs =>
         reqs ++ [mkBeamSpawn (t_x transform, t_y transform) vel owner])).

Definition process_interaction w bimap : exec (W * list Entity) :=
  let tick := server_tick w in
  '(w, use_attempts) ← for_each (use_tool tick) (w, []) (w_query w [CLatestInput; CTool; CTransform]);
  w ← for_each (fire_beam bimap) w use_attempts;
  Ret (w, []).

(** ** [process_beams] *)

(** [apply_beam_hit], on the pools of entity [e]; the flag is [terminated].  Each subtraction is
    guarded by the comparison before it. *)
Definition apply_beam_hit w (e : Entity) : W * bool :=
  let amount := 25 in
  let '(w, remaining) :=
    match w_get w e CPriorityPool with
    | Some p =>
        if amount <=? pp_current p
        then (w_put w e CPriorityPool (mkPriorityPool (pp_current p - amount) (pp_max p)), 0)
        else (w_put w e CPriorityPool (mkPriorityPool 0 (pp_max p)), amount - pp_current p)
    | None => (w, amount)
    end in
  if 0 <? remaining then
    match w_get w e CIntegrityPool with
    | Some i =>
        let current := if remaining <=? ip_current i then ip_current i - remaining else 0 in
        (w_put w e CIntegrityPool (mkIntegrityPool current (ip_max i)), current =? 0)
    | None =>
        match w_get w e CResourceIntegrity with
        | Some r =>
            let integrity := if remaining <=? ri_integrity r then ri_integrity r - remaining else 0 in
            (w_put w e CResourceIntegrity (mkResourceIntegrity integrity (ri_max_integrity r)),
             integrity =? 0)
        | None => (w, false)
        end
    end
  else (w, false).

Record beam_data := mkBeamData {
  bd_entity : Entity; bd_spawn_pos : f32 * f32; bd_max_range : f32; bd_owner : NetworkId;
  bd_lifetime : Z; bd_x : f32; bd_y : f32 }.

Definition beams_in w : list beam_data :=
  omap (fun e => match w_get w e CBeamMarker, w_get w e CTransform with
                 | Some m, Some t =>
                     Some (mkBeamData e (bm_spawn_pos m) (bm_max_range m) (bm_owner m)
                                      (bm_lifetime_ticks m) (t_x t) (t_y t))
                 | _, _ => None
                 end) (w_query w [CBeamMarker; CTransform]).

Record beam_acc := mkBeamAcc {
  ba_world : W; ba_despawn : list Entity; ba_terminations : list Entity;
  ba_events : list PlatformEvent }.

(** Whether beam [b] hits entity [t]. *)
Definition beam_hits w bimap (b : beam_data) (t : Entity) : bool :=
  match w_get w t CTransform with
  | Some t_transform =>
      negb (bool_decide (t = bd_entity b) ||
            (negb (has w t CPriorityPool) && negb (has w t CIntegrityPool) &&
             negb (has w t CResourceIntegrity))) &&
      negb (bool_decide (bi_right bimap t = Some (bd_owner b))) &&
      (f_sq (t_x t_transform - bd_x b) + f_sq (t_y t_transform - bd_y b) <? f_of_Z 16)%f
  | None => false
  end.

(** The loop over targets: the first one hit takes the damage, and the beam is gone. *)
Fixpoint hit_first bimap (b : beam_data) (acc : beam_acc) (targets : list Entity) : beam_acc :=
  match targets with
  | [] => acc
  | t :: targets' =>
      if beam_hits (ba_world acc) bimap b t then
        let '(w, term) := apply_beam_hit (ba_world acc) t in
        mkBeamAcc w
          (ba_despawn acc ++ [bd_entity b])
          (if term then ba_terminations acc ++ [t] else ba_terminations acc)
          (match bi_right bimap t with
           | Some target_id => ba_events acc ++ [Interaction (bd_owner b) target_id 25]
           | None => ba_events acc
           end)
      else hit_first bimap b acc targets'
  end.

Definition beam_spent (b : beam_data) : bool :=
  (bd_lifetime b =? 0) ||
  (f_sq (bd_x b - fst (bd_spawn_pos b)) + f_sq (bd_y b - snd (bd_spawn_pos b))
     >? f_sq (bd_max_range b))%f.

Definition beam_step bimap (acc : beam_acc) (b : beam_data) : beam_acc :=
  if beam_spent b then
    mkBeamAcc (ba_world acc) (ba_despawn acc ++ [bd_entity b]) (ba_terminations acc) (ba_events acc)
  else
    let w := modify (ba_world acc) (bd_entity b) CBeamMarker lifetime_step in
    hit_first bimap b (mkBeamAcc w (ba_despawn acc) (ba_terminations acc) (ba_events acc))
              (w_query w [CTransform]).

Definition process_beams w bimap : W * list Entity * list Entity :=
  let acc := foldl (beam_step bimap) (mkBeamAcc w [] [] []) (beams_in w) in
  let w := match ba_events acc with
           | [] => ba_world acc
           | evs => push_reliable (ba_world acc) ((fun ev => (None, WPlatformEvent ev)) <$> evs)
           end in
  (w, ba_despawn acc, ba_terminations acc).

(** ** [process_regen] *)
Definition regen_step w (e : Entity) : W :=
  match w_get w e CPriorityPool, w_get w e CPriorityRegenTimer with
  | Some p, Some timer =>
      if 0 <? prt_ticks_until_regen timer
      then w_put w e CPriorityRegenTimer
             (mkPriorityRegenTimer (sat_sub (prt_ticks_until_regen timer) 1))
      else if pp_current p <? pp_max p
      then w_put w e CPriorityPool (mkPriorityPool (Z.min (pp_current p + 1) (pp_max p)) (pp_max p))
      else w
  | _, _ => w
  end.

Definition process_regen w : W := foldl regen_step w (w_query w [CPriorityPool; CPriorityRegenTimer]).

(** ** [process_target_reinitialization] *)
Definition reinit_step (acc : W * list (f32 * f32) * list Entity) (e : Entity) :
    W * list (f32 * f32) * list Entity :=
  let '(w, respawn_list, despawn_list) := acc in
  match w_get w e CRespawnTimer with
  | Some timer =>
      let timer := tick_timer timer in
      let w := w_put w e CRespawnTimer timer in
      if rt_delay_ticks timer =? 0 then
        (w, match rt_location timer with
            | Coordinate x y => respawn_list ++ [(x, y)]
            | OtherLocation _ => respawn_list
            end, despawn_list ++ [e])
      else (w, respawn_list, despawn_list)
  | None => acc
  end.

Definition process_target_reinitialization w : W * list (f32 * f32) :=
  let '(w, respawn_list, despawn_list) :=
    foldl reinit_step (w, [], []) (w_query w [CRespawnTimer]) in
  (foldl w_despawn w despawn_list, respawn_list).
End interaction.
Arguments beam_acc W : clear implicits.

(** ** Lemmas *)
Section interaction_lemmas.
Context {W : Type} `{!EcsWorld W, !EcsLaws W} {B : Type} `{!BiMap B, !BiMapLaws B}.
Context {PC : ProtocolConsts} {LM : Libm}.
Implicit Types (w : W) (bimap : B).

(** *** Tool use *)
Definition fires w (tick : Z) (e : Entity) : bool :=
  match w_get w e CLatestInput, w_get w e CTool with
  | Some latest, Some tool =>
      negb (Z.land (ic_actions_mask (li_command latest)) ACTION_USE_TOOL =? 0) &&
      (tl_last_fired_tick tool + tl_cooldown_ticks tool <=? tick)
  | _, _ => false
  end.

(** No tool's ready tick overflows. *)
Definition tools_ok w : Prop := forall e t,
  w_get w e CTool = Some t -> tl_last_fired_tick t + tl_cooldown_ticks t <= umax 64.

Definition attempt_at w (tick : Z) (e : Entity) : list (Entity * Transform) :=
  match w_get w e CTransform with
  | Some t => if fires w tick e then [(e, t)] else []
  | None => []
  end.

Definition fire_all w (tick : Z) (l : list Entity) : W :=
  foldl (fun w e => if fires w tick e then modify w e CTool (fun t => fired_at t tick) else w) w l.

Lemma fires_put w tick e v x : e <> x -> fires (w_put w e CTool v) tick x = fires w tick x.
Proof. intros H. unfold fires. by rewrite !put_get_ne by (by left). Qed.

Lemma use_tool_eq w tick acc e :
  e ∈ w_query w [CLatestInput; CTool; CTransform] -> tools_ok w ->
  use_tool tick (w, acc) e =
    Ret (if fires w tick e then modify w e CTool (fun t => fired_at t tick) else w,
         acc ++ attempt_at w tick e).
Proof.
  intros Hq Hok.
  destruct (query_get w _ e CLatestInput Hq) as [li Hli]; [set_solver|].
  destruct (query_get w _ e CTool Hq) as [t Ht]; [set_solver|].
  destruct (query_get w _ e CTransform Hq) as [tr Htr]; [set_solver|].
  unfold use_tool, attempt_at, fires, modify. rewrite Hli, Ht, Htr.
  destruct (negb _); cbn; [|by rewrite app_nil_r]. rewrite chk_add_Ret by (by eapply Hok). cbn.
  case_match; [done | by rewrite app_nil_r].
Qed.

Lemma tools_ok_fire w tick e :
  tools_ok w -> (forall t, w_get w e CTool = Some t -> tick + tl_cooldown_ticks t <= umax 64) ->
  tools_ok (modify w e CTool (fun t => fired_at t tick)).
Proof.
  intros Hok Hc x t Hx. destruct (decide (e = x)) as [<-|].
  - rewrite modify_get_eq in Hx. apply fmap_Some in Hx as (t' & Ht' & ->). cbn. by apply Hc.
  - rewrite modify_get_ne in Hx by (by left). by eapply Hok.
Qed.

Lemma use_tools_eq tick l w acc :
  NoDup l -> (forall e, e ∈ l -> e ∈ w_query w [CLatestInput; CTool; CTransform]) -> tools_ok w ->
  (forall e t, w_get w e CTool = Some t -> tick + tl_cooldown_ticks t <= umax 64) ->
  for_each (use_tool tick) (w, acc) l =
    Ret (fire_all w tick l, acc ++ (l ≫= attempt_at w tick)).
Proof.
  revert w acc. induction l as [|e l IH]; intros w acc Hnd Hq Hok Hc.
  { cbn. by rewrite app_nil_r. }
  apply NoDup_cons in Hnd as [Hni Hnd].
  rewrite for_each_cons, use_tool_eq by (done || apply Hq; set_solver).
  change (Ret ?x ≫= ?f) with (f x). cbv beta.
  set (w1 := if fires w tick e then modify w e CTool (fun t => fired_at t tick) else w).
  assert (Hne : forall x k, x <> e -> w_get w1 x k = w_get w x k).
  { intros x k Hx. unfold w1. case_match; [|done]. apply modify_get_ne. by left. }
  assert (Ht : touches [CTool] [] w w1) by (unfold w1; case_match; touching).
  rewrite IH; [|done|..].
  - cbn. rewrite <- app_assoc. unfold fire_all. cbn. fold w1. do 4 f_equal.
    apply Forall_bind_ext, Forall_forall. intros x Hx.
    assert (x <> e) by set_solver. unfold attempt_at, fires. by rewrite !Hne.
  - intros x Hx. assert (Hx' : x ∈ w_query w [CLatestInput; CTool; CTransform]) by set_solver.
    apply query_spec in Hx' as [Ha Hs]. apply query_spec. rewrite (tc_alive _ _ _ _ Ht).
    split; [done|]. intros k Hk. apply (tc_some _ _ _ _ Ht), (Hs k Hk).
  - unfold w1. case_match; [|done]. apply tools_ok_fire; [done|]. eauto.
  - intros x t Hx. destruct (decide (x = e)) as [->|]; [|rewrite Hne in Hx by done; eauto].
    unfold w1 in Hx. case_match; [|eauto]. rewrite modify_get_eq in Hx.
    apply fmap_Some in Hx as (t' & Ht' & ->). cbn. eauto.
Qed.

(** *** Auto-aim *)
Definition candidate w (attacker t : Entity) : Prop :=
  is_Some (w_get w t CTransform) /\ t <> attacker /\
  (is_Some (w_get w t CIntegrityPool) \/ is_Some (w_get w t CResourceIntegrity)).

Definition range_to w (tr : Transform) (t : Entity) : f32 :=
  match w_get w t CTransform with Some t_tr => dist_sq t_tr tr | None => S754_nan end.

Lemma aim_at_candidate w attacker tr acc t :
  candidate w attacker t ->
  aim_at w attacker tr acc t =
    if f_lt (range_to w tr t) acc.2 then (Some t, range_to w tr t) else acc.
Proof.
  intros ([t_tr Ht] & Hne & Hi). unfold aim_at, range_to. rewrite Ht.
  destruct acc as [best closest]. rewrite bool_decide_eq_false_2 by done.
  rewrite <- !has_Some in Hi. by destruct Hi as [-> | ->]; rewrite ?andb_false_r; cbn.
Qed.

Lemma aim_at_other w attacker tr acc t :
  ~ candidate w attacker t -> aim_at w attacker tr acc t = acc.
Proof.
  intros H. unfold aim_at. destruct acc as [best closest].
  destruct (w_get w t CTransform) eqn:Ht; [|done]. case_bool_decide; [done|].
  destruct (has w t CIntegrityPool) eqn:E1, (has w t CResourceIntegrity) eqn:E2; cbn; try done;
    (destruct H; split_and!; [by eexists | done |]);
    rewrite <- !has_Some; auto.
Qed.

#[global] Instance candidate_dec w attacker t : Decision (candidate w attacker t).
Proof. unfold candidate. apply _. Defined.

Definition aim_inv w attacker tr (seen : list Entity) (acc : option Entity * f32) : Prop :=
  (forall t, t ∈ seen -> candidate w attacker t -> f_lt (range_to w tr t) acc.2 = false) /\
  match acc.1 with
  | Some t => candidate w attacker t /\ acc.2 = range_to w tr t /\
              f_lt acc.2 (f_of_Z 200 * f_of_Z 200)%f = true
  | None => acc.2 = (f_of_Z 200 * f_of_Z 200)%f
  end.

Lemma aim_inv_step w attacker tr seen acc t :
  aim_inv w attacker tr seen acc -> aim_inv w attacker tr (seen ++ [t]) (aim_at w attacker tr acc t).
Proof.
  intros [Hmin Hbest]. destruct (decide (candidate w attacker t)) as [Hc|Hc].
  - rewrite aim_at_candidate by done. destruct (f_lt (range_to w tr t) acc.2) eqn:E.
    + split; cbn.
      * intros x [Hx| ->%list_elem_of_singleton]%elem_of_app Hcx; [|apply f_lt_irrefl].
        destruct (f_lt (range_to w tr x) (range_to w tr t)) eqn:E'; [|done].
        specialize (Hmin x Hx Hcx). by rewrite (f_lt_trans _ _ _ E' E) in Hmin.
      * split_and!; [done..|]. destruct acc as [[b|] c]; cbn in *; [|congruence].
        destruct Hbest as (_ & _ & Hb). by eapply f_lt_trans.
    + split; [|done]. intros x [Hx| ->%list_elem_of_singleton]%elem_of_app Hcx; auto.
  - rewrite aim_at_other by done. split; [|done].
    intros x [Hx| ->%list_elem_of_singleton]%elem_of_app Hcx; [auto | done].
Qed.

Lemma auto_aim_inv w attacker tr l seen acc :
  aim_inv w attacker tr seen acc ->
  aim_inv w attacker tr (seen ++ l) (foldl (aim_at w attacker tr) acc l).
Proof.
  revert seen acc. induction l as [|t l IH]; intros seen acc H; cbn; [by rewrite app_nil_r|].
  replace (seen ++ t :: l) with ((seen ++ [t]) ++ l) by (by rewrite <- app_assoc).
  by apply IH, aim_inv_step.
Qed.

Lemma auto_aim_spec w attacker tr :
  aim_inv w attacker tr (w_query w [CTransform])
    (foldl (aim_at w attacker tr) (None, (f_of_Z 200 * f_of_Z 200)%f) (w_query w [CTransform])).
Proof. apply (auto_aim_inv w attacker tr _ []). split; [set_solver | done]. Qed.

Lemma auto_aim_candidate w attacker tr t :
  auto_aim w attacker tr = Some t -> candidate w attacker t.
Proof.
  unfold auto_aim. destruct (auto_aim_spec w attacker tr) as [_ H]. intros E. rewrite E in H.
  apply H.
Qed.

Lemma aim_direction_ok w attacker tr :
  exists d, aim_direction w tr (auto_aim w attacker tr) = Ret d.
Proof.
  unfold aim_direction. destruct (auto_aim w attacker tr) as [t|] eqn:E; [|eauto].
  apply auto_aim_candidate in E as ([x Hx] & _). rewrite Hx. cbn. case_match; eauto.
Qed.

Lemma fire_all_touches w tick l : touches [CTool] [] w (fire_all w tick l).
Proof.
  apply (foldl_rel (touches [CTool] [])). intros w' e _. case_match; touching.
Qed.

Lemma fire_beam_ok bimap w e t :
  exists vel, fire_beam bimap w (e, t) = Ret (modify_res w RBeamSpawnRequests (fun reqs =>
    reqs ++ [mkBeamSpawn (t_x t, t_y t) vel (default (mkNid 0) (bi_right bimap e))])).
Proof. unfold fire_beam. destruct (aim_direction_ok w e t) as [d ->]. by eexists. Qed.

(** Step 2 requests one beam per attempt and touches nothing else. *)
Lemma fire_beams_ok bimap l w reqs :
  w_res w RBeamSpawnRequests = Some reqs ->
  exists w' new, for_each (fire_beam bimap) w l = Ret w' /\
    (forall e k, w_get w' e k = w_get w e k) /\
    w_res w' RBeamSpawnRequests = Some (reqs ++ new) /\
    (fun r => (bs_pos r, bs_owner r)) <$> new =
      (fun '(e, t) => ((t_x t, t_y t), default (mkNid 0) (bi_right bimap e))) <$> l.
Proof.
  revert w reqs. induction l as [|[e t] l IH]; intros w reqs Hr.
  { exists w, []. cbn. by rewrite app_nil_r. }
  rewrite for_each_cons. destruct (fire_beam_ok bimap w e t) as [v ->].
  change (Ret ?x ≫= ?f) with (f x). cbv beta.
  set (r := mkBeamSpawn _ _ _). set (w1 := modify_res _ _ _).
  destruct (IH w1 (reqs ++ [r])) as (w' & new & HE & Hg & Hq & Hn).
  { unfold w1. by rewrite modify_res_eq, Hr. }
  exists w', (r :: new). rewrite HE. split; [done|]. split.
  - intros e' k. rewrite Hg. apply modify_res_get.
  - rewrite Hq, <- app_assoc. split; [done|]. cbn. f_equal. exact Hn.
Qed.

(** *** Hits *)
Definition shield w (e : Entity) : Z :=
  match w_get w e CPriorityPool with Some p => pp_current p | None => 0 end.

(** Damage that the priority pool does not absorb. *)
Definition spill w (e : Entity) : Z := Z.max 0 (25 - shield w e).

(** Pool fields are unsigned. *)
Definition pools_ok w : Prop := forall e,
  (forall p, w_get w e CPriorityPool = Some p -> 0 <= pp_current p) /\
  (forall i, w_get w e CIntegrityPool = Some i -> 0 <= ip_current i) /\
  (forall r, w_get w e CResourceIntegrity = Some r -> 0 <= ri_integrity r).

Definition pool_kinds : list ckind := [CPriorityPool; CIntegrityPool; CResourceIntegrity].

Definition shielded w (e : Entity) : W * Z :=
  match w_get w e CPriorityPool with
  | Some p =>
      if 25 <=? pp_current p
      then (w_put w e CPriorityPool (mkPriorityPool (pp_current p - 25) (pp_max p)), 0)
      else (w_put w e CPriorityPool (mkPriorityPool 0 (pp_max p)), 25 - pp_current p)
  | None => (w, 25)
  end.

(** The hit after the priority pool. *)
Definition pierce w (e : Entity) (remaining : Z) : W * bool :=
  if 0 <? remaining then
    match w_get w e CIntegrityPool, w_get w e CResourceIntegrity with
    | Some i, _ =>
        let current := if remaining <=? ip_current i then ip_current i - remaining else 0 in
        (w_put w e CIntegrityPool (mkIntegrityPool current (ip_max i)), current =? 0)
    | None, Some r =>
        let integrity := if remaining <=? ri_integrity r then ri_integrity r - remaining else 0 in
        (w_put w e CResourceIntegrity (mkResourceIntegrity integrity (ri_max_integrity r)),
         integrity =? 0)
    | None, None => (w, false)
    end
  else (w, false).

Lemma apply_beam_hit_eq w e :
  apply_beam_hit w e = pierce (shielded w e).1 e (shielded w e).2.
Proof.
  unfold apply_beam_hit, pierce, shielded.
  destruct (w_get w e CPriorityPool) as [p|]; [destruct (25 <=? pp_current p)|]; cbn [fst snd];
    (case_match; [|done]); repeat case_match; done.
Qed.

Lemma shielded_frame w e e' k : e <> e' \/ k <> CPriorityPool ->
  w_get (shielded w e).1 e' k = w_get w e' k.
Proof. intros. unfold shielded. repeat case_match; cbn; try done; apply put_get_ne; naive_solver. Qed.

Lemma shielded_pool w e :
  pools_ok w ->
  w_get (shielded w e).1 e CPriorityPool =
    (fun p => mkPriorityPool (Z.max 0 (pp_current p - 25)) (pp_max p)) <$> w_get w e CPriorityPool /\
  (shielded w e).2 = spill w e.
Proof.
  intros Hok. unfold shielded, spill, shield.
  destruct (w_get w e CPriorityPool) as [p|] eqn:E; [|done].
  pose proof (proj1 (Hok e) p E). assert (Ha := get_alive _ _ _ _ E).
  destruct (Z.leb_spec 25 (pp_current p)); cbn [fst snd]; rewrite put_get_eq by done; cbn.
  - rewrite Z.max_r by lia. split; [done | lia].
  - rewrite Z.max_l by lia. split; [done | lia].
Qed.

Lemma touches_hit w e : touches pool_kinds [] w (apply_beam_hit w e).1.
Proof.
  rewrite apply_beam_hit_eq. transitivity (shielded w e).1.
  - unfold shielded, pool_kinds. repeat case_match; cbn [fst]; touching.
  - generalize (shielded w e).1, (shielded w e).2. intros w' r. unfold pierce, pool_kinds.
    repeat case_match; cbn [fst]; touching.
Qed.

Lemma hit_frame w e e' k : e <> e' -> w_get (apply_beam_hit w e).1 e' k = w_get w e' k.
Proof.
  intros He. rewrite apply_beam_hit_eq. unfold pierce.
  assert (Hs : w_get (shielded w e).1 e' k = w_get w e' k) by (apply shielded_frame; by left).
  repeat case_match; cbn [fst]; try done; by rewrite put_get_ne by (by left).
Qed.

(** An entity whose integrity is used up. *)
Definition zeroed w (e : Entity) : Prop :=
  match w_get w e CIntegrityPool, w_get w e CResourceIntegrity with
  | Some i, _ => ip_current i = 0
  | None, Some r => ri_integrity r = 0
  | None, None => False
  end.

Lemma zeroed_frame w w' e :
  (forall k, k ∈ pool_kinds -> w_get w' e k = w_get w e k) -> zeroed w e -> zeroed w' e.
Proof. intros H. unfold zeroed. by rewrite !H by set_solver. Qed.

Lemma pierce_zeroed w e r : (pierce w e r).2 = true -> zeroed (pierce w e r).1 e.
Proof.
  unfold pierce, zeroed. destruct (0 <? r); [|done].
  destruct (w_get w e CIntegrityPool) as [i|] eqn:Ei; cbn [fst snd].
  - assert (Ha := get_alive _ _ _ _ Ei). intros H%Z.eqb_eq. by rewrite put_get_eq by done.
  - destruct (w_get w e CResourceIntegrity) as [x|] eqn:Ex; cbn [fst snd]; [|done].
    assert (Ha := get_alive _ _ _ _ Ex). intros H%Z.eqb_eq.
    rewrite put_get_ne by (by right). rewrite Ei, put_get_eq by done. done.
Qed.

Lemma pierce_keeps_zeroed w e r : zeroed w e -> zeroed (pierce w e r).1 e.
Proof.
  unfold pierce. destruct (Z.ltb_spec 0 r); [|done].
  unfold zeroed at 1. destruct (w_get w e CIntegrityPool) as [i|] eqn:Ei; cbn [fst snd].
  - assert (Ha := get_alive _ _ _ _ Ei). intros ->. unfold zeroed. rewrite put_get_eq by done. cbn.
    rewrite (proj2 (Z.leb_gt r 0)) by lia. done.
  - destruct (w_get w e CResourceIntegrity) as [x|] eqn:Ex; cbn [fst snd]; [|done].
    assert (Ha := get_alive _ _ _ _ Ex). intros ->. unfold zeroed.
    rewrite put_get_ne by (by right). rewrite Ei, put_get_eq by done. cbn.
    rewrite (proj2 (Z.leb_gt r 0)) by lia. done.
Qed.

Lemma hit_zeroed w e : (apply_beam_hit w e).2 = true -> zeroed (apply_beam_hit w e).1 e.
Proof. rewrite apply_beam_hit_eq. apply pierce_zeroed. Qed.

Lemma hit_keeps_zeroed w e x : zeroed w x -> zeroed (apply_beam_hit w e).1 x.
Proof.
  intros Hz. destruct (decide (e = x)) as [<-|].
  - rewrite apply_beam_hit_eq. apply pierce_keeps_zeroed. revert Hz. unfold zeroed.
    by rewrite !shielded_frame by (by right).
  - revert Hz. apply zeroed_frame. intros. by apply hit_frame.
Qed.

(** *** One beam *)
Lemma hit_first_touches bimap b acc l :
  touches pool_kinds [] (ba_world acc) (ba_world (hit_first bimap b acc l)).
Proof.
  induction l as [|t l IH]; cbn; [reflexivity|]. case_match; [|done].
  pose proof (touches_hit (ba_world acc) t) as Ht. by destruct (apply_beam_hit (ba_world acc) t).
Qed.

Lemma hit_first_despawn bimap b acc l :
  ba_despawn (hit_first bimap b acc l) = ba_despawn acc \/
  ba_despawn (hit_first bimap b acc l) = ba_despawn acc ++ [bd_entity b].
Proof.
  induction l as [|t l IH]; cbn; [by left|]. case_match; [|done].
  destruct (apply_beam_hit (ba_world acc) t). by right.
Qed.

Lemma beam_step_touches bimap acc b :
  touches (CBeamMarker :: pool_kinds) [] (ba_world acc) (ba_world (beam_step bimap acc b)).
Proof.
  unfold beam_step. case_match; [reflexivity|].
  set (w1 := modify _ _ _ _). transitivity w1; [unfold w1, pool_kinds; touching|].
  eapply touches_mono; [| |apply (hit_first_touches bimap b (mkBeamAcc w1 _ _ _))]; set_solver.
Qed.

Lemma beam_step_despawn bimap acc b e :
  e ∈ ba_despawn acc -> e ∈ ba_despawn (beam_step bimap acc b).
Proof.
  unfold beam_step. intros He. case_match; [cbn; set_solver|].
  destruct (hit_first_despawn bimap b
    (mkBeamAcc (modify (ba_world acc) (bd_entity b) CBeamMarker lifetime_step) (ba_despawn acc)
       (ba_terminations acc) (ba_events acc))
    (w_query (modify (ba_world acc) (bd_entity b) CBeamMarker lifetime_step) [CTransform]))
    as [-> | ->]; cbn; set_solver.
Qed.

Lemma beam_step_marker_ne bimap acc b e :
  bd_entity b <> e ->
  w_get (ba_world (beam_step bimap acc b)) e CBeamMarker = w_get (ba_world acc) e CBeamMarker.
Proof.
  intros Hne. unfold beam_step. case_match; [done|].
  rewrite (tc_get _ _ _ _ (hit_first_touches _ _ _ _)) by (unfold pool_kinds; set_solver).
  apply (modify_get_ne _ _ CBeamMarker _ _ CBeamMarker). by left.
Qed.

(** A beam that is not spent loses one tick of its life. *)
Lemma beam_step_marker bimap acc b :
  (beam_spent b = true /\ bd_entity b ∈ ba_despawn (beam_step bimap acc b)) \/
  (beam_spent b = false /\
   w_get (ba_world (beam_step bimap acc b)) (bd_entity b) CBeamMarker =
     lifetime_step <$> w_get (ba_world acc) (bd_entity b) CBeamMarker).
Proof.
  unfold beam_step. destruct (beam_spent b); [left; cbn; set_solver|]. right. split; [done|].
  rewrite (tc_get _ _ _ _ (hit_first_touches _ _ _ _)) by (unfold pool_kinds; set_solver).
  apply (modify_get_eq _ _ CBeamMarker).
Qed.

Lemma beams_loop_ne bimap l acc e :
  e ∉ bd_entity <$> l ->
  w_get (ba_world (foldl (beam_step bimap) acc l)) e CBeamMarker =
    w_get (ba_world acc) e CBeamMarker.
Proof.
  revert acc. induction l as [|b l IH]; intros acc He; cbn; [done|].
  rewrite IH by set_solver. apply beam_step_marker_ne. set_solver.
Qed.

Lemma beams_loop_despawn bimap l acc e :
  e ∈ ba_despawn acc -> e ∈ ba_despawn (foldl (beam_step bimap) acc l).
Proof.
  intros He. apply (foldl_inv (fun acc => e ∈ ba_despawn acc)); [done|].
  intros. by apply beam_step_despawn.
Qed.

Lemma beams_loop_marker bimap l acc b :
  NoDup (bd_entity <$> l) -> b ∈ l ->
  (bd_entity b ∈ ba_despawn (foldl (beam_step bimap) acc l)) \/
  (beam_spent b = false /\
   w_get (ba_world (foldl (beam_step bimap) acc l)) (bd_entity b) CBeamMarker =
     lifetime_step <$> w_get (ba_world acc) (bd_entity b) CBeamMarker).
Proof.
  revert acc. induction l as [|b' l IH]; intros acc Hnd Hb; [set_solver|].
  apply NoDup_cons in Hnd as [Hni Hnd]. cbn. apply elem_of_cons in Hb as [<-|Hb].
  - destruct (beam_step_marker bimap acc b) as [[_ H]|[Hs H]].
    + left. by apply beams_loop_despawn.
    + right. split; [done|]. rewrite beams_loop_ne by done. exact H.
  - destruct (IH (beam_step bimap acc b') Hnd Hb) as [H|[Hs H]]; [by left | right].
    split; [done|]. rewrite H, beam_step_marker_ne; [done|].
    intros E. apply Hni. rewrite E. by apply (list_elem_of_fmap_2 bd_entity).
Qed.

Lemma beams_in_NoDup w : NoDup (bd_entity <$> beams_in w).
Proof.
  apply NoDup_omap_key; [apply query_NoDup|]. intros e b.
  destruct (w_get w e CBeamMarker); [|done]. destruct (w_get w e CTransform); [|done].
  by intros [= <-].
Qed.

Definition data_of (e : Entity) (m : BeamMarker) (t : Transform) : beam_data :=
  mkBeamData e (bm_spawn_pos m) (bm_max_range m) (bm_owner m) (bm_lifetime_ticks m) (t_x t) (t_y t).

Lemma beams_in_elem w b :
  b ∈ beams_in w <-> exists m t, w_get w (bd_entity b) CBeamMarker = Some m /\
    w_get w (bd_entity b) CTransform = Some t /\ b = data_of (bd_entity b) m t.
Proof.
  unfold beams_in. rewrite list_elem_of_omap. split.
  - intros (e & _ & H). destruct (w_get w e CBeamMarker) as [m|] eqn:Em; [|done].
    destruct (w_get w e CTransform) as [t|] eqn:Et; [|done]. injection H as <-. eauto.
  - intros (m & t & Hm & Ht & Hb). exists (bd_entity b). rewrite Hm, Ht. split; [|by rewrite Hb at 2].
    apply query_spec. split; [exact (get_alive _ _ _ _ Hm)|].
    intros k Hk. repeat (apply elem_of_cons in Hk as [->|Hk]; [by eexists|]).
    by apply not_elem_of_nil in Hk.
Qed.

Lemma process_beams_get w bimap e k :
  w_get (process_beams w bimap).1.1 e k =
  w_get (ba_world (foldl (beam_step bimap) (mkBeamAcc w [] [] []) (beams_in w))) e k.
Proof.
  unfold process_beams. cbn [fst]. case_match; [done|]. apply modify_res_get.
Qed.

Lemma beams_loop_touches bimap l acc :
  touches (CBeamMarker :: pool_kinds) [] (ba_world acc)
    (ba_world (foldl (beam_step bimap) acc l)).
Proof.
  revert acc. induction l as [|b l IH]; intros acc; cbn; [reflexivity|].
  etrans; [apply beam_step_touches | apply IH].
Qed.

(** *** Terminations *)
Definition all_zeroed (acc : beam_acc W) : Prop :=
  Forall (zeroed (ba_world acc)) (ba_terminations acc).

Lemma hit_first_zeroed bimap b acc l : all_zeroed acc -> all_zeroed (hit_first bimap b acc l).
Proof.
  intros Hz. induction l as [|t l IH]; cbn; [done|]. case_match; [|done].
  pose proof (hit_zeroed (ba_world acc) t) as Ht.
  assert (Hk : Forall (zeroed (apply_beam_hit (ba_world acc) t).1) (ba_terminations acc)).
  { eapply Forall_impl; [exact Hz|]. intros. by apply hit_keeps_zeroed. }
  destruct (apply_beam_hit (ba_world acc) t) as [w []]; unfold all_zeroed; cbn in *; [|done].
  apply Forall_app. split; [done|]. repeat constructor. by apply Ht.
Qed.

Lemma beam_step_zeroed bimap acc b : all_zeroed acc -> all_zeroed (beam_step bimap acc b).
Proof.
  intros Hz. unfold beam_step. case_match; [done|]. apply hit_first_zeroed. unfold all_zeroed. cbn.
  eapply Forall_impl; [exact Hz|]. intros e. apply zeroed_frame. intros k Hk.
  apply modify_get_ne. right. intros <-. unfold pool_kinds in Hk. set_solver.
Qed.

(** *** Whom a beam cannot hurt *)
Lemma hit_first_owner bimap b acc l e k :
  bi_right bimap e = Some (bd_owner b) ->
  w_get (ba_world (hit_first bimap b acc l)) e k = w_get (ba_world acc) e k /\
  (e ∈ ba_terminations (hit_first bimap b acc l) -> e ∈ ba_terminations acc).
Proof.
  intros Ho. induction l as [|t l IH]; cbn; [done|].
  destruct (beam_hits (ba_world acc) bimap b t) eqn:Eh; [|done].
  assert (Hne : t <> e).
  { intros ->. unfold beam_hits in Eh. case_match; [|done].
    rewrite (bool_decide_eq_true_2 (bi_right bimap e = _)) in Eh by done.
    by rewrite andb_false_r in Eh. }
  pose proof (hit_frame (ba_world acc) t e k Hne) as Hf.
  destruct (apply_beam_hit (ba_world acc) t) as [w []]; cbn in *; set_solver.
Qed.

Lemma beam_step_owner bimap acc b e k :
  bi_right bimap e = Some (bd_owner b) -> k ∈ pool_kinds ->
  w_get (ba_world (beam_step bimap acc b)) e k = w_get (ba_world acc) e k /\
  (e ∈ ba_terminations (beam_step bimap acc b) -> e ∈ ba_terminations acc).
Proof.
  intros Ho Hk. unfold beam_step. case_match; [done|].
  set (w1 := modify _ _ _ _).
  destruct (hit_first_owner bimap b
    (mkBeamAcc w1 (ba_despawn acc) (ba_terminations acc) (ba_events acc)) (w_query w1 [CTransform])
    e k Ho) as [-> Ht]. split; [|done]. cbn. unfold w1. apply modify_get_ne. right.
  intros <-. unfold pool_kinds in Hk. set_solver.
Qed.

(** *** Regeneration *)
Lemma regen_step_ne w e e' k : e <> e' -> w_get (regen_step w e) e' k = w_get w e' k.
Proof.
  intros. unfold regen_step. repeat case_match; try done; by rewrite put_get_ne by (by left).
Qed.

Lemma regen_step_local w w' e :
  (forall k, w_get w e k = w_get w' e k) ->
  forall k, w_get (regen_step w e) e k = w_get (regen_step w' e) e k.
Proof.
  intros H k. unfold regen_step. rewrite !H.
  destruct (w_get w' e CPriorityPool) as [p|] eqn:Ep; [|apply H].
  destruct (w_get w' e CPriorityRegenTimer) as [t|] eqn:Et; [|apply H].
  assert (Ha' := get_alive _ _ _ _ Ep). rewrite <- H in Ep. assert (Ha := get_alive _ _ _ _ Ep).
  repeat case_match; [| |apply H].
  - destruct (decide (k = CPriorityRegenTimer)) as [->|].
    + by rewrite !put_get_eq by done.
    + rewrite !put_get_ne by naive_solver. apply H.
  - destruct (decide (k = CPriorityPool)) as [->|].
    + by rewrite !put_get_eq by done.
    + rewrite !put_get_ne by naive_solver. apply H.
Qed.

Lemma process_regen_get w e p t k :
  w_get w e CPriorityPool = Some p -> w_get w e CPriorityRegenTimer = Some t ->
  w_get (process_regen w) e k = w_get (regen_step w e) e k.
Proof.
  intros Hp Ht. unfold process_regen. apply foldl_local.
  - intros. by apply regen_step_ne.
  - intros w1 w2. apply regen_step_local.
  - apply query_NoDup.
  - apply query_spec. split; [exact (get_alive _ _ _ _ Hp)|].
    intros k' Hk. repeat (apply elem_of_cons in Hk as [->|Hk]; [by eexists|]).
    by apply not_elem_of_nil in Hk.
Qed.

(** A beam is reported, or lives on with one tick less. *)
Lemma process_beams_marker w bimap e m t :
  w_get w e CBeamMarker = Some m -> w_get w e CTransform = Some t ->
  e ∈ (process_beams w bimap).1.2 \/
  (bm_lifetime_ticks m <> 0 /\
   w_get (process_beams w bimap).1.1 e CBeamMarker = Some (lifetime_step m) /\
   w_get (process_beams w bimap).1.1 e CTransform = Some t).
Proof.
  intros Hm Ht. set (b := data_of e m t).
  assert (Hb : b ∈ beams_in w) by (apply beams_in_elem; exists m, t; done).
  destruct (beams_loop_marker bimap (beams_in w) (mkBeamAcc w [] [] []) b) as [H|[Hs H]];
    [apply beams_in_NoDup | done | by left | right].
  rewrite !process_beams_get. split_and!.
  - unfold beam_spent in Hs. apply orb_false_iff in Hs as [Hs _]. by apply Z.eqb_neq in Hs.
  - etrans; [exact H|]. cbn. by rewrite Hm.
  - rewrite (tc_get _ _ _ _ (beams_loop_touches _ _ _)); [done|]. unfold pool_kinds. set_solver.
Qed.

(** *** Respawn timers of training targets *)
Definition timer_due w (e : Entity) : list Entity :=
  match w_get w e CRespawnTimer with
  | Some t => if rt_delay_ticks (tick_timer t) =? 0 then [e] else []
  | None => []
  end.
Definition timer_spots w (e : Entity) : list (f32 * f32) :=
  match w_get w e CRespawnTimer with
  | Some t => if rt_delay_ticks (tick_timer t) =? 0
              then match rt_location t with Coordinate x y => [(x, y)] | OtherLocation _ => [] end
              else []
  | None => []
  end.

Lemma reinit_loop w l ts td :
  NoDup l ->
  foldl reinit_step (w, ts, td) l =
    (modify_all w CRespawnTimer tick_timer l, ts ++ (l ≫= timer_spots w), td ++ (l ≫= timer_due w)).
Proof.
  revert w ts td. induction l as [|e l IH]; intros w ts td Hnd.
  { cbn. by rewrite !app_nil_r. }
  apply NoDup_cons in Hnd as [Hni Hnd].
  assert (Hl : forall v, l ≫= timer_spots (w_put w e CRespawnTimer v) = l ≫= timer_spots w /\
                         l ≫= timer_due (w_put w e CRespawnTimer v) = l ≫= timer_due w).
  { intros v. split; apply Forall_bind_ext, Forall_forall; intros x Hx;
      unfold timer_spots, timer_due; by rewrite put_get_ne by (left; set_solver). }
  rewrite !bind_cons. cbn [foldl]. unfold modify_all. cbn [foldl]. unfold modify at 2.
  unfold reinit_step at 2, timer_spots at 1, timer_due at 1.
  destruct (w_get w e CRespawnTimer) as [t|] eqn:Et; [|by rewrite IH].
  destruct (rt_delay_ticks (tick_timer t) =? 0); rewrite IH by done;
    destruct (Hl (tick_timer t)) as [-> ->]; unfold modify_all; [|done].
  rewrite <- !app_assoc. cbn. destruct (rt_location t); by rewrite <- ?app_assoc.
Qed.

Lemma reinit_eq w :
  let l := w_query w [CRespawnTimer] in
  process_target_reinitialization w =
    (foldl w_despawn (modify_all w CRespawnTimer tick_timer l) (l ≫= timer_due w),
     l ≫= timer_spots w).
Proof.
  cbv zeta. unfold process_target_reinitialization. by rewrite reinit_loop by apply query_NoDup.
Qed.
End interaction_lemmas.

(** ** Properties *)
Section interaction_properties.
Context {W : Type} `{!EcsWorld W, !EcsLaws W} {B : Type} `{!BiMap B, !BiMapLaws B}.
Context {PC : ProtocolConsts} {LM : Libm}.
Implicit Types (w : W) (bimap : B).

(** When no tool's ready tick overflows, [process_interaction] returns;
    a tool is marked as fired at the current tick exactly when its agent's input asks for it and
    its cooldown has passed since it last fired, and every other tool is left alone; and one beam
    is requested per tool fired, from its agent's position and in its name. *)
Theorem process_interaction_cooldown w bimap reqs :
  tools_ok w ->
  (forall e t, w_get w e CTool = Some t -> server_tick w + tl_cooldown_ticks t <= umax 64) ->
  w_res w RBeamSpawnRequests = Some reqs ->
  let tick := server_tick w in
  let agents := w_query w [CLatestInput; CTool; CTransform] in
  exists w' new, process_interaction w bimap = Ret (w', []) /\
    (forall e t, e ∈ agents -> w_get w e CTool = Some t ->
       w_get w' e CTool = Some (if fires w tick e then mkTool (tl_cooldown_ticks t) tick else t)) /\
    w_res w' RBeamSpawnRequests = Some (reqs ++ new) /\
    (fun r => (bs_pos r, bs_owner r)) <$> new =
      (fun '(e, t) => ((t_x t, t_y t), default (mkNid 0) (bi_right bimap e))) <$>
        (agents ≫= attempt_at w tick).
Proof.
  intros Hok Hc Hr tick agents. unfold process_interaction. fold tick agents.
  rewrite use_tools_eq by (done || apply query_NoDup). cbn [app].
  change (Ret ?x ≫= ?f) with (f x). cbv beta iota.
  destruct (fire_beams_ok bimap (agents ≫= attempt_at w tick) (fire_all w tick agents) reqs)
    as (w' & new & HE & Hg & Hq & Hnew).
  { by rewrite (tc_res _ _ _ _ (fire_all_touches _ _ _)) by set_solver. }
  rewrite HE. exists w', new. split; [done|]. split; [|by rewrite Hq].
  intros e t He Ht. rewrite Hg. unfold fire_all. rewrite foldl_local.
  - case_match; [by rewrite modify_get_eq, Ht | done].
  - intros w1 e1 e2 k Hne. case_match; [|done]. apply modify_get_ne. by left.
  - intros w1 w2 H12 k. replace (fires w1 tick e) with (fires w2 tick e)
      by (unfold fires; by rewrite !H12). case_match; [|apply H12].
    destruct (decide (k = CTool)) as [->|]; [by rewrite !modify_get_eq, H12|].
    rewrite !modify_get_ne by naive_solver. apply H12.
  - apply query_NoDup.
  - done.
Qed.

(** The target chosen is an entity other than the attacker that has integrity, lies
    within 200 metres, and no other such entity is nearer; and when none is chosen, none is within
    200 metres. *)
Theorem auto_aim_nearest w attacker tr :
  let limit := (f_of_Z 200 * f_of_Z 200)%f in
  match auto_aim w attacker tr with
  | Some t => candidate w attacker t /\ f_lt (range_to w tr t) limit = true /\
      forall t', candidate w attacker t' -> f_lt (range_to w tr t') (range_to w tr t) = false
  | None => forall t', candidate w attacker t' -> f_lt (range_to w tr t') limit = false
  end.
Proof.
  cbv zeta. unfold auto_aim. destruct (auto_aim_spec w attacker tr) as [Hmin Hbest].
  assert (Hq : forall t', candidate w attacker t' -> t' ∈ w_query w [CTransform]).
  { intros t' [H _]. by apply query_one_Some. }
  destruct (foldl _ _ _) as [[t|] c]; cbn in *.
  - destruct Hbest as (Hc & -> & Hl). eauto 6.
  - subst c. eauto.
Qed.

(** A hit deals 25 points: the priority pool absorbs what it can, the rest goes to
    the integrity pool or, for an entity without one, to the resource's integrity; nothing goes
    below zero, no other entity or component changes, and the hit terminates the target exactly
    when points were left after the priority pool and they use up the integrity. *)
Theorem apply_beam_hit_spec w e :
  pools_ok w ->
  let '(w', terminated) := apply_beam_hit w e in
  w_get w' e CPriorityPool =
    (fun p => mkPriorityPool (Z.max 0 (pp_current p - 25)) (pp_max p)) <$> w_get w e CPriorityPool /\
  w_get w' e CIntegrityPool =
    (fun i => mkIntegrityPool (Z.max 0 (ip_current i - spill w e)) (ip_max i)) <$>
      w_get w e CIntegrityPool /\
  w_get w' e CResourceIntegrity =
    (fun r => if has w e CIntegrityPool then r else
              mkResourceIntegrity (Z.max 0 (ri_integrity r - spill w e)) (ri_max_integrity r)) <$>
      w_get w e CResourceIntegrity /\
  terminated = (0 <? spill w e) &&
    match w_get w e CIntegrityPool, w_get w e CResourceIntegrity with
    | Some i, _ => ip_current i <=? spill w e
    | None, Some r => ri_integrity r <=? spill w e
    | None, None => false
    end /\
  forall e' k, e <> e' \/ k ∉ pool_kinds -> w_get w' e' k = w_get w e' k.
Proof.
  intros Hok. pose proof (touches_hit w e) as Htc. pose proof (hit_frame w e) as Hfr.
  destruct (shielded_pool w e Hok) as [Hp Hs].
  destruct (Hok e) as (_ & Hi & Hr). unfold has.
  assert (Hframe : forall e' k, e <> e' \/ k ∉ pool_kinds ->
    w_get (apply_beam_hit w e).1 e' k = w_get w e' k).
  { intros e' k [Hne|Hk]; [by apply Hfr | by apply (tc_get _ _ _ _ Htc)]. }
  clear Htc Hfr. revert Hframe. rewrite apply_beam_hit_eq, Hs.
  assert (Gi : w_get (shielded w e).1 e CIntegrityPool = w_get w e CIntegrityPool)
    by (apply shielded_frame; by right).
  assert (Gr : w_get (shielded w e).1 e CResourceIntegrity = w_get w e CResourceIntegrity)
    by (apply shielded_frame; by right).
  revert Hp Gi Gr. generalize (shielded w e).1. intros w1 Hp Gi Gr.
  assert (0 <= spill w e) by (unfold spill; lia). generalize dependent (spill w e). intros s _ Hs0.
  unfold pierce. rewrite Gi, Gr. destruct (Z.ltb_spec 0 s) as [Hs1|Hs1]; cbn [andb].
  - destruct (w_get w e CIntegrityPool) as [i|] eqn:Ei; [|destruct (w_get w e CResourceIntegrity) as [r|] eqn:Er].
    + assert (Ha : w_alive w1 e = true) by exact (get_alive _ _ _ _ Gi). specialize (Hi i eq_refl).
      intros Hf. split_and!; [by rewrite put_get_ne by (by right)| | | |exact Hf].
      * rewrite put_get_eq by done. cbn. do 2 f_equal. bdestr; lia.
      * rewrite put_get_ne by (by right). rewrite Gr. by destruct (w_get w e CResourceIntegrity).
      * bdestr; (done || lia).
    + assert (Ha : w_alive w1 e = true) by exact (get_alive _ _ _ _ Gr). specialize (Hr r eq_refl).
      intros Hf. split_and!; [by rewrite put_get_ne by (by right)| | | |exact Hf].
      * rewrite put_get_ne by (by right). by rewrite Gi.
      * rewrite put_get_eq by done. cbn. do 2 f_equal. bdestr; lia.
      * bdestr; (done || lia).
    + intros Hf. split_and!; [done | by rewrite Gi | by rewrite Gr | done | exact Hf].
  - assert (s = 0) as -> by lia. intros Hf. split_and!; [done | rewrite Gi | rewrite Gr | done | exact Hf].
    + destruct (w_get w e CIntegrityPool) as [[]|] eqn:Ei; [|done]. cbn. specialize (Hi _ eq_refl).
      cbn in Hi. by rewrite Z.sub_0_r, Z.max_r by lia.
    + destruct (w_get w e CResourceIntegrity) as [[]|] eqn:Er; [|done]. cbn.
      specialize (Hr _ eq_refl). cbn in Hr. rewrite Z.sub_0_r, Z.max_r by lia. by case_match.
Qed.

(** A beam with [n] ticks to live is reported for despawning by one of the next
    [n + 1] calls of [process_beams], whatever it meets on the way. *)
Theorem beam_is_despawned w bimap e m t n :
  w_get w e CBeamMarker = Some m -> w_get w e CTransform = Some t ->
  bm_lifetime_ticks m = Z.of_nat n ->
  exists i, (i <= n)%nat /\
    e ∈ (process_beams (Nat.iter i (fun w => (process_beams w bimap).1.1) w) bimap).1.2.
Proof.
  revert w m. induction n as [|n IH]; intros w m Hm Ht Hn.
  all: destruct (process_beams_marker w bimap e m t Hm Ht) as [H|(Hpos & Hm' & Ht')];
    [exists 0%nat; split; [lia | exact H]|].
  - lia.
  - destruct (IH (process_beams w bimap).1.1 (lifetime_step m)) as (i & Hi & He); [done..| |].
    + cbn. unfold sat_sub. lia.
    + exists (S i). split; [lia|]. rewrite Nat.iter_succ_r. exact He.
Qed.

(** Every entity that [process_beams] reports as terminated has its
    integrity pool (or its resource integrity, when it has no pool) at zero afterwards. *)
Theorem process_beams_terminations w bimap e :
  e ∈ (process_beams w bimap).2 -> zeroed (process_beams w bimap).1.1 e.
Proof.
  intros He.
  assert (Hz : all_zeroed (foldl (beam_step bimap) (mkBeamAcc w [] [] []) (beams_in w))).
  { apply foldl_inv; [constructor|]. intros. by apply beam_step_zeroed. }
  unfold all_zeroed in Hz. rewrite Forall_forall in Hz. specialize (Hz e He). revert Hz.
  apply zeroed_frame. intros k _. apply process_beams_get.
Qed.

(** An entity never loses priority or integrity to beams fired in its own
    name, and is not terminated by them. *)
Theorem process_beams_spare_owner w bimap e k :
  Forall (fun b => bi_right bimap e = Some (bd_owner b)) (beams_in w) -> k ∈ pool_kinds ->
  w_get (process_beams w bimap).1.1 e k = w_get w e k /\ e ∉ (process_beams w bimap).2.
Proof.
  rewrite Forall_forall. intros Ho Hk. rewrite process_beams_get.
  assert (H : w_get (ba_world (foldl (beam_step bimap) (mkBeamAcc w [] [] []) (beams_in w))) e k =
                w_get w e k /\
              e ∉ ba_terminations (foldl (beam_step bimap) (mkBeamAcc w [] [] []) (beams_in w))).
  { apply (foldl_inv (fun acc => w_get (ba_world acc) e k = w_get w e k /\ e ∉ ba_terminations acc)).
    - split; [done | apply not_elem_of_nil].
    - intros acc b Hb [Hg Ht].
      destruct (beam_step_owner bimap acc b e k (Ho b Hb) Hk) as [-> Hs]. auto. }
  exact H.
Qed.

(** A priority pool with a running timer only has its timer reduced by one; once
    the timer is at zero the pool gains one point per call up to its maximum. *)
Theorem process_regen_spec w e p t :
  w_get w e CPriorityPool = Some p -> w_get w e CPriorityRegenTimer = Some t ->
  0 <= prt_ticks_until_regen t ->
  w_get (process_regen w) e CPriorityRegenTimer =
    Some (mkPriorityRegenTimer (Z.max 0 (prt_ticks_until_regen t - 1))) /\
  w_get (process_regen w) e CPriorityPool =
    Some (if prt_ticks_until_regen t =? 0
          then mkPriorityPool (Z.max (pp_current p) (Z.min (pp_current p + 1) (pp_max p))) (pp_max p)
          else p).
Proof.
  intros Hp Ht Hpos. rewrite !(process_regen_get w e p t _ Hp Ht). unfold regen_step.
  rewrite Hp, Ht. assert (Ha := get_alive _ _ _ _ Hp). destruct t as [n], p as [c mx]; cbn in *.
  destruct (Z.ltb_spec 0 n), (Z.eqb_spec n 0); try lia.
  - rewrite put_get_eq by done. rewrite put_get_ne by (by right). rewrite Hp. done.
  - subst n. destruct (Z.ltb_spec c mx).
    + rewrite put_get_ne by (by right). rewrite put_get_eq by done. rewrite Ht.
      split; [done|]. do 2 f_equal. lia.
    + rewrite Hp, Ht. split; [done|]. do 2 f_equal. lia.
Qed.

(** A respawn timer with more than one tick left is reduced by
    one; otherwise its entity is despawned and, when its location is a coordinate, that coordinate
    is reported. *)
Theorem process_target_reinitialization_spec w e t :
  w_get w e CRespawnTimer = Some t ->
  let '(w', spots) := process_target_reinitialization w in
  if 1 <? rt_delay_ticks t
  then w_get w' e CRespawnTimer = Some (mkRespawnTimer (rt_delay_ticks t - 1) (rt_location t))
  else w_alive w' e = false /\
       forall x y, rt_location t = Coordinate x y -> (x, y) ∈ spots.
Proof.
  intros Ht. rewrite reinit_eq. cbv zeta beta iota.
  assert (Hq : e ∈ w_query w [CRespawnTimer]) by (apply query_one_Some; eauto).
  assert (Hdue : e ∈ (w_query w [CRespawnTimer] ≫= timer_due w) <-> rt_delay_ticks t <= 1).
  { rewrite list_elem_of_bind. split.
    - intros (e' & H & _). unfold timer_due in H.
      destruct (w_get w e' CRespawnTimer) as [t'|] eqn:Et; [|by apply not_elem_of_nil in H].
      case_match eqn:E; [|by apply not_elem_of_nil in H]. apply list_elem_of_singleton in H as <-.
      apply Z.eqb_eq in E. cbn in E. unfold sat_sub in E. assert (t' = t) as -> by congruence. lia.
    - intros Hd. exists e. split; [|done]. unfold timer_due. rewrite Ht. cbn.
      unfold sat_sub. rewrite (proj2 (Z.eqb_eq _ 0)) by lia. set_solver. }
  destruct (Z.ltb_spec 1 (rt_delay_ticks t)).
  - rewrite despawn_all_get by (intros ?%Hdue; lia).
    rewrite modify_all_get; [|apply query_NoDup | done]. rewrite Ht. cbn. unfold tick_timer.
    do 2 f_equal. unfold sat_sub. lia.
  - split.
    + rewrite despawn_all_alive. rewrite bool_decide_eq_true_2; [done|]. apply Hdue. lia.
    + intros x y Hl. apply list_elem_of_bind. exists e. split; [|done]. unfold timer_spots.
      rewrite Ht. cbn. rewrite Hl. unfold sat_sub. rewrite (proj2 (Z.eqb_eq _ 0)) by lia. set_solver.
Qed.
End interaction_properties.

(** ** Witnesses *)

(** Constant functions in the place of libm. *)
Definition sample_libm : Libm := {|
  f_atan2 := fun _ _ => f0; f_cos := fun _ => f1; f_sin := fun _ => f0 |}.

Module InteractionWitness.

Definition at_pos (x y : Z) : Transform := mkTransform (f_of_Z x) (f_of_Z y) f0 f0 1.

(** An agent that fires, with a target thirty metres away. *)
Definition a1 := spawn_bundle (W := mworld) (w_put_res (w_put_res w_new RBeamSpawnRequests [])
    RServerTick 100)
  [CLatestInput ⤳ mkLatestInput (mkInputCommand 5 [] 1 None) 5; CTool ⤳ mkTool 20 80;
   CTransform ⤳ at_pos 0 0; CIntegrityPool ⤳ mkIntegrityPool 100 100].
Definition a2 := spawn_bundle a1.2
  [CTransform ⤳ at_pos 30 0; CPriorityPool ⤳ mkPriorityPool 10 50;
   CIntegrityPool ⤳ mkIntegrityPool 12 100; CPriorityRegenTimer ⤳ mkPriorityRegenTimer 0].
(** A beam of the agent next to the target. *)
Definition a3 := spawn_bundle a2.2
  [CTransform ⤳ at_pos 28 0; CBeamMarker ⤳ mkBeamMarker PulseBeam (f0, f0) (f_of_Z 150) (mkNid 1) 2;
   CRespawnTimer ⤳ mkRespawnTimer 2 (Coordinate f0 f1)].
Definition w0 : mworld := a3.2.
Definition ids : bilist :=
  bi_insert (bi_insert (bi_insert bi_empty (mkNid 1) a1.1) (mkNid 2) a2.1) (mkNid 3) a3.1.

Definition pools_ok_b (w : mworld) : bool :=
  forallb (fun e =>
    match w_get w e CPriorityPool with Some p => 0 <=? pp_current p | None => true end &&
    match w_get w e CIntegrityPool with Some p => 0 <=? ip_current p | None => true end &&
    match w_get w e CResourceIntegrity with Some p => 0 <=? ri_integrity p | None => true end)
  (w_query w []).

Lemma in_query_nil (w : mworld) e k v : w_get w e k = Some v -> In e (w_query w []).
Proof.
  intros Hv. apply list_elem_of_In, query_spec. split; [exact (get_alive _ _ _ _ Hv)|].
  intros ? ?%not_elem_of_nil. done.
Qed.

Lemma pools_ok_b_ok w : pools_ok_b w = true -> pools_ok w.
Proof.
  unfold pools_ok_b. rewrite forallb_forall. intros H e. split_and!.
  - intros p Hp. specialize (H e (in_query_nil _ _ _ _ Hp)). rewrite Hp in H.
    rewrite !andb_true_iff, Z.leb_le in H. naive_solver.
  - intros p Hp. specialize (H e (in_query_nil _ _ _ _ Hp)). rewrite Hp in H.
    rewrite !andb_true_iff, Z.leb_le in H. naive_solver.
  - intros p Hp. specialize (H e (in_query_nil _ _ _ _ Hp)). rewrite Hp in H.
    rewrite !andb_true_iff, Z.leb_le in H. naive_solver.
Qed.

Definition tools_b (w : mworld) : bool :=
  forallb (fun e => match w_get w e CTool with
                    | Some t => (tl_last_fired_tick t + tl_cooldown_ticks t <=? umax 64) &&
                                (server_tick w + tl_cooldown_ticks t <=? umax 64)
                    | None => true
                    end) (w_query w []).

Lemma tools_b_ok w : tools_b w = true -> tools_ok w /\
  forall e t, w_get w e CTool = Some t -> server_tick w + tl_cooldown_ticks t <= umax 64.
Proof.
  unfold tools_b. rewrite forallb_forall. intros H. split; intros e t Ht;
    specialize (H e (in_query_nil _ _ _ _ Ht)); rewrite Ht in H;
    rewrite andb_true_iff, !Z.leb_le in H; naive_solver.
Qed.

Lemma process_interaction_cooldown_witness :
  exists w', @process_interaction mworld _ bilist _ documented_consts sample_libm w0 ids = Ret (w', []) /\
    w_get w' a1.1 CTool = Some (mkTool 20 100).
Proof.
  destruct (tools_b_ok w0) as [H1 H2]; [vm_compute; reflexivity|].
  destruct (@process_interaction_cooldown mworld _ _ bilist _ _ documented_consts sample_libm
    w0 ids [] H1 H2 eq_refl) as (w' & new & HE & Ht & _).
  exists w'. split; [exact HE|].
  rewrite (Ht a1.1 (mkTool 20 80)); [vm_compute; reflexivity | | reflexivity].
  apply (bool_decide_eq_true_1 _). vm_compute. reflexivity.
Defined.

Lemma auto_aim_nearest_witness :
  auto_aim w0 a1.1 (at_pos 0 0) = Some a2.1 /\
  forall t', candidate w0 a1.1 t' ->
    f_lt (range_to w0 (at_pos 0 0) t') (range_to w0 (at_pos 0 0) a2.1) = false.
Proof.
  assert (E : auto_aim w0 a1.1 (at_pos 0 0) = Some a2.1) by (vm_compute; reflexivity).
  pose proof (auto_aim_nearest (B := bilist) w0 a1.1 (at_pos 0 0)) as H.
  rewrite E in H. split; [exact E | apply H].
Defined.

Lemma apply_beam_hit_spec_witness :
  w_get (apply_beam_hit w0 a2.1).1 a2.1 CIntegrityPool = Some (mkIntegrityPool 0 100).
Proof.
  pose proof (apply_beam_hit_spec w0 a2.1) as H.
  destruct (apply_beam_hit w0 a2.1) as [w' b] eqn:E.
  cbn [fst]. destruct H as (_ & -> & _); [apply pools_ok_b_ok|]; vm_compute; reflexivity.
Defined.

Lemma beam_is_despawned_witness : exists i, (i <= 2)%nat /\
  a3.1 ∈ (process_beams (Nat.iter i (fun w => (process_beams w ids).1.1) w0) ids).1.2.
Proof.
  apply (beam_is_despawned w0 ids a3.1 (mkBeamMarker PulseBeam (f0, f0) (f_of_Z 150) (mkNid 1) 2)
    (at_pos 28 0) 2); reflexivity.
Defined.

Lemma process_beams_terminations_witness : zeroed (process_beams w0 ids).1.1 a2.1.
Proof.
  apply process_beams_terminations. apply (bool_decide_eq_true_1 _). vm_compute. reflexivity.
Defined.

Lemma process_beams_spare_owner_witness :
  w_get (process_beams w0 ids).1.1 a1.1 CIntegrityPool = Some (mkIntegrityPool 100 100).
Proof.
  destruct (process_beams_spare_owner w0 ids a1.1 CIntegrityPool) as [-> _].
  - apply (bool_decide_eq_true_1 _). vm_compute. reflexivity.
  - unfold pool_kinds. set_solver.
  - reflexivity.
Defined.

Lemma process_regen_spec_witness :
  w_get (process_regen w0) a2.1 CPriorityPool = Some (mkPriorityPool 11 50).
Proof.
  apply (process_regen_spec w0 a2.1 (mkPriorityPool 10 50) (mkPriorityRegenTimer 0));
    [reflexivity | reflexivity | discriminate].
Defined.

Lemma process_target_reinitialization_spec_witness :
  w_get (process_target_reinitialization w0).1 a3.1 CRespawnTimer =
    Some (mkRespawnTimer 1 (Coordinate f0 f1)).
Proof.
  pose proof (process_target_reinitialization_spec w0 a3.1 (mkRespawnTimer 2 (Coordinate f0 f1))
    eq_refl) as H.
  destruct (process_target_reinitialization w0) as [w' l]. exact H.
Defined.
End InteractionWitness.
