(* ===== verification/Adapter.v ===== *)
(** * The world adapter

    [crates/aetheris-ecs-bevy/src/adapter.rs]: [BevyWorldAdapter], the implementation of the
    [WorldState] trait on an ECS world: the map between network ids and entities, ownership,
    extraction of changes, application of client updates, spawning and despawning, and the
    workspace index.  ([simulate] is in [Simulate.v].) *)

From stdpp Require Import gmap strings list sorting.
From Stdlib Require Import ZArith Lia.
From S2P Require Import Prelude F32 Protocol Components Ecs EcsModel Registry.

Open Scope Z_scope.

(** [rand]'s [random_range] on the wrapped generator: a value of the half-open range. *)
Class RandomRange : Type := {
  random_range : DeterministicRng -> f32 -> f32 -> f32 * DeterministicRng;
}.

(** [DefaultHasher] of a freshly created hasher fed with integers of the given widths. *)
Class StdHasher : Type := {
  hash_finish : list (Z * Z) -> Z;
}.

(** ** [BTreeMap<ComponentKind, _>]: entries in the order of their kinds *)
Fixpoint btree_insert {V} (k : ComponentKind) (v : V) (l : list (ComponentKind * V)) :
    list (ComponentKind * V) :=
  match l with
  | [] => [(k, v)]
  | (k', v') :: l' =>
      if kind_val k <? kind_val k' then (k, v) :: l
      else if kind_val k =? kind_val k' then (k, v) :: l'
      else (k', v') :: btree_insert k v l'
  end.

Fixpoint btree_get {V} (k : ComponentKind) (l : list (ComponentKind * V)) : option V :=
  match l with
  | [] => None
  | (k', v') :: l' => if decide (k = k') then Some v' else btree_get k l'
  end.

(** ** The adapter *)
Record Adapter (W B A : Type) := mkAdapter {
  ad_world : W;
  ad_bimap : B;
  ad_owners : gmap NetworkId ClientId;
  ad_replicators : list (ComponentKind * ComponentReplicator W);
  ad_allocator : A;
  ad_last_extraction_tick : option Z;
  ad_tick_rate : Z;
  ad_rng : DeterministicRng;
  ad_post_simulate_hook : option (W -> W) }.
Arguments mkAdapter {W B A}.
Arguments ad_world {W B A}.
Arguments ad_bimap {W B A}.
Arguments ad_owners {W B A}.
Arguments ad_replicators {W B A}.
Arguments ad_allocator {W B A}.
Arguments ad_last_extraction_tick {W B A}.
Arguments ad_tick_rate {W B A}.
Arguments ad_rng {W B A}.
Arguments ad_post_simulate_hook {W B A}.

(** Field updates. *)
Section updates.
Context {W B A : Type}.
Implicit Types a : Adapter W B A.

Definition set_world a w : Adapter W B A :=
  mkAdapter w (ad_bimap a) (ad_owners a) (ad_replicators a) (ad_allocator a)
    (ad_last_extraction_tick a) (ad_tick_rate a) (ad_rng a) (ad_post_simulate_hook a).
Definition set_bimap a b : Adapter W B A :=
  mkAdapter (ad_world a) b (ad_owners a) (ad_replicators a) (ad_allocator a)
    (ad_last_extraction_tick a) (ad_tick_rate a) (ad_rng a) (ad_post_simulate_hook a).
Definition set_owners a o : Adapter W B A :=
  mkAdapter (ad_world a) (ad_bimap a) o (ad_replicators a) (ad_allocator a)
    (ad_last_extraction_tick a) (ad_tick_rate a) (ad_rng a) (ad_post_simulate_hook a).
Definition set_replicators a r : Adapter W B A :=
  mkAdapter (ad_world a) (ad_bimap a) (ad_owners a) r (ad_allocator a)
    (ad_last_extraction_tick a) (ad_tick_rate a) (ad_rng a) (ad_post_simulate_hook a).
Definition set_allocator a al : Adapter W B A :=
  mkAdapter (ad_world a) (ad_bimap a) (ad_owners a) (ad_replicators a) al
    (ad_last_extraction_tick a) (ad_tick_rate a) (ad_rng a) (ad_post_simulate_hook a).
Definition set_last_extraction_tick a t : Adapter W B A :=
  mkAdapter (ad_world a) (ad_bimap a) (ad_owners a) (ad_replicators a) (ad_allocator a)
    t (ad_tick_rate a) (ad_rng a) (ad_post_simulate_hook a).
Definition set_rng a r : Adapter W B A :=
  mkAdapter (ad_world a) (ad_bimap a) (ad_owners a) (ad_replicators a) (ad_allocator a)
    (ad_last_extraction_tick a) (ad_tick_rate a) r (ad_post_simulate_hook a).
Definition set_post_simulate_hook a (h : W -> W) : Adapter W B A :=
  mkAdapter (ad_world a) (ad_bimap a) (ad_owners a) (ad_replicators a) (ad_allocator a)
    (ad_last_extraction_tick a) (ad_tick_rate a) (ad_rng a) (Some h).
End updates.

Section adapter.
Context {W : Type} `{!EcsWorld W} {B : Type} `{!BiMap B} {A : Type} `{!Allocator A}.
Context {PC : ProtocolConsts}.
Abbreviation adapter := (Adapter W B A).
Implicit Types a : adapter.

(** ** Construction *)
Definition new (world : W) (tick_rate : Z) : exec adapter :=
  _ ← assert_ (0 <? tick_rate);
  let rng := DeterministicRng_default in
  let w := w_put_res world RServerTick 0 in
  let w := w_put_res w RReliableEvents [] in
  let w := w_put_res w RBeamSpawnRequests [] in
  let w := w_put_res w RWorkspaceIndex WorkspaceIndex_default in
  let w := w_put_res w RRng rng in
  Ret (mkAdapter w bi_empty ∅ [] (alloc_new 1) None tick_rate rng None).

Definition new_with_rng (world : W) (tick_rate : Z) (rng : DeterministicRng) : adapter :=
  let w := w_put_res world RServerTick 0 in
  let w := w_put_res w RReliableEvents [] in
  let w := w_put_res w RWorkspaceIndex WorkspaceIndex_default in
  let w := w_put_res w RRng rng in
  mkAdapter w bi_empty ∅ [] (alloc_new 1) None tick_rate rng None.

Definition register_replicator a (r : ComponentReplicator W) : adapter :=
  set_replicators a (btree_insert (rep_kind r) r (ad_replicators a)).

(** ** Ids *)
Definition get_local_id a (network_id : NetworkId) : option LocalId :=
  (fun e => mkLid (to_bits e)) <$> bi_left (ad_bimap a) network_id.

Definition get_network_id a (local_id : LocalId) : option NetworkId :=
  bi_right (ad_bimap a) (from_bits (lid_val local_id)).

(** ** Extraction *)
Definition entity_deltas a (tick : Z) (p : NetworkId * Entity) : list ReplicationEvent :=
  omap (fun kr => rep_extract kr.2 (ad_world a) p.2 p.1 tick (ad_last_extraction_tick a))
       (ad_replicators a).

Definition extract_deltas a : list ReplicationEvent * adapter :=
  let tick := server_tick (ad_world a) in
  let current_tick := w_change_tick (ad_world a) in
  (bi_iter (ad_bimap a) ≫= entity_deltas a tick, set_last_extraction_tick a (Some current_tick)).

Definition extract_reliable_events a : reliable_queue * adapter :=
  match w_res (ad_world a) RReliableEvents with
  | Some q => (q, set_world a (w_put_res (ad_world a) RReliableEvents []))
  | None => ([], a)
  end.

(** ** Client updates *)

(** The loop's state: the adapter and the replicator used last, with its kind. *)
Record update_state := mkUpdateState {
  us_adapter : adapter;
  us_last_kind : option ComponentKind;
  us_last_replicator : option (ComponentReplicator W) }.

(** Ownership, through the cache; a miss asks the world and fills the cache. *)
Definition check_owner a (client_id : ClientId) (network_id : NetworkId) (entity : Entity) :
    bool * adapter :=
  match ad_owners a !! network_id with
  | Some owner_id => (bool_decide (owner_id = client_id), a)
  | None =>
      match w_get (ad_world a) entity CNetworkOwner with
      | Some o => (bool_decide (o = client_id),
                   set_owners a (<[network_id := o]> (ad_owners a)))
      | None => (false, a)
      end
  end.

Definition apply_update (s : update_state) (cu : ClientId * ComponentUpdate) : update_state :=
  let '(client_id, update) := cu in
  let a := us_adapter s in
  match bi_left (ad_bimap a) (cu_network_id update) with
  | None => s
  | Some entity =>
      let '(is_authorized, a) := check_owner a client_id (cu_network_id update) entity in
      if negb is_authorized then mkUpdateState a (us_last_kind s) (us_last_replicator s)
      else
        let '(last_kind, replicator) :=
          if bool_decide (us_last_kind s = Some (cu_component_kind update))
          then (us_last_kind s, us_last_replicator s)
          else (Some (cu_component_kind update),
                btree_get (cu_component_kind update) (ad_replicators a)) in
        match replicator with
        | Some r => mkUpdateState (set_world a (rep_apply r (ad_world a) entity update))
                                  last_kind replicator
        | None => mkUpdateState a last_kind replicator
        end
  end.

Definition apply_updates a (updates : list (ClientId * ComponentUpdate)) : adapter :=
  us_adapter (foldl apply_update (mkUpdateState a None None) updates).

(** ** Ticks *)
Definition advance_tick a : adapter :=
  let w := w_increment_change_tick (ad_world a) in
  set_world a (modify_res w RServerTick (fun t => sat_add 64 t 1)).

Definition post_extract a : adapter := set_world a (w_clear_trackers (ad_world a)).

(** ** State hash *)
Definition hash_entity a (nid : NetworkId) : list (Z * Z) :=
  (64, nid_val nid) ::
  match get_local_id a nid with
  | Some lid =>
      let e := from_bits (lid_val lid) in
      match w_get (ad_world a) e CTransform with
      | Some t => [(32, f_to_bits (t_x t)); (32, f_to_bits (t_y t)); (32, f_to_bits (t_z t));
                   (32, f_to_bits (t_rotation t)); (16, t_entity_type t)]
      | None => []
      end ++
      match w_get (ad_world a) e CAgentProperties with
      | Some p => [(16, ap_integrity p); (16, ap_priority p); (16, ap_energy p)]
      | None => []
      end
  | None => []
  end.

Definition nid_le (x y : NetworkId) : Prop := nid_val x <= nid_val y.
#[global] Instance nid_le_dec : RelDecision nid_le.
Proof. intros x y. unfold nid_le. apply _. Defined.

Definition state_hash {H : StdHasher} a : Z :=
  let nids := merge_sort nid_le (bi_iter (ad_bimap a)).*1 in
  hash_finish (nids ≫= hash_entity a).

(** ** Spawning *)
Definition spawn_networked a : exec (NetworkId * adapter) :=
  '(id, al) ← unwrap (allocate (ad_allocator a));
  let '(entity, w) := spawn_bundle (ad_world a) [CNetworked ⤳ id] in
  Ret (id, set_allocator (set_bimap (set_world a w) (bi_insert (ad_bimap a) id entity)) al).

Definition spawn_networked_for a (client_id : ClientId) : exec (NetworkId * adapter) :=
  '(id, a) ← spawn_networked a;
  entity ← unwrap (bi_left (ad_bimap a) id);
  _ ← entity_mut (ad_world a) entity;
  let w := insert_bundle (ad_world a) entity
    [CNetworkOwner ⤳ client_id; CTransform ⤳ mkTransform f0 f0 f0 f0 0;
     CVelocity ⤳ mkVelocity f0 f0 f0] in
  Ret (id, set_owners (set_world a w) (<[id := client_id]> (ad_owners a))).

(** ** Despawning *)
Definition drop_member (entity : Entity) (gone : option ClientId) (i : WorkspaceIndex) :
    WorkspaceIndex :=
  mkWorkspaceIndex ((fun members => members ∖ {[entity]}) <$> wi_memberships i)
    match gone with
    | Some cid => delete cid (wi_client_workspaces i)
    | None => wi_client_workspaces i
    end.

Definition despawn_networked a (network_id : NetworkId) : result unit WorldError * adapter :=
  match bi_left (ad_bimap a) network_id with
  | Some entity =>
      let a := set_bimap a (bi_remove (ad_bimap a) network_id) in
      let a := set_owners a (delete network_id (ad_owners a)) in
      let is_session_agent := has (ad_world a) entity CSessionAgent in
      let owner_id := w_get (ad_world a) entity CNetworkOwner in
      let w := modify_res (ad_world a) RWorkspaceIndex
                 (drop_member entity (if is_session_agent then owner_id else None)) in
      if w_alive w entity then
        let w := w_despawn w entity in
        let w := push_reliable w [(None, WEntityDespawned network_id)] in
        (Ok (), set_world a w)
      else (Err (EntityNotFound network_id), set_world a w)
  | None => (Err (EntityNotFound network_id), a)
  end.

(** ** [spawn_kind] *)

(** Component groups of the kinds of entity. *)
Definition agent_properties (hp priority energy priority_regen energy_regen : Z) : AgentProperties :=
  mkAgentProperties hp hp priority priority energy energy priority_regen energy_regen.

Definition agent_bundle (kind : Z) : list component :=
  let '(hp, priority) := get_default_properties kind in
  [CAgentKind ⤳ Standard;
   CAgentProperties ⤳ agent_properties hp priority 100 5 10;
   CPhysicsBody ⤳ mkPhysicsBody (f_of_Z 100) DEFAULT_THRUST_FORCE DEFAULT_MAX_VELOCITY (f_of_Z 270)
                    DEFAULT_DRAG MASS_PER_PAYLOAD;
   CDataStore ⤳ mkDataStore 0 500;
   CExtractionBeam ⤳ mkExtractionBeam false None (f_of_Z 15) 2 None;
   CPlayerName ⤳ mkPlayerName (if kind =? ENTITY_TYPE_AI_AGENT then "AI Agent" else "Player");
   CTool ⤳ mkTool 30 0;
   CPriorityPool ⤳ mkPriorityPool priority priority;
   CIntegrityPool ⤳ mkIntegrityPool hp hp;
   CPriorityRegenTimer ⤳ mkPriorityRegenTimer 0] ++
  (if kind =? ENTITY_TYPE_AI_AGENT then [CAiControlled ⤳ ()] else []).

Definition beam_bundle (x y : f32) : list component :=
  [CBeamMarker ⤳ mkBeamMarker PulseBeam (x, y) (f_of_Z 200) (mkNid 0) 300;
   CVelocity ⤳ mkVelocity f0 f0 f0;
   CPhysicsBody ⤳ mkPhysicsBody f1 f0 (f_of_Z 1000) f0 f0 f0].

Definition drop_bundle : list component :=
  [CDataDropComponent ⤳ mkDataDropComponent 0;
   CPhysicsBody ⤳ mkPhysicsBody (f_of_Z 10) f0 (f_of_Z 10) f0 (f_of_Z 2) f0].

Definition training_target_bundle (kind : Z) : list component :=
  let '(hp, priority) := get_default_properties kind in
  [CTrainingTarget ⤳ ();
   CAgentKind ⤳ Carrier;
   CPriorityPool ⤳ mkPriorityPool priority priority;
   CIntegrityPool ⤳ mkIntegrityPool hp hp;
   CPlayerName ⤳ mkPlayerName "Training Target";
   CPriorityRegenTimer ⤳ mkPriorityRegenTimer 0;
   CPhysicsBody ⤳ mkPhysicsBody (f_of_Z 200) f0 f0 f0 f1 f0].

Definition heavy_agent_bundle (kind : Z) : list component :=
  let '(hp, priority) := get_default_properties kind in
  [CAgentKind ⤳ Heavy;
   CAgentProperties ⤳ agent_properties hp priority 300 15 20;
   CPhysicsBody ⤳ mkPhysicsBody (f_of_Z 400) (f_of_Z 40000) (f_of_Z 60) (f_of_Z 60)
                    DEFAULT_DRAG MASS_PER_PAYLOAD;
   CDataStore ⤳ mkDataStore 0 500;
   CExtractionBeam ⤳ ExtractionBeam_default;
   CPlayerName ⤳ mkPlayerName "Heavy Agent";
   CPriorityPool ⤳ mkPriorityPool priority priority;
   CIntegrityPool ⤳ mkIntegrityPool hp hp;
   CPriorityRegenTimer ⤳ mkPriorityRegenTimer 0].

Definition carrier_agent_bundle (kind : Z) : list component :=
  let '(hp, priority) := get_default_properties kind in
  [CAgentKind ⤳ Carrier;
   CAgentProperties ⤳ agent_properties hp priority 150 8 12;
   CPhysicsBody ⤳ mkPhysicsBody (f_of_Z 200) (f_of_Z 25000) (f_of_Z 80) (f_of_Z 150)
                    DEFAULT_DRAG MASS_PER_PAYLOAD;
   CDataStore ⤳ mkDataStore 0 500;
   CExtractionBeam ⤳ ExtractionBeam_default;
   CPlayerName ⤳ mkPlayerName "Carrier Agent";
   CPriorityPool ⤳ mkPriorityPool priority priority;
   CIntegrityPool ⤳ mkIntegrityPool hp hp;
   CPriorityRegenTimer ⤳ mkPriorityRegenTimer 0].

Definition resource_bundle : list component :=
  [CResource ⤳ mkResource 100 100; CResourceIntegrity ⤳ mkResourceIntegrity 500 500].

(** The [match kind] of [spawn_kind]. *)
Definition kind_bundle (kind : Z) (x y : f32) : list component :=
  if (kind =? ENTITY_TYPE_AGENT) || (kind =? ENTITY_TYPE_AI_AGENT) then agent_bundle kind
  else if kind =? ENTITY_TYPE_BEAM then beam_bundle x y
  else if kind =? ENTITY_TYPE_DATA_DROP then drop_bundle
  else if kind =? ENTITY_TYPE_TRAINING_TARGET then training_target_bundle kind
  else if kind =? ENTITY_TYPE_HEAVY_AGENT then heavy_agent_bundle kind
  else if kind =? ENTITY_TYPE_CARRIER_AGENT then carrier_agent_bundle kind
  else if kind =? ENTITY_TYPE_RESOURCE then resource_bundle
  else [].

Definition base_bundle (network_id : NetworkId) (kind : Z) (x y rot : f32) : list component :=
  [CNetworked ⤳ network_id; CTransform ⤳ mkTransform x y f0 rot kind;
   CVelocity ⤳ mkVelocity f0 f0 f0].

Definition master_bundle (workspace_nid : NetworkId) : list component :=
  [CWorkspaceDefinition ⤳ mkWorkspaceDefinition "Playground_Master" 0 Open false;
   CWorkspaceBounds ⤳ mkWorkspaceBounds (f_of_Z (-250)) (f_of_Z (-250)) (f_of_Z 250) (f_of_Z 250);
   CWorkspaceMembership ⤳ workspace_nid].

(** The id of the master workspace: the first definition of that name that has an id. *)
Fixpoint find_master (w : W) (bimap : B) (l : list Entity) : option NetworkId :=
  match l with
  | [] => None
  | e :: l' =>
      match w_get w e CWorkspaceDefinition with
      | Some def =>
          if String.eqb (wd_name def) "Playground_Master" then
            match bi_right bimap e with
            | Some nid => Some nid
            | None => find_master w bimap l'
            end
          else find_master w bimap l'
      | None => find_master w bimap l'
      end
  end.

Definition master_workspace a : option NetworkId :=
  find_master (ad_world a) (ad_bimap a) (w_query (ad_world a) [CWorkspaceDefinition]).

Definition join_workspace (master : NetworkId) (entity : Entity) (i : WorkspaceIndex) :
    WorkspaceIndex :=
  mkWorkspaceIndex
    (<[master := {[entity]} ∪ default ∅ (wi_memberships i !! master)]> (wi_memberships i))
    (wi_client_workspaces i).

(** The second half of [spawn_kind]: the entity, its workspace and its id. *)
Definition spawn_in a (network_id master : NetworkId) (kind : Z) (x y rot : f32) : adapter :=
  let '(entity, w) := spawn_bundle (ad_world a) (base_bundle network_id kind x y rot) in
  let w := insert_bundle w entity (kind_bundle kind x y) in
  let w := w_put w entity CWorkspaceMembership master in
  let w := modify_res w RWorkspaceIndex (join_workspace master entity) in
  set_bimap (set_world a w) (bi_insert (ad_bimap a) network_id entity).

(** The lazy creation of the master workspace; [spawn_resource] is the recursive call that puts
    a resource into it. *)
Definition create_master (spawn_resource : adapter -> exec (NetworkId * adapter)) a :
    exec (NetworkId * adapter) :=
  '(workspace_nid, a) ← spawn_networked a;
  match bi_left (ad_bimap a) workspace_nid with
  | Some entity =>
      _ ← entity_mut (ad_world a) entity;
      let a := set_world a (insert_bundle (ad_world a) entity (master_bundle workspace_nid)) in
      '(_, a) ← spawn_resource a;
      Ret (workspace_nid, a)
  | None => Ret (mkNid 1, a)
  end.

(** [spawn_kind] calls itself; [fuel] bounds the depth of these calls. *)
Fixpoint spawn_kind_fuel (fuel : nat) a (kind : Z) (x y rot : f32) : exec (NetworkId * adapter) :=
  match fuel with
  | O => Diverge
  | S fuel' =>
      '(network_id, al) ← unwrap (allocate (ad_allocator a));
      let a := set_allocator a al in
      '(master, a) ←
        match master_workspace a with
        | Some nid => Ret (nid, a)
        | None => create_master (fun a => spawn_kind_fuel fuel' a ENTITY_TYPE_RESOURCE
                                            (f_of_Z 30) f0 f0) a
        end;
      Ret (network_id, spawn_in a network_id master kind x y rot)
  end.

Definition spawn_kind a (kind : Z) (x y rot : f32) : exec (NetworkId * adapter) :=
  spawn_kind_fuel 2 a kind x y rot.

(** ** Spawning for a client *)
Definition get_entity_workspace a (network_id : NetworkId) : option NetworkId :=
  entity ← bi_left (ad_bimap a) network_id;
  w_get (ad_world a) entity CWorkspaceMembership.

Definition spawn_kind_for a (kind : Z) (x y rot : f32) (client_id : ClientId) :
    exec (NetworkId * adapter) :=
  '(nid, a) ← spawn_kind a kind x y rot;
  match bi_left (ad_bimap a) nid with
  | Some entity =>
      _ ← entity_mut (ad_world a) entity;
      let a := set_world a (w_put (ad_world a) entity CNetworkOwner client_id) in
      Ret (nid, set_owners a (<[nid := client_id]> (ad_owners a)))
  | None => Ret (nid, a)
  end.

Definition assign_workspace (client_id : ClientId) (ws : NetworkId) (i : WorkspaceIndex) :
    WorkspaceIndex :=
  mkWorkspaceIndex (wi_memberships i) (<[client_id := ws]> (wi_client_workspaces i)).

Definition spawn_session_agent a (kind : Z) (x y rot : f32) (client_id : ClientId) :
    exec (NetworkId * adapter) :=
  '(nid, a) ← spawn_kind_for a kind x y rot client_id;
  match bi_left (ad_bimap a) nid with
  | Some entity =>
      _ ← entity_mut (ad_world a) entity;
      let a := set_world a (w_put (ad_world a) entity CSessionAgent ()) in
      workspace_id ← unwrap (get_entity_workspace a nid);
      Ret (nid, set_world a (modify_res (ad_world a) RWorkspaceIndex
                               (assign_workspace client_id workspace_id)))
  | None => Ret (nid, a)
  end.

(** ** The remaining operations *)
Definition stress_kinds : list Z :=
  [ENTITY_TYPE_AGENT; ENTITY_TYPE_HEAVY_AGENT; ENTITY_TYPE_CARRIER_AGENT; ENTITY_TYPE_RESOURCE;
   ENTITY_TYPE_DATA_DROP].

Definition stress_step {R : RandomRange} (rotate : bool) a (i : nat) : exec adapter :=
  let '(x, rng) := random_range (ad_rng a) (f_of_Z (-20)) (f_of_Z 20) in
  let '(y, rng) := random_range rng (f_of_Z (-20)) (f_of_Z 20) in
  let '(rot, rng) := if rotate then random_range rng f0 TAU else (f0, rng) in
  kind ← unwrap (stress_kinds !! (i mod length stress_kinds)%nat);
  '(_, a) ← spawn_kind (set_rng a rng) kind x y rot;
  Ret a.

Definition stress_test {R : RandomRange} a (count : Z) (rotate : bool) : exec adapter :=
  for_each (stress_step rotate) a (seq 0 (Z.to_nat count)).

Definition setup_world a : adapter := a.

Definition queue_reliable_event a (client_id : option ClientId) (event : PlatformEvent) : adapter :=
  set_world a (push_reliable (ad_world a) [(client_id, WPlatformEvent event)]).

Definition clear_world a : adapter :=
  let ids := (bi_iter (ad_bimap a)).*1 in
  let a := foldl (fun a id => (despawn_networked a id).2) a ids in
  let w := foldl w_despawn (ad_world a) (w_query (ad_world a) [CResourceRespawn]) in
  let a := set_allocator (set_world a w) (alloc_reset (ad_allocator a)) in
  let w := modify_res (ad_world a) RWorkspaceIndex (fun _ => mkWorkspaceIndex ∅ ∅) in
  setup_world (set_last_extraction_tick (set_world a w) None).

(** The id of the first entity of the map that is the master workspace. *)
Fixpoint first_master (w : W) (bimap : B) (l : list (NetworkId * Entity)) : option NetworkId :=
  match l with
  | [] => None
  | (_, e) :: l' =>
      match w_get w e CWorkspaceDefinition with
      | Some def =>
          if String.eqb (wd_name def) "Playground_Master" then bi_right bimap e
          else first_master w bimap l'
      | None => first_master w bimap l'
      end
  end.

Definition get_client_workspace a (client_id : ClientId) : option NetworkId :=
  match w_res (ad_world a) RWorkspaceIndex ≫= fun i => wi_client_workspaces i !! client_id with
  | Some workspace_id => Some workspace_id
  | None => first_master (ad_world a) (ad_bimap a) (bi_iter (ad_bimap a))
  end.
End adapter.

(** ** Reference for [apply_updates]: no caches *)
Section reference.
Context {W : Type} `{!EcsWorld W} {B : Type} `{!BiMap B} {A : Type}.

(** An update is applied when its entity exists, the world says that the client owns it, and the
    component kind has a replicator. *)
Definition apply_update_ref (a : Adapter W B A) (cu : ClientId * ComponentUpdate) : Adapter W B A :=
  let '(client_id, update) := cu in
  match bi_left (ad_bimap a) (cu_network_id update) with
  | Some entity =>
      if decide (w_get (ad_world a) entity CNetworkOwner = Some client_id) then
        match btree_get (cu_component_kind update) (ad_replicators a) with
        | Some r => set_world a (rep_apply r (ad_world a) entity update)
        | None => a
        end
      else a
  | None => a
  end.
End reference.

(** ** The invariant *)

(** Components the adapter relies on to keep its tables right. *)
Definition core_kinds : list ckind :=
  [CNetworked; CNetworkOwner; CResourceRespawn; CRespawnTimer].

Section invariant.
Context {W : Type} `{!EcsWorld W} {B : Type} `{!BiMap B} {A : Type} `{!Allocator A}.
Variable issued : A -> NetworkId -> Prop.

(** The id map names live entities that carry their id, the owner cache agrees with the world, the
    ids in use were handed out by the allocator, the workspace index names only entities of the
    map, and no respawn tracker is in the map. *)
Record wf (a : Adapter W B A) : Prop := {
  wf_id n e : bi_left (ad_bimap a) n = Some e -> w_get (ad_world a) e CNetworked = Some n;
  wf_owner n c : ad_owners a !! n = Some c ->
    exists e, bi_left (ad_bimap a) n = Some e /\ w_get (ad_world a) e CNetworkOwner = Some c;
  wf_issued n e : bi_left (ad_bimap a) n = Some e -> issued (ad_allocator a) n;
  wf_index i ws members e : w_res (ad_world a) RWorkspaceIndex = Some i ->
    wi_memberships i !! ws = Some members -> e ∈ members -> is_Some (bi_right (ad_bimap a) e);
  wf_tracker e : is_Some (w_get (ad_world a) e CResourceRespawn) \/
    is_Some (w_get (ad_world a) e CRespawnTimer) -> bi_right (ad_bimap a) e = None;
}.

(** Worlds that agree on what the invariant looks at, for the entities of the map. *)
Definition keeps (b : B) (w w' : W) : Prop :=
  (forall e k, is_Some (bi_right b e) -> k ∈ core_kinds -> w_get w' e k = w_get w e k) /\
  w_res w' RWorkspaceIndex = w_res w RWorkspaceIndex.
End invariant.

Section adapter_lemmas.
Context {W : Type} `{!EcsWorld W, !EcsLaws W} {B : Type} `{!BiMap B, !BiMapLaws B}.
Context {A : Type} `{!Allocator A} {issued : A -> NetworkId -> Prop}.
Context `{!AllocatorLaws A issued} {PC : ProtocolConsts}.
Abbreviation adapter := (Adapter W B A).
Abbreviation wf := (wf issued).
Implicit Types (a : adapter) (w : W).

Lemma wf_alive a n e : wf a -> bi_left (ad_bimap a) n = Some e -> w_alive (ad_world a) e = true.
Proof. intros H Hn. exact (get_alive _ _ CNetworked _ (wf_id _ _ H n e Hn)). Qed.

Lemma wf_right_alive a e : wf a -> is_Some (bi_right (ad_bimap a) e) -> w_alive (ad_world a) e = true.
Proof. intros H [n Hn%bi_bij]. by eapply wf_alive. Qed.

Lemma wf_fresh a e : wf a -> w_alive (ad_world a) e = false -> bi_right (ad_bimap a) e = None.
Proof.
  intros H Ha. destruct (bi_right (ad_bimap a) e) eqn:E; [|done].
  rewrite (wf_right_alive a e H) in Ha by eauto. done.
Qed.

#[global] Instance keeps_preorder b : PreOrder (keeps (W := W) b).
Proof.
  split; [by split|]. intros w1 w2 w3 [H1 R1] [H2 R2]. split; [|congruence].
  intros e k He Hk. by rewrite H2, H1.
Qed.

Lemma touches_keeps b ks rs w w' :
  touches ks rs w w' -> (forall k, k ∈ core_kinds -> k ∉ ks) -> RWorkspaceIndex ∉ rs ->
  keeps b w w'.
Proof.
  intros Ht Hk Hr. split; [|by apply (tc_res _ _ _ _ Ht)].
  intros e k _ Hin. apply (tc_get _ _ _ _ Ht). auto.
Qed.

(** The invariant only depends on what [keeps] preserves, and on no new tracker in the map. *)
Lemma wf_keeps a w' : wf a -> keeps (ad_bimap a) (ad_world a) w' -> wf (set_world a w').
Proof.
  intros H [Hg Hr]. split; cbn.
  - intros n e Hn. rewrite Hg; [by apply (wf_id _ _ H) | apply bi_bij in Hn; eauto | set_solver].
  - intros n c Hn. destruct (wf_owner _ _ H n c Hn) as (e & He & Hc). exists e. split; [done|].
    rewrite Hg; [done | apply bi_bij in He; eauto | set_solver].
  - apply (wf_issued _ _ H).
  - intros i ws ms e Hi. rewrite Hr in Hi. by apply (wf_index _ _ H).
  - intros e He. destruct (bi_right (ad_bimap a) e) as [n|] eqn:En; [|done].
    rewrite !Hg in He by (eauto || set_solver). by rewrite (wf_tracker _ _ H e He) in En.
Qed.

(** *** The kinds [spawn_kind] gives an entity *)
Definition bundle_kinds : list ckind :=
  [CAgentKind; CAgentProperties; CPhysicsBody; CDataStore; CExtractionBeam; CPlayerName; CTool;
   CPriorityPool; CIntegrityPool; CPriorityRegenTimer; CAiControlled; CBeamMarker; CVelocity;
   CDataDropComponent; CTrainingTarget; CResource; CResourceIntegrity].

Lemma kind_bundle_kinds kind x y k : k ∈ projT1 <$> kind_bundle kind x y -> k ∈ bundle_kinds.
Proof.
  unfold kind_bundle, agent_bundle, training_target_bundle, heavy_agent_bundle, carrier_agent_bundle.
  destruct (get_default_properties kind) as [hp pr].
  repeat case_match; cbn [fmap list_fmap projT1 app beam_bundle drop_bundle resource_bundle];
    rewrite ?not_elem_of_nil, ?elem_of_cons; intros Hin;
    unfold bundle_kinds; rewrite !elem_of_cons; intuition (subst; auto 20).
Qed.

Lemma kind_bundle_not kind x y k : k ∉ bundle_kinds -> k ∉ projT1 <$> kind_bundle kind x y.
Proof. intros H H'. by apply H, (kind_bundle_kinds kind x y). Qed.

(** *** A new entity *)

(** [a'] is [a] with a new entity [e] under the id [n]. *)
Record adds_entity a a' (n : NetworkId) (e : Entity) : Prop := {
  ae_fresh : w_alive (ad_world a) e = false;
  ae_alive e' : w_alive (ad_world a') e' = bool_decide (e' = e) || w_alive (ad_world a) e';
  ae_old e' k : w_alive (ad_world a) e' = true -> w_get (ad_world a') e' k = w_get (ad_world a) e' k;
  ae_networked : w_get (ad_world a') e CNetworked = Some n;
  ae_core k : k ∈ [CNetworkOwner; CResourceRespawn; CRespawnTimer; CSessionAgent] ->
    w_get (ad_world a') e k = None;
  ae_bimap : ad_bimap a' = bi_insert (ad_bimap a) n e;
  ae_owners : ad_owners a' = ad_owners a;
  ae_index : w_res (ad_world a') RWorkspaceIndex = w_res (ad_world a) RWorkspaceIndex \/
    exists m, w_res (ad_world a') RWorkspaceIndex =
      join_workspace m e <$> w_res (ad_world a) RWorkspaceIndex;
}.

Lemma wf_adds_entity a a' n e :
  wf a -> adds_entity a a' n e -> bi_left (ad_bimap a) n = None ->
  issued (ad_allocator a') n ->
  (forall m, issued (ad_allocator a) m -> issued (ad_allocator a') m) -> wf a'.
Proof.
  intros H Ha Hn Hi Him. destruct (Ha) as [Hfr Hal Hold Hnet Hcore Hb Ho Hx].
  assert (Hr : bi_right (ad_bimap a) e = None) by by apply wf_fresh.
  assert (Hleft : forall m x, bi_left (ad_bimap a') m = Some x ->
    (m = n /\ x = e) \/ (m <> n /\ bi_left (ad_bimap a) m = Some x)).
  { intros m x. rewrite Hb. destruct (decide (m = n)) as [->|].
    - rewrite bi_insert_eq. intros [= <-]. auto.
    - rewrite bi_insert_ne by done. auto. }
  assert (Hkeep : forall m x, bi_left (ad_bimap a) m = Some x -> bi_left (ad_bimap a') m = Some x).
  { intros m x Hm. rewrite Hb, bi_insert_ne; [done | congruence | done]. }
  split.
  - intros m x Hm. destruct (Hleft m x Hm) as [[-> ->]|[_ Hm']]; [done|].
    rewrite Hold by (by eapply wf_alive). by apply (wf_id _ _ H).
  - intros m c Hm. rewrite Ho in Hm. destruct (wf_owner _ _ H m c Hm) as (x & Hx' & Hc).
    exists x. split; [by apply Hkeep|]. rewrite Hold; [done | by eapply wf_alive].
  - intros m x Hm. destruct (Hleft m x Hm) as [[-> ->]|[_ Hm']]; [done|].
    by eapply Him, (wf_issued _ _ H).
  - intros i ws ms x Hi' Hws Hin.
    assert (Hor : x = e \/ is_Some (bi_right (ad_bimap a) x)).
    { destruct Hx as [Hx|[m Hx]]; rewrite Hx in Hi'; [right; by eapply (wf_index _ _ H)|].
      apply fmap_Some in Hi' as (i0 & Hi0 & ->). cbn in Hws.
      rewrite lookup_insert in Hws. case_decide; [|right; by eapply (wf_index _ _ H)].
      injection Hws as <-. apply elem_of_union in Hin as [->%elem_of_singleton|Hin]; [by left|].
      destruct (wi_memberships i0 !! m) as [ms'|] eqn:Em; [|set_solver].
      right. by eapply (wf_index _ _ H). }
    destruct Hor as [->|[m Hm]].
    + exists n. apply bi_bij. rewrite Hb. apply bi_insert_eq.
    + exists m. by apply bi_bij, Hkeep, bi_bij.
  - intros x Hx'. destruct (bi_right (ad_bimap a') x) as [m|] eqn:Em; [|done]. exfalso.
    apply bi_bij in Em. destruct (Hleft m x Em) as [[-> ->]|[_ Hm]].
    + rewrite !Hcore in Hx' by set_solver. destruct Hx' as [[]|[]]; done.
    + rewrite !Hold in Hx' by (by eapply wf_alive).
      apply bi_bij in Hm. by rewrite (wf_tracker _ _ H x Hx') in Hm.
Qed.

Lemma spawn_bundle_new_none w l k :
  k ∉ projT1 <$> l -> w_get (spawn_bundle w l).2 (spawn_bundle w l).1 k = None.
Proof.
  intros Hk. rewrite spawn_bundle_get_other by done. apply dead_get, spawn_bundle_fresh.
Qed.

(** The new entity of [spawn_in], and the adapter after it. *)
Definition spawned_entity a n kind x y rot : Entity :=
  (spawn_bundle (ad_world a) (base_bundle n kind x y rot)).1.

Lemma spawn_in_world a n m kind x y rot :
  let r := spawn_bundle (ad_world a) (base_bundle n kind x y rot) in
  spawn_in a n m kind x y rot =
    set_bimap (set_world a
      (modify_res (w_put (insert_bundle r.2 r.1 (kind_bundle kind x y)) r.1 CWorkspaceMembership m)
         RWorkspaceIndex (join_workspace m r.1))) (bi_insert (ad_bimap a) n r.1).
Proof. cbv zeta. unfold spawn_in. by destruct (spawn_bundle _ _). Qed.

Lemma spawn_in_new_get a n m kind x y rot k :
  k ∉ bundle_kinds -> k <> CWorkspaceMembership ->
  w_get (ad_world (spawn_in a n m kind x y rot)) (spawned_entity a n kind x y rot) k =
  w_get (spawn_bundle (ad_world a) (base_bundle n kind x y rot)).2
        (spawned_entity a n kind x y rot) k.
Proof.
  intros Hk Hm. rewrite spawn_in_world. cbn. rewrite modify_res_get, put_get_ne by (by right).
  apply insert_bundle_get_other. by apply kind_bundle_not.
Qed.

Lemma spawn_in_adds a n m kind x y rot :
  adds_entity a (spawn_in a n m kind x y rot) n (spawned_entity a n kind x y rot).
Proof.
  unfold spawned_entity. pose proof (spawn_bundle_fresh (ad_world a) (base_bundle n kind x y rot)) as Hf.
  split.
  - exact Hf.
  - intros e'. rewrite spawn_in_world. cbn.
    by rewrite modify_res_alive, put_alive, insert_bundle_alive, spawn_bundle_alive.
  - intros e' k He'. rewrite spawn_in_world. cbn.
    assert ((spawn_bundle (ad_world a) (base_bundle n kind x y rot)).1 <> e') by congruence.
    rewrite modify_res_get, put_get_ne, insert_bundle_get_ne by (by left || done).
    by apply spawn_bundle_get_ne.
  - rewrite spawn_in_new_get by (done || unfold bundle_kinds; set_solver).
    by apply (spawn_bundle_get _ [] CNetworked n); set_solver.
  - intros k Hk. rewrite spawn_in_new_get by (unfold bundle_kinds; set_solver).
    apply spawn_bundle_new_none. unfold base_bundle. set_solver.
  - by rewrite spawn_in_world.
  - by rewrite spawn_in_world.
  - right. exists m. rewrite spawn_in_world. cbn.
    rewrite modify_res_eq, put_res_frame, insert_bundle_res, spawn_bundle_res. done.
Qed.

Lemma spawn_networked_adds a n a' :
  spawn_networked a = Ret (n, a') ->
  exists e al, allocate (ad_allocator a) = Some (n, al) /\ adds_entity a a' n e /\
    ad_allocator a' = al /\ ad_replicators a' = ad_replicators a /\
    w_alive (ad_world a') e = true.
Proof.
  unfold spawn_networked. destruct (allocate (ad_allocator a)) as [[id al]|] eqn:Eal; cbn; [|done].
  destruct (spawn_bundle (ad_world a) [CNetworked ⤳ id]) as [e w] eqn:Ew. intros [= <- <-].
  pose proof (spawn_bundle_fresh (ad_world a) [CNetworked ⤳ id]) as Hf. rewrite Ew in Hf. cbn in Hf.
  assert (Hal : forall e', w_alive w e' = bool_decide (e' = e) || w_alive (ad_world a) e').
  { intros e'. pose proof (spawn_bundle_alive (ad_world a) [CNetworked ⤳ id] e') as H.
    by rewrite Ew in H. }
  exists e, al. split_and!; try done; [split|]; cbn; try done.
  - intros e' k He'. pose proof (spawn_bundle_get_ne (ad_world a) [CNetworked ⤳ id] e' k He') as H.
    by rewrite Ew in H.
  - assert (H : w_get (spawn_bundle (ad_world a) [CNetworked ⤳ id]).2
                      (spawn_bundle (ad_world a) [CNetworked ⤳ id]).1 CNetworked = Some id)
      by (apply (spawn_bundle_get _ [] CNetworked id []); set_solver).
    by rewrite Ew in H.
  - intros k Hk. pose proof (spawn_bundle_new_none (ad_world a) [CNetworked ⤳ id] k) as H.
    rewrite Ew in H. apply H. set_solver.
  - left. pose proof (spawn_bundle_res (ad_world a) [CNetworked ⤳ id] RWorkspaceIndex) as H.
    by rewrite Ew in H.
  - by rewrite Hal, bool_decide_eq_true_2.
Qed.

Lemma wf_spawn_networked a n a' : wf a -> spawn_networked a = Ret (n, a') -> wf a'.
Proof.
  intros H HE. apply spawn_networked_adds in HE as (e & al & Hal & Hadd & Heq & _).
  eapply wf_adds_entity; [done | done | | |].
  - destruct (bi_left (ad_bimap a) n) as [x|] eqn:E; [|done]. apply (wf_issued _ _ H) in E.
    by apply (alloc_fresh _ _ _ Hal) in E.
  - rewrite Heq. apply (alloc_issued _ _ _ _ Hal). by left.
  - intros m Hm. rewrite Heq. apply (alloc_issued _ _ _ _ Hal). by right.
Qed.

(** *** Growth: what spawning does to everything that was there before *)
Record grows a a' : Prop := {
  gr_alive e : w_alive (ad_world a) e = true -> w_alive (ad_world a') e = true;
  gr_get e k : w_alive (ad_world a) e = true -> w_get (ad_world a') e k = w_get (ad_world a) e k;
  gr_left n e : bi_left (ad_bimap a) n = Some e -> bi_left (ad_bimap a') n = Some e;
  gr_new n e : bi_left (ad_bimap a') n = Some e ->
    bi_left (ad_bimap a) n = Some e \/ ~ issued (ad_allocator a) n;
  gr_issued n : issued (ad_allocator a) n -> issued (ad_allocator a') n;
  gr_owners : ad_owners a' = ad_owners a;
  gr_rest : (ad_replicators a', ad_last_extraction_tick a', ad_tick_rate a') =
            (ad_replicators a, ad_last_extraction_tick a, ad_tick_rate a);
}.

#[global] Instance grows_preorder : PreOrder grows.
Proof.
  split; [split; auto|]. intros a1 a2 a3 H12 H23. split.
  - intros. by apply (gr_alive _ _ H23), (gr_alive _ _ H12).
  - intros e k He. rewrite (gr_get _ _ H23) by by apply (gr_alive _ _ H12).
    by apply (gr_get _ _ H12).
  - intros. by apply (gr_left _ _ H23), (gr_left _ _ H12).
  - intros n e [Hn|Hn]%(gr_new _ _ H23); [by apply (gr_new _ _ H12)|].
    right. intros Hi. by apply Hn, (gr_issued _ _ H12).
  - intros. by apply (gr_issued _ _ H23), (gr_issued _ _ H12).
  - by rewrite (gr_owners _ _ H23), (gr_owners _ _ H12).
  - by rewrite (gr_rest _ _ H23), (gr_rest _ _ H12).
Qed.

Lemma grows_then_add a0 a a' n e :
  grows a0 a -> wf a -> adds_entity a a' n e -> ~ issued (ad_allocator a0) n ->
  bi_left (ad_bimap a) n = None ->
  (forall m, issued (ad_allocator a) m -> issued (ad_allocator a') m) ->
  (ad_replicators a', ad_last_extraction_tick a', ad_tick_rate a') =
  (ad_replicators a, ad_last_extraction_tick a, ad_tick_rate a) -> grows a0 a'.
Proof.
  intros Hg H [Hfr Hal Hold _ _ Hb Ho _] Hn Hnone Hi Hrest.
  assert (Hr : bi_right (ad_bimap a) e = None) by by apply wf_fresh.
  split.
  - intros e' He'. by rewrite Hal, (gr_alive _ _ Hg) by done; rewrite orb_true_r.
  - intros e' k He'. rewrite Hold by by apply (gr_alive _ _ Hg). by apply (gr_get _ _ Hg).
  - intros m x Hm%(gr_left _ _ Hg). rewrite Hb, bi_insert_ne; [done| |done]. congruence.
  - intros m x. rewrite Hb. destruct (decide (m = n)) as [->|]; [by right|].
    rewrite bi_insert_ne by done. apply (gr_new _ _ Hg).
  - intros m Hm. by apply Hi, (gr_issued _ _ Hg).
  - by rewrite Ho, (gr_owners _ _ Hg).
  - by rewrite Hrest, (gr_rest _ _ Hg).
Qed.

(** Writes to an entity that was not there before. *)
Lemma grows_insert a0 a e l :
  grows a0 a -> w_alive (ad_world a0) e = false ->
  grows a0 (set_world a (insert_bundle (ad_world a) e l)).
Proof.
  intros Hg Ha. split; cbn [set_world ad_world ad_bimap ad_allocator ad_owners]; try apply Hg.
  - intros e' He'. rewrite insert_bundle_alive. by apply (gr_alive _ _ Hg).
  - intros e' k He'. rewrite insert_bundle_get_ne by congruence. by apply (gr_get _ _ Hg).
Qed.

Lemma wf_allocator a al :
  wf a -> (forall m, issued (ad_allocator a) m -> issued al m) -> wf (set_allocator a al).
Proof. intros [] Hi. split; cbn; eauto. Qed.

(** Handing out an id. *)
Lemma grows_allocate a n al :
  allocate (ad_allocator a) = Some (n, al) -> grows a (set_allocator a al).
Proof.
  intros Hal. split; cbn; auto. intros m Hm. apply (alloc_issued _ _ _ _ Hal). by right.
Qed.

Lemma insert_bundle_keeps b w e l :
  (forall k, k ∈ core_kinds -> k ∉ projT1 <$> l) -> keeps b w (insert_bundle w e l).
Proof.
  intros Hl. split; [|apply insert_bundle_res]. intros e' k _ Hk.
  by apply insert_bundle_get_other, Hl.
Qed.

(** *** The master workspace *)
Lemma find_master_is_Some w b l e def :
  e ∈ l -> w_get w e CWorkspaceDefinition = Some def -> wd_name def = "Playground_Master"%string ->
  is_Some (bi_right b e) -> is_Some (find_master w b l).
Proof.
  intros Hin Hd Hname [n Hn]. induction l as [|x l IH]; [set_solver|]. cbn.
  apply elem_of_cons in Hin as [->|Hin].
  - rewrite Hd, Hname. cbn. rewrite Hn. eauto.
  - specialize (IH Hin). destruct (w_get w x CWorkspaceDefinition); [|done].
    case_match; [|done]. case_match; eauto.
Qed.

Lemma find_master_bimap w b l n :
  find_master w b l = Some n -> exists e def, bi_left b n = Some e /\
    w_get w e CWorkspaceDefinition = Some def /\ wd_name def = "Playground_Master"%string.
Proof.
  induction l as [|e l IH]; cbn; [done|].
  destruct (w_get w e CWorkspaceDefinition) as [def|] eqn:Ed; [|done].
  destruct (String.eqb_spec (wd_name def) "Playground_Master"); [|done].
  destruct (bi_right b e) as [m|] eqn:Em; [|done]. intros [= ->]. exists e, def.
  split; [by apply bi_bij | done].
Qed.

(** The adapter in which the recursive call of [create_master] runs. *)
Definition with_master a (workspace_nid : NetworkId) (e : Entity) : adapter :=
  set_world a (insert_bundle (ad_world a) e (master_bundle workspace_nid)).

Lemma with_master_found a n e :
  w_alive (ad_world a) e = true -> bi_left (ad_bimap a) n = Some e ->
  is_Some (master_workspace (with_master a n e)).
Proof.
  intros Ha Hn. unfold master_workspace, with_master.
  cbn [set_world ad_world ad_bimap].
  set (def := mkWorkspaceDefinition "Playground_Master" 0 Open false).
  assert (Hd : w_get (insert_bundle (ad_world a) e (master_bundle n)) e CWorkspaceDefinition
               = Some def).
  { unfold master_bundle. apply (insert_bundle_get _ _ [] CWorkspaceDefinition def); [done|]. set_solver. }
  eapply find_master_is_Some; [|exact Hd|done|].
  - apply query_one_Some. rewrite Hd. eauto.
  - apply bi_bij in Hn. eauto.
Qed.

Lemma create_master_eq f a :
  create_master f a =
    '(n, a1) ← spawn_networked a;
    match bi_left (ad_bimap a1) n with
    | Some e => '(_, a2) ← f (with_master a1 n e); Ret (n, a2)
    | None => Panic
    end.
Proof.
  unfold create_master. destruct (spawn_networked a) as [[n a1]| |] eqn:E; [|done..].
  apply spawn_networked_adds in E as (e & al & _ & Hadd & _ & _ & Hal).
  change (Ret ?x ≫= ?f) with (f x). cbv beta iota.
  assert (Hb : bi_left (ad_bimap a1) n = Some e)
    by (rewrite (ae_bimap _ _ _ _ Hadd); apply bi_insert_eq).
  rewrite Hb. unfold entity_mut. rewrite Hal. done.
Qed.

(** One unfolding of [spawn_kind]. *)
Lemma spawn_kind_fuel_S fuel a kind x y rot :
  spawn_kind_fuel (S fuel) a kind x y rot =
    '(n, al) ← unwrap (allocate (ad_allocator a));
    '(master, a1) ←
      match master_workspace a with
      | Some nid => Ret (nid, set_allocator a al)
      | None => create_master (fun a => spawn_kind_fuel fuel a ENTITY_TYPE_RESOURCE
                                          (f_of_Z 30) f0 f0) (set_allocator a al)
      end;
    Ret (n, spawn_in a1 n master kind x y rot).
Proof. done. Qed.

(** When the master workspace is known there is no recursive call. *)
Lemma spawn_kind_found fuel a kind x y rot m :
  master_workspace a = Some m ->
  spawn_kind_fuel (S fuel) a kind x y rot =
    '(n, al) ← unwrap (allocate (ad_allocator a));
    Ret (n, spawn_in (set_allocator a al) n m kind x y rot).
Proof. intros Hm. rewrite spawn_kind_fuel_S, Hm. by destruct (allocate (ad_allocator a)) as [[]|]. Qed.

(** Two levels are enough, whatever the state. *)
Lemma spawn_kind_fuel_enough fuel a kind x y rot :
  spawn_kind_fuel (S (S fuel)) a kind x y rot = spawn_kind a kind x y rot.
Proof.
  unfold spawn_kind. rewrite (spawn_kind_fuel_S (S fuel)), (spawn_kind_fuel_S 1).
  destruct (allocate (ad_allocator a)) as [[n al]|]; [|done].
  change (unwrap (Some ?x) ≫= ?f) with (f x). cbv beta iota.
  destruct (master_workspace a) as [m|]; [done|]. f_equal. rewrite !create_master_eq.
  destruct (spawn_networked (set_allocator a al)) as [[n' a1]| |] eqn:E; [|done..].
  apply spawn_networked_adds in E as (e & al' & _ & Hadd & _ & _ & Hal).
  change (Ret ?x ≫= ?f) with (f x). cbv beta iota.
  assert (Hb : bi_left (ad_bimap a1) n' = Some e)
    by (rewrite (ae_bimap _ _ _ _ Hadd); apply bi_insert_eq).
  rewrite Hb. destruct (with_master_found a1 n' e Hal Hb) as [m Hm].
  by rewrite !(spawn_kind_found _ _ _ _ _ _ m Hm).
Qed.

Lemma spawn_kind_not_diverge a kind x y rot : spawn_kind a kind x y rot <> Diverge.
Proof.
  unfold spawn_kind. rewrite spawn_kind_fuel_S.
  destruct (allocate (ad_allocator a)) as [[n al]|]; [|done].
  change (unwrap (Some ?x) ≫= ?f) with (f x). cbv beta iota.
  destruct (master_workspace a) as [m|]; [done|]. rewrite create_master_eq.
  destruct (spawn_networked (set_allocator a al)) as [[n' a1]| |] eqn:E; [|done|].
  - apply spawn_networked_adds in E as (e & al' & _ & Hadd & _ & _ & Hal).
    change (Ret ?x ≫= ?f) with (f x). cbv beta iota.
    assert (Hb : bi_left (ad_bimap a1) n' = Some e)
      by (rewrite (ae_bimap _ _ _ _ Hadd); apply bi_insert_eq).
    rewrite Hb. destruct (with_master_found a1 n' e Hal Hb) as [m Hm].
    rewrite (spawn_kind_found _ _ _ _ _ _ m Hm).
    by destruct (allocate _) as [[]|].
  - unfold spawn_networked in E. destruct (allocate _) as [[]|]; [|done]. cbn in E.
    by destruct (spawn_bundle _ _).
Qed.

(** An id that was just handed out is not in the map. *)
Lemma allocated_unused a n al :
  wf a -> allocate (ad_allocator a) = Some (n, al) -> bi_left (ad_bimap a) n = None.
Proof.
  intros H Hal. destruct (bi_left (ad_bimap a) n) as [x|] eqn:E; [|done].
  apply (wf_issued _ _ H) in E. by apply (alloc_fresh _ _ _ Hal) in E.
Qed.

Lemma spawn_networked_spec a n a' :
  wf a -> spawn_networked a = Ret (n, a') ->
  wf a' /\ grows a a' /\ ~ issued (ad_allocator a) n /\
  exists e, bi_left (ad_bimap a') n = Some e /\ w_alive (ad_world a) e = false /\
    w_alive (ad_world a') e = true.
Proof.
  intros H HE. assert (Hwf := wf_spawn_networked _ _ _ H HE).
  assert (Hrest : (ad_replicators a', ad_last_extraction_tick a', ad_tick_rate a') =
                  (ad_replicators a, ad_last_extraction_tick a, ad_tick_rate a)).
  { unfold spawn_networked in HE. destruct (allocate _) as [[]|]; [|done]. cbn in HE.
    destruct (spawn_bundle _ _). by injection HE as <- <-. }
  apply spawn_networked_adds in HE as (e & al & Hal & Hadd & Heq & _ & He).
  split; [done|]. split; [|split; [by eapply alloc_fresh|]].
  - eapply grows_then_add; [reflexivity | done | done | by eapply alloc_fresh | | |done].
    + by eapply allocated_unused.
    + intros m Hm. rewrite Heq. apply (alloc_issued _ _ _ _ Hal). by right.
  - exists e. split_and!; [|by apply (ae_fresh _ _ _ _ Hadd)|done].
    rewrite (ae_bimap _ _ _ _ Hadd). apply bi_insert_eq.
Qed.

(** [spawn_in] under an id that is handed out and unused. *)
Lemma spawn_in_spec a0 a n m kind x y rot :
  grows a0 a -> wf a -> ~ issued (ad_allocator a0) n -> issued (ad_allocator a) n ->
  bi_left (ad_bimap a) n = None ->
  wf (spawn_in a n m kind x y rot) /\ grows a0 (spawn_in a n m kind x y rot).
Proof.
  intros Hg H Hn Hi Hnone. pose proof (spawn_in_adds a n m kind x y rot) as Hadd.
  assert (Hal : ad_allocator (spawn_in a n m kind x y rot) = ad_allocator a)
    by by rewrite spawn_in_world.
  split.
  - eapply wf_adds_entity; [done | done | done | by rewrite Hal | by rewrite Hal].
  - eapply grows_then_add; [done | done | done | done | done | by rewrite Hal |].
    by rewrite spawn_in_world.
Qed.

(** The master workspace [spawn_kind] puts the entity into. *)
Definition is_master a (m : NetworkId) : Prop :=
  exists e def, bi_left (ad_bimap a) m = Some e /\
    w_get (ad_world a) e CWorkspaceDefinition = Some def /\
    wd_name def = "Playground_Master"%string.

Lemma is_master_grows a a' m : wf a -> grows a a' -> is_master a m -> is_master a' m.
Proof.
  intros H Hg (e & def & He & Hd & Hname). exists e, def. split_and!; [|rewrite (gr_get _ _ Hg)|done].
  - by apply (gr_left _ _ Hg).
  - done.
  - by eapply wf_alive.
Qed.

Lemma is_master_adds a a' n e m :
  wf a -> adds_entity a a' n e -> bi_left (ad_bimap a) n = None -> is_master a m -> is_master a' m.
Proof.
  intros H Hadd Hn (x & def & Hx & Hd & Hname). exists x, def. split_and!; [| |done].
  - rewrite (ae_bimap _ _ _ _ Hadd), bi_insert_ne; [done | congruence |].
    apply wf_fresh; [done | apply (ae_fresh _ _ _ _ Hadd)].
  - rewrite (ae_old _ _ _ _ Hadd); [done | by eapply wf_alive].
Qed.

Lemma create_master_spec a m a' fuel :
  wf a ->
  create_master (fun a => spawn_kind_fuel (S fuel) a ENTITY_TYPE_RESOURCE (f_of_Z 30) f0 f0) a
    = Ret (m, a') ->
  wf a' /\ grows a a' /\ is_master a' m.
Proof.
  intros H. rewrite create_master_eq. intros HE. apply bind_Ret_inv in HE as ([n a1] & E1 & HE).
  destruct (spawn_networked_spec _ _ _ H E1) as (H1 & G1 & _ & e & He & Hfr & Ha).
  rewrite He in HE. destruct (with_master_found a1 n e Ha He) as [ms Hms].
  rewrite (spawn_kind_found _ _ _ _ _ _ ms Hms) in HE.
  destruct (allocate (ad_allocator (with_master a1 n e))) as [[r al]|] eqn:Eal; [|done].
  cbn [unwrap mbind exec_bind] in HE. injection HE as <- <-.
  assert (H2 : wf (with_master a1 n e)).
  { apply wf_keeps; [done|]. apply insert_bundle_keeps. unfold core_kinds. set_solver. }
  assert (G2 : grows a (with_master a1 n e)) by by apply grows_insert.
  assert (M2 : is_master (with_master a1 n e) n).
  { exists e, (mkWorkspaceDefinition "Playground_Master" 0 Open false). split; [done|].
    split; [|done]. unfold with_master. cbn [set_world ad_world].
    apply (insert_bundle_get _ _ [] CWorkspaceDefinition); [done | set_solver]. }
  assert (G3 := grows_allocate _ _ _ Eal).
  destruct (spawn_in_spec (with_master a1 n e) (set_allocator (with_master a1 n e) al) r ms
    ENTITY_TYPE_RESOURCE (f_of_Z 30) f0 f0) as [H4 G4]; [done | | | | |].
  - apply wf_allocator; [done | apply (gr_issued _ _ G3)].
  - by eapply alloc_fresh.
  - cbn. apply (alloc_issued _ _ _ _ Eal). by left.
  - apply (allocated_unused _ _ _ H2 Eal).
  - split; [done|]. split; [by etrans|]. exact (is_master_grows _ _ _ H2 G4 M2).
Qed.

(** Everything a successful [spawn_kind] guarantees. *)
Lemma spawn_kind_inv a kind x y rot n a' :
  wf a -> spawn_kind a kind x y rot = Ret (n, a') ->
  exists a1 m, a' = spawn_in a1 n m kind x y rot /\ wf a1 /\ grows a a1 /\ is_master a1 m /\
    ~ issued (ad_allocator a) n /\ issued (ad_allocator a1) n /\ bi_left (ad_bimap a1) n = None.
Proof.
  intros H. unfold spawn_kind. rewrite spawn_kind_fuel_S.
  destruct (allocate (ad_allocator a)) as [[i al]|] eqn:Eal; [|done].
  change (unwrap (Some ?x) ≫= ?f) with (f x). cbv beta iota. intros HE.
  apply bind_Ret_inv in HE as ([m a1] & Em & HE). injection HE as -> <-.
  assert (G0 := grows_allocate _ _ _ Eal).
  assert (H0 : wf (set_allocator a al)) by (apply wf_allocator; [done | apply (gr_issued _ _ G0)]).
  assert (Hi0 : issued (ad_allocator (set_allocator a al)) n)
    by (apply (alloc_issued _ _ _ _ Eal); by left).
  assert (Hn := alloc_fresh _ _ _ Eal). assert (Hu := allocated_unused _ _ _ H Eal).
  destruct (master_workspace a) as [mm|] eqn:Emm.
  - injection Em as <- <-. apply find_master_bimap in Emm. exists (set_allocator a al), mm. done.
  - apply create_master_spec in Em as (H1 & G1 & M1); [|done]. exists a1, m.
    split_and!; [done | done | by etrans | done | done | by apply (gr_issued _ _ G1) |].
    destruct (bi_left (ad_bimap a1) n) as [z|] eqn:Ez; [|done].
    apply (gr_new _ _ G1) in Ez as [Ez|Ez]; [|done]. cbn in Ez. congruence.
Qed.

(** *** Ownership *)
Lemma wf_put_owner a n e c :
  wf a -> bi_left (ad_bimap a) n = Some e ->
  wf (set_owners (set_world a (w_put (ad_world a) e CNetworkOwner c)) (<[n := c]> (ad_owners a))).
Proof.
  intros H Hn. assert (Ha := wf_alive _ _ _ H Hn). split; cbn.
  - intros m x Hm. rewrite put_get_ne by (by right). by apply (wf_id _ _ H).
  - intros m c'. rewrite lookup_insert. case_decide.
    + subst m. intros [= ->]. exists e. split; [done|]. by apply (put_get_eq _ _ CNetworkOwner).
    + intros Hm. destruct (wf_owner _ _ H m c' Hm) as (x & Hx & Hc). exists x. split; [done|].
      rewrite put_get_ne; [done|]. left. intros <-. by pose proof (bi_left_inj _ _ _ _ Hn Hx).
  - apply (wf_issued _ _ H).
  - intros i ws ms x. rewrite put_res_frame. apply (wf_index _ _ H).
  - intros x. rewrite !put_get_ne by (by right). apply (wf_tracker _ _ H).
Qed.

(** A change of the index that adds no member. *)
Lemma wf_modify_index a f :
  wf a ->
  (forall i ws ms e, wi_memberships (f i) !! ws = Some ms -> e ∈ ms ->
     exists ws' ms', wi_memberships i !! ws' = Some ms' /\ e ∈ ms') ->
  wf (set_world a (modify_res (ad_world a) RWorkspaceIndex f)).
Proof.
  intros H Hf. split; cbn.
  - intros n e Hn. rewrite modify_res_get. by apply (wf_id _ _ H).
  - intros n c Hn. destruct (wf_owner _ _ H n c Hn) as (x & Hx & Hc). exists x.
    by rewrite modify_res_get.
  - apply (wf_issued _ _ H).
  - intros i ws ms x Hi Hws Hx. rewrite modify_res_eq in Hi. apply fmap_Some in Hi as (i0 & Hi0 & ->).
    destruct (Hf _ _ _ _ Hws Hx) as (ws' & ms' & Hws' & Hx'). by eapply (wf_index _ _ H).
  - intros x. rewrite !modify_res_get. apply (wf_tracker _ _ H).
Qed.

Lemma wf_spawn_kind a kind x y rot n a' :
  wf a -> spawn_kind a kind x y rot = Ret (n, a') ->
  wf a' /\ grows a a' /\ ~ issued (ad_allocator a) n /\ is_Some (bi_left (ad_bimap a') n).
Proof.
  intros H HE. apply spawn_kind_inv in HE as (a1 & m & -> & H1 & G1 & _ & Hn & Hi & Hu); [|done].
  destruct (spawn_in_spec a a1 n m kind x y rot) as [Hw Hg]; [done..|].
  split_and!; [done | done | done |].
  rewrite (ae_bimap _ _ _ _ (spawn_in_adds a1 n m kind x y rot)), bi_insert_eq. eauto.
Qed.

Lemma wf_spawn_kind_for a kind x y rot c n a' :
  wf a -> spawn_kind_for a kind x y rot c = Ret (n, a') -> wf a'.
Proof.
  intros H. unfold spawn_kind_for. intros HE. apply bind_Ret_inv in HE as ([i a1] & E1 & HE).
  destruct (wf_spawn_kind _ _ _ _ _ _ _ H E1) as (H1 & _ & _ & [e He]). rewrite He in HE.
  apply bind_Ret_inv in HE as ([] & _ & HE). injection HE as <- <-. by apply wf_put_owner.
Qed.

Lemma wf_spawn_session_agent a kind x y rot c n a' :
  wf a -> spawn_session_agent a kind x y rot c = Ret (n, a') -> wf a'.
Proof.
  intros H. unfold spawn_session_agent. intros HE. apply bind_Ret_inv in HE as ([i a1] & E1 & HE).
  assert (H1 := wf_spawn_kind_for _ _ _ _ _ _ _ _ H E1).
  destruct (bi_left (ad_bimap a1) i) as [e|] eqn:Ee; [|by injection HE as <- <-].
  apply bind_Ret_inv in HE as ([] & _ & HE). apply bind_Ret_inv in HE as (ws & _ & HE).
  injection HE as <- <-.
  apply (wf_modify_index (set_world a1 (w_put (ad_world a1) e CSessionAgent ()))).
  - apply wf_keeps; [done|]. eapply touches_keeps; [apply touches_put|..]; unfold core_kinds; set_solver.
  - intros j w' ms z. eauto.
Qed.

(** *** Despawning *)
Definition despawned a (n : NetworkId) (e : Entity) : adapter :=
  let gone := if has (ad_world a) e CSessionAgent then w_get (ad_world a) e CNetworkOwner else None in
  set_world (set_owners (set_bimap a (bi_remove (ad_bimap a) n)) (delete n (ad_owners a)))
    (push_reliable (w_despawn (modify_res (ad_world a) RWorkspaceIndex (drop_member e gone)) e)
       [(None, WEntityDespawned n)]).

Lemma despawn_networked_known a n e :
  wf a -> bi_left (ad_bimap a) n = Some e -> despawn_networked a n = (Ok (), despawned a n e).
Proof.
  intros H Hn. unfold despawn_networked. rewrite Hn.
  cbn [set_bimap set_owners ad_world ad_owners ad_bimap].
  by rewrite modify_res_alive, (wf_alive _ _ _ H Hn).
Qed.

Lemma despawn_networked_unknown a n :
  bi_left (ad_bimap a) n = None -> despawn_networked a n = (Err (EntityNotFound n), a).
Proof. intros Hn. unfold despawn_networked. by rewrite Hn. Qed.

Lemma despawned_get a n e e' k : e <> e' ->
  w_get (ad_world (despawned a n e)) e' k = w_get (ad_world a) e' k.
Proof.
  intros Hne. unfold despawned, push_reliable. cbn.
  by rewrite modify_res_get, despawn_get, modify_res_get.
Qed.

Lemma despawned_alive a n e e' :
  w_alive (ad_world (despawned a n e)) e' = negb (bool_decide (e = e')) && w_alive (ad_world a) e'.
Proof.
  unfold despawned, push_reliable. cbn. by rewrite modify_res_alive, despawn_alive, modify_res_alive.
Qed.

Lemma despawned_index a n e :
  w_res (ad_world (despawned a n e)) RWorkspaceIndex =
  drop_member e (if has (ad_world a) e CSessionAgent then w_get (ad_world a) e CNetworkOwner else None)
    <$> w_res (ad_world a) RWorkspaceIndex.
Proof.
  unfold despawned, push_reliable, modify_res at 1. cbn [set_world ad_world].
  case_match; rewrite ?put_res_ne by done; by rewrite despawn_res, modify_res_eq.
Qed.

Lemma wf_despawned a n e : wf a -> bi_left (ad_bimap a) n = Some e -> wf (despawned a n e).
Proof.
  intros H Hn.
  assert (Hother : forall m x, bi_left (bi_remove (ad_bimap a) n) m = Some x ->
    bi_left (ad_bimap a) m = Some x /\ e <> x).
  { intros m x. rewrite bi_remove_left. case_decide; [done|]. intros Hm. split; [done|].
    intros <-. by pose proof (bi_left_inj _ _ _ _ Hn Hm). }
  split.
  - intros m x Hm. apply Hother in Hm as [Hm Hne]. rewrite despawned_get by done.
    by apply (wf_id _ _ H).
  - intros m c. change (ad_owners (despawned a n e)) with (delete n (ad_owners a)).
    change (ad_bimap (despawned a n e)) with (bi_remove (ad_bimap a) n).
    rewrite lookup_delete. case_decide; [done|]. intros Hm.
    destruct (wf_owner _ _ H m c Hm) as (x & Hx & Hc). exists x.
    assert (e <> x) by (intros <-; by pose proof (bi_left_inj _ _ _ _ Hn Hx)).
    rewrite despawned_get by done. split; [|done]. rewrite bi_remove_left. by rewrite decide_False.
  - intros m x Hm. apply Hother in Hm as [Hm _]. by apply (wf_issued _ _ H _ _ Hm).
  - intros i ws ms x Hi Hws Hin. rewrite despawned_index in Hi.
    apply fmap_Some in Hi as (i0 & Hi0 & ->). cbn in Hws. rewrite lookup_fmap in Hws.
    apply fmap_Some in Hws as (ms0 & Hms0 & ->). apply elem_of_difference in Hin as [Hin Hne].
    destruct (wf_index _ _ H _ _ _ _ Hi0 Hms0 Hin) as [m Hm]. exists m.
    apply bi_bij. cbn. rewrite bi_remove_left, decide_False; [by apply bi_bij|].
    intros ->. apply bi_bij in Hm. set_solver.
  - intros x Hx. change (ad_bimap (despawned a n e)) with (bi_remove (ad_bimap a) n).
    destruct (bi_right (bi_remove (ad_bimap a) n) x) as [m|] eqn:Em; [|done].
    exfalso. apply bi_bij in Em. apply Hother in Em as [Hm Hne].
    rewrite !despawned_get in Hx by done. apply bi_bij in Hm. by rewrite (wf_tracker _ _ H x Hx) in Hm.
Qed.

Lemma wf_despawn_networked a n : wf a -> wf (despawn_networked a n).2.
Proof.
  intros H. destruct (bi_left (ad_bimap a) n) as [e|] eqn:E.
  - rewrite (despawn_networked_known a n e) by done. by apply wf_despawned.
  - by rewrite despawn_networked_unknown.
Qed.

(** The index resource is never removed by spawning. *)
Lemma adds_entity_index a a' n e :
  adds_entity a a' n e -> is_Some (w_res (ad_world a) RWorkspaceIndex) ->
  is_Some (w_res (ad_world a') RWorkspaceIndex).
Proof.
  intros Hadd [i Hi]. destruct (ae_index _ _ _ _ Hadd) as [->|[m ->]]; rewrite Hi; cbn; eauto.
Qed.

Lemma spawn_kind_fuel_index fuel a kind x y rot n a' :
  is_Some (w_res (ad_world a) RWorkspaceIndex) ->
  spawn_kind_fuel fuel a kind x y rot = Ret (n, a') ->
  is_Some (w_res (ad_world a') RWorkspaceIndex).
Proof.
  revert a kind x y rot n a'. induction fuel as [|fuel IH]; intros a kind x y rot n a' Hi HE; [done|].
  rewrite spawn_kind_fuel_S in HE. apply bind_Ret_inv in HE as ([j al] & _ & HE).
  apply bind_Ret_inv in HE as ([m a1] & Em & HE). injection HE as _ <-.
  eapply adds_entity_index; [apply spawn_in_adds|].
  destruct (master_workspace a); [by injection Em as _ <-|].
  rewrite create_master_eq in Em. apply bind_Ret_inv in Em as ([k a2] & Es & Em).
  apply spawn_networked_adds in Es as (e & ? & _ & Hadd & _).
  case_match; [|done]. apply bind_Ret_inv in Em as ([z a3] & Ez & Em). injection Em as _ <-.
  eapply IH; [|exact Ez]. unfold with_master. cbn [set_world ad_world]. rewrite insert_bundle_res.
  by eapply adds_entity_index.
Qed.

Lemma spawn_kind_member a kind x y rot n a' e :
  wf a -> spawn_kind a kind x y rot = Ret (n, a') -> bi_left (ad_bimap a') n = Some e ->
  is_Some (w_res (ad_world a) RWorkspaceIndex) ->
  exists m, w_get (ad_world a') e CWorkspaceMembership = Some m /\
    is_Some (w_res (ad_world a') RWorkspaceIndex).
Proof.
  intros H HE He Hi. assert (Hi' := spawn_kind_fuel_index _ _ _ _ _ _ _ _ Hi HE).
  apply spawn_kind_inv in HE as (a1 & m & -> & _); [|done]. exists m. split; [|done].
  rewrite (ae_bimap _ _ _ _ (spawn_in_adds a1 n m kind x y rot)), bi_insert_eq in He.
  injection He as <-. rewrite spawn_in_world. cbn [set_bimap set_world ad_world].
  rewrite modify_res_get. apply (put_get_eq _ _ CWorkspaceMembership). rewrite insert_bundle_alive.
  unfold spawned_entity. rewrite spawn_bundle_alive. by rewrite bool_decide_eq_true_2.
Qed.
End adapter_lemmas.
