(* ===== verification/AdapterProps.v ===== *)
(** * Properties of the world adapter

    Ownership and its caches, extraction of changes, clearing, hashing: the theorems about the
    operations of [Adapter.v], with their witnesses on the executable world of [EcsModel.v]. *)

From stdpp Require Import gmap strings list sorting.
From Stdlib Require Import ZArith Lia.
From S2P Require Import Prelude F32 Protocol Components Ecs EcsModel Registry Adapter.

Open Scope Z_scope.

(** ** Replicators that stay within their entity *)

(** The component kinds a platform replicator may write. *)
Definition replicable_kinds : list ckind :=
  [CTransform; CVelocity; CAgentProperties; CAgentConfiguration; CAgentKind; CPlayerName;
   CFactionTag; CResourceIntegrity; CResourceYield; CDataDrop; CStation; CZoneGate; CBeamMarker;
   CDockedState; CExtractionBeam; CDataStore; CResource; CTool; CPriorityPool; CIntegrityPool;
   CDataDropComponent; CWorkspaceDefinition; CWorkspaceBounds; CWorkspaceMembership; CLatestInput].

Section updates.
Context {W : Type} `{!EcsWorld W, !EcsLaws W} {B : Type} `{!BiMap B, !BiMapLaws B}.
Context {A : Type} `{!Allocator A} {issued : A -> NetworkId -> Prop}.
Context `{!AllocatorLaws A issued} {Wi : Wire} {PC : ProtocolConsts}.
Abbreviation adapter := (Adapter W B A).
Abbreviation wf := (wf issued).
Implicit Types (a : adapter) (w : W).

Definition rep_local (r : ComponentReplicator W) : Prop := forall w e u,
  touches replicable_kinds [] w (rep_apply r w e u) /\
  (forall e' k, e <> e' -> w_get (rep_apply r w e u) e' k = w_get w e' k).

Lemma default_rep_local k kind : k ∈ replicable_kinds -> rep_local (DefaultReplicator k kind).
Proof.
  intros Hk w e u. cbn. split.
  - eapply touches_mono; [| |apply touches_default_apply]; set_solver.
  - intros e' k' Hne. unfold default_apply. repeat case_match; try done.
    apply put_get_ne. by left.
Qed.

Lemma input_rep_local : rep_local InputCommandReplicator.
Proof.
  intros w e u. cbn. split.
  - eapply touches_mono; [| |apply touches_input_apply]; unfold replicable_kinds; set_solver.
  - intros e' k' Hne. unfold input_apply. case_match; [done|]. case_match; [|done].
    unfold apply_command_update. repeat case_match; try done; apply put_get_ne; by left.
Qed.

(** All the replicators the platform registers are local. *)
Lemma platform_rep_local :
  Forall (fun d => rep_local (cd_replicator d))
    (canonical_descriptors ++ platform_descriptors ++ workspace_descriptors
       : list (ComponentDescriptor W)).
Proof.
  repeat (apply Forall_cons; split;
    [first [apply input_rep_local | apply default_rep_local; unfold replicable_kinds; set_solver]|]).
  constructor.
Qed.

Definition reps_ok a : Prop := Forall (fun kr => rep_local kr.2) (ad_replicators a).

Lemma btree_get_in {V} k (l : list (ComponentKind * V)) v : btree_get k l = Some v -> (k, v) ∈ l.
Proof.
  induction l as [|[k' v'] l IH]; cbn; [done|]. case_decide; [intros [= ->]; subst|]; set_solver.
Qed.

Lemma btree_get_insert {V} k k' (v : V) l :
  btree_get k' (btree_insert k v l) = if decide (k' = k) then Some v else btree_get k' l.
Proof.
  induction l as [|[k1 v1] l IH]; cbn; [done|].
  destruct (Z.ltb_spec (kind_val k) (kind_val k1)); cbn; [done|].
  destruct (Z.eqb_spec (kind_val k) (kind_val k1)) as [E|E]; cbn.
  - assert (k1 = k) as -> by (destruct k, k1; cbn in *; congruence). by repeat case_decide.
  - rewrite IH. destruct (decide (k' = k1)) as [->|]; [|done].
    rewrite decide_False; [done|]. congruence.
Qed.

(** A registered replicator is found under its kind. *)
Lemma registered_get rs r a :
  NoDup (rep_kind <$> rs) -> r ∈ rs ->
  btree_get (rep_kind r) (ad_replicators (foldl register_replicator a rs)) = Some r.
Proof.
  induction rs as [|r' rs IH] using rev_ind; [set_solver|]. rewrite fmap_app, foldl_app. cbn.
  rewrite NoDup_app. intros (Hnd & Hdis & _) Hin. rewrite btree_get_insert. case_decide as Hk.
  - apply elem_of_app in Hin as [Hin| ->%list_elem_of_singleton]; [|done]. exfalso.
    apply (Hdis (rep_kind r)); [by apply (list_elem_of_fmap_2 rep_kind) | rewrite Hk; set_solver].
  - apply IH; [done|]. apply elem_of_app in Hin as [| ->%list_elem_of_singleton]; done.
Qed.

Lemma reps_ok_get a k r : reps_ok a -> btree_get k (ad_replicators a) = Some r -> rep_local r.
Proof.
  unfold reps_ok. rewrite Forall_forall. intros H Hr%btree_get_in. exact (H _ Hr).
Qed.

Lemma rep_local_keeps r b w e u : rep_local r -> keeps b w (rep_apply r w e u).
Proof.
  intros H. destruct (H w e u) as [Ht _].
  eapply touches_keeps; [exact Ht | | set_solver]. unfold core_kinds, replicable_kinds. set_solver.
Qed.

(** *** One update *)

(** The loop's caches are right. *)
Definition cache_ok (s : update_state (W := W) (B := B) (A := A)) : Prop :=
  forall k, us_last_kind s = Some k ->
    us_last_replicator s = btree_get k (ad_replicators (us_adapter s)).

(** [a'] is [a] up to the contents of the owner cache. *)
Definition same_but_cache a a' : Prop :=
  ad_world a' = ad_world a /\ ad_bimap a' = ad_bimap a /\ ad_replicators a' = ad_replicators a.

Lemma check_owner_spec a c n e :
  wf a -> bi_left (ad_bimap a) n = Some e ->
  let '(ok, a') := check_owner a c n e in
  ok = bool_decide (w_get (ad_world a) e CNetworkOwner = Some c) /\
  wf a' /\ same_but_cache a a'.
Proof.
  intros H Hn. unfold check_owner, same_but_cache.
  destruct (ad_owners a !! n) as [o|] eqn:Eo.
  - destruct (wf_owner _ _ H n o Eo) as (e' & He' & Ho). assert (e' = e) as -> by congruence.
    rewrite Ho. split; [|done]. apply bool_decide_ext. split; [by intros -> | by intros [= ->]].
  - destruct (w_get (ad_world a) e CNetworkOwner) as [o|] eqn:Ew; [|split; [by rewrite bool_decide_eq_false_2|done]].
    split; [apply bool_decide_ext; split; [by intros -> | by intros [= ->]]|]. split; [|done].
    split; cbn; try apply H. intros m c'. rewrite lookup_insert. case_decide.
    + subst m. intros [= ->]. eauto.
    + apply (wf_owner _ _ H).
Qed.

Lemma apply_update_ref_spec s a cu :
  wf (us_adapter s) -> reps_ok (us_adapter s) -> cache_ok s -> same_but_cache a (us_adapter s) ->
  wf (us_adapter (apply_update s cu)) /\ reps_ok (us_adapter (apply_update s cu)) /\
  cache_ok (apply_update s cu) /\
  same_but_cache (apply_update_ref a cu) (us_adapter (apply_update s cu)).
Proof.
  intros H Hreps Hc Hsame. destruct Hsame as (Hw & Hb & Hr). destruct cu as [c u].
  unfold apply_update, apply_update_ref. rewrite <- Hb.
  destruct (bi_left (ad_bimap (us_adapter s)) (cu_network_id u)) as [e|] eqn:Ee; [|done].
  pose proof (check_owner_spec (us_adapter s) c (cu_network_id u) e H Ee) as Hco.
  destruct (check_owner _ _ _ _) as [ok a1]. destruct Hco as (-> & H1 & Hw1 & Hb1 & Hr1).
  rewrite Hw. destruct (decide (w_get (ad_world a) e CNetworkOwner = Some c)) as [Ho|Ho].
  2: { rewrite bool_decide_eq_false_2 by done. cbn [negb]. unfold same_but_cache, reps_ok. cbn.
       rewrite Hr1, Hw1, Hb1. split_and!; try done. intros k Hk. cbn in *. rewrite Hr1. by apply Hc. }
  rewrite bool_decide_eq_true_2 by done. cbn [negb].
  set (look := if bool_decide _ then _ else _).
  assert (Hlook : look = (Some (cu_component_kind u),
                          btree_get (cu_component_kind u) (ad_replicators a1))).
  { unfold look. case_bool_decide as Ek; [|done]. rewrite Ek, (Hc _ Ek), Hr1. done. }
  rewrite Hlook. unfold same_but_cache, reps_ok. rewrite Hr1, Hr.
  destruct (btree_get (cu_component_kind u) (ad_replicators a)) as [r|] eqn:Er; cbn.
  - rewrite Hr1, Hw1, Hb1, Hr, Hw. split_and!; try done.
    + apply wf_keeps; [done|]. rewrite Hw1, Hw. apply rep_local_keeps.
      eapply (reps_ok_get (us_adapter s)); [exact Hreps | by rewrite Hr].
    + by rewrite <- Hr.
    + intros k [= <-]. cbn. by rewrite Hr1, Hr.
  - rewrite Hr1, Hw1, Hb1, Hr, Hw. split_and!; try done; [by rewrite <- Hr|].
    intros k [= <-]. cbn. by rewrite Hr1, Hr.
Qed.

Lemma apply_updates_loop us s a :
  wf (us_adapter s) -> reps_ok (us_adapter s) -> cache_ok s -> same_but_cache a (us_adapter s) ->
  wf (us_adapter (foldl apply_update s us)) /\ reps_ok (us_adapter (foldl apply_update s us)) /\
  same_but_cache (foldl apply_update_ref a us) (us_adapter (foldl apply_update s us)).
Proof.
  revert s a. induction us as [|cu us IH]; intros s a H Hr Hc Hs; cbn; [done|].
  destruct (apply_update_ref_spec s a cu H Hr Hc Hs) as (H' & Hr' & Hc' & Hs'). by apply IH.
Qed.

Lemma apply_updates_spec a us :
  wf a -> reps_ok a ->
  wf (apply_updates a us) /\ reps_ok (apply_updates a us) /\
  same_but_cache (foldl apply_update_ref a us) (apply_updates a us).
Proof. intros H Hr. by apply (apply_updates_loop us (mkUpdateState a None None) a). Qed.

Lemma apply_updates_hook a us :
  ad_post_simulate_hook (apply_updates a us) = ad_post_simulate_hook a.
Proof.
  unfold apply_updates.
  apply (foldl_inv (fun s => ad_post_simulate_hook (us_adapter s) = ad_post_simulate_hook a)); [done|].
  intros s [c u] _ Hs. rewrite <- Hs. unfold apply_update.
  destruct (bi_left _ _) as [e|]; [|done]. unfold check_owner. repeat case_match; simplify_eq; done.
Qed.

Lemma apply_updates_rate a us : ad_tick_rate (apply_updates a us) = ad_tick_rate a.
Proof.
  unfold apply_updates.
  apply (foldl_inv (fun s => ad_tick_rate (us_adapter s) = ad_tick_rate a)); [done|].
  intros s [c u] _ Hs. rewrite <- Hs. unfold apply_update.
  destruct (bi_left _ _) as [e|]; [|done]. unfold check_owner. repeat case_match; simplify_eq; done.
Qed.

(** What one update of the reference may change. *)
Lemma apply_update_ref_frame a c u e k :
  reps_ok a -> w_get (ad_world a) e CNetworkOwner <> Some c ->
  w_get (ad_world (apply_update_ref a (c, u))) e k = w_get (ad_world a) e k.
Proof.
  intros Hr Ho. unfold apply_update_ref.
  destruct (bi_left (ad_bimap a) (cu_network_id u)) as [x|]; [|done]. case_decide as Hx; [|done].
  destruct (btree_get _ _) as [r|] eqn:Er; [|done]. cbn.
  destruct (reps_ok_get a _ r Hr Er (ad_world a) x u) as [_ Hl]. apply Hl. intros ->. exact (Ho Hx).
Qed.

Lemma apply_update_ref_res a cu r :
  reps_ok a -> w_res (ad_world (apply_update_ref a cu)) r = w_res (ad_world a) r.
Proof.
  intros Hr. destruct cu as [c u]. unfold apply_update_ref.
  destruct (bi_left (ad_bimap a) (cu_network_id u)) as [x|]; [|done]. case_decide; [|done].
  destruct (btree_get _ _) as [rep|] eqn:Er; [|done].
  destruct (reps_ok_get a _ rep Hr Er (ad_world a) x u) as [Ht _]. apply Ht. set_solver.
Qed.

Lemma apply_update_ref_owner a cu e :
  reps_ok a ->
  w_get (ad_world (apply_update_ref a cu)) e CNetworkOwner = w_get (ad_world a) e CNetworkOwner /\
  ad_replicators (apply_update_ref a cu) = ad_replicators a /\
  ad_bimap (apply_update_ref a cu) = ad_bimap a.
Proof.
  intros Hr. destruct cu as [c u]. unfold apply_update_ref.
  destruct (bi_left (ad_bimap a) (cu_network_id u)) as [x|]; [|done]. case_decide as Hx; [|done].
  destruct (btree_get _ _) as [r|] eqn:Er; [|done]. cbn. split; [|done].
  destruct (reps_ok_get a _ r Hr Er (ad_world a) x u) as [Ht _].
  apply (tc_get _ _ _ _ Ht e CNetworkOwner). unfold replicable_kinds. set_solver.
Qed.

Lemma apply_updates_ref_frame us a e k :
  reps_ok a -> Forall (fun cu => w_get (ad_world a) e CNetworkOwner <> Some cu.1) us ->
  w_get (ad_world (foldl apply_update_ref a us)) e k = w_get (ad_world a) e k.
Proof.
  revert a. induction us as [|[c u] us IH]; intros a Hr Hus; [done|].
  apply Forall_cons in Hus as [Hc Hus]. cbn [foldl].
  destruct (apply_update_ref_owner a (c, u) e Hr) as (Ho & Hreps & _).
  rewrite IH; [by apply apply_update_ref_frame | unfold reps_ok; by rewrite Hreps |].
  eapply Forall_impl; [exact Hus|]. intros [c' u']. cbn [fst]. by rewrite Ho.
Qed.
End updates.

(** ** Extraction *)
Section extraction.
Context {W : Type} `{!EcsWorld W, !EcsLaws W} {B : Type} `{!BiMap B, !BiMapLaws B} {A : Type}.
Context {Wi : Wire} {PC : ProtocolConsts}.
Abbreviation adapter := (Adapter W B A).
Implicit Types (a : adapter) (w : W).

Lemma extract_deltas_in a ev :
  ev ∈ (extract_deltas a).1 <-> exists n e k r, bi_left (ad_bimap a) n = Some e /\
    (k, r) ∈ ad_replicators a /\
    rep_extract r (ad_world a) e n (server_tick (ad_world a)) (ad_last_extraction_tick a) = Some ev.
Proof.
  unfold extract_deltas, entity_deltas. cbn [fst]. rewrite list_elem_of_bind. split.
  - intros ([n e] & ([k r] & Hr & Hev)%list_elem_of_omap & Hp). apply bi_iter_spec in Hp. eauto 10.
  - intros (n & e & k & r & Hn & Hr & Hev). exists (n, e). split; [|by apply bi_iter_spec].
    apply list_elem_of_omap. by exists (k, r).
Qed.

Lemma default_extract_changed k kind w e n t last v p c :
  w_get w e k = Some v -> encode_component k v = Some p -> w_changed w e k = Some c ->
  default_extract k kind w e n t (Some last) =
    if w_is_changed c last (w_change_tick w) then Some (mkReplicationEvent n kind p t) else None.
Proof.
  intros Hv Hp Hc. unfold default_extract. rewrite Hv. cbn.
  rewrite (get_alive w e k v Hv). cbn. rewrite Hc. cbn. rewrite Hp. by destruct (w_is_changed _ _ _).
Qed.

Lemma tick_age_refl t : tick_age t t = 0.
Proof. unfold tick_age. by rewrite Z.sub_diag. Qed.

Lemma tick_age_succ t s : 0 <= tick_age t s < 2 ^ 32 - 1 ->
  tick_age ((t + 1) mod 2 ^ 32) s = tick_age t s + 1.
Proof.
  unfold tick_age. intros H.
  rewrite Zminus_mod_idemp_l. replace (t + 1 - s) with ((t - s) + 1) by lia.
  rewrite <- (Zplus_mod_idemp_l (t - s)). apply Z.mod_small. lia.
Qed.

Lemma modify_res_change_tick w r f : w_change_tick (modify_res w r f) = w_change_tick w.
Proof. unfold modify_res. case_match; [apply put_res_change_tick | done]. Qed.

Lemma modify_res_changed w r f e k : w_changed (modify_res w r f) e k = w_changed w e k.
Proof. unfold modify_res. case_match; [apply put_res_changed | done]. Qed.

(** One turn of the replication pipeline: extraction, clean-up, and the start of the next tick. *)
Definition next_tick a : adapter := advance_tick (post_extract (extract_deltas a).2).

Lemma next_tick_last a : ad_last_extraction_tick (next_tick a) = Some (w_change_tick (ad_world a)).
Proof. done. Qed.

(** Age of a stamp, before and after the turn. *)
Lemma next_tick_age a :
  exists d, 1 <= d <= 2 /\ forall c, tick_age (w_change_tick (ad_world a)) c < 2 ^ 31 - 2 ->
    tick_age (w_change_tick (ad_world (next_tick a))) c =
      tick_age (w_change_tick (ad_world a)) c + d.
Proof.
  set (t := w_change_tick (ad_world a)) in *.
  assert (Ht : w_change_tick (ad_world (next_tick a)) =
               (w_change_tick (w_clear_trackers (ad_world a)) + 1) mod 2 ^ 32).
  { unfold next_tick, advance_tick. cbn [set_world ad_world]. rewrite modify_res_change_tick.
    apply increment_change_tick. }
  pose proof (clear_change_tick (ad_world a)) as Hclr. fold t in Hclr.
  set (t' := w_change_tick (w_clear_trackers (ad_world a))) in *.
  assert (0 <= tick_age t' t) by (unfold tick_age; apply Z.mod_pos_bound; lia).
  exists (tick_age t' t + 1). split; [lia|]. intros c Hc.
  assert (0 <= tick_age t c) by (unfold tick_age; apply Z.mod_pos_bound; lia).
  assert (Hd : tick_age t' c = tick_age t c + tick_age t' t).
  { unfold tick_age in *. replace (t' - c) with ((t - c) + (t' - t)) by lia.
    rewrite Z.add_mod by lia. apply Z.mod_small. lia. }
  rewrite Ht, tick_age_succ by lia. lia.
Qed.
End extraction.

(** ** Clearing the world, and construction *)
Section clearing.
Context {W : Type} `{!EcsWorld W, !EcsLaws W} {B : Type} `{!BiMap B, !BiMapLaws B}.
Context {A : Type} `{!Allocator A} {issued : A -> NetworkId -> Prop}.
Context `{!AllocatorLaws A issued}.
Abbreviation adapter := (Adapter W B A).
Abbreviation wf := (wf issued).
Implicit Types (a : adapter) (w : W).

(** An adapter whose map is empty. *)
Lemma wf_empty a :
  (forall n, bi_left (ad_bimap a) n = None) -> ad_owners a = ∅ ->
  (forall i, w_res (ad_world a) RWorkspaceIndex = Some i -> wi_memberships i = ∅) -> wf a.
Proof.
  intros Hb Ho Hi. split.
  - intros n e Hn. by rewrite Hb in Hn.
  - intros n c Hn. by rewrite Ho, lookup_empty in Hn.
  - intros n e Hn. by rewrite Hb in Hn.
  - intros i ws ms e Hw Hws. by rewrite (Hi i Hw), lookup_empty in Hws.
  - intros e _. apply bi_right_None. intros n. by rewrite Hb.
Qed.

Lemma wf_new (w : W) rate a : new w rate = Ret a -> wf a.
Proof.
  unfold new. intros HE. apply bind_Ret_inv in HE as ([] & _ & [= <-]). apply wf_empty; cbn.
  - apply bi_empty_left.
  - done.
  - intros i. rewrite put_res_ne by done. rewrite put_res_eq. by intros [= <-].
Qed.

Definition clear_ids a (ids : list NetworkId) : adapter :=
  foldl (fun a id => (despawn_networked a id).2) a ids.

Lemma despawn_left a n m :
  wf a -> bi_left (ad_bimap (despawn_networked a n).2) m =
    if decide (m = n) then None else bi_left (ad_bimap a) m.
Proof.
  intros H. destruct (bi_left (ad_bimap a) n) as [e|] eqn:E.
  - rewrite (despawn_networked_known a n e) by done. apply bi_remove_left.
  - rewrite despawn_networked_unknown by done. cbn. case_decide; [by subst | done].
Qed.

Lemma despawn_other a n e :
  wf a -> bi_left (ad_bimap a) n <> Some e ->
  w_alive (ad_world (despawn_networked a n).2) e = w_alive (ad_world a) e /\
  forall k, w_get (ad_world (despawn_networked a n).2) e k = w_get (ad_world a) e k.
Proof.
  intros H Hne. destruct (bi_left (ad_bimap a) n) as [x|] eqn:E.
  - rewrite (despawn_networked_known a n x) by done. assert (x <> e) by congruence. cbn [snd].
    rewrite despawned_alive, bool_decide_eq_false_2 by done. split; [done|].
    intros k. by rewrite despawned_get.
  - by rewrite despawn_networked_unknown.
Qed.

Lemma clear_ids_spec ids a :
  wf a ->
  wf (clear_ids a ids) /\
  (forall n, bi_left (ad_bimap (clear_ids a ids)) n =
     if decide (n ∈ ids) then None else bi_left (ad_bimap a) n) /\
  (forall e, (forall n, n ∈ ids -> bi_left (ad_bimap a) n <> Some e) ->
     w_alive (ad_world (clear_ids a ids)) e = w_alive (ad_world a) e /\
     forall k, w_get (ad_world (clear_ids a ids)) e k = w_get (ad_world a) e k) /\
  (forall n e, n ∈ ids -> bi_left (ad_bimap a) n = Some e ->
     w_alive (ad_world (clear_ids a ids)) e = false).
Proof.
  revert a. induction ids as [|i ids IH]; intros a H; cbn.
  { split_and!; [done | done | done | set_solver]. }
  destruct (IH _ (wf_despawn_networked a i H)) as (Hw & Hl & Ho & Hd).
  fold (clear_ids (despawn_networked a i).2 ids) in *.
  set (a1 := (despawn_networked a i).2) in *.
  assert (Hl1 : forall m, bi_left (ad_bimap a1) m = if decide (m = i) then None else bi_left (ad_bimap a) m)
    by (intros; by apply despawn_left).
  split_and!; [done | | |].
  - intros n. rewrite Hl, Hl1. repeat case_decide; set_solver.
  - intros e He. destruct (Ho e) as [Ha Hg].
    { intros n Hn. rewrite Hl1. case_decide; [done|]. apply He. set_solver. }
    destruct (despawn_other a i e H) as [Ha1 Hg1]; [apply He; set_solver|].
    fold a1 in Ha1, Hg1. split; [congruence|]. intros k. by rewrite Hg, Hg1.
  - intros n e Hn He. destruct (decide (n = i)) as [->|Hni].
    + destruct (Ho e) as [Ha _].
      { intros m _. rewrite Hl1. case_decide; [done|]. intros Hm.
        by pose proof (bi_left_inj _ _ _ _ He Hm). }
      rewrite Ha. unfold a1. rewrite (despawn_networked_known a i e) by done. cbn [snd].
      rewrite despawned_alive. by rewrite bool_decide_eq_true_2.
    + apply (Hd n); [set_solver|]. rewrite Hl1. by rewrite decide_False.
Qed.

Lemma clear_ids_index ids a :
  is_Some (w_res (ad_world a) RWorkspaceIndex) ->
  is_Some (w_res (ad_world (clear_ids a ids)) RWorkspaceIndex).
Proof.
  intros Hi. unfold clear_ids.
  apply (foldl_inv (fun a => is_Some (w_res (ad_world a) RWorkspaceIndex))); [done|].
  intros a' n _ [i Hi']. unfold despawn_networked. case_match; [|cbn; eauto].
  assert (Hr : is_Some (w_res (modify_res (ad_world a') RWorkspaceIndex
     (drop_member e (if has (ad_world a') e CSessionAgent
                     then w_get (ad_world a') e CNetworkOwner else None))) RWorkspaceIndex))
    by (rewrite modify_res_eq, Hi'; cbn; eauto).
  cbn [set_bimap set_owners ad_world].
  destruct (w_alive (modify_res _ _ _) e); cbn [set_world snd ad_world]; [|done].
  unfold push_reliable, modify_res at 1. destruct (w_res (w_despawn _ _) RReliableEvents);
    rewrite ?put_res_ne by done; by rewrite despawn_res.
Qed.

Lemma clear_world_eq a :
  let a1 := clear_ids a (bi_iter (ad_bimap a)).*1 in
  clear_world a =
    set_last_extraction_tick (set_world (set_allocator a1 (alloc_reset (ad_allocator a1)))
      (modify_res (foldl w_despawn (ad_world a1) (w_query (ad_world a1) [CResourceRespawn]))
         RWorkspaceIndex (fun _ => mkWorkspaceIndex ∅ ∅))) None.
Proof. done. Qed.

Lemma clear_world_bimap a : wf a -> forall n, bi_left (ad_bimap (clear_world a)) n = None.
Proof.
  intros H n. rewrite clear_world_eq. cbn.
  destruct (clear_ids_spec (bi_iter (ad_bimap a)).*1 a H) as (_ & Hl & _).
  rewrite Hl. case_decide as Hn; [done|].
  destruct (bi_left (ad_bimap a) n) as [e|] eqn:E; [|done].
  destruct Hn. apply bi_iter_spec in E. by apply (list_elem_of_fmap_2 fst _ _ E).
Qed.
End clearing.

(** ** Sorting of ids *)
#[global] Instance nid_le_trans : Transitive nid_le.
Proof. intros x y z. unfold nid_le. lia. Qed.
#[global] Instance nid_le_total : Total nid_le.
Proof. intros x y. unfold nid_le. lia. Qed.
#[global] Instance nid_le_antisymm : AntiSymm (=) nid_le.
Proof. intros [x] [y]. unfold nid_le. cbn. intros. f_equal. lia. Qed.

Lemma bi_iter_fst_NoDup {B} `{!BiMap B, !BiMapLaws B} (b : B) : NoDup (bi_iter b).*1.
Proof.
  apply NoDup_fmap_fst; [|apply bi_iter_NoDup].
  intros n e1 e2 H1%bi_iter_spec H2%bi_iter_spec. congruence.
Qed.

Lemma sorted_ids {B B'} `{!BiMap B, !BiMapLaws B, !BiMap B', !BiMapLaws B'} (b : B) (b' : B') :
  (forall n, is_Some (bi_left b n) <-> is_Some (bi_left b' n)) ->
  merge_sort nid_le (bi_iter b).*1 = merge_sort nid_le (bi_iter b').*1.
Proof.
  intros H. apply (Sorted_unique nid_le); try apply Sorted_merge_sort; try apply _.
  rewrite !merge_sort_Permutation. apply NoDup_Permutation; try apply bi_iter_fst_NoDup.
  assert (Hin : forall {B0} `{!BiMap B0, !BiMapLaws B0} (b0 : B0) n,
    n ∈ (bi_iter b0).*1 <-> is_Some (bi_left b0 n)).
  { intros B0 ? ? b0 n. rewrite list_elem_of_fmap. split.
    - intros ([n' e] & -> & Hp%bi_iter_spec). eauto.
    - intros [e He%bi_iter_spec]. by exists (n, e). }
  intros n. by rewrite !Hin.
Qed.

(** ** Properties *)
Section adapter_properties.
Context {W : Type} `{!EcsWorld W, !EcsLaws W} {B : Type} `{!BiMap B, !BiMapLaws B}.
Context {A : Type} `{!Allocator A} {issued : A -> NetworkId -> Prop}.
Context `{!AllocatorLaws A issued} {Wi : Wire} {PC : ProtocolConsts}.
Abbreviation adapter := (Adapter W B A).
Abbreviation wf := (wf issued).
Implicit Types (a : adapter) (w : W).

(** C27 (refinement): Applying a batch with the owner cache and the
    last-replicator cache gives the same world, id map and replicators as looking ownership and
    replicator up afresh for every update. *)
Theorem apply_updates_refines a us :
  wf a -> reps_ok a ->
  ad_world (apply_updates a us) = ad_world (foldl apply_update_ref a us) /\
  ad_bimap (apply_updates a us) = ad_bimap (foldl apply_update_ref a us).
Proof. intros H Hr. destruct (apply_updates_spec a us H Hr) as (_ & _ & Hs & Hb & _). done. Qed.

(** C2 (safety): Whatever clients send, no component of an entity changes unless one of the
    senders in the batch is the client the world records as the owner of that entity. *)
Theorem apply_updates_no_hijack a us e k :
  wf a -> reps_ok a ->
  Forall (fun cu => w_get (ad_world a) e CNetworkOwner <> Some cu.1) us ->
  w_get (ad_world (apply_updates a us)) e k = w_get (ad_world a) e k.
Proof.
  intros H Hr Hus. destruct (apply_updates_spec a us H Hr) as (_ & _ & Hs & _). rewrite Hs.
  by apply apply_updates_ref_frame.
Qed.

(** A network id with a local id is the network id of that local id, and
    conversely. *)
Theorem id_roundtrip a n l :
  get_local_id a n = Some l <-> get_network_id a l = Some n.
Proof.
  unfold get_local_id, get_network_id, to_bits, from_bits. rewrite fmap_Some. split.
  - intros (e & He & ->). cbn. apply bi_bij. by destruct e.
  - intros Hn%bi_bij. exists (mkEntity (lid_val l)). split; [done|]. by destruct l.
Qed.

(** Despawning a known id succeeds: the id and its owner are forgotten, the entity
    and only it is gone, it is no longer a member of any workspace, and its despawning is announced
    to everybody at the end of the queue.  An unknown id is an error that changes nothing. *)
Theorem despawn_networked_spec a n :
  wf a ->
  match bi_left (ad_bimap a) n with
  | Some e =>
      exists a', despawn_networked a n = (Ok (), a') /\
        bi_left (ad_bimap a') n = None /\ ad_owners a' !! n = None /\
        (forall m, m <> n -> bi_left (ad_bimap a') m = bi_left (ad_bimap a) m) /\
        w_alive (ad_world a') e = false /\
        (forall e' k, e <> e' -> w_get (ad_world a') e' k = w_get (ad_world a) e' k) /\
        (forall i ws ms, w_res (ad_world a') RWorkspaceIndex = Some i ->
           wi_memberships i !! ws = Some ms -> e ∉ ms) /\
        w_res (ad_world a') RReliableEvents =
          (fun q => q ++ [(None, WEntityDespawned n)]) <$> w_res (ad_world a) RReliableEvents
  | None => despawn_networked a n = (Err (EntityNotFound n), a)
  end.
Proof.
  intros H. destruct (bi_left (ad_bimap a) n) as [e|] eqn:E; [|by apply despawn_networked_unknown].
  exists (despawned a n e). split; [by apply (despawn_networked_known (issued := issued))|]. split_and!.
  - cbn. by rewrite bi_remove_left, decide_True.
  - apply lookup_delete_eq.
  - intros m Hm. cbn. by rewrite bi_remove_left, decide_False.
  - rewrite despawned_alive. by rewrite bool_decide_eq_true_2.
  - intros e' k Hne. by apply despawned_get.
  - intros i ws ms Hi Hws. rewrite despawned_index in Hi. apply fmap_Some in Hi as (i0 & _ & ->).
    cbn in Hws. rewrite lookup_fmap in Hws. apply fmap_Some in Hws as (ms0 & _ & ->). set_solver.
  - unfold despawned, push_reliable. cbn [set_world ad_world].
    rewrite modify_res_eq, despawn_res. f_equal. unfold modify_res. case_match; [|done].
    by rewrite put_res_ne.
Qed.

(** The recursion of [spawn_kind] is at most one level deep: two levels of
    fuel give the result of any larger amount, and it is never cut short. *)
Theorem spawn_kind_terminates a kind x y rot fuel :
  spawn_kind_fuel (S (S fuel)) a kind x y rot = spawn_kind a kind x y rot /\
  spawn_kind a kind x y rot <> Diverge.
Proof. split; [apply spawn_kind_fuel_enough | apply spawn_kind_not_diverge]. Qed.

(** A successful [spawn_kind] returns an id never handed out before, for a new entity
    that has the given position, rotation and kind at height zero, carries its id, is a member of
    the master workspace, and is unowned; every entity that existed keeps all its components and
    its id. *)
Theorem spawn_kind_spec a kind x y rot n a' :
  wf a -> spawn_kind a kind x y rot = Ret (n, a') ->
  ~ issued (ad_allocator a) n /\
  (exists e m, bi_left (ad_bimap a') n = Some e /\ w_alive (ad_world a) e = false /\
     w_get (ad_world a') e CTransform = Some (mkTransform x y f0 rot kind) /\
     w_get (ad_world a') e CNetworked = Some n /\
     w_get (ad_world a') e CNetworkOwner = None /\
     w_get (ad_world a') e CWorkspaceMembership = Some m /\ is_master a' m) /\
  (forall e k, w_alive (ad_world a) e = true -> w_get (ad_world a') e k = w_get (ad_world a) e k) /\
  (forall m e, bi_left (ad_bimap a) m = Some e -> bi_left (ad_bimap a') m = Some e).
Proof.
  intros H HE. destruct (wf_spawn_kind _ _ _ _ _ _ _ H HE) as (H' & G & Hn & _).
  apply spawn_kind_inv in HE as (a1 & m & -> & H1 & G1 & M1 & _ & Hi & Hu); [|done].
  pose proof (spawn_in_adds a1 n m kind x y rot) as Hadd.
  split; [done|]. split; [|split; [apply (gr_get _ _ G) | apply (gr_left _ _ G)]].
  exists (spawned_entity a1 n kind x y rot), m. split_and!.
  - rewrite (ae_bimap _ _ _ _ Hadd). apply bi_insert_eq.
  - destruct (w_alive (ad_world a) _) eqn:E; [|done]. apply (gr_alive _ _ G1) in E.
    by rewrite (ae_fresh _ _ _ _ Hadd) in E.
  - rewrite spawn_in_new_get by (done || unfold bundle_kinds; set_solver).
    apply (spawn_bundle_get _ [CNetworked ⤳ n] CTransform _ [CVelocity ⤳ mkVelocity f0 f0 f0]).
    set_solver.
  - apply (ae_networked _ _ _ _ Hadd).
  - apply (ae_core _ _ _ _ Hadd). set_solver.
  - rewrite spawn_in_world. cbn [set_bimap set_world ad_world]. rewrite modify_res_get.
    apply (put_get_eq _ _ CWorkspaceMembership). rewrite insert_bundle_alive.
    unfold spawned_entity. rewrite spawn_bundle_alive. by rewrite bool_decide_eq_true_2.
  - exact (is_master_adds _ _ _ _ _ H1 Hadd Hu M1).
Qed.

(** Spawning a session agent returns, unless the ids run out, an agent that is
    owned by the client both in the world and in the owner cache, that passes the access gate of
    input commands, and that puts the client into the agent's workspace. *)
Theorem spawn_session_agent_spec a kind x y rot c i :
  wf a -> w_res (ad_world a) RWorkspaceIndex = Some i ->
  spawn_kind a kind x y rot <> Panic ->
  exists n e a' m, spawn_session_agent a kind x y rot c = Ret (n, a') /\
    bi_left (ad_bimap a') n = Some e /\ ad_owners a' !! n = Some c /\
    w_get (ad_world a') e CNetworkOwner = Some c /\
    validate_access_gate (ad_world a') e = true /\
    get_entity_workspace a' n = Some m /\ get_client_workspace a' c = Some m.
Proof.
  intros H Hi Hnp. destruct (spawn_kind a kind x y rot) as [[n a1]| |] eqn:E1; [|done|].
  2: { exfalso. by apply (spawn_kind_not_diverge a kind x y rot). }
  destruct (wf_spawn_kind _ _ _ _ _ _ _ H E1) as (H1 & _ & _ & [e He]).
  assert (Ha := wf_alive _ _ _ H1 He).
  assert (Hm : exists m, w_get (ad_world a1) e CWorkspaceMembership = Some m /\
                         is_Some (w_res (ad_world a1) RWorkspaceIndex)).
  { apply (spawn_kind_member _ _ _ _ _ _ _ _ H E1 He). eauto. }
  destruct Hm as (m & Hm & [j Hj]).
  set (w2 := w_put (w_put (ad_world a1) e CNetworkOwner c) e CSessionAgent ()).
  assert (Hm2 : w_get w2 e CWorkspaceMembership = Some m)
    by (unfold w2; by rewrite !put_get_ne by (by right)).
  assert (Hj2 : w_res w2 RWorkspaceIndex = Some j) by (unfold w2; by rewrite !put_res_frame).
  set (a2 := set_owners (set_world a1 w2) (<[n := c]> (ad_owners a1))).
  exists n, e, (set_world a2 (modify_res w2 RWorkspaceIndex (assign_workspace c m))), m.
  split.
  { unfold spawn_session_agent, spawn_kind_for. rewrite E1. cbn [mbind exec_bind]. rewrite He.
    unfold entity_mut. rewrite Ha. cbn [assert_ mbind exec_bind set_owners set_world ad_bimap ad_world].
    rewrite He, put_alive, Ha. cbn [assert_ mbind exec_bind]. fold w2.
    unfold get_entity_workspace. cbn [ad_bimap ad_world ad_owners set_world set_owners]. rewrite He. cbn [mbind option_bind].
    rewrite Hm2. done. }
  cbn [ad_bimap ad_owners ad_world set_world set_owners a2]. split_and!.
  - done.
  - apply lookup_insert_eq.
  - rewrite modify_res_get. unfold w2. rewrite put_get_ne by (by right).
    by apply (put_get_eq _ _ CNetworkOwner).
  - unfold validate_access_gate, has. rewrite !modify_res_get. unfold w2.
    rewrite put_get_ne by (by right). rewrite (put_get_eq _ _ CNetworkOwner) by done.
    rewrite (put_get_eq _ _ CSessionAgent) by (by rewrite put_alive). done.
  - unfold get_entity_workspace. cbn [ad_bimap ad_world set_world set_owners a2]. rewrite He. cbn [mbind option_bind].
    by rewrite modify_res_get.
  - unfold get_client_workspace. cbn [ad_world set_world]. rewrite modify_res_eq, Hj2.
    cbn [fmap option_fmap option_map mbind option_bind assign_workspace wi_client_workspaces].
    by rewrite lookup_insert_eq.
Qed.

(** After [clear_world] no id is in use and none has an owner, every entity that had an
    id and every resource tracker is gone, the workspace index is empty, and the next extraction
    sends the full state. *)
Theorem clear_world_spec a i :
  wf a -> w_res (ad_world a) RWorkspaceIndex = Some i ->
  let a' := clear_world a in
  wf a' /\
  (forall n, bi_left (ad_bimap a') n = None) /\ ad_owners a' = ∅ /\
  (forall n e, bi_left (ad_bimap a) n = Some e -> w_alive (ad_world a') e = false) /\
  (forall e, w_get (ad_world a') e CResourceRespawn = None) /\
  w_res (ad_world a') RWorkspaceIndex = Some (mkWorkspaceIndex ∅ ∅) /\
  ad_last_extraction_tick a' = None.
Proof.
  intros H Hi a'. assert (Hb := clear_world_bimap a H). fold a' in Hb.
  destruct (clear_ids_spec (bi_iter (ad_bimap a)).*1 a H) as (Hw & Hl & Ho & Hd).
  assert (Hidx : w_res (ad_world a') RWorkspaceIndex = Some (mkWorkspaceIndex ∅ ∅)).
  { unfold a'. rewrite clear_world_eq. cbn. rewrite modify_res_eq, despawn_all_res.
    assert (Hs : is_Some (w_res (ad_world (clear_ids a (bi_iter (ad_bimap a)).*1)) RWorkspaceIndex))
      by (apply clear_ids_index; eauto).
    by destruct Hs as [j ->]. }
  assert (Hown : ad_owners a' = ∅).
  { apply map_eq. intros n. rewrite lookup_empty.
    destruct (ad_owners a' !! n) as [c|] eqn:E; [|done]. exfalso.
    change (ad_owners a') with (ad_owners (clear_ids a (bi_iter (ad_bimap a)).*1)) in E.
    destruct (wf_owner _ _ Hw n c E) as (e & He & _).
    change (ad_bimap (clear_ids a (bi_iter (ad_bimap a)).*1)) with (ad_bimap a') in He.
    by rewrite Hb in He. }
  split_and!; [|done|done| | |done|done].
  - apply wf_empty; [done | done |]. intros j. rewrite Hidx. by intros [= <-].
  - intros n e Hn. unfold a'. rewrite clear_world_eq. cbn. rewrite modify_res_alive, despawn_all_alive.
    rewrite (Hd n e); [apply andb_false_r | | done].
    apply bi_iter_spec in Hn. by apply (list_elem_of_fmap_2 fst _ _ Hn).
  - intros e. unfold a'. rewrite clear_world_eq. cbn [set_last_extraction_tick set_world ad_world].
    rewrite modify_res_get. set (w1 := ad_world (clear_ids _ _)).
    destruct (decide (e ∈ w_query w1 [CResourceRespawn])) as [He|He].
    + by apply despawn_all_get_in.
    + rewrite despawn_all_get by done. rewrite query_one_Some in He.
      destruct (w_get w1 e CResourceRespawn); [|done]. destruct He. eauto.
Qed.

(** An entity that has no id and is not a resource
    tracker survives [clear_world] with all its components; so the pending re-initialisation of a
    training target is not cancelled, and the target reappears in the cleared world. *)
Theorem clear_world_keeps_timers a e :
  wf a -> bi_right (ad_bimap a) e = None -> w_get (ad_world a) e CResourceRespawn = None ->
  w_alive (ad_world (clear_world a)) e = w_alive (ad_world a) e /\
  forall k, w_get (ad_world (clear_world a)) e k = w_get (ad_world a) e k.
Proof.
  intros H He Ht. rewrite clear_world_eq. cbn [set_last_extraction_tick set_world ad_world].
  destruct (clear_ids_spec (bi_iter (ad_bimap a)).*1 a H) as (_ & _ & Ho & _).
  destruct (Ho e) as [Ha Hg].
  { intros n _. by apply bi_right_None. }
  set (w1 := ad_world (clear_ids _ _)) in *.
  assert (Hq : e ∉ w_query w1 [CResourceRespawn]).
  { rewrite query_one_Some, Hg, Ht. by intros []. }
  split.
  - rewrite modify_res_alive, despawn_all_alive, bool_decide_eq_false_2 by done. done.
  - intros k. by rewrite modify_res_get, despawn_all_get, Hg.
Qed.

(** The hash depends only on which ids are in use and on the transforms and agent
    properties behind them: worlds that agree on these hash the same, whatever their entity
    numbers, iteration orders and spawning histories. *)
Theorem state_hash_deterministic {H : StdHasher} a a' :
  (forall n, is_Some (bi_left (ad_bimap a) n) <-> is_Some (bi_left (ad_bimap a') n)) ->
  (forall n e e', bi_left (ad_bimap a) n = Some e -> bi_left (ad_bimap a') n = Some e' ->
     w_get (ad_world a) e CTransform = w_get (ad_world a') e' CTransform /\
     w_get (ad_world a) e CAgentProperties = w_get (ad_world a') e' CAgentProperties) ->
  state_hash a = state_hash a'.
Proof.
  intros Hids Hcomp. unfold state_hash. rewrite (sorted_ids _ _ Hids). f_equal.
  apply Forall_bind_ext, Forall_forall. intros n _. unfold hash_entity, get_local_id. f_equal.
  destruct (bi_left (ad_bimap a) n) as [e|] eqn:E.
  - destruct (proj1 (Hids n)) as [e' E']; [eauto|]. rewrite E'. cbn [fmap option_fmap option_map].
    destruct (Hcomp n e e' E E') as [Ht Hp]. unfold to_bits, from_bits. destruct e, e'. cbn in *.
    by rewrite Ht, Hp.
  - destruct (bi_left (ad_bimap a') n) as [e'|] eqn:E'; [|done].
    destruct (proj2 (Hids n)) as [? ?]; [eauto | congruence].
Qed.

(** C19 (functional): After an extraction, its clean-up and the start of the next tick, let
    the world change in any way that goes through the ECS (spawning included): the next extraction
    contains, for every networked entity and every replicated component whose value differs from
    the one at the start of the tick, an event with the new value, stamped with the server tick. *)
Theorem extract_complete a a' k kind n e v p :
  tracked (ad_world (next_tick a)) (ad_world a') ->
  ad_last_extraction_tick a' = ad_last_extraction_tick (next_tick a) ->
  (kind, DefaultReplicator k kind) ∈ ad_replicators a' ->
  bi_left (ad_bimap a') n = Some e -> w_get (ad_world a') e k = Some v ->
  w_get (ad_world (next_tick a)) e k <> Some v ->
  encode_component k v = Some p ->
  mkReplicationEvent n kind p (server_tick (ad_world a')) ∈ (extract_deltas a').1.
Proof.
  intros [Htick Htr] Hlast Hrep Hn Hv Hne Hp. apply extract_deltas_in.
  exists n, e, kind, (DefaultReplicator k kind). split; [done|]. split; [done|]. cbn [rep_extract DefaultReplicator].
  destruct (Htr e k) as [[Hg _]|[Hg|Hc]]; [congruence | congruence |].
  rewrite Hlast, next_tick_last, (default_extract_changed _ _ _ _ _ _ _ v p _ Hv Hp Hc).
  rewrite Htick. destruct (next_tick_age a) as (d & Hd & Hage).
  specialize (Hage (w_change_tick (ad_world a))).
  rewrite tick_age_refl in Hage. specialize (Hage ltac:(lia)). rewrite is_changed_spec; rewrite ?tick_age_refl, ?Hage; try lia.
  by rewrite (proj2 (Z.ltb_lt _ _)) by lia.
Qed.

(** When nothing is written between two extractions, the second one is
    empty (as long as no stamp is half the tick space old). *)
Theorem extract_quiet a :
  Forall (fun kr => (exists k kind, kr.2 = DefaultReplicator k kind) \/ kr.2 = InputCommandReplicator)
    (ad_replicators a) ->
  (forall e k c, w_changed (ad_world a) e k = Some c ->
     tick_age (w_change_tick (ad_world a)) c < 2 ^ 31 - 2) ->
  (extract_deltas (next_tick a)).1 = [].
Proof.
  intros Hreps Hage. destruct (extract_deltas (next_tick a)).1 as [|ev l] eqn:E; [done|]. exfalso.
  assert (Hev : ev ∈ (extract_deltas (next_tick a)).1) by (rewrite E; set_solver).
  apply extract_deltas_in in Hev as (n & e & kd & r & Hn & Hr & Hx).
  rewrite Forall_forall in Hreps. destruct (Hreps _ Hr) as [(k & kind & Hk)|Hk]; cbn in Hk; subst r; [|done].
  cbn [rep_extract DefaultReplicator] in Hx.
  apply default_extract_Some in Hx as Hs. destruct Hs as (v & p & Hv & Hp & ->).
  assert (exists c, w_changed (ad_world (next_tick a)) e k = Some c) as [c Hc]
    by (apply changed_get; eauto).
  rewrite next_tick_last, (default_extract_changed _ _ _ _ _ _ _ v p c Hv Hp Hc) in Hx.
  assert (Hc0 : w_changed (ad_world a) e k = Some c).
  { rewrite <- Hc. unfold next_tick, advance_tick, post_extract, extract_deltas.
    cbn [set_world ad_world snd set_last_extraction_tick].
    by rewrite modify_res_changed, increment_changed, clear_changed. }
  specialize (Hage e k c Hc0).
  destruct (next_tick_age a) as (d & Hd & Hd').
  assert (Hac := Hd' c Hage). specialize (Hd' (w_change_tick (ad_world a))).
  rewrite tick_age_refl in Hd'. specialize (Hd' ltac:(lia)).
  rewrite is_changed_spec in Hx by lia. rewrite Hac, Hd' in Hx.
  assert (0 <= tick_age (w_change_tick (ad_world a)) c) by (unfold tick_age; apply Z.mod_pos_bound; lia).
  by rewrite (proj2 (Z.ltb_ge _ _)) in Hx by lia.
Qed.
End adapter_properties.
