(* ===== verification/Simulate.v ===== *)
(** * The simulation step

    [BevyWorldAdapter::simulate] of [crates/aetheris-ecs-bevy/src/adapter.rs]: physics and input,
    workspace bounds, extraction toggles, the gameplay systems of [Extraction.v] and
    [Interaction.v] with what the adapter does with their results, and the height clamp. *)

From stdpp Require Import gmap strings list sorting.
From Stdlib Require Import ZArith Lia SpecFloat.
From S2P Require Import Prelude F32 Protocol Components Ecs.
From S2P Require Import EcsModel Registry Extraction Interaction Adapter.
From S2P Require Import AdapterProps.

Open Scope Z_scope.

(** ** Physics *)

(** The last [Move] of a command. *)
Definition input_move (input : option LatestInput) : f32 * f32 :=
  match input with
  | Some latest =>
      foldl (fun m action => match action with Move x y => (x, y) | _ => m end) (f0, f0)
            (ic_actions (li_command latest))
  | None => (f0, f0)
  end.

(** [while delta > PI { delta -= TAU }] and its mirror image; [fuel] bounds the iterations. *)
Fixpoint wrap_down (fuel : nat) (delta : f32) : exec f32 :=
  match fuel with
  | O => Diverge
  | S fuel' => if (delta >? PI)%f then wrap_down fuel' (delta - TAU)%f else Ret delta
  end.

Fixpoint wrap_up (fuel : nat) (delta : f32) : exec f32 :=
  match fuel with
  | O => Diverge
  | S fuel' => if (delta <? f_neg PI)%f then wrap_up fuel' (delta + TAU)%f else Ret delta
  end.

(** 1.8: rotation towards the velocity. *)
Definition turn {LM : Libm} (fuel : nat) (dt turn_rate : f32) (v : Velocity) (rotation : f32) :
    exec f32 :=
  let speed_sq := (v_dx v * v_dx v + v_dy v * v_dy v)%f in
  if (speed_sq >? f_lit 1 100)%f then
    let target_rotation := f_atan2 (v_dy v) (v_dx v) in
    delta ← wrap_down fuel (target_rotation - rotation)%f;
    delta ← wrap_up fuel delta;
    let turn_speed := f_to_radians turn_rate in
    let max_turn := (turn_speed * dt)%f in
    if (f_abs delta <? max_turn)%f then Ret target_rotation
    else Ret (rotation + f_signum delta * max_turn)%f
  else Ret rotation.

(** 1.1 to 1.6: mass, thrust, drag and the speed limit. *)
Definition accelerate (dt : f32) (physics : PhysicsBody) (input : option LatestInput)
    (cargo : option DataStore) (v : Velocity) : Velocity :=
  let payload_count := match cargo with Some c => f_of_Z (st_payload_count c) | None => f0 end in
  let total_mass := (pb_base_mass physics + payload_count * pb_mass_per_payload physics)%f in
  let '(move_x, move_y) := input_move input in
  let accel_x := (move_x * (pb_thrust_force physics / total_mass))%f in
  let accel_y := (move_y * (pb_thrust_force physics / total_mass))%f in
  let dx := (v_dx v + accel_x * dt)%f in
  let dy := (v_dy v + accel_y * dt)%f in
  let drag_factor := (f1 / (f1 + pb_drag physics * dt))%f in
  let dx := (dx * drag_factor)%f in
  let dy := (dy * drag_factor)%f in
  let speed := f_sqrt (dx * dx + dy * dy)%f in
  if (speed >? pb_max_velocity physics)%f && (speed >? EPSILON)%f then
    let ratio := (pb_max_velocity physics / speed)%f in
    mkVelocity (dx * ratio)%f (dy * ratio)%f (v_dz v)
  else mkVelocity dx dy (v_dz v).

(** One tick of one body, 1.7 included. *)
Definition integrate {LM : Libm} (fuel : nat) (dt : f32) (physics : PhysicsBody)
    (input : option LatestInput) (cargo : option DataStore) (v : Velocity) (t : Transform) :
    exec (Velocity * Transform) :=
  let v := accelerate dt physics input cargo v in
  rotation ← turn fuel dt (pb_turn_rate physics) v (t_rotation t);
  Ret (v, mkTransform (t_x t + v_dx v * dt)%f (t_y t + v_dy v * dt)%f (t_z t) rotation
            (t_entity_type t)).

(** ** Extraction toggles *)
Fixpoint toggle_action (b : ExtractionBeam) (actions : list PlayerInputKind) : ExtractionBeam :=
  match actions with
  | [] => b
  | ToggleExtraction target :: _ =>
      mkExtractionBeam (negb (eb_active b)) (Some target) (eb_extraction_range b)
        (eb_base_extraction_rate b) (eb_last_seen_input_tick b)
  | _ :: actions' => toggle_action b actions'
  end.

Definition mark_seen (b : ExtractionBeam) (tick : Z) : ExtractionBeam :=
  mkExtractionBeam (eb_active b) (eb_target b) (eb_extraction_range b)
    (eb_base_extraction_rate b) (Some tick).

(** Toroidal wrapping of one coordinate. *)
Definition wrap_coord (x lo hi : f32) : f32 :=
  let width := (hi - lo)%f in
  if (width >? f0)%f then (f_rem_euclid (x - lo) width + lo)%f else x.

Definition wrap_transform (b : WorkspaceBounds) (t : Transform) : Transform :=
  mkTransform (wrap_coord (t_x t) (wb_min_x b) (wb_max_x b))
              (wrap_coord (t_y t) (wb_min_y b) (wb_max_y b)) (t_z t) (t_rotation t)
              (t_entity_type t).

Section simulate.
Context {W : Type} `{!EcsWorld W} {B : Type} `{!BiMap B} {A : Type} `{!Allocator A}.
Context {PC : ProtocolConsts} {LM : Libm}.
Abbreviation adapter := (Adapter W B A).
Implicit Types (a : adapter) (w : W).

Definition physics_step (fuel : nat) (dt : f32) w (e : Entity) : exec W :=
  match w_get w e CVelocity, w_get w e CTransform, w_get w e CPhysicsBody with
  | Some v, Some t, Some physics =>
      '(v, t) ← integrate fuel dt physics (w_get w e CLatestInput) (w_get w e CDataStore) v t;
      Ret (w_put (w_put w e CVelocity v) e CTransform t)
  | _, _, _ => Ret w
  end.

Definition apply_physics (fuel : nat) (dt : f32) w : exec W :=
  for_each (physics_step fuel dt) w (w_query w [CVelocity; CTransform; CPhysicsBody; CNetworked]).

(** ** Workspace bounds *)
Definition workspace_bounds w (bimap : B) : list (NetworkId * WorkspaceBounds) :=
  omap (fun e => match w_get w e CWorkspaceBounds, bi_right bimap e with
                 | Some bounds, Some nid => Some (nid, bounds)
                 | _, _ => None
                 end) (w_query w [CWorkspaceBounds]).

Fixpoint find_bounds (l : list (NetworkId * WorkspaceBounds)) (n : NetworkId) :
    option WorkspaceBounds :=
  match l with
  | [] => None
  | (n', b) :: l' => if decide (n' = n) then Some b else find_bounds l' n
  end.

Definition bounds_step (workspaces : list (NetworkId * WorkspaceBounds)) w (e : Entity) : W :=
  match w_get w e CTransform, w_get w e CWorkspaceMembership with
  | Some t, Some membership =>
      match find_bounds workspaces membership with
      | Some b =>
          if (wb_max_x b - wb_min_x b >? f0)%f || (wb_max_y b - wb_min_y b >? f0)%f
          then w_put w e CTransform (wrap_transform b t)
          else w
      | None => w
      end
  | _, _ => w
  end.

Definition enforce_bounds w (bimap : B) : W :=
  foldl (bounds_step (workspace_bounds w bimap)) w (w_query w [CTransform; CWorkspaceMembership]).

(** ** Toggles *)
Definition toggle_step w (e : Entity) : W :=
  match w_get w e CLatestInput, w_get w e CExtractionBeam with
  | Some latest, Some beam =>
      if bool_decide (eb_last_seen_input_tick beam = Some (ic_tick (li_command latest))) then w
      else w_put w e CExtractionBeam
             (mark_seen (toggle_action beam (ic_actions (li_command latest)))
                        (ic_tick (li_command latest)))
  | _, _ => w
  end.

Definition apply_toggles w : W := foldl toggle_step w (w_query w [CLatestInput; CExtractionBeam]).

(** ** What the adapter does with the results of the systems *)

(** Announces and despawns the entities of a list that are in the map. *)
Definition retire (ev : NetworkId -> PlatformEvent) (acc : adapter * reliable_queue) (e : Entity) :
    adapter * reliable_queue :=
  let '(a, events) := acc in
  match bi_right (ad_bimap a) e with
  | Some network_id =>
      ((despawn_networked a network_id).2, events ++ [(None, WPlatformEvent (ev network_id))])
  | None => acc
  end.

(** The payload of a terminated entity becomes a data drop. *)
Definition drop_payload a (e : Entity) : exec adapter :=
  match w_get (ad_world a) e CDataStore with
  | Some store =>
      if 0 <? st_payload_count store then
        let pos := default (mkTransform f0 f0 f0 f0 0) (w_get (ad_world a) e CTransform) in
        '(drop_id, a) ← spawn_kind a ENTITY_TYPE_DATA_DROP (t_x pos) (t_y pos) f0;
        match bi_left (ad_bimap a) drop_id with
        | Some drop_entity =>
            Ret (set_world a (modify (ad_world a) drop_entity CDataDropComponent
                                (fun _ => mkDataDropComponent (st_payload_count store))))
        | None => Ret a
        end
      else Ret a
  | None => Ret a
  end.

Definition track_target a (e : Entity) : adapter :=
  if has (ad_world a) e CTrainingTarget then
    set_world a (spawn_bundle (ad_world a)
      [CTrainingTarget ⤳ ();
       CRespawnTimer ⤳ mkRespawnTimer 600 (Coordinate (f_of_Z 50) (f_of_Z 50))]).2
  else a.

Definition terminate (acc : adapter * reliable_queue) (e : Entity) : exec (adapter * reliable_queue) :=
  let '(a, events) := acc in
  match bi_right (ad_bimap a) e with
  | Some network_id =>
      let events := events ++ [(None, WPlatformEvent (Termination network_id))] in
      a ← drop_payload a e;
      let a := track_target a e in
      Ret ((despawn_networked a network_id).2, events)
  | None => Ret acc
  end.

Definition despawn_beam (acc : adapter * reliable_queue) (e : Entity) : adapter * reliable_queue :=
  let '(a, events) := acc in
  match bi_right (ad_bimap a) e with
  | Some network_id =>
      ((despawn_networked a network_id).2,
       events ++ [(None, WPlatformEvent (Termination network_id))])
  | None => if w_alive (ad_world a) e then (set_world a (w_despawn (ad_world a) e), events) else acc
  end.

Definition flush_events a (events : reliable_queue) : adapter :=
  match events with
  | [] => a
  | _ => set_world a (push_reliable (ad_world a) events)
  end.

Definition take_beam_requests a : list BeamSpawn * adapter :=
  match w_res (ad_world a) RBeamSpawnRequests with
  | Some reqs => (reqs, set_world a (w_put_res (ad_world a) RBeamSpawnRequests []))
  | None => ([], a)
  end.

Definition spawn_beam a (s : BeamSpawn) : exec adapter :=
  let rot := f_atan2 (bs_vel s).2 (bs_vel s).1 in
  '(bid, a) ← spawn_kind a ENTITY_TYPE_BEAM (bs_pos s).1 (bs_pos s).2 rot;
  match bi_left (ad_bimap a) bid with
  | Some e =>
      let w := modify (ad_world a) e CBeamMarker (fun m =>
                 mkBeamMarker (bm_beam_type m) (bm_spawn_pos m) (bm_max_range m) (bs_owner s)
                              (bm_lifetime_ticks m)) in
      let w := modify w e CVelocity (fun v =>
                 mkVelocity (bs_vel s).1 (bs_vel s).2 (v_dz v)) in
      Ret (set_world a w)
  | None => Ret a
  end.

Definition reinit_target a (pos : f32 * f32) : exec adapter :=
  '(_, a) ← spawn_kind a ENTITY_TYPE_TRAINING_TARGET pos.1 pos.2 f0;
  Ret a.

Definition respawn_resource a (r : f32 * f32 * Z) : exec adapter :=
  let '(x, y, capacity) := r in
  '(nid, a) ← spawn_kind a ENTITY_TYPE_RESOURCE x y f0;
  match bi_left (ad_bimap a) nid with
  | Some e => Ret (set_world a (modify (ad_world a) e CResource
                                  (fun _ => mkResource capacity capacity)))
  | None => Ret a
  end.

(** ** Height clamp *)
Definition clamp_step w (e : Entity) : W :=
  match w_get w e CTransform, w_get w e CVelocity with
  | Some t, Some v =>
      let w := if (f_abs (t_z t) >? EPSILON)%f
               then w_put w e CTransform (mkTransform (t_x t) (t_y t) f0 (t_rotation t)
                                                      (t_entity_type t))
               else w in
      if (f_abs (v_dz v) >? EPSILON)%f
      then w_put w e CVelocity (mkVelocity (v_dx v) (v_dy v) f0) else w
  | _, _ => w
  end.

Definition clamp_z w : W := foldl clamp_step w (w_query w [CTransform; CVelocity]).

(** ** The whole step *)

(** Stage 1: bodies, bounds and toggles. *)
Definition simulate_motion (fuel : nat) a : exec adapter :=
  let dt := (f1 / f_of_Z (ad_tick_rate a))%f in
  w ← apply_physics fuel dt (ad_world a);
  Ret (set_world a (apply_toggles (enforce_bounds w (ad_bimap a)))).

(** Stage 2: the gameplay systems. *)
Definition simulate_systems a : exec adapter :=
  '(w, exhausted) ← process_extraction (ad_world a) (ad_bimap a);
  let '(a, events) := foldl (retire ResourceExhausted) (set_world a w, []) exhausted in
  '(w, _) ← process_interaction (ad_world a) (ad_bimap a);
  '(w, collected) ← process_payload_collection w (ad_bimap a);
  let '(a, events) := foldl (retire (fun n => PayloadCollected n 0)) (set_world a w, events)
                            collected in
  let '(w, b_to_despawn, b_terminations) := process_beams (ad_world a) (ad_bimap a) in
  '(a, events) ← for_each terminate (set_world a w, events) b_terminations;
  let '(a, events) := foldl despawn_beam (a, events) b_to_despawn in
  Ret (flush_events a events).

(** Beam requests, regeneration and respawning. *)
Definition simulate_spawns a : exec adapter :=
  let '(spawns, a) := take_beam_requests a in
  a ← for_each spawn_beam a spawns;
  let a := set_world a (process_regen (ad_world a)) in
  let '(w, to_reinit) := process_target_reinitialization (ad_world a) in
  a ← for_each reinit_target (set_world a w) to_reinit;
  let '(w, to_respawn) := process_respawn (ad_world a) in
  for_each respawn_resource (set_world a w) to_respawn.

Definition simulate (fuel : nat) a : exec adapter :=
  a ← simulate_motion fuel a;
  a ← simulate_systems a;
  a ← simulate_spawns a;
  let w := clamp_z (ad_world a) in
  let w := match ad_post_simulate_hook a with Some hook => hook w | None => w end in
  Ret (set_world a w).
End simulate.

(** ** Every stage keeps the adapter's invariant *)
Section simulate_lemmas.
Context {W : Type} `{!EcsWorld W, !EcsLaws W} {B : Type} `{!BiMap B, !BiMapLaws B}.
Context {A : Type} `{!Allocator A} {issued : A -> NetworkId -> Prop}.
Context `{!AllocatorLaws A issued} {PC : ProtocolConsts} {LM : Libm}.
Abbreviation adapter := (Adapter W B A).
Abbreviation wf := (wf issued).
Implicit Types (a : adapter) (w : W).

(** The part of the adapter no operation of the simulation changes. *)
Definition config a := (ad_replicators a, ad_post_simulate_hook a, ad_tick_rate a).

(** *** Stage 1 *)
Lemma physics_step_touches fuel dt w e w' :
  physics_step fuel dt w e = Ret w' -> touches [CVelocity; CTransform] [] w w'.
Proof.
  unfold physics_step. repeat case_match; intros HE; try (injection HE as <-; reflexivity).
  apply bind_Ret_inv in HE as ([v t] & _ & HE). injection HE as <-. touching.
Qed.

Lemma apply_physics_touches fuel dt w w' :
  apply_physics fuel dt w = Ret w' -> touches [CVelocity; CTransform] [] w w'.
Proof.
  intros HE. apply (for_each_rel (touches [CVelocity; CTransform] []) _ _ _ _ HE).
  intros. by eapply physics_step_touches.
Qed.

Lemma enforce_bounds_touches w (b : B) : touches [CTransform] [] w (enforce_bounds w b).
Proof.
  unfold enforce_bounds. generalize (workspace_bounds w b). intros l.
  apply (foldl_rel (touches [CTransform] [])). intros w' e _.
  unfold bounds_step. repeat case_match; touching.
Qed.

Lemma apply_toggles_touches w : touches [CExtractionBeam] [] w (apply_toggles w).
Proof.
  apply (foldl_rel (touches [CExtractionBeam] [])). intros w' e _.
  unfold toggle_step. repeat case_match; touching.
Qed.

(** *** Stage 2 *)
Lemma spawn_trackers_old w l e k :
  w_alive w e = true -> w_get (foldl spawn_tracker w l) e k = w_get w e k.
Proof.
  revert w. induction l as [|t l IH]; intros w He; cbn; [done|].
  rewrite IH; unfold spawn_tracker.
  - by apply spawn_bundle_get_ne.
  - rewrite spawn_bundle_alive, He. apply orb_true_r.
Qed.

Lemma exhaustion_old w (b : B) e k :
  w_alive w e = true -> w_get (handle_resource_exhaustion w b).1 e k = w_get w e k.
Proof.
  intros He. rewrite handle_resource_exhaustion_eq. cbv zeta.
  destruct (exhausted_resources w); [done|]. cbn [fst]. rewrite spawn_trackers_old.
  - apply modify_res_get.
  - unfold push_reliable. by rewrite modify_res_alive.
Qed.

Lemma exhaustion_index w (b : B) :
  w_res (handle_resource_exhaustion w b).1 RWorkspaceIndex = w_res w RWorkspaceIndex.
Proof.
  rewrite handle_resource_exhaustion_eq. cbv zeta. destruct (exhausted_resources w); [done|].
  cbn [fst]. rewrite spawn_trackers_res. apply (tc_res _ _ _ _ (touches_modify_res _ _ _)). set_solver.
Qed.

Lemma process_extraction_keeps a w' l :
  wf a -> process_extraction (ad_world a) (ad_bimap a) = Ret (w', l) ->
  keeps (ad_bimap a) (ad_world a) w'.
Proof.
  intros H HE. rewrite process_extraction_eq in HE. apply bind_Ret_inv in HE as (w1 & HT & HE).
  injection HE as HE. set (w0 := disable_beams _ _) in HT.
  assert (T0 : touches [CExtractionBeam; CDataStore; CResource] [] (ad_world a) w0)
    by (unfold w0, disable_beams; touching).
  assert (T1 : touches [CExtractionBeam; CDataStore; CResource] [] (ad_world a) w1).
  { etrans; [exact T0|]. eapply touches_mono; [| |exact (execute_transfers_touches _ _ _ HT)]; set_solver. }
  transitivity w1.
  { eapply touches_keeps; [exact T1 | unfold core_kinds; set_solver | set_solver]. }
  replace w' with (handle_resource_exhaustion w1 (ad_bimap a)).1 by (by rewrite HE).
  split; [|apply exhaustion_index]. intros e k He _. apply exhaustion_old.
  rewrite (tc_alive _ _ _ _ T1). by eapply wf_right_alive.
Qed.

Lemma use_tool_touches tick w acc e w' acc' :
  use_tool tick (w, acc) e = Ret (w', acc') -> touches [CTool] [RBeamSpawnRequests] w w'.
Proof.
  unfold use_tool. repeat case_match; intros HE; try (injection HE as <- _; reflexivity).
  apply bind_Ret_inv in HE as (r & _ & HE). revert HE. case_match; intros [= <- _]; touching.
Qed.

Lemma fire_beam_touches (b : B) w p w' :
  fire_beam b w p = Ret w' -> touches [CTool] [RBeamSpawnRequests] w w'.
Proof.
  destruct p as [e t]. destruct (fire_beam_ok b w e t) as [v ->]. intros [= <-]. touching.
Qed.

Lemma process_interaction_touches w (b : B) w' l :
  process_interaction w b = Ret (w', l) -> touches [CTool] [RBeamSpawnRequests] w w'.
Proof.
  unfold process_interaction. intros HE. apply bind_Ret_inv in HE as ([w1 acc] & H1 & HE).
  apply bind_Ret_inv in HE as (w2 & H2 & HE). injection HE as <- _.
  transitivity w1.
  - apply (for_each_pres (fun s => touches [CTool] [RBeamSpawnRequests] w s.1) _ _ _ _ H1); [reflexivity|].
    intros [w3 acc3] e [w4 acc4] _ Ht HE. cbn in *. etrans; [exact Ht | by eapply use_tool_touches].
  - apply (for_each_rel (touches [CTool] [RBeamSpawnRequests]) _ _ _ _ H2).
    intros. by eapply fire_beam_touches.
Qed.

Lemma apply_collection_touches (b : B) w ds c w' ds' :
  apply_collection b (w, ds) c = Ret (w', ds') ->
  touches [CDataStore; CDataDropComponent] [RReliableEvents] w w'.
Proof.
  destruct c as [[x d] m]. unfold apply_collection. case_match; [|by intros [= <- _]].
  intros HE. apply bind_Ret_inv in HE as (w1 & H1 & HE).
  apply bind_Ret_inv in HE as ([w2 ds2] & H2 & HE). injection HE as <- _.
  assert (T1 : touches [CDataStore; CDataDropComponent] [RReliableEvents] w w1).
  { destruct (w_get w x CDataStore); [|injection H1 as <-; reflexivity].
    apply bind_Ret_inv in H1 as (? & _ & H1). injection H1 as <-. touching. }
  assert (T2 : touches [CDataStore; CDataDropComponent] [RReliableEvents] w1 w2).
  { destruct (w_get w1 d CDataDropComponent); [|injection H2 as <- _; reflexivity].
    case_match; [injection H2 as <- _; touching|].
    apply bind_Ret_inv in H2 as (? & _ & H2). injection H2 as <- _. touching. }
  etrans; [exact T1|]. etrans; [exact T2|]. destruct (bi_right b d); touching.
Qed.

Lemma process_payload_collection_touches w (b : B) w' l :
  process_payload_collection w b = Ret (w', l) ->
  touches [CDataStore; CDataDropComponent] [RReliableEvents] w w'.
Proof.
  unfold process_payload_collection. intros HE.
  apply (for_each_pres (fun s => touches [CDataStore; CDataDropComponent] [RReliableEvents] w s.1)
    _ _ _ _ HE); [reflexivity|].
  intros [w1 l1] c [w2 l2] _ Ht H2. cbn in *. etrans; [exact Ht | by eapply apply_collection_touches].
Qed.

Lemma process_beams_touches w (b : B) :
  touches (CBeamMarker :: pool_kinds) [RReliableEvents] w (process_beams w b).1.1.
Proof.
  transitivity (ba_world (foldl (beam_step b) (mkBeamAcc w [] [] []) (beams_in w))).
  - eapply touches_mono; [| |apply (beams_loop_touches b (beams_in w) (mkBeamAcc w [] [] []))]; set_solver.
  - unfold process_beams. cbv zeta. cbn [fst]. generalize (foldl (beam_step b) (mkBeamAcc w [] [] []) (beams_in w)).
    intros acc. destruct (ba_events acc); [reflexivity|]. unfold pool_kinds. touching.
Qed.

Lemma process_regen_touches w : touches [CPriorityPool; CPriorityRegenTimer] [] w (process_regen w).
Proof.
  apply (foldl_rel (touches [CPriorityPool; CPriorityRegenTimer] [])). intros w' e _.
  unfold regen_step. repeat case_match; touching.
Qed.

Lemma clamp_z_touches w : touches [CTransform; CVelocity] [] w (clamp_z w).
Proof.
  apply (foldl_rel (touches [CTransform; CVelocity] [])). intros w' e _.
  unfold clamp_step. repeat case_match; touching.
Qed.

(** Systems that tick and despawn trackers leave the entities of the map alone. *)
Lemma process_respawn_keeps a : wf a -> keeps (ad_bimap a) (ad_world a) (process_respawn (ad_world a)).1.
Proof.
  intros H. rewrite process_respawn_eq. cbn [fst]. split.
  - intros e k [n Hn] _.
    assert (Hq : e ∉ w_query (ad_world a) [CResourceRespawn]).
    { rewrite query_one_Some. intros Hs. rewrite (wf_tracker _ _ H e) in Hn; [done | by left]. }
    rewrite despawn_all_get; [apply modify_all_get_ne; by left|].
    rewrite list_elem_of_bind. intros (x & Hx & Hxq). unfold due_at in Hx.
    case_match; [|by apply not_elem_of_nil in Hx]. case_match; [|by apply not_elem_of_nil in Hx].
    by apply list_elem_of_singleton in Hx as ->.
  - rewrite despawn_all_res. apply (tc_res _ _ _ _ (touches_modify_all _ _ _ _)). set_solver.
Qed.

Lemma process_reinit_keeps a :
  wf a -> keeps (ad_bimap a) (ad_world a) (process_target_reinitialization (ad_world a)).1.
Proof.
  intros H. rewrite reinit_eq. cbn [fst]. split.
  - intros e k [n Hn] _.
    assert (Hq : e ∉ w_query (ad_world a) [CRespawnTimer]).
    { rewrite query_one_Some. intros Hs. rewrite (wf_tracker _ _ H e) in Hn; [done | by right]. }
    rewrite despawn_all_get; [apply modify_all_get_ne; by left|].
    rewrite list_elem_of_bind. intros (x & Hx & Hxq). unfold timer_due in Hx.
    case_match; [|by apply not_elem_of_nil in Hx]. case_match; [|by apply not_elem_of_nil in Hx].
    by apply list_elem_of_singleton in Hx as ->.
  - rewrite despawn_all_res. apply (tc_res _ _ _ _ (touches_modify_all _ _ _ _)). set_solver.
Qed.

(** *** The adapter's reactions *)

(** Preservation of the invariant and of the configuration. *)
Definition safe a a' : Prop := wf a -> wf a' /\ config a' = config a.

#[global] Instance safe_preorder : PreOrder safe.
Proof.
  split; [done|]. intros a1 a2 a3 H12 H23 H. destruct (H12 H) as [H2 C2].
  destruct (H23 H2) as [H3 C3]. split; [done | congruence].
Qed.

Lemma safe_keeps a w : (wf a -> keeps (ad_bimap a) (ad_world a) w) -> safe a (set_world a w).
Proof. intros Hk H. split; [|done]. apply wf_keeps; auto. Qed.

Lemma safe_touches a ks rs w :
  touches ks rs (ad_world a) w -> (forall k, k ∈ core_kinds -> k ∉ ks) -> RWorkspaceIndex ∉ rs ->
  safe a (set_world a w).
Proof. intros. apply safe_keeps. intros _. by eapply touches_keeps. Qed.

Lemma safe_despawn a n : safe a (despawn_networked a n).2.
Proof.
  intros H. split; [by apply wf_despawn_networked|]. unfold despawn_networked.
  repeat case_match; done.
Qed.

Lemma spawn_networked_config a n a' : spawn_networked a = Ret (n, a') -> config a' = config a.
Proof.
  unfold spawn_networked. destruct (allocate _) as [[]|]; [|done]. cbn.
  destruct (spawn_bundle _ _). by intros [= <- <-].
Qed.

Lemma spawn_kind_fuel_config fuel a kind x y rot n a' :
  spawn_kind_fuel fuel a kind x y rot = Ret (n, a') -> config a' = config a.
Proof.
  revert a kind x y rot n a'. induction fuel as [|fuel IH]; intros a kind x y rot n a' HE; [done|].
  rewrite spawn_kind_fuel_S in HE. apply bind_Ret_inv in HE as ([j al] & _ & HE).
  apply bind_Ret_inv in HE as ([m a1] & Em & HE). injection HE as _ <-.
  transitivity (config a1); [by rewrite spawn_in_world|].
  destruct (master_workspace a); [by injection Em as _ <-|].
  rewrite create_master_eq in Em. apply bind_Ret_inv in Em as ([k a2] & Es & Em).
  apply spawn_networked_config in Es. case_match; [|done].
  apply bind_Ret_inv in Em as ([z a3] & Ez & Em). injection Em as _ <-.
  apply IH in Ez. etrans; [exact Ez|]. etrans; [|exact Es]. done.
Qed.

Lemma safe_spawn_kind a kind x y rot n a' : spawn_kind a kind x y rot = Ret (n, a') -> safe a a'.
Proof.
  intros HE H. split; [|by eapply spawn_kind_fuel_config].
  by destruct (wf_spawn_kind _ _ _ _ _ _ _ H HE).
Qed.

Lemma safe_retire ev acc e : safe acc.1 (retire ev acc e).1.
Proof. destruct acc as [a q]. unfold retire. case_match; [apply safe_despawn | reflexivity]. Qed.

Lemma safe_retire_all ev l acc : safe acc.1 (foldl (retire ev) acc l).1.
Proof.
  revert acc. induction l as [|e l IH]; intros acc; cbn; [reflexivity|].
  etrans; [apply safe_retire | apply IH].
Qed.

Lemma safe_drop_payload a e a' : drop_payload a e = Ret a' -> safe a a'.
Proof.
  unfold drop_payload. repeat case_match; intros HE; try (injection HE as <-; reflexivity).
  apply bind_Ret_inv in HE as ([n a1] & Hs & HE). apply safe_spawn_kind in Hs.
  etrans; [exact Hs|]. case_match; injection HE as <-; [|reflexivity].
  eapply safe_touches; [apply touches_modify | unfold core_kinds; set_solver | set_solver].
Qed.

Lemma safe_track_target a e : safe a (track_target a e).
Proof.
  unfold track_target. case_match; [|reflexivity]. apply safe_keeps. intros Hwf. split.
  - intros x k Hx _. apply spawn_bundle_get_ne. by eapply wf_right_alive.
  - apply spawn_bundle_res.
Qed.

Lemma safe_terminate acc e acc' : terminate acc e = Ret acc' -> safe acc.1 acc'.1.
Proof.
  destruct acc as [a q]. unfold terminate. case_match; intros HE; [|by injection HE as <-].
  apply bind_Ret_inv in HE as (a1 & Hd & HE). injection HE as <-. cbn [fst].
  etrans; [by eapply safe_drop_payload|]. etrans; [apply safe_track_target | apply safe_despawn].
Qed.

Lemma safe_despawn_beam acc e : safe acc.1 (despawn_beam acc e).1.
Proof.
  destruct acc as [a q]. unfold despawn_beam. destruct (bi_right (ad_bimap a) e) eqn:En.
  - apply safe_despawn.
  - case_match; [|reflexivity]. cbn [fst]. apply safe_keeps. intros Hwf.
    split; [|apply despawn_res]. intros x k [n Hn] _. apply despawn_get. congruence.
Qed.

Lemma safe_flush a q : safe a (flush_events a q).
Proof.
  unfold flush_events. case_match; [reflexivity|].
  eapply safe_touches; [apply touches_modify_res | unfold core_kinds; set_solver | set_solver].
Qed.

Lemma safe_take_requests a : safe a (take_beam_requests a).2.
Proof.
  unfold take_beam_requests. case_match; [|reflexivity]. cbn [snd].
  eapply safe_touches; [apply touches_put_res | unfold core_kinds; set_solver | set_solver].
Qed.

Lemma safe_spawn_beam a s a' : spawn_beam a s = Ret a' -> safe a a'.
Proof.
  unfold spawn_beam. intros HE. apply bind_Ret_inv in HE as ([n a1] & Hs & HE).
  apply safe_spawn_kind in Hs. etrans; [exact Hs|]. case_match; injection HE as <-; [|reflexivity].
  eapply (safe_touches _ [CBeamMarker; CVelocity] []);
    [touching | unfold core_kinds; set_solver | set_solver].
Qed.

Lemma safe_reinit_target a p a' : reinit_target a p = Ret a' -> safe a a'.
Proof.
  unfold reinit_target. intros HE. apply bind_Ret_inv in HE as ([n a1] & Hs & HE).
  injection HE as <-. by eapply safe_spawn_kind.
Qed.

Lemma safe_respawn_resource a r a' : respawn_resource a r = Ret a' -> safe a a'.
Proof.
  destruct r as [[x y] c]. unfold respawn_resource. intros HE.
  apply bind_Ret_inv in HE as ([n a1] & Hs & HE). apply safe_spawn_kind in Hs.
  etrans; [exact Hs|]. case_match; injection HE as <-; [|reflexivity].
  eapply safe_touches; [apply touches_modify | unfold core_kinds; set_solver | set_solver].
Qed.

(** *** The stages *)
Lemma safe_motion fuel a a' : simulate_motion fuel a = Ret a' -> safe a a'.
Proof.
  unfold simulate_motion. intros HE. apply bind_Ret_inv in HE as (w & Hw & HE). injection HE as <-.
  apply (safe_touches _ [CVelocity; CTransform; CExtractionBeam] []);
    [|unfold core_kinds; set_solver | set_solver].
  etrans; [eapply touches_mono; [| |by eapply apply_physics_touches]; set_solver|].
  etrans; [eapply touches_mono; [| |apply enforce_bounds_touches]; set_solver|].
  eapply touches_mono; [| |apply apply_toggles_touches]; set_solver.
Qed.

Lemma safe_systems a a' : simulate_systems a = Ret a' -> safe a a'.
Proof.
  unfold simulate_systems. intros HE.
  apply bind_Ret_inv in HE as ([w1 ex] & H1 & HE).
  assert (S1 : safe a (set_world a w1)).
  { apply safe_keeps. intros H. by eapply process_extraction_keeps. }
  pose proof (safe_retire_all ResourceExhausted ex (set_world a w1, [])) as S2.
  destruct (foldl (retire ResourceExhausted) (set_world a w1, []) ex) as [a2 q2]. cbn [fst] in S2.
  apply bind_Ret_inv in HE as ([w3 l3] & H3 & HE). apply process_interaction_touches in H3.
  apply bind_Ret_inv in HE as ([w4 l4] & H4 & HE). apply process_payload_collection_touches in H4.
  assert (S4 : safe a2 (set_world a2 w4)).
  { apply (safe_touches _ [CTool; CDataStore; CDataDropComponent] [RBeamSpawnRequests; RReliableEvents]);
      [|unfold core_kinds; set_solver | set_solver].
    etrans; (eapply touches_mono; [| |eassumption]; set_solver). }
  pose proof (safe_retire_all (fun n => PayloadCollected n 0) l4 (set_world a2 w4, q2)) as S5.
  destruct (foldl _ (set_world a2 w4, q2) l4) as [a5 q5]. cbn [fst] in S5.
  pose proof (process_beams_touches (ad_world a5) (ad_bimap a5)) as T6.
  destruct (process_beams (ad_world a5) (ad_bimap a5)) as [[w6 ds] ts]. cbn [fst] in T6.
  assert (S6 : safe a5 (set_world a5 w6)).
  { eapply safe_touches; [exact T6 | unfold core_kinds, pool_kinds; set_solver | set_solver]. }
  apply bind_Ret_inv in HE as ([a7 q7] & H7 & HE).
  assert (S7 : safe (set_world a5 w6) a7).
  { apply (for_each_pres (fun s => safe (set_world a5 w6) s.1) _ _ _ _ H7); [reflexivity|].
    intros s e s' _ Hs Ht. etrans; [exact Hs | by eapply safe_terminate]. }
  assert (S8 : safe a7 (foldl despawn_beam (a7, q7) ds).1).
  { apply (foldl_inv (fun s => safe a7 s.1)); [reflexivity|].
    intros s e _ Hs. etrans; [exact Hs | apply safe_despawn_beam]. }
  destruct (foldl despawn_beam (a7, q7) ds) as [a8 q8]. injection HE as <-. cbn [fst] in S8.
  etrans; [exact S1|]. etrans; [exact S2|]. etrans; [exact S4|]. etrans; [exact S5|].
  etrans; [exact S6|]. etrans; [exact S7|]. etrans; [exact S8|]. apply safe_flush.
Qed.

Lemma safe_spawns a a' : simulate_spawns a = Ret a' -> safe a a'.
Proof.
  unfold simulate_spawns. intros HE. pose proof (safe_take_requests a) as S1.
  destruct (take_beam_requests a) as [spawns a1]. cbn [snd] in S1.
  apply bind_Ret_inv in HE as (a2 & H2 & HE).
  assert (S2 : safe a1 a2)
    by (apply (for_each_rel safe _ _ _ _ H2); intros; by eapply safe_spawn_beam).
  set (a3 := set_world a2 (process_regen (ad_world a2))) in HE.
  assert (S3 : safe a2 a3).
  { eapply safe_touches; [apply process_regen_touches | unfold core_kinds; set_solver | set_solver]. }
  assert (S4 : safe a3 (set_world a3 (process_target_reinitialization (ad_world a3)).1))
    by (apply safe_keeps, process_reinit_keeps).
  destruct (process_target_reinitialization (ad_world a3)) as [w4 l4]. cbn [fst] in S4.
  apply bind_Ret_inv in HE as (a5 & H5 & HE).
  assert (S5 : safe (set_world a3 w4) a5)
    by (apply (for_each_rel safe _ _ _ _ H5); intros; by eapply safe_reinit_target).
  assert (S6 : safe a5 (set_world a5 (process_respawn (ad_world a5)).1))
    by (apply safe_keeps, process_respawn_keeps).
  destruct (process_respawn (ad_world a5)) as [w6 l6]. cbn [fst] in S6.
  assert (S7 : safe (set_world a5 w6) a')
    by (apply (for_each_rel safe _ _ _ _ HE); intros; by eapply safe_respawn_resource).
  etrans; [exact S1|]. etrans; [exact S2|]. etrans; [exact S3|]. etrans; [exact S4|].
  etrans; [exact S5|]. etrans; [exact S6|]. exact S7.
Qed.

(** A hook that leaves the adapter's components and index alone. *)
Definition hook_ok a : Prop :=
  forall hook b w, ad_post_simulate_hook a = Some hook -> keeps b w (hook w).

Lemma safe_simulate fuel a a' : hook_ok a -> simulate fuel a = Ret a' -> safe a a'.
Proof.
  intros Hh. unfold simulate. intros HE H.
  apply bind_Ret_inv in HE as (a1 & H1%safe_motion & HE).
  apply bind_Ret_inv in HE as (a2 & H2%safe_systems & HE).
  apply bind_Ret_inv in HE as (a3 & H3%safe_spawns & HE). injection HE as <-.
  assert (S3 : safe a a3) by (etrans; [exact H1|]; etrans; [exact H2 | exact H3]).
  destruct (S3 H) as [W3 C3]. split; [|exact C3]. apply wf_keeps; [exact W3|].
  transitivity (clamp_z (ad_world a3)).
  - eapply touches_keeps; [apply clamp_z_touches | unfold core_kinds; set_solver | set_solver].
  - destruct (ad_post_simulate_hook a3) as [hook|] eqn:Eh; [|reflexivity].
    apply Hh. unfold config in C3. congruence.
Qed.
End simulate_lemmas.

(** ** The operations of the adapter as a step relation *)
Section steps.
Context {W : Type} `{!EcsWorld W} {B : Type} `{!BiMap B} {A : Type} `{!Allocator A}.
Context {PC : ProtocolConsts} {LM : Libm} {RR : RandomRange}.
Abbreviation adapter := (Adapter W B A).

Inductive step (a : adapter) : adapter -> Prop :=
| step_spawn_networked n a' : spawn_networked a = Ret (n, a') -> step a a'
| step_spawn_networked_for c n a' : spawn_networked_for a c = Ret (n, a') -> step a a'
| step_spawn_kind kind x y rot n a' : spawn_kind a kind x y rot = Ret (n, a') -> step a a'
| step_spawn_kind_for kind x y rot c n a' : spawn_kind_for a kind x y rot c = Ret (n, a') -> step a a'
| step_spawn_session_agent kind x y rot c n a' :
    spawn_session_agent a kind x y rot c = Ret (n, a') -> step a a'
| step_despawn n : step a (despawn_networked a n).2
| step_apply_updates us : step a (apply_updates a us)
| step_advance_tick : step a (advance_tick a)
| step_simulate fuel a' : simulate fuel a = Ret a' -> step a a'
| step_extract_deltas : step a (extract_deltas a).2
| step_extract_reliable_events : step a (extract_reliable_events a).2
| step_post_extract : step a (post_extract a)
| step_queue_reliable_event c ev : step a (queue_reliable_event a c ev)
| step_stress_test n rotate a' : stress_test a n rotate = Ret a' -> step a a'
| step_clear_world : step a (clear_world a).
End steps.

Section step_lemmas.
Context {W : Type} `{!EcsWorld W, !EcsLaws W} {B : Type} `{!BiMap B, !BiMapLaws B}.
Context {A : Type} `{!Allocator A} {issued : A -> NetworkId -> Prop}.
Context `{!AllocatorLaws A issued} {PC : ProtocolConsts} {LM : Libm} {RR : RandomRange}.
Abbreviation adapter := (Adapter W B A).
Abbreviation wf := (wf issued).
Implicit Types (a : adapter) (w : W).

(** What is true of every adapter the server works with. *)
Definition adapter_ok a : Prop := wf a /\ reps_ok a /\ hook_ok a.

Lemma ok_safe a a' : adapter_ok a -> safe (issued := issued) a a' -> adapter_ok a'.
Proof.
  intros (H & Hr & Hh) Hs. destruct (Hs H) as [H' C]. unfold config in C. injection C as C1 C2 _.
  split; [done|]. unfold reps_ok, hook_ok. by rewrite C1, C2.
Qed.

Lemma safe_spawn_networked a n a' :
  spawn_networked a = Ret (n, a') -> safe (issued := issued) a a'.
Proof.
  intros HE H. split; [by eapply wf_spawn_networked | by eapply spawn_networked_config].
Qed.

Lemma safe_spawn_networked_for a c n a' :
  spawn_networked_for a c = Ret (n, a') -> safe (issued := issued) a a'.
Proof.
  unfold spawn_networked_for. intros HE. apply bind_Ret_inv in HE as ([i a1] & H1 & HE).
  apply bind_Ret_inv in HE as (e & He & HE). apply bind_Ret_inv in HE as ([] & _ & HE).
  injection HE as <- <-. destruct (bi_left (ad_bimap a1) i) as [x|] eqn:Ex; [|done].
  injection He as ->. etrans; [by eapply safe_spawn_networked|]. intros H. split; [|done].
  set (a2 := set_owners (set_world a1 (w_put (ad_world a1) e CNetworkOwner c))
               (<[i := c]> (ad_owners a1))).
  assert (H2 : wf a2) by by apply wf_put_owner.
  eapply (wf_keeps a2); [exact H2|].
  eapply (touches_keeps _ [CTransform; CVelocity] []); [|unfold core_kinds; set_solver | set_solver].
  cbn. touching.
Qed.

Lemma safe_spawn_kind_for a kind x y rot c n a' :
  spawn_kind_for a kind x y rot c = Ret (n, a') -> safe (issued := issued) a a'.
Proof.
  intros HE H. split; [by eapply wf_spawn_kind_for|]. unfold spawn_kind_for in HE.
  apply bind_Ret_inv in HE as ([i a1] & H1 & HE). apply spawn_kind_fuel_config in H1.
  case_match; [|by injection HE as <- <-]. apply bind_Ret_inv in HE as ([] & _ & HE).
  by injection HE as <- <-.
Qed.

Lemma safe_spawn_session_agent a kind x y rot c n a' :
  spawn_session_agent a kind x y rot c = Ret (n, a') -> safe (issued := issued) a a'.
Proof.
  intros HE H. split; [by eapply wf_spawn_session_agent|]. unfold spawn_session_agent in HE.
  apply bind_Ret_inv in HE as ([i a1] & H1 & HE).
  destruct (safe_spawn_kind_for _ _ _ _ _ _ _ _ H1 H) as [_ C1].
  case_match; [|by injection HE as <- <-]. apply bind_Ret_inv in HE as ([] & _ & HE).
  apply bind_Ret_inv in HE as (ws & _ & HE). by injection HE as <- <-.
Qed.

Lemma safe_stress_step rotate a i a' :
  stress_step rotate a i = Ret a' -> safe (issued := issued) a a'.
Proof.
  unfold stress_step. intros HE.
  destruct (random_range (ad_rng a) _ _) as [x r1], (random_range r1 _ _) as [y r2].
  destruct (if rotate then _ else _) as [rot r3].
  apply bind_Ret_inv in HE as (kind & _ & HE). apply bind_Ret_inv in HE as ([n a1] & H1 & HE).
  injection HE as <-. transitivity (set_rng a r3); [|by eapply safe_spawn_kind].
  intros H. split; [|done]. split; apply H.
Qed.

Lemma safe_clear_world a : safe (issued := issued) a (clear_world a).
Proof.
  intros H. split.
  - apply wf_empty.
    + by apply (clear_world_bimap (issued := issued)).
    + apply map_eq. intros n. rewrite lookup_empty.
      destruct (ad_owners (clear_world a) !! n) as [c|] eqn:E; [|done]. exfalso.
      destruct (clear_ids_spec (bi_iter (ad_bimap a)).*1 a H) as (Hw & _).
      destruct (wf_owner _ _ Hw n c E) as (e & He & _).
      change (ad_bimap (clear_ids a (bi_iter (ad_bimap a)).*1)) with (ad_bimap (clear_world a)) in He.
      by rewrite (clear_world_bimap (issued := issued)) in He.
    + intros i. rewrite clear_world_eq. cbn [set_last_extraction_tick set_world ad_world].
      rewrite modify_res_eq. by intros (j & _ & ->)%fmap_Some.
  - rewrite clear_world_eq. unfold clear_ids.
    apply (foldl_inv (fun x => config x = config a)); [done|].
    intros a1 n _ C1. rewrite <- C1. unfold despawn_networked. repeat case_match; done.
Qed.

Lemma btree_insert_Forall {V} (P : ComponentKind * V -> Prop) k v l :
  P (k, v) -> Forall P l -> Forall P (btree_insert k v l).
Proof.
  intros Hv. induction 1 as [|[k' v'] l Hk Hl IH]; cbn; [by repeat constructor|].
  repeat case_match; repeat constructor; done.
Qed.

Lemma register_ok a r : adapter_ok a -> rep_local r -> adapter_ok (register_replicator a r).
Proof.
  intros (H & Hr & Hh) Hl. split; [split; apply H|]. split; [|done].
  unfold reps_ok. cbn. by apply btree_insert_Forall.
Qed.

Lemma new_ok (w : W) rate a : new w rate = Ret a -> adapter_ok a.
Proof.
  intros HE. split; [by eapply wf_new|]. unfold new in HE.
  apply bind_Ret_inv in HE as ([] & _ & [= <-]). split; [constructor|]. intros hook b w' [=].
Qed.

(** *** Toggles *)
Lemma toggle_step_ne w e e' k : e <> e' -> w_get (toggle_step w e) e' k = w_get w e' k.
Proof. intros. unfold toggle_step. repeat case_match; try done. apply put_get_ne. by left. Qed.

Lemma toggle_step_local w w' e :
  (forall k, w_get w e k = w_get w' e k) ->
  forall k, w_get (toggle_step w e) e k = w_get (toggle_step w' e) e k.
Proof.
  intros H k. unfold toggle_step. rewrite !H.
  destruct (w_get w' e CLatestInput) as [li|]; [|apply H].
  destruct (w_get w' e CExtractionBeam) as [b|] eqn:Eb; [|apply H].
  assert (Ha' := get_alive _ _ _ _ Eb). rewrite <- H in Eb. assert (Ha := get_alive _ _ _ _ Eb).
  case_match; [apply H|]. destruct (decide (k = CExtractionBeam)) as [->|].
  - by rewrite !put_get_eq by done.
  - rewrite !put_get_ne by naive_solver. apply H.
Qed.

(** The beam of an agent with an input, after [apply_toggles]. *)
Definition toggled (li : LatestInput) (b : ExtractionBeam) : ExtractionBeam :=
  if bool_decide (eb_last_seen_input_tick b = Some (ic_tick (li_command li))) then b
  else mark_seen (toggle_action b (ic_actions (li_command li))) (ic_tick (li_command li)).

Lemma toggled_idem li b : toggled li (toggled li b) = toggled li b.
Proof.
  unfold toggled at 2 3. case_bool_decide as E.
  - unfold toggled. by rewrite bool_decide_eq_true_2.
  - unfold toggled. by rewrite bool_decide_eq_true_2.
Qed.

Lemma apply_toggles_get w e li b :
  w_get w e CLatestInput = Some li -> w_get w e CExtractionBeam = Some b ->
  w_get (apply_toggles w) e CExtractionBeam = Some (toggled li b) /\
  w_get (apply_toggles w) e CLatestInput = Some li.
Proof.
  intros Hli Hb. assert (Ha := get_alive _ _ _ _ Hb). unfold apply_toggles.
  assert (Hq : e ∈ w_query w [CLatestInput; CExtractionBeam]).
  { apply query_spec. split; [done|]. intros k Hk.
    repeat (apply elem_of_cons in Hk as [->|Hk]; [by eexists|]). by apply not_elem_of_nil in Hk. }
  rewrite !(foldl_local toggle_step _ _ e);
    try (done || apply query_NoDup || (intros; by apply toggle_step_ne) ||
         (intros w1 w2; apply toggle_step_local)).
  unfold toggle_step, toggled. rewrite Hli, Hb. case_bool_decide; [done|].
  rewrite put_get_eq by done. by rewrite put_get_ne by (by right).
Qed.

(** *** Height *)
Lemma clamp_step_ne w e e' k : e <> e' -> w_get (clamp_step w e) e' k = w_get w e' k.
Proof. intros. unfold clamp_step. repeat case_match; rewrite ?put_get_ne by (by left); done. Qed.

Lemma clamp_step_get w e t v :
  w_get w e CTransform = Some t -> w_get w e CVelocity = Some v ->
  w_get (clamp_step w e) e CTransform =
    Some (if (f_abs (t_z t) >? EPSILON)%f
          then mkTransform (t_x t) (t_y t) f0 (t_rotation t) (t_entity_type t) else t) /\
  w_get (clamp_step w e) e CVelocity =
    Some (if (f_abs (v_dz v) >? EPSILON)%f then mkVelocity (v_dx v) (v_dy v) f0 else v).
Proof.
  intros Ht Hv. assert (Ha := get_alive _ _ _ _ Ht). unfold clamp_step. rewrite Ht, Hv.
  destruct (f_gt (f_abs (t_z t)) EPSILON), (f_gt (f_abs (v_dz v)) EPSILON);
    rewrite ?put_get_eq by (by rewrite ?put_alive); rewrite ?put_get_ne by (by right);
    rewrite ?put_get_eq by (by rewrite ?put_alive); done.
Qed.

(** Once [w_get] agrees on an entity, so does a loop of local steps. *)
Lemma clamp_z_get w e t v :
  w_get w e CTransform = Some t -> w_get w e CVelocity = Some v ->
  w_get (clamp_z w) e CTransform = w_get (clamp_step w e) e CTransform /\
  w_get (clamp_z w) e CVelocity = w_get (clamp_step w e) e CVelocity.
Proof.
  intros Ht Hv. unfold clamp_z.
  assert (Hq : e ∈ w_query w [CTransform; CVelocity]).
  { apply query_spec. split; [exact (get_alive _ _ _ _ Ht)|]. intros k Hk.
    repeat (apply elem_of_cons in Hk as [->|Hk]; [by eexists|]). by apply not_elem_of_nil in Hk. }
  pose proof (query_NoDup w [CTransform; CVelocity]) as Hnd. revert w Hq Hnd Ht Hv.
  intros w. generalize (w_query w [CTransform; CVelocity]). intros l. revert w.
  induction l as [|x l IH]; intros w Hq Hnd Ht Hv; [set_solver|]. cbn [foldl].
  apply NoDup_cons in Hnd as [Hni Hnd]. apply elem_of_cons in Hq as [->|Hq].
  - rewrite !foldl_local_ne; auto using clamp_step_ne.
  - assert (x <> e) by set_solver.
    destruct (IH (clamp_step w x)) as [-> ->];
      [done | done | by rewrite clamp_step_ne | by rewrite clamp_step_ne |].
    destruct (clamp_step_get w e t v Ht Hv) as [-> ->].
    apply clamp_step_get; by rewrite clamp_step_ne.
Qed.

(** Clamping adds no component. *)
Lemma clamp_z_some w e k : is_Some (w_get (clamp_z w) e k) -> is_Some (w_get w e k).
Proof.
  unfold clamp_z. apply (foldl_inv (fun w' => is_Some (w_get w' e k) -> is_Some (w_get w e k))); [done|].
  intros w' x _ IH Hs. apply IH. destruct (decide (x = e)) as [->|]; [|by rewrite clamp_step_ne in Hs].
  revert Hs. unfold clamp_step. destruct (w_get w' e CTransform) as [t|] eqn:Et; [|done].
  destruct (w_get w' e CVelocity) as [v|] eqn:Ev; [|done].
  destruct (decide (k = CTransform)) as [->|]; [by rewrite Et|].
  destruct (decide (k = CVelocity)) as [->|]; [by rewrite Ev|].
  repeat case_match; rewrite ?put_get_ne by naive_solver; done.
Qed.

(** *** Rotation *)
Lemma wrap_down_infinite fuel : wrap_down fuel (S754_infinity false) = Diverge.
Proof. induction fuel as [|fuel IH]; [done | exact IH]. Qed.

Definition is_finite (x : f32) : bool :=
  match x with S754_zero _ | S754_finite _ _ _ => true | _ => false end.

Lemma sub_minus_infinity x : is_finite x = true -> f_sub x (S754_infinity true) = S754_infinity false.
Proof. by destruct x. Qed.

Definition speed_sq (v : Velocity) : f32 := (v_dx v * v_dx v + v_dy v * v_dy v)%f.

Lemma turn_infinite fuel dt rate v :
  f_gt (speed_sq v) (f_lit 1 100) = true -> is_finite (f_atan2 (v_dy v) (v_dx v)) = true ->
  turn fuel dt rate v (S754_infinity true) = Diverge.
Proof.
  intros Hs Hf. unfold turn. fold (speed_sq v). rewrite Hs, sub_minus_infinity by done.
  by rewrite wrap_down_infinite.
Qed.

Lemma wrap_no_panic fuel d : wrap_down fuel d <> Panic /\ wrap_up fuel d <> Panic.
Proof.
  split; revert d; induction fuel as [|fuel IH]; intros d; cbn; try done; by case_match.
Qed.

Lemma turn_no_panic fuel dt rate v r : turn fuel dt rate v r <> Panic.
Proof.
  unfold turn. case_match; [|done].
  destruct (wrap_no_panic fuel (f_atan2 (v_dy v) (v_dx v) - r)%f) as [Hd _].
  destruct (wrap_down _ _) as [d| |]; [|done..]. change (Ret ?x ≫= ?f) with (f x). cbv beta.
  destruct (wrap_no_panic fuel d) as [_ Hu]. destruct (wrap_up fuel d); [|done..].
  change (Ret ?x ≫= ?f) with (f x). cbv beta. by case_match.
Qed.

Lemma physics_step_no_panic fuel dt w e : physics_step fuel dt w e <> Panic.
Proof.
  unfold physics_step. repeat case_match; try done. unfold integrate.
  pose proof (turn_no_panic fuel dt (pb_turn_rate c1)
    (accelerate dt c1 (w_get w e CLatestInput) (w_get w e CDataStore) c) (t_rotation c0)) as Ht.
  destruct (turn _ _ _ _ _); done.
Qed.

Lemma physics_step_ne fuel dt w e w' e' k :
  physics_step fuel dt w e = Ret w' -> e <> e' -> w_get w' e' k = w_get w e' k.
Proof.
  unfold physics_step. intros HE Hne. repeat case_match; try (by injection HE as <-).
  apply bind_Ret_inv in HE as ([v t] & _ & HE). injection HE as <-.
  by rewrite !put_get_ne by (by left).
Qed.

(** An entity whose own step does not return hangs the whole loop. *)
Lemma physics_loop_hangs fuel dt w l e :
  e ∈ l -> NoDup l ->
  (forall w', (forall k, w_get w' e k = w_get w e k) -> physics_step fuel dt w' e = Diverge) ->
  for_each (physics_step fuel dt) w l = Diverge.
Proof.
  intros He Hnd Hd. assert (Hw : forall k, w_get w e k = w_get w e k) by done. revert Hw.
  generalize w at 1 3. induction l as [|x l IH]; intros w' Hw; [set_solver|].
  apply NoDup_cons in Hnd as [Hni Hnd]. rewrite for_each_cons.
  destruct (decide (x = e)) as [->|Hne]; [by rewrite Hd|].
  pose proof (physics_step_no_panic fuel dt w' x) as Hnp.
  destruct (physics_step fuel dt w' x) as [w1| |] eqn:E; [|done|done].
  change (Ret ?x ≫= ?f) with (f x). cbv beta. apply IH; [set_solver | done |].
  intros k. by rewrite (physics_step_ne _ _ _ _ _ _ _ E Hne).
Qed.

Lemma safe_apply_updates a us : reps_ok a -> safe (issued := issued) a (apply_updates a us).
Proof.
  intros Hr H. destruct (apply_updates_spec a us H Hr) as (H' & _ & _ & _ & Hreps).
  split; [done|]. unfold config. rewrite apply_updates_hook, apply_updates_rate, Hreps. do 2 f_equal.
  apply (foldl_inv (fun a' => reps_ok a' /\ ad_replicators a' = ad_replicators a)); [done|].
  intros a' cu _ [Hr' Hreps']. destruct (apply_update_ref_owner a' cu (mkEntity 0) Hr') as (_ & Hx & _).
  unfold reps_ok. by rewrite Hx, Hreps'.
Qed.

(** Every operation keeps the invariant and the configuration. *)
Lemma step_safe a a' : adapter_ok a -> step a a' -> safe (issued := issued) a a'.
Proof.
  intros (_ & Hr & Hh) Hs. destruct Hs.
  - by eapply safe_spawn_networked.
  - by eapply safe_spawn_networked_for.
  - by eapply safe_spawn_kind.
  - by eapply safe_spawn_kind_for.
  - by eapply safe_spawn_session_agent.
  - by eapply safe_despawn.
  - by apply safe_apply_updates.
  - apply safe_keeps. intros _. split.
    + intros e k _ _. by rewrite modify_res_get, increment_get.
    + rewrite (tc_res _ _ _ _ (touches_modify_res _ _ _)) by set_solver. apply increment_res.
  - by eapply safe_simulate.
  - intros H. split; [|done]. split; apply H.
  - unfold extract_reliable_events. case_match; [|reflexivity]. cbn [snd].
    eapply safe_touches; [apply touches_put_res | unfold core_kinds; set_solver | set_solver].
  - apply safe_keeps. intros _. split.
    + intros e k _ _. apply clear_get.
    + apply clear_res.
  - eapply safe_touches; [apply touches_modify_res | unfold core_kinds; set_solver | set_solver].
  - apply (for_each_rel (safe (issued := issued)) _ _ _ _ H).
    intros. by eapply safe_stress_step.
  - apply safe_clear_world.
Qed.

Lemma step_ok a a' : adapter_ok a -> step a a' -> adapter_ok a'.
Proof. intros Hok Hs. by eapply ok_safe, step_safe. Qed.

(** Over any run the replicators stay the registered ones. *)
Lemma steps_config a a' : adapter_ok a -> rtc step a a' -> adapter_ok a' /\ config a' = config a.
Proof.
  intros Hok Hr. induction Hr as [|a1 a2 a3 Hs _ IH]; [done|].
  destruct (step_safe _ _ Hok Hs (proj1 Hok)) as [_ Hc].
  destruct IH as [H3 Hc3]; [by eapply step_ok|]. split; [done | congruence].
Qed.

Lemma reachable_ok (w : W) rate a0 reps a :
  new w rate = Ret a0 -> Forall rep_local reps ->
  rtc step (foldl register_replicator a0 reps) a -> adapter_ok a.
Proof.
  intros Hnew%new_ok Hreps Hrtc.
  assert (H0 : adapter_ok (foldl register_replicator a0 reps)).
  { apply foldl_inv; [done|]. intros a1 r Hr H1. rewrite Forall_forall in Hreps.
    apply register_ok; auto. }
  clear Hnew Hreps. induction Hrtc as [|a1 a2 a3 Hs _ IH]; [done|]. apply IH. by eapply step_ok.
Qed.

End step_lemmas.

(** ** Properties *)
Section simulate_properties.
Context {W : Type} `{!EcsWorld W, !EcsLaws W} {B : Type} `{!BiMap B, !BiMapLaws B}.
Context {A : Type} `{!Allocator A} {issued : A -> NetworkId -> Prop}.
Context `{!AllocatorLaws A issued} {Wi : Wire} {PC : ProtocolConsts} {LM : Libm} {RR : RandomRange}.
Abbreviation adapter := (Adapter W B A).
Implicit Types (a : adapter) (w : W).

(** C1 (invariant): Whatever sequence of operations is run on a freshly made adapter with
    local replicators (all those of the platform are), its tables stay right: every id in use
    names a live entity that carries that id and was handed out by the allocator, the owner cache
    agrees with the world, the workspace index names only entities in use, and no respawn tracker
    has an id. *)
Theorem adapter_invariant (w : W) rate a0 reps a :
  new w rate = Ret a0 -> Forall rep_local reps ->
  rtc step (foldl register_replicator a0 reps) a -> wf issued a.
Proof. intros Hn Hr Hs. apply (reachable_ok w rate a0 reps a Hn Hr Hs). Qed.

(** A command that is still the latest one in the next tick does not toggle
    the beam again; a new command with a toggle switches the beam and aims it at the target. *)
Theorem toggle_acts_once w e li b :
  w_get w e CLatestInput = Some li -> w_get w e CExtractionBeam = Some b ->
  w_get (apply_toggles (apply_toggles w)) e CExtractionBeam =
    w_get (apply_toggles w) e CExtractionBeam /\
  (forall target rest, eb_last_seen_input_tick b <> Some (ic_tick (li_command li)) ->
     ic_actions (li_command li) = ToggleExtraction target :: rest ->
     w_get (apply_toggles w) e CExtractionBeam =
       Some (mkExtractionBeam (negb (eb_active b)) (Some target) (eb_extraction_range b)
               (eb_base_extraction_rate b) (Some (ic_tick (li_command li))))).
Proof.
  intros Hli Hb. destruct (apply_toggles_get w e li b Hli Hb) as [H1 H2]. split.
  - destruct (apply_toggles_get _ e li _ H2 H1) as [-> _]. rewrite H1.
    by rewrite toggled_idem.
  - intros target rest Hne Hacts. rewrite H1. unfold toggled.
    by rewrite bool_decide_eq_false_2, Hacts.
Qed.

(** After a simulation step without a hook no moving entity has a height or a
    vertical speed above the float epsilon. *)
Theorem simulate_is_flat fuel a a' e t v :
  ad_post_simulate_hook a = None -> wf issued a -> simulate fuel a = Ret a' ->
  w_get (ad_world a') e CTransform = Some t -> w_get (ad_world a') e CVelocity = Some v ->
  f_gt (f_abs (t_z t)) EPSILON = false /\ f_gt (f_abs (v_dz v)) EPSILON = false.
Proof.
  intros Hh H HE Ht Hv. unfold simulate in HE.
  apply bind_Ret_inv in HE as (a1 & H1%(safe_motion (issued := issued)) & HE).
  apply bind_Ret_inv in HE as (a2 & H2%(safe_systems (issued := issued)) & HE).
  apply bind_Ret_inv in HE as (a3 & H3%(safe_spawns (issued := issued)) & HE). injection HE as <-.
  assert (C3 : ad_post_simulate_hook a3 = None).
  { destruct (H1 H) as [W1 C1]. destruct (H2 W1) as [W2 C2]. destruct (H3 W2) as [_ C3].
    unfold config in *. congruence. }
  cbn [set_world ad_world] in Ht, Hv. rewrite C3 in Ht, Hv.
  pose proof (clamp_z_touches (ad_world a3)) as Hcl.
  assert (Hs : is_Some (w_get (ad_world a3) e CTransform) /\ is_Some (w_get (ad_world a3) e CVelocity)).
  { split; apply clamp_z_some; by eexists. }
  destruct Hs as [[t0 Ht0] [v0 Hv0]].
  destruct (clamp_z_get _ e t0 v0 Ht0 Hv0) as [E1 E2].
  destruct (clamp_step_get _ e t0 v0 Ht0 Hv0) as [F1 F2].
  rewrite E1, F1 in Ht. rewrite E2, F2 in Hv. injection Ht as <-. injection Hv as <-.
  split.
  - destruct (f_gt (f_abs (t_z t0)) EPSILON) eqn:E; [reflexivity | exact E].
  - destruct (f_gt (f_abs (v_dz v0)) EPSILON) eqn:E; [reflexivity | exact E].
Qed.

(** C40 (error): an owner that sends a transform with rotation minus infinity for a moving agent
    (one with a velocity and a physics body whose squared speed after this tick's acceleration is
    above 0.01 and whose heading is finite) makes the next physics step run for ever: the loop that
    reduces the angle never reaches its exit, for any number of iterations. *)
Theorem infinite_rotation_hangs a n e c u v t p :
  wf issued a -> reps_ok a ->
  bi_left (ad_bimap a) n = Some e -> w_get (ad_world a) e CNetworkOwner = Some c ->
  btree_get (cu_component_kind u) (ad_replicators a) = Some (DefaultReplicator CTransform (cu_component_kind u)) ->
  cu_network_id u = n -> decode_component CTransform (cu_payload u) = Some t ->
  t_rotation t = S754_infinity true ->
  w_get (ad_world a) e CVelocity = Some v -> w_get (ad_world a) e CPhysicsBody = Some p ->
  let v' := accelerate (f1 / f_of_Z (ad_tick_rate a))%f p (w_get (ad_world a) e CLatestInput)
              (w_get (ad_world a) e CDataStore) v in
  f_gt (speed_sq v') (f_lit 1 100) = true -> is_finite (f_atan2 (v_dy v') (v_dx v')) = true ->
  forall fuel, simulate fuel (apply_updates a [(c, u)]) = Diverge.
Proof.
  intros H Hr Hn Ho Hrep Hu Hdec Hrot Hv Hp v' Hs Hf fuel.
  destruct (apply_updates_spec a [(c, u)] H Hr) as (_ & _ & Hw & Hb & _).
  assert (Ha := get_alive _ _ _ _ Hv).
  assert (Hw' : ad_world (apply_updates a [(c, u)]) = w_put (ad_world a) e CTransform t).
  { rewrite Hw. cbn [foldl apply_update_ref]. rewrite Hu, Hn, decide_True, Hrep by done. cbn.
    by apply default_apply_some. }
  unfold simulate, simulate_motion. rewrite apply_updates_rate.
  set (w1 := ad_world (apply_updates a [(c, u)])) in *.
  assert (Hg : forall k, k <> CTransform -> w_get w1 e k = w_get (ad_world a) e k)
    by (intros; rewrite Hw'; apply put_get_ne; by right).
  assert (Ht : w_get w1 e CTransform = Some t) by (rewrite Hw'; by apply (put_get_eq _ _ CTransform)).
  unfold apply_physics. rewrite (physics_loop_hangs _ _ _ _ e); [done | | apply query_NoDup |].
  - apply query_spec. split; [rewrite Hw'; by rewrite put_alive|]. intros k Hk.
    rewrite !elem_of_cons, elem_of_nil in Hk. destruct Hk as [->|[->|[->|[->|[]]]]].
    + rewrite Hg by done. eauto.
    + rewrite Ht. eauto.
    + rewrite Hg by done. eauto.
    + rewrite Hg by done. rewrite (wf_id _ _ H n e Hn). eauto.
  - intros w' Hw1. unfold physics_step. rewrite !Hw1, Ht, !Hg by done. rewrite Hv, Hp.
    unfold integrate. fold v'. by rewrite Hrot, turn_infinite.
Qed.
End simulate_properties.
