(* ===== verification/AdapterWitness.v ===== *)
(** * Witnesses for the adapter and the simulation

    A small world on the executable model: an adapter with the platform's replicators, a session
    agent of client 7, a training target and the resource of the master workspace.  Each lemma
    applies one theorem of [AdapterProps.v] or [Simulate.v] to it. *)

From stdpp Require Import gmap strings list sorting.
From Stdlib Require Import ZArith Lia SpecFloat.
From S2P Require Import Prelude F32 Protocol Components Ecs.
From S2P Require Import EcsModel Registry Extraction Interaction Adapter.
From S2P Require Import AdapterProps Simulate.

Open Scope Z_scope.

Module AdapterWitness.

#[local] Existing Instance sample_wire.
#[local] Existing Instance documented_consts.
#[local] Existing Instance sample_libm.

#[local] Instance sample_range : RandomRange := {| random_range r lo hi := (lo, r) |}.
#[local] Instance sample_hasher : StdHasher :=
  {| hash_finish l := sum_over (fun p => p.2) l |}.

Abbreviation ad := (Adapter mworld bilist Z).
Abbreviation issued := (fun (n : Z) (i : NetworkId) => nid_val i < n).

Definition a0 : ad :=
  get_ret (new_with_rng w_new 60 DeterministicRng_default) (new w_new 60).
Definition reps : list (ComponentReplicator mworld) :=
  cd_replicator <$> (canonical_descriptors ++ platform_descriptors ++ workspace_descriptors).
Abbreviation a1 := (foldl register_replicator a0 reps).

(** A session agent of client 7 and a training target. *)
Definition r2 : NetworkId * ad :=
  get_ret (mkNid 0, a1) (spawn_session_agent a1 1 f0 f0 f0 (mkCid 7)).
Definition a2 : ad := r2.2.
Definition r3 : NetworkId * ad := get_ret (mkNid 0, a2) (spawn_kind a2 10 (f_of_Z 20) f0 f0).
Definition a3 : ad := r3.2.
Definition agent : Entity := default (mkEntity 0) (bi_left (ad_bimap a3) r2.1).

Lemma spawn_agent : spawn_session_agent a1 1 f0 f0 f0 (mkCid 7) = Ret (r2.1, a2).
Proof.
  transitivity (Ret r2); [|unfold a2; by destruct r2].
  apply (get_ret_eq (mkNid 0, a1)). vm_compute. reflexivity.
Qed.

Lemma spawn_target : spawn_kind a2 10 (f_of_Z 20) f0 f0 = Ret (r3.1, a3).
Proof.
  transitivity (Ret r3); [|unfold a3; by destruct r3].
  apply (get_ret_eq (mkNid 0, a2)). vm_compute. reflexivity.
Qed.

Lemma a2_reachable : rtc step (foldl register_replicator a0 reps) a2.
Proof. exact (rtc_once _ _ (step_spawn_session_agent _ _ _ _ _ _ _ _ spawn_agent)). Qed.

Lemma a1_reachable : rtc step (foldl register_replicator a0 reps) a3.
Proof. exact (rtc_r _ _ _ a2_reachable (step_spawn_kind _ _ _ _ _ _ _ spawn_target)). Qed.

Lemma reps_local : Forall rep_local reps.
Proof. unfold reps. apply Forall_fmap. exact platform_rep_local. Qed.

Lemma a0_new : new w_new 60 = Ret a0.
Proof. exact (get_ret_eq _ (new w_new 60) eq_refl). Qed.

Lemma a3_ok : adapter_ok (issued := issued) a3.
Proof. exact (reachable_ok w_new 60 a0 reps a3 a0_new reps_local a1_reachable). Qed.

Lemma a2_ok : adapter_ok (issued := issued) a2.
Proof. exact (reachable_ok w_new 60 a0 reps a2 a0_new reps_local a2_reachable). Qed.

Lemma adapter_invariant_witness : wf issued a3.
Proof.
  exact (adapter_invariant w_new 60 a0 reps a3 a0_new reps_local a1_reachable).
Defined.

(** The replicators of the agent's world. *)
Lemma a3_reps : ad_replicators a3 = ad_replicators a1.
Proof.
  pose proof (proj1 (reachable_ok w_new 60 a0 reps a1 a0_new reps_local (rtc_refl _ _))) as H1.
  destruct (safe_spawn_session_agent (issued := issued) _ _ _ _ _ _ _ _ spawn_agent H1) as [H2 C2].
  destruct (safe_spawn_kind (issued := issued) _ _ _ _ _ _ _ spawn_target H2) as [_ C3].
  unfold config in *. congruence.
Qed.

Lemma a3_rep k kind i :
  reps !! i = Some (DefaultReplicator k kind) ->
  btree_get kind (ad_replicators a3) = Some (DefaultReplicator k kind).
Proof.
  intros Hr. rewrite a3_reps. apply (registered_get reps (DefaultReplicator k kind) a0).
  - apply (bool_decide_eq_true_1 _). vm_compute. reflexivity.
  - by eapply list_elem_of_lookup_2.
Qed.

(** Client 8 tries to rename the faction of client 7's agent. *)
Definition hijack : ClientId * ComponentUpdate :=
  (mkCid 8, mkComponentUpdate r2.1 (mkKind 7) [Byte.x03] 1).
Definition tag : ClientId * ComponentUpdate :=
  (mkCid 7, mkComponentUpdate r2.1 (mkKind 7) [Byte.x03] 1).

Lemma apply_updates_refines_witness :
  ad_world (apply_updates a3 [hijack; tag]) = ad_world (foldl apply_update_ref a3 [hijack; tag]).
Proof.
  destruct a3_ok as (H & Hr & _).
  exact (proj1 (apply_updates_refines (issued := issued) a3 [hijack; tag] H Hr)).
Defined.

Lemma apply_updates_no_hijack_witness :
  w_get (ad_world (apply_updates a3 [hijack])) agent CFactionTag = None.
Proof.
  destruct a3_ok as (H & Hr & _).
  rewrite (apply_updates_no_hijack (issued := issued) a3 [hijack] agent CFactionTag H Hr).
  - vm_compute. reflexivity.
  - constructor; [|constructor]. vm_compute. discriminate.
Defined.

Lemma despawn_networked_spec_witness :
  bi_left (ad_bimap (despawn_networked a3 r2.1).2) r2.1 = None.
Proof.
  pose proof (despawn_networked_spec (issued := issued) a3 r2.1 (proj1 a3_ok)) as H.
  assert (E : bi_left (ad_bimap a3) r2.1 = Some agent) by (vm_compute; reflexivity).
  rewrite E in H. destruct H as (a' & -> & H & _). exact H.
Defined.

Lemma spawn_kind_spec_witness : ~ nid_val r3.1 < ad_allocator a2.
Proof.
  apply (spawn_kind_spec (issued := issued) a2 10 (f_of_Z 20) f0 f0 r3.1 a3).
  - exact (proj1 a2_ok).
  - exact spawn_target.
Defined.

Lemma spawn_session_agent_spec_witness :
  exists n a' m, spawn_session_agent a3 1 f0 f0 f0 (mkCid 9) = Ret (n, a') /\
    get_client_workspace a' (mkCid 9) = Some m.
Proof.
  destruct (w_res (ad_world a3) RWorkspaceIndex) as [i|] eqn:Ei; [|vm_compute in Ei; discriminate].
  destruct (spawn_session_agent_spec (issued := issued) a3 1 f0 f0 f0 (mkCid 9) i (proj1 a3_ok) Ei)
    as (n & e & a' & m & H1 & _ & _ & _ & _ & _ & H2);
    [apply is_ret_not_panic; vm_compute; reflexivity|].
  exists n, a', m. exact (conj H1 H2).
Defined.

Lemma clear_world_spec_witness : bi_left (ad_bimap (clear_world a3)) r2.1 = None.
Proof.
  destruct (w_res (ad_world a3) RWorkspaceIndex) as [i|] eqn:Ei; [|vm_compute in Ei; discriminate].
  apply (clear_world_spec (issued := issued) a3 i (proj1 a3_ok) Ei).
Defined.

(** The tracker of a training target that was shot. *)
Definition a4 : ad := track_target a3 (default (mkEntity 0) (bi_left (ad_bimap a3) r3.1)).
Definition timer : Entity := mkEntity 5.

Lemma clear_world_keeps_timers_witness :
  w_get (ad_world (clear_world a4)) timer CRespawnTimer =
    Some (mkRespawnTimer 600 (Coordinate (f_of_Z 50) (f_of_Z 50))).
Proof.
  destruct (clear_world_keeps_timers (issued := issued) a4 timer) as [_ ->].
  - apply safe_track_target. apply a3_ok.
  - vm_compute. reflexivity.
  - vm_compute. reflexivity.
  - vm_compute. reflexivity.
Defined.

Lemma advance_tick_same (a : ad) :
  ad_bimap (advance_tick a) = ad_bimap a /\
  forall e k, w_get (ad_world (advance_tick a)) e k = w_get (ad_world a) e k.
Proof.
  split; [done|]. intros e k. unfold advance_tick. cbn [set_world ad_world].
  by rewrite modify_res_get, increment_get.
Qed.

Lemma state_hash_deterministic_witness : state_hash a3 = state_hash (advance_tick a3).
Proof.
  destruct (advance_tick_same a3) as [Hb Hg]. apply state_hash_deterministic.
  - intros n. rewrite Hb. tauto.
  - intros n e e' H1 H2. rewrite Hb in H2. assert (e' = e) as -> by congruence.
    exact (conj (eq_sym (Hg e CTransform)) (eq_sym (Hg e CAgentProperties))).
Defined.

(** The tag arrives, and is extracted. *)
Definition set_tag (a : ad) (e : Entity) : ad :=
  set_world a (w_put (ad_world a) e CFactionTag (mkFactionTag 3)).

Lemma set_tag_same (a : ad) e :
  ad_last_extraction_tick (set_tag a e) = ad_last_extraction_tick a /\
  ad_replicators (set_tag a e) = ad_replicators a /\ ad_bimap (set_tag a e) = ad_bimap a /\
  (w_alive (ad_world a) e = true ->
     tracked (ad_world a) (ad_world (set_tag a e)) /\
     w_get (ad_world (set_tag a e)) e CFactionTag = Some (mkFactionTag 3)).
Proof.
  split_and!; try done. intros He. split; [by apply tracked_put|].
  by apply (put_get_eq _ _ CFactionTag).
Qed.

Lemma next_tick_same (a : ad) :
  ad_replicators (next_tick a) = ad_replicators a /\ ad_bimap (next_tick a) = ad_bimap a.
Proof. done. Qed.

Definition tagged : ad := set_tag (next_tick a3) agent.

Lemma extract_complete_witness :
  mkReplicationEvent r2.1 (mkKind 7) [Byte.x03] (server_tick (ad_world tagged))
    ∈ (extract_deltas tagged).1.
Proof.
  destruct (set_tag_same (next_tick a3) agent) as (H1 & H2 & H3 & H4).
  destruct H4 as [H4 H5]; [vm_compute; reflexivity|].
  apply (extract_complete a3 tagged CFactionTag (mkKind 7) r2.1 agent (mkFactionTag 3) [Byte.x03]
           H4 H1).
  - unfold tagged. rewrite H2, (proj1 (next_tick_same a3)). apply btree_get_in.
    exact (a3_rep CFactionTag (mkKind 7) 6 eq_refl).
  - unfold tagged. rewrite H3. vm_compute. reflexivity.
  - exact H5.
  - vm_compute. discriminate.
  - reflexivity.
Defined.

(** No stamp of the small world is old. *)
Definition all_kinds : list ckind :=
  [CTransform; CVelocity; CAgentProperties; CAgentConfiguration; CAgentKind; CPlayerName;
   CFactionTag; CResourceIntegrity; CResourceYield; CDataDrop; CStation; CZoneGate;
   CBeamMarker; CDockedState; CExtractionBeam; CDataStore; CResource; CTool;
   CPriorityPool; CIntegrityPool; CDataDropComponent;
   CWorkspaceDefinition; CWorkspaceBounds; CWorkspaceMembership;
   CPhysicsBody; CResourceRespawn; CPriorityRegenTimer; CRespawnTimer; CLatestInput;
   CNetworkOwner; CSessionAgent; CTrainingTarget; CAiControlled; CNetworked].

Definition young (w : mworld) : bool :=
  forallb (fun p : Entity * entity_data =>
    forallb (fun k => match p.2 k with
                      | Some (_, c) => tick_age (mw_tick w) c <? 2 ^ 31 - 2
                      | None => true
                      end) all_kinds) (map_to_list (mw_entities w)).

Lemma young_ok w : young w = true ->
  forall e k c, w_changed w e k = Some c -> tick_age (w_change_tick w) c < 2 ^ 31 - 2.
Proof.
  unfold young. rewrite forallb_forall. intros H e k c Hc.
  change (snd <$> mw_data w e k = Some c) in Hc. change (tick_age (mw_tick w) c < 2 ^ 31 - 2).
  unfold mw_data in Hc.
  destruct (mw_entities w !! e) as [d|] eqn:Ed; [|done].
  apply elem_of_map_to_list, list_elem_of_In, H in Ed. cbn [snd] in Ed.
  pose proof (proj1 (forallb_forall _ _) Ed) as Ed'. clear Ed. rename Ed' into Ed.
  assert (Hk : In k all_kinds) by (destruct k; cbn; auto 40).
  specialize (Ed k Hk). cbn in Ed. destruct (d k) as [[v c']|]; [|done].
  injection Hc as ->. by apply Z.ltb_lt in Ed.
Qed.

Lemma extract_quiet_witness : (extract_deltas (next_tick a3)).1 = [].
Proof.
  apply extract_quiet.
  - rewrite a3_reps. apply (foldl_inv (fun a : ad => Forall (fun kr =>
      (exists k kind, kr.2 = DefaultReplicator k kind) \/ kr.2 = InputCommandReplicator)
      (ad_replicators a))); [constructor|].
    intros a r Hr Ha. apply btree_insert_Forall; [|exact Ha]. cbn [snd].
    assert (Hall : Forall (fun r => (exists k kind, r = DefaultReplicator k kind) \/
                                    r = InputCommandReplicator) reps).
    { unfold reps. apply Forall_fmap.
      repeat (apply Forall_cons; split; [first [by right | left; by do 2 eexists]|]). constructor. }
    rewrite Forall_forall in Hall. by apply Hall.
  - apply young_ok. vm_compute. reflexivity.
Defined.

(** An agent that has sent a toggle and a move. *)
Definition cmd : InputCommand := mkInputCommand 5 [ToggleExtraction (mkNid 2); Move f1 f0] 0 None.
Definition w5 : mworld := w_put (ad_world a3) agent CLatestInput (mkLatestInput cmd 5).

Lemma toggle_acts_once_witness :
  w_get (apply_toggles w5) agent CExtractionBeam =
    Some (mkExtractionBeam true (Some (mkNid 2)) (f_of_Z 15) 2 (Some 5)).
Proof.
  destruct (toggle_acts_once w5 agent (mkLatestInput cmd 5)
    (mkExtractionBeam false None (f_of_Z 15) 2 None)) as [_ H].
  - vm_compute. reflexivity.
  - vm_compute. reflexivity.
  - apply (H (mkNid 2) [Move f1 f0]); [discriminate | reflexivity].
Defined.

Definition a5 : ad := set_world a3 w5.

Lemma set_world_same (a : ad) w :
  (reps_ok a -> reps_ok (set_world a w)) /\ ad_replicators (set_world a w) = ad_replicators a.
Proof. done. Qed.

Lemma a5_ok : wf issued a5 /\ reps_ok a5.
Proof.
  destruct a3_ok as (H & Hr & _). split; [|exact (proj1 (set_world_same a3 w5) Hr)].
  apply wf_keeps; [exact H|].
  apply (touches_keeps _ [CLatestInput] []); [apply touches_put | unfold core_kinds; set_solver | set_solver].
Qed.

Definition a6 : ad := get_ret a5 (simulate 4 a5).

Lemma simulate_is_flat_witness :
  exists t, w_get (ad_world a6) agent CTransform = Some t /\ f_gt (f_abs (t_z t)) EPSILON = false.
Proof.
  destruct (w_get (ad_world a6) agent CTransform) as [t|] eqn:Et; [|vm_compute in Et; discriminate].
  destruct (w_get (ad_world a6) agent CVelocity) as [v|] eqn:Ev; [|vm_compute in Ev; discriminate].
  exists t. split; [reflexivity|].
  apply (simulate_is_flat (issued := issued) 4 a5 a6 agent t v).
  - vm_compute. reflexivity.
  - exact (proj1 a5_ok).
  - apply get_ret_eq. vm_compute. reflexivity.
  - exact Et.
  - exact Ev.
Defined.

(** The agent's owner sends a rotation of minus infinity. *)
Definition spin (n : NetworkId) : ComponentUpdate := mkComponentUpdate n (mkKind 1) [Byte.x00] 1.

Lemma spin_same n :
  cu_network_id (spin n) = n /\ cu_component_kind (spin n) = mkKind 1 /\
  decode_component CTransform (cu_payload (spin n)) =
    Some (mkTransform f0 f0 f0 (S754_infinity true) 1).
Proof. done. Qed.

Lemma infinite_rotation_hangs_witness :
  simulate 1000 (apply_updates a5 [(mkCid 7, spin r2.1)]) = Diverge.
Proof.
  assert (Hrep : btree_get (mkKind 1) (ad_replicators a5) =
                 Some (DefaultReplicator CTransform (mkKind 1)))
    by exact (eq_trans (f_equal (btree_get (mkKind 1)) (proj2 (set_world_same a3 w5)))
                (a3_rep CTransform (mkKind 1) 0 eq_refl)).
  destruct (spin_same r2.1) as (H1 & H2 & H3).
  rewrite <- H2 in Hrep.
  assert (Hn : bi_left (ad_bimap a5) r2.1 = Some agent) by (vm_compute; reflexivity).
  assert (Ho : w_get (ad_world a5) agent CNetworkOwner = Some (mkCid 7)) by (vm_compute; reflexivity).
  assert (Hv : w_get (ad_world a5) agent CVelocity = Some (mkVelocity f0 f0 f0))
    by (vm_compute; reflexivity).
  assert (Hp : w_get (ad_world a5) agent CPhysicsBody = Some (mkPhysicsBody (f_of_Z 100)
    DEFAULT_THRUST_FORCE DEFAULT_MAX_VELOCITY (f_of_Z 270) DEFAULT_DRAG MASS_PER_PAYLOAD))
    by (vm_compute; reflexivity).
  apply (infinite_rotation_hangs (issued := issued) a5 r2.1 agent (mkCid 7) (spin r2.1) _ _ _
    (proj1 a5_ok) (proj2 a5_ok) Hn Ho Hrep H1 H3 eq_refl Hv Hp); vm_compute; reflexivity.
Defined.
End AdapterWitness.
