(* ===== verification/RateLimit.v ===== *)
(** * The authentication rate limiter ([auth/rate_limit.rs])

    [InMemoryRateLimiter] counts accepted requests per (type, identity) in fixed windows of one
    hour.  The file models the map of entries, [check_limit] on every branch and [cleanup], and
    proves what the limiter promises over every sequence of calls: a bound on the requests it
    accepts in any hour, whatever the interleaving with other identities and with [cleanup].

    [tokio::time::Instant] is a [Z] of nanoseconds; each operation takes the instant its call of
    [Instant::now()] returned. *)

From stdpp Require Import gmap strings list.
From Stdlib Require Import ZArith Lia Sorted.
From S2P Require Import Prelude FixedWindow.

Open Scope Z_scope.

(** ** [tonic::Status]: the codes the server's sources construct *)
Inductive Code :=
| CodeCancelled | CodeInvalidArgument | CodeDeadlineExceeded | CodeNotFound
| CodePermissionDenied | CodeResourceExhausted | CodeInternal | CodeUnauthenticated.

#[global] Instance Code_eq : EqDecision Code.
Proof. solve_decision. Defined.

Record Status := mkStatus { st_code : Code; st_message : string }.

(** ** Data *)
Inductive RateLimitType := Email | Ip.

#[global] Instance RateLimitType_eq : EqDecision RateLimitType.
Proof. solve_decision. Defined.
#[global] Instance RateLimitType_countable : Countable RateLimitType.
Proof.
  by apply (inj_countable' (fun t => match t with Email => true | Ip => false end)
              (fun b : bool => if b then Email else Ip)); intros [].
Defined.

Record RateLimitEntry := mkEntry { rl_count : Z; rl_reset_at : Z }.

Abbreviation InMemoryRateLimiter := (gmap (RateLimitType * string) RateLimitEntry).

(** [InMemoryRateLimiter::new]. *)
Definition rate_limiter_new : InMemoryRateLimiter := ∅.

(** [Duration::from_secs(3600)], in nanoseconds. *)
Definition WINDOW : Z := 3600 * 1000000000.

(** [match limit_type { Email => 5, Ip => 30 }]. *)
Definition limit_of (t : RateLimitType) : Z := match t with Email => 5 | Ip => 30 end.

(** [{limit_type:?}]. *)
Definition limit_type_debug (t : RateLimitType) : string :=
  match t with Email => "Email" | Ip => "Ip" end.

Definition rate_limited (t : RateLimitType) (identity : string) : Status :=
  mkStatus CodeResourceExhausted
    ("Rate limit exceeded for " +:+ limit_type_debug t +:+ ": " +:+ identity +:+
     ". Try again later.").

(** ** Operations *)

(** The entry [check_limit] works on: [entry(key).or_insert_with(..)], then the reset. *)
Definition current_entry (s : InMemoryRateLimiter) (key : RateLimitType * string) (now : Z) :
    RateLimitEntry :=
  let entry := default (mkEntry 0 (now + WINDOW)) (s !! key) in
  if rl_reset_at entry <? now then mkEntry 0 (now + WINDOW) else entry.

(** [check_limit]. *)
Definition check_limit (s : InMemoryRateLimiter) (limit_type : RateLimitType)
    (identity : string) (now : Z) : exec (result unit Status * InMemoryRateLimiter) :=
  let key := (limit_type, identity) in
  let entry := current_entry s key now in
  if limit_of limit_type <=? rl_count entry
  then Ret (Err (rate_limited limit_type identity), <[key := entry]> s)
  else
    count ← chk_add 32 (rl_count entry) 1;
    Ret (Ok (), <[key := mkEntry count (rl_reset_at entry)]> s).

(** [cleanup]. *)
Definition cleanup (s : InMemoryRateLimiter) (now : Z) : InMemoryRateLimiter :=
  filter (fun '(_, entry) => now < rl_reset_at entry) s.

(** ** Invariant *)
Definition entry_ok (key : RateLimitType * string) (e : RateLimitEntry) : Prop :=
  0 <= rl_count e <= limit_of key.1.

Definition limiter_ok (s : InMemoryRateLimiter) : Prop :=
  forall key e, s !! key = Some e -> entry_ok key e.

Lemma limit_pos t : 0 < limit_of t <= 30.
Proof. destruct t; cbn; lia. Qed.

Lemma current_entry_ok s key now : limiter_ok s -> entry_ok key (current_entry s key now).
Proof.
  intros Hs. pose proof (limit_pos key.1). unfold current_entry, entry_ok.
  destruct (s !! key) as [e|] eqn:E; cbn; bdestr; cbn; try lia.
  specialize (Hs _ _ E). unfold entry_ok in Hs. lia.
Qed.

Lemma limiter_ok_insert s key e : limiter_ok s -> entry_ok key e -> limiter_ok (<[key := e]> s).
Proof.
  intros Hs He key' e'. destruct (decide (key = key')) as [<-|Hne].
  - rewrite lookup_insert_eq. by intros [= <-].
  - rewrite lookup_insert_ne by done. apply Hs.
Qed.

(** [check_limit] on a limiter that keeps its invariant never overflows its counter; it is the
    pure function below. *)
Definition check_pure (s : InMemoryRateLimiter) (t : RateLimitType) (i : string) (now : Z) :
    result unit Status * InMemoryRateLimiter :=
  let e := current_entry s (t, i) now in
  if limit_of t <=? rl_count e then (Err (rate_limited t i), <[(t, i) := e]> s)
  else (Ok (), <[(t, i) := mkEntry (rl_count e + 1) (rl_reset_at e)]> s).

Lemma check_limit_pure s t i now :
  limiter_ok s -> check_limit s t i now = Ret (check_pure s t i now).
Proof.
  intros Hs. unfold check_limit, check_pure.
  pose proof (current_entry_ok s (t, i) now Hs) as He. unfold entry_ok in He. cbn in He.
  pose proof (limit_pos t). case_match; [done|]. rewrite chk_add_Ret; [done|ulia].
Qed.

Lemma check_pure_ok s t i now : limiter_ok s -> limiter_ok (check_pure s t i now).2.
Proof.
  intros Hs. pose proof (current_entry_ok s (t, i) now Hs) as He.
  unfold check_pure. destruct (Z.leb_spec (limit_of t) (rl_count (current_entry s (t, i) now)));
    cbn; apply limiter_ok_insert; try done. unfold entry_ok in *. cbn in *. lia.
Qed.

Lemma cleanup_ok s now : limiter_ok s -> limiter_ok (cleanup s now).
Proof. intros Hs key e [He _]%map_lookup_filter_Some. eauto. Qed.

(** ** One call *)

(** How many requests of the open window of [key] have been accepted. *)
Definition used (s : InMemoryRateLimiter) (key : RateLimitType * string) (now : Z) : Z :=
  match s !! key with
  | Some e => if rl_reset_at e <? now then 0 else rl_count e
  | None => 0
  end.

Lemma current_entry_count s key now : rl_count (current_entry s key now) = used s key now.
Proof. unfold current_entry, used. destruct (s !! key); cbn; bdestr; done || lia. Qed.

(** [check_limit] accepts a request exactly when fewer than the limit (5 for an
    e-mail, 30 for an address) have been accepted in the identity's open window, uses up one
    more of the window when it accepts and none when it rejects, rejects with
    [RESOURCE_EXHAUSTED], never panics on its counter, and leaves the window of every other
    identity as it was. *)
Theorem check_limit_spec s t i now :
  limiter_ok s ->
  exists r s', check_limit s t i now = Ret (r, s') /\ limiter_ok s' /\
    (r = Ok () <-> used s (t, i) now < limit_of t) /\
    (r = Ok () -> used s' (t, i) now = used s (t, i) now + 1) /\
    (forall e, r = Err e ->
       st_code e = CodeResourceExhausted /\ used s' (t, i) now = used s (t, i) now) /\
    (forall key, key <> (t, i) -> s' !! key = s !! key).
Proof.
  intros Hs. rewrite check_limit_pure by done. eexists _, _. split; [by rewrite <- surjective_pairing|].
  split; [by apply check_pure_ok|].
  assert (Hr : now <= rl_reset_at (current_entry s (t, i) now)).
  { unfold current_entry. assert (0 <= WINDOW) by done. destruct (s !! (t, i)); cbn; bdestr; cbn; lia. }
  pose proof (current_entry_count s (t, i) now) as Hc. unfold check_pure.
  destruct (Z.leb_spec (limit_of t) (rl_count (current_entry s (t, i) now))); cbn [fst snd].
  - split_and!; [split; [done | lia] | done | | intros; by rewrite lookup_insert_ne].
    intros e [= <-]. split; [done|]. unfold used at 1. rewrite lookup_insert_eq. bdestr; lia.
  - split_and!; [split; [lia | done] | | done | intros; by rewrite lookup_insert_ne].
    intros _. unfold used at 1. rewrite lookup_insert_eq. cbn. bdestr; lia.
Qed.

(** ** Sequences of calls *)
Inductive rl_op :=
| RCheck (limit_type : RateLimitType) (identity : string) (now : Z)
| RCleanup (now : Z).

Definition op_time (o : rl_op) : Z := match o with RCheck _ _ now => now | RCleanup now => now end.

(** Runs one operation and logs the instants at which requests for [k] were accepted. *)
Definition rl_step (k : RateLimitType * string) (st : InMemoryRateLimiter * list Z) (o : rl_op) :
    exec (InMemoryRateLimiter * list Z) :=
  match o with
  | RCheck t i now =>
      '(r, s) ← check_limit st.1 t i now;
      Ret (s, if is_ok r && bool_decide ((t, i) = k) then st.2 ++ [now] else st.2)
  | RCleanup now => Ret (cleanup st.1 now, st.2)
  end.

Definition rl_run (k : RateLimitType * string) (ops : list rl_op) :
    exec (InMemoryRateLimiter * list Z) :=
  for_each (rl_step k) (rate_limiter_new, []) ops.

Definition chronological (ops : list rl_op) : Prop := Sorted Z.le (op_time <$> ops).

(** Acceptances in the hour that starts at [a]. *)
Abbreviation accepted_in_hour := (accepted_within WINDOW).

(** The instant at which the window of an entry opened. *)
Definition opened_at (e : RateLimitEntry) : Z := rl_reset_at e - WINDOW.

(** The state after the operations up to [now]. *)
Record rl_inv (k : RateLimitType * string) (now : Z) (st : InMemoryRateLimiter * list Z) : Prop :=
  { ri_ok : limiter_ok st.1;
    ri_past : Forall (fun t => t <= now) st.2;
    ri_window : match st.1 !! k with
                | None => closed_window WINDOW (limit_of k.1) now st.2
                | Some e => opened_at e <= now /\
                    open_window WINDOW (limit_of k.1) (opened_at e) (rl_count e) st.2
                end }.

Lemma rl_inv_hourly k now st : rl_inv k now st -> at_most_two_quotas WINDOW (limit_of k.1) st.2.
Proof.
  intros [Hok _ Hw]. destruct (st.1 !! k) as [e|] eqn:E; [|apply Hw].
  destruct Hw as [_ Hw]. specialize (Hok k e E). unfold entry_ok in Hok.
  eapply open_window_quotas; [|exact Hw]. lia.
Qed.

Lemma rl_inv_later k now now' st : rl_inv k now st -> now <= now' -> rl_inv k now' st.
Proof.
  intros [Hok Hp Hw] Hle. split; [done | eapply Forall_impl; [exact Hp|]; cbn; lia |].
  destruct (st.1 !! k).
  - destruct Hw. split; [lia | done].
  - by eapply closed_window_later.
Qed.

(** The window [check_limit] finds, whether it was open or is opened by this request. *)
Lemma rl_inv_current k now st :
  rl_inv k now st ->
  let e := current_entry st.1 k now in
  entry_ok k e /\ opened_at e <= now /\
  open_window WINDOW (limit_of k.1) (opened_at e) (rl_count e) st.2.
Proof.
  intros [Hok Hp Hw]. split; [by apply current_entry_ok|].
  assert (opened_at (mkEntry 0 (now + WINDOW)) = now) as Hnew by (unfold opened_at; cbn; lia).
  unfold current_entry. destruct (st.1 !! k) as [e|] eqn:E; cbn.
  - destruct Hw as [Hs Hw]. destruct (Z.ltb_spec (rl_reset_at e) now); [|done].
    rewrite Hnew. split; [done|]. apply closed_window_open; [done|].
    specialize (Hok k e E). unfold entry_ok in Hok.
    eapply open_window_close; [|exact Hw|]; [|unfold opened_at]; lia.
  - assert (0 <= WINDOW) by done. destruct (Z.ltb_spec (now + WINDOW) now); [lia|].
    rewrite Hnew. split; [done|]. by apply closed_window_open.
Qed.

Lemma rl_inv_check k now st t i :
  rl_inv k now st -> exists st', rl_step k st (RCheck t i now) = Ret st' /\ rl_inv k now st'.
Proof.
  intros Hinv. pose proof (rl_inv_current _ _ _ Hinv) as (He & Hstart & Hopen).
  destruct st as [s log]. cbn [rl_step fst snd] in *.
  pose proof (ri_ok _ _ _ Hinv) as Hok. cbn in Hok. rewrite check_limit_pure by done.
  pose proof (check_pure_ok s t i now Hok) as Hok'. unfold check_pure in *. cbn.
  destruct (decide ((t, i) = k)) as [<-|Hk].
  - destruct (Z.leb_spec (limit_of t) (rl_count (current_entry s (t, i) now)));
      cbn in *; eexists; (split; [done|]).
    + split; cbn; [done | apply Hinv | by rewrite lookup_insert_eq].
    + rewrite bool_decide_true by done.
      split; cbn; [done | apply Forall_app; split; [apply Hinv | by constructor] |].
      rewrite lookup_insert_eq. split; [done|]. by apply open_window_accept.
  - destruct (limit_of t <=? rl_count (current_entry s (t, i) now)); cbn in *;
      rewrite ?bool_decide_false by done; cbn; eexists; (split; [done|]);
      (split; cbn; [done | apply Hinv | rewrite lookup_insert_ne by done; apply Hinv]).
Qed.

Lemma rl_inv_cleanup k now st :
  rl_inv k now st -> rl_inv k now (cleanup st.1 now, st.2).
Proof.
  intros [Hok Hp Hw]. split; cbn; [by apply cleanup_ok | done |]. unfold cleanup.
  destruct (st.1 !! k) as [e|] eqn:E.
  - destruct (decide (now < rl_reset_at e)) as [Hlt|Hge].
    + rewrite (proj2 (map_lookup_filter_Some _ _ _ _)) by done. done.
    + rewrite (proj2 (map_lookup_filter_None _ _ _)); [|right; naive_solver].
      specialize (Hok k e E). unfold entry_ok in Hok. destruct Hw as [_ Hw].
      eapply open_window_close; [|exact Hw|]; [|unfold opened_at]; lia.
  - rewrite (proj2 (map_lookup_filter_None _ _ _)) by (by left). done.
Qed.

Lemma rl_inv_step k now st o :
  rl_inv k now st -> now <= op_time o ->
  exists st', rl_step k st o = Ret st' /\ rl_inv k (op_time o) st'.
Proof.
  intros Hinv Hle. destruct o as [t i u|u]; cbn in Hle; apply (rl_inv_later _ _ u) in Hinv; try done.
  - by apply rl_inv_check.
  - eexists. split; [done|]. by apply rl_inv_cleanup.
Qed.

Lemma rl_inv_run k ops now st :
  rl_inv k now st -> Sorted Z.le (now :: (op_time <$> ops)) ->
  exists st' now', for_each (rl_step k) st ops = Ret st' /\ rl_inv k now' st'.
Proof.
  revert now st. induction ops as [|o ops IH]; intros now st Hinv Hs; [by exists st, now|].
  rewrite for_each_cons. inversion Hs as [|? ? Hs' Hhd]; subst. cbn in *.
  inversion Hhd; subst. destruct (rl_inv_step k now st o) as (st1 & -> & H1); [done..|]. cbn.
  eapply IH; eauto.
Qed.

Lemma rl_inv_new k now : rl_inv k now (rate_limiter_new, []).
Proof.
  unfold rate_limiter_new.
  split; cbn [fst snd]; [intros ? ?; by rewrite lookup_empty | constructor |].
  rewrite lookup_empty. pose proof (limit_pos k.1). apply closed_window_new. lia.
Qed.

(** Over every chronological sequence of requests (of any identities) and
    cleanups, from an empty limiter, no call panics and the requests accepted for one identity
    in any hour, wherever it starts, are at most twice its limit: 10 for an e-mail address, 60
    for an IP address. *)
Theorem accepted_per_hour k ops :
  chronological ops ->
  exists s log, rl_run k ops = Ret (s, log) /\
    forall a, accepted_in_hour a log <= 2 * limit_of k.1.
Proof.
  intros Hs. unfold rl_run.
  destruct (rl_inv_run k ops (default 0 (head (op_time <$> ops))) (rate_limiter_new, []))
    as ([s log] & now & Hrun & Hinv); [apply rl_inv_new | |].
  - unfold chronological in Hs. destruct ops; cbn in *; constructor; done || by constructor.
  - exists s, log. split; [done|]. apply (rl_inv_hourly _ _ _ Hinv).
Qed.

(** ** Witnesses *)
Module RateLimitWitness.

(** Six requests of one address: the sixth is rejected. *)
Definition burst : list rl_op := (fun n => RCheck Email "a@b.c" n) <$> [0; 1; 2; 3; 4; 5].

(** Five requests at the end of one window and five in the next: ten within an hour. *)
Definition straddle : list rl_op :=
  ((fun n => RCheck Email "a@b.c" n) <$> [0; WINDOW - 3; WINDOW - 2; WINDOW - 1; WINDOW]) ++
  [RCleanup WINDOW] ++ ((fun n => RCheck Email "a@b.c" (WINDOW + n)) <$> [1; 2; 3; 4; 5; 6]).

Lemma check_limit_spec_witness :
  exists r s', check_limit rate_limiter_new Email "a@b.c" 7 = Ret (r, s') /\ r = Ok ().
Proof.
  destruct (check_limit_spec rate_limiter_new Email "a@b.c" 7)
    as (r & s' & H & _ & [_ Hok] & _ & _).
  - intros key e. unfold rate_limiter_new. by rewrite lookup_empty.
  - exists r, s'. split; [exact H|]. apply Hok. reflexivity.
Defined.

Lemma accepted_per_hour_witness :
  exists s log, rl_run (Email, "a@b.c") straddle = Ret (s, log) /\
    length log = 10%nat /\ accepted_in_hour 1 log <= 10.
Proof.
  destruct (accepted_per_hour (Email, "a@b.c") straddle) as (s & log & H & Ha).
  - repeat constructor; vm_compute; discriminate.
  - exists s, log. split; [exact H|]. split; [|exact (Ha 1)].
    replace log with (get_ret (∅, []) (rl_run (Email, "a@b.c") straddle)).2 by (rewrite H; reflexivity).
    vm_compute. reflexivity.
Defined.

(** The sixth request of the burst is rejected. *)
Example burst_accepts_five :
  (fun '(_, log) => log) <$> (match rl_run (Email, "a@b.c") burst with Ret x => Some x | _ => None end)
  = Some [0; 1; 2; 3; 4].
Proof. vm_compute. reflexivity. Qed.

End RateLimitWitness.
