(* ===== verification/Telemetry.v ===== *)
(** * The telemetry service ([aetheris-server/src/telemetry.rs])

    Clients submit batches of log events over gRPC ([submit_telemetry]) and over plain HTTP
    ([json_telemetry_handler]); both share the per-address limiter and the processing of events.
    The file models the sanitiser, the resolution of the client's address, the limiter with its
    pruning, the parsing of metric snapshots and both handlers.  What a handler does is what it
    emits: the log records and metric updates, in order.

    Strings are lists of characters ([Text.v]).  [now_secs()] is an argument wherever it is read.
    The [DashMap] of the limiter is shared between requests: its accesses are the atomic steps
    [prune_expired_entries] and [count_request], and the theorems on the limiter hold for every
    interleaving of them. *)

From stdpp Require Import gmap strings list.
From Stdlib Require Import ZArith Lia Sorted SpecFloat.
From S2P Require Import Prelude FixedWindow Text F64 RateLimit.

Open Scope Z_scope.

Definition RATE_LIMIT_MAX : Z := 60.
Definition RATE_LIMIT_WINDOW_SECS : Z := 60.
Definition MAX_FIELD_LEN : Z := 512.
Definition MAX_BATCH_SIZE : Z := 256.
Definition PRUNE_THRESHOLD : Z := 1000.

(** ** Sanitising *)

(** [sanitize]: the slice would panic if its end were not a character boundary. *)
Definition sanitize (s : str) (max_len : Z) : exec str :=
  let clean := filter (fun c => is_control c = false) s in
  if str_len clean <=? max_len then Ret clean
  else
    match last (take_while (fun '(i, c) => i + len_utf8 c <=? max_len) (char_indices clean)) with
    | None => Ret []
    | Some (i, c) => slice_to (i + len_utf8 c) clean
    end.

(** ** The client's address *)

(** A gRPC request: the values of the two headers (when present and printable), the address of the
    peer, the message. *)
Record Request (B : Type) := mkRequest {
  rq_forwarded : option str; rq_x_forwarded_for : option str;
  rq_remote_addr : option SocketAddr; rq_inner : B }.
Arguments mkRequest {B}.
Arguments rq_forwarded {B}.
Arguments rq_x_forwarded_for {B}.
Arguments rq_remote_addr {B}.
Arguments rq_inner {B}.

(** The loop over the parts of the [Forwarded] header: [Some r] when the function returns [r] from
    inside the loop. *)
Fixpoint forwarded_loop (parts : list str) : option (option IpAddr) :=
  match parts with
  | [] => None
  | part :: parts =>
      match strip_prefix (lit "for=") (trim part) with
      | Some for_val =>
          match head (split 58 (trim_matches 34 for_val)) with
          | None => Some None
          | Some ip_str =>
              match parse_ip ip_str with
              | Some ip => Some (Some ip)
              | None => forwarded_loop parts
              end
          end
      | None => forwarded_loop parts
      end
  end.

(** [extract_client_ip]. *)
Definition extract_client_ip {B} (request : Request B) : option IpAddr :=
  match rq_forwarded request ≫= fun forwarded => forwarded_loop (split 59 forwarded) with
  | Some r => r
  | None =>
      match rq_x_forwarded_for request ≫= fun xff =>
              head (split 44 xff) ≫= fun first => parse_ip (trim first) with
      | Some ip => Some ip
      | None => sa_ip <$> rq_remote_addr request
      end
  end.

(** ** The limiter *)

(** The map from an address to the requests of its window and the window's start. *)
Abbreviation RateLimits := (gmap IpAddr (Z * Z)).

(** [prune_expired_entries]. *)
Definition prune_expired_entries (m : RateLimits) (now : Z) : RateLimits :=
  filter (fun '(_, (_, window_start)) => sat_sub now window_start < 2 * RATE_LIMIT_WINDOW_SECS) m.

(** The locked entry of [check_rate_limit]; the counter stays at or below 60. *)
Definition count_request (m : RateLimits) (ip : IpAddr) (now : Z) : bool * RateLimits :=
  let '(count, window_start) := default (0, now) (m !! ip) in
  if RATE_LIMIT_WINDOW_SECS <=? sat_sub now window_start then (true, <[ip := (1, now)]> m)
  else if count <? RATE_LIMIT_MAX then (true, <[ip := (count + 1, window_start)]> m)
  else (false, <[ip := (count, window_start)]> m).

(** [check_rate_limit], with the two readings of the clock. *)
Definition check_rate_limit (m : RateLimits) (ip : IpAddr) (now_prune now : Z) :
    bool * RateLimits :=
  let m := if PRUNE_THRESHOLD <? Z.of_nat (size m) then prune_expired_entries m now_prune else m in
  count_request m ip now.

(** ** What the handlers emit *)
Record LogRecord (T R : Type) := mkLogRecord {
  lg_session_id : str; lg_trace_id : str; lg_span_name : str; lg_target : str;
  lg_timestamp_ms : T; lg_rtt_ms : R; lg_message : str }.
Arguments mkLogRecord {T R}.
Arguments lg_session_id {T R}.
Arguments lg_trace_id {T R}.
Arguments lg_span_name {T R}.
Arguments lg_target {T R}.
Arguments lg_timestamp_ms {T R}.
Arguments lg_rtt_ms {T R}.
Arguments lg_message {T R}.

Inductive output (T R : Type) :=
| OHistogram (name : string) (value : f64)
| OGauge (name : string) (value : f64)
| OCounter (name : string) (level : option string) (by_ : Z)
| OLog (level : string) (record : LogRecord T R).
Arguments OHistogram {T R}.
Arguments OGauge {T R}.
Arguments OCounter {T R}.
Arguments OLog {T R}.

(** ** Metric snapshots *)

(** The range check of [record_wasm_metrics]. *)
Definition metric_in_range (num : f64) : bool :=
  d_is_finite num && ((d0 <=? num)%d && (num <=? d_of_Z 1000000)%d).

(** [match key]. *)
Definition metric_output {T R} (key : str) (num : f64) : list (output T R) :=
  if bool_decide (key = lit "fps") then [OHistogram "aetheris_wasm_fps" num]
  else if bool_decide (key = lit "frame_p99") then [OHistogram "aetheris_wasm_frame_time_ms" num]
  else if bool_decide (key = lit "sim_p99") then [OHistogram "aetheris_wasm_sim_time_ms" num]
  else if bool_decide (key = lit "rtt") then [OHistogram "aetheris_wasm_rtt_ms" num]
  else if bool_decide (key = lit "entities") then [OGauge "aetheris_wasm_entity_count" num]
  else if bool_decide (key = lit "dropped") then
    [OCounter "aetheris_wasm_telemetry_dropped_total" None (d_as_u64 num)]
  else [].

(** One part of the message. *)
Definition record_part {T R} (part : str) : list (output T R) :=
  match split_once 61 part with
  | Some (key, val) =>
      let num := default S754_nan (parse_f64 (trim_end_matches (lit "ms") val)) in
      if metric_in_range num then metric_output key num else []
  | None => []
  end.

(** [record_wasm_metrics]. *)
Definition record_wasm_metrics {T R} (msg : str) : list (output T R) :=
  split_whitespace msg ≫= record_part.

(** ** The gRPC handler *)
Inductive TelemetryLevel := LevelUnspecified | LevelInfo | LevelWarn | LevelError.

(** [TelemetryLevel::try_from], generated in the protocol crate. *)
Class TelemetryProto : Type := { telemetry_level_try_from : Z -> option TelemetryLevel }.

(** The numbering of the levels, which the JSON handler writes out. *)
Class TelemetryProtoLaws `{!TelemetryProto} : Prop := {
  try_from_error : telemetry_level_try_from 3 = Some LevelError;
  try_from_warn : telemetry_level_try_from 2 = Some LevelWarn;
  try_from_other n l : n <> 2 -> n <> 3 -> telemetry_level_try_from n = Some l ->
    l = LevelInfo \/ l = LevelUnspecified;
}.

(** [level_str]. *)
Definition level_str (level : TelemetryLevel) : string :=
  match level with
  | LevelError => "error"
  | LevelWarn => "warn"
  | LevelInfo | LevelUnspecified => "info"
  end.

(** A telemetry event; the types of its timestamp and round-trip time are the message format's. *)
Record TelemetryEvent (T R : Type) := mkTelemetryEvent {
  te_timestamp_ms : T; te_level : Z; te_target : str; te_message : str; te_rtt_ms : R;
  te_trace_id : str; te_span_name : str }.
Arguments mkTelemetryEvent {T R}.
Arguments te_timestamp_ms {T R}.
Arguments te_level {T R}.
Arguments te_target {T R}.
Arguments te_message {T R}.
Arguments te_rtt_ms {T R}.
Arguments te_trace_id {T R}.
Arguments te_span_name {T R}.

Record TelemetryBatch (T R : Type) := mkTelemetryBatch {
  tb_events : list (TelemetryEvent T R); tb_session_id : str }.
Arguments mkTelemetryBatch {T R}.
Arguments tb_events {T R}.
Arguments tb_session_id {T R}.

Definition batch_counter {T R} : output T R :=
  OCounter "aetheris_wasm_telemetry_batches_total" None 1.
Definition event_counter {T R} (level : string) : output T R :=
  OCounter "aetheris_wasm_telemetry_events_total" (Some level) 1.

(** The four sanitised fields of a record. *)
Definition log_record {T T' R} (session_id : str) (ts : T') (event : TelemetryEvent T R) :
    exec (LogRecord T' R) :=
  target ← sanitize (te_target event) MAX_FIELD_LEN;
  message ← sanitize (te_message event) MAX_FIELD_LEN;
  trace_id ← sanitize (te_trace_id event) 64;
  span_name ← sanitize (te_span_name event) 128;
  Ret (mkLogRecord session_id trace_id span_name target ts (te_rtt_ms event) message).

(** The metrics of an event: the raw message of a snapshot. *)
Definition snapshot_metrics {T R T' R'} (event : TelemetryEvent T R) : list (output T' R') :=
  if bool_decide (te_span_name event = lit "metrics_snapshot")
  then record_wasm_metrics (te_message event) else [].

Section Grpc.
Context {T R : Type} `{!TelemetryProto}.

(** The body of the loop of [process_events_grpc]. *)
Definition grpc_event (session_id : str) (out : list (output T R)) (event : TelemetryEvent T R) :
    exec (list (output T R)) :=
  record ← log_record session_id (te_timestamp_ms event) event;
  let level := default LevelUnspecified (telemetry_level_try_from (te_level event)) in
  Ret (out ++ snapshot_metrics event ++
       [event_counter (level_str level); OLog (level_str level) record]).

(** [process_events_grpc]. *)
Definition process_events_grpc (events : list (TelemetryEvent T R)) (session_id : str) :
    exec (list (output T R)) :=
  for_each (grpc_event session_id) [batch_counter] events.

(** [submit_telemetry]: the answer, what is emitted, the limiter. *)
Definition submit_telemetry (m : RateLimits) (request : Request (TelemetryBatch T R))
    (now_prune now : Z) : exec (result unit Status * list (output T R) * RateLimits) :=
  match extract_client_ip request with
  | None =>
      Ret (Err (mkStatus CodePermissionDenied
                  "Identification protocol failed: client IP indeterminate"), [], m)
  | Some client_ip =>
      let '(allowed, m) := check_rate_limit m client_ip now_prune now in
      if negb allowed then
        Ret (Err (mkStatus CodeResourceExhausted
                    "Telemetry rate limit exceeded. Try again in 60 seconds."), [], m)
      else
        let batch := rq_inner request in
        if MAX_BATCH_SIZE <? Z.of_nat (length (tb_events batch)) then
          Ret (Err (mkStatus CodeInvalidArgument
                      "Batch size policy violation: limit is 256 events"), [], m)
        else if 128 <? str_len (tb_session_id batch) then
          Ret (Err (mkStatus CodeInvalidArgument "session_id exceeds 128 bytes"), [], m)
        else
          session_id ← sanitize (tb_session_id batch) 128;
          out ← process_events_grpc (tb_events batch) session_id;
          Ret (Ok (), out, m)
  end.
End Grpc.

(** ** The JSON handler *)

(** [JsonTelemetryEvent], [JsonTelemetryBatch]. *)
Abbreviation JsonTelemetryEvent := (TelemetryEvent f64 (option f64)).
Abbreviation JsonTelemetryBatch := (TelemetryBatch f64 (option f64)).
Abbreviation json_output := (output Z (option f64)).

(** [match event.level]. *)
Definition json_level (level : Z) : string :=
  if level =? 3 then "error" else if level =? 2 then "warn" else "info".

(** The body of the loop of [json_telemetry_handler]. *)
Definition json_event (session_id : str) (out : list json_output) (event : JsonTelemetryEvent) :
    exec (list json_output) :=
  record ← log_record session_id (d_as_u64 (te_timestamp_ms event)) event;
  Ret (out ++ snapshot_metrics event ++
       [event_counter (json_level (te_level event)); OLog (json_level (te_level event)) record]).

(** [axum::http::StatusCode], the codes the handler answers. *)
Inductive StatusCode := HttpOk | HttpBadRequest | HttpTooManyRequests.

(** [json_telemetry_handler]; the trace id of the first event is sanitised for the span. *)
Definition json_telemetry_handler (m : RateLimits) (addr : SocketAddr) (batch : JsonTelemetryBatch)
    (now_prune now : Z) : exec (StatusCode * string * list json_output * RateLimits) :=
  let '(allowed, m) := check_rate_limit m (sa_ip addr) now_prune now in
  if negb allowed then Ret (HttpTooManyRequests, "rate limit exceeded", [], m)
  else if MAX_BATCH_SIZE <? Z.of_nat (length (tb_events batch)) then
    Ret (HttpBadRequest, "batch too large", [], m)
  else if 128 <? str_len (tb_session_id batch) then
    Ret (HttpBadRequest, "session_id too long", [], m)
  else
    session_id ← sanitize (tb_session_id batch) 128;
    first_trace_id ← match tb_events batch with
                     | e :: _ => sanitize (te_trace_id e) 64
                     | [] => Ret []
                     end;
    out ← for_each (json_event session_id) [batch_counter] (tb_events batch);
    Ret (HttpOk, "accepted", out, m).
