(* ===== verification/TelemetryProps.v ===== *)
(** * Properties of the telemetry service

    The sanitiser, the limiter under every interleaving, what the handlers emit for any input, the
    agreement of the two handlers, and whose address the limiter counts. *)

From stdpp Require Import gmap strings list.
From Stdlib Require Import ZArith Lia Sorted SpecFloat.
From S2P Require Import Prelude FixedWindow Text F64 RateLimit Telemetry.

Open Scope Z_scope.

(** ** The sanitiser *)
Definition clean_text (s : str) : str := filter (fun c => is_control c = false) s.

Lemma clean_text_clean s : Forall (fun c => is_control c = false) s -> clean_text s = s.
Proof.
  unfold clean_text. induction 1 as [|c s Hc _ IH]; [done|]. rewrite filter_cons_True by done. by rewrite IH.
Qed.

(** The sanitiser is the longest prefix of the cleaned text that fits. *)
Lemma sanitize_fit s n : sanitize s n = Ret (fit n (clean_text s)).
Proof.
  unfold sanitize. fold (clean_text s). destruct (Z.leb_spec (str_len (clean_text s)) n).
  - by rewrite fit_all.
  - pose proof (last_within n 0 (clean_text s)) as Hl. rewrite Z.sub_0_r in Hl. unfold char_indices.
    destruct (last _) as [[j c]|].
    + rewrite Hl, Z.add_0_l. apply slice_to_fit.
    + by rewrite Hl.
Qed.

(** A field of a log record: no control characters, at most [n] bytes. *)
Definition field_ok (n : Z) (s : str) : Prop :=
  Forall (fun c => is_control c = false) s /\ str_len s <= n.

Lemma fit_field n s : 0 <= n -> field_ok n (fit n (clean_text s)).
Proof.
  intros Hn. destruct (fit_prefix n (clean_text s)) as (rest & E & Hlen & _). split; [|auto].
  assert (Forall (fun c => is_control c = false) (clean_text s)) as Hc.
  { apply Forall_forall. by intros c [Hc _]%list_elem_of_filter. }
  rewrite E in Hc. by apply Forall_app in Hc as [Hc _].
Qed.

(** [sanitize] never panics (its slice always ends at a character boundary); its
    result has no control characters and at most the given number of bytes; it is a prefix of the
    input without control characters, and the longest one that fits: the next character, if
    there is one, would exceed the limit; and sanitising again changes nothing. *)
Theorem sanitize_spec s n :
  0 <= n ->
  exists r rest, sanitize s n = Ret r /\ field_ok n r /\ clean_text s = r ++ rest /\
    (forall c rest', rest = c :: rest' -> n < str_len (r ++ [c])) /\ sanitize r n = Ret r.
Proof.
  intros Hn. destruct (fit_prefix n (clean_text s)) as (rest & E & Hlen & Hmax).
  pose proof (fit_field n s Hn) as Hf. destruct Hf as [Hc Hl].
  exists (fit n (clean_text s)), rest. split_and!; [apply sanitize_fit | done | done | |].
  - intros c rest' Hr. specialize (Hmax c rest' Hr). unfold str_len. rewrite sum_over_app. cbn.
    unfold str_len in Hmax. lia.
  - rewrite sanitize_fit, clean_text_clean by done. by rewrite fit_all.
Qed.

(** ** The limiter *)

(** The accesses of requests to the shared map: a request may prune, and counts itself. *)
Inductive tl_op := TPrune (now : Z) | TCount (ip : IpAddr) (now : Z).

Definition tl_time (o : tl_op) : Z := match o with TPrune now => now | TCount _ now => now end.

Definition tl_chronological (ops : list tl_op) : Prop := Sorted Z.le (tl_time <$> ops).

(** What the limiter answers to a sequence of accesses. *)
Fixpoint tl_answers (m : RateLimits) (ops : list tl_op) : list (IpAddr * Z * bool) :=
  match ops with
  | [] => []
  | TPrune now :: ops => tl_answers (prune_expired_entries m now) ops
  | TCount ip now :: ops =>
      let '(b, m) := count_request m ip now in (ip, now, b) :: tl_answers m ops
  end.

(** [check_rate_limit] is one or two of these accesses. *)
Lemma check_rate_limit_answers m ip now_prune now :
  tl_answers m ((if PRUNE_THRESHOLD <? Z.of_nat (size m) then [TPrune now_prune] else []) ++
                [TCount ip now]) =
  [(ip, now, (check_rate_limit m ip now_prune now).1)].
Proof. unfold check_rate_limit. case_match; cbn; by destruct (count_request _ _ _). Qed.

(** The instants at which requests of [k] were accepted. *)
Definition tl_log (k : IpAddr) (answers : list (IpAddr * Z * bool)) : list Z :=
  answers ≫= fun '(ip, now, b) => if bool_decide (ip = k) && b then [now] else [].

(** The window of [k] after the accesses up to [now], which accepted [log]. *)
Definition tl_inv (k : IpAddr) (now : Z) (m : RateLimits) (log : list Z) : Prop :=
  Forall (fun t => t <= now) log /\
  match m !! k with
  | None => closed_window RATE_LIMIT_WINDOW_SECS RATE_LIMIT_MAX now log
  | Some (n, start) => start <= now /\ 0 <= n <= RATE_LIMIT_MAX /\
      open_window RATE_LIMIT_WINDOW_SECS RATE_LIMIT_MAX start n log
  end.

Lemma tl_inv_later k now now' m log : tl_inv k now m log -> now <= now' -> tl_inv k now' m log.
Proof.
  intros [Hp Hw] Hle. split; [eapply Forall_impl; [exact Hp|]; cbn; lia|].
  destruct (m !! k) as [[n start]|]; [naive_solver lia | by eapply closed_window_later].
Qed.

Lemma tl_inv_quotas k now m log :
  tl_inv k now m log -> at_most_two_quotas RATE_LIMIT_WINDOW_SECS RATE_LIMIT_MAX log.
Proof.
  intros [_ Hw]. destruct (m !! k) as [[n start]|]; [|apply Hw].
  destruct Hw as (_ & Hn & Hw). eapply open_window_quotas; [|exact Hw]. lia.
Qed.

Lemma tl_inv_prune k now m log : tl_inv k now m log -> tl_inv k now (prune_expired_entries m now) log.
Proof.
  intros [Hp Hw]. split; [done|]. unfold prune_expired_entries.
  destruct (m !! k) as [[n start]|] eqn:E.
  - destruct (decide (sat_sub now start < 2 * RATE_LIMIT_WINDOW_SECS)) as [Hlt|Hge].
    + rewrite (proj2 (map_lookup_filter_Some _ _ _ (n, start))) by done. done.
    + rewrite (proj2 (map_lookup_filter_None _ _ _)); [|right; naive_solver].
      destruct Hw as (Hs & Hn & Hw). eapply open_window_close; [|exact Hw|]; [lia|].
      unfold sat_sub, RATE_LIMIT_WINDOW_SECS in *. lia.
  - by rewrite (proj2 (map_lookup_filter_None _ _ _)) by (by left).
Qed.

(** A window that has run out is closed; an absent entry counts from an empty window. *)
Lemma tl_inv_accept_new k now m log :
  tl_inv k now m log ->
  match m !! k with Some (_, start) => start + RATE_LIMIT_WINDOW_SECS <= now | None => True end ->
  open_window RATE_LIMIT_WINDOW_SECS RATE_LIMIT_MAX now 0 log.
Proof.
  intros [Hp Hw] Hs. apply closed_window_open; [done|].
  destruct (m !! k) as [[n start]|]; [|done]. destruct Hw as (_ & Hn & Hw).
  eapply open_window_close; [|exact Hw|]; lia.
Qed.

Lemma tl_inv_count k now m log ip :
  tl_inv k now m log ->
  let '(b, m') := count_request m ip now in
  tl_inv k now m' (if bool_decide (ip = k) && b then log ++ [now] else log).
Proof.
  intros Hinv. pose proof (tl_inv_accept_new _ _ _ _ Hinv) as Hnew. destruct Hinv as [Hp Hw].
  assert (Hp' : Forall (fun t => t <= now) (log ++ [now])).
  { apply Forall_app. split; [done|]. by constructor. }
  unfold count_request. destruct (decide (ip = k)) as [->|Hne].
  - rewrite bool_decide_true by done. destruct (m !! k) as [[n start]|] eqn:E; cbn [default].
    + destruct Hw as (Hs & Hn & Hw). cbn.
      destruct (Z.leb_spec RATE_LIMIT_WINDOW_SECS (sat_sub now start));
        [|destruct (Z.ltb_spec n RATE_LIMIT_MAX)]; split; try done;
        rewrite lookup_insert_eq; unfold RATE_LIMIT_MAX, RATE_LIMIT_WINDOW_SECS, sat_sub in *.
      * split_and!; [lia.. |]. apply (open_window_accept _ _ _ 0); [apply Hnew; lia | lia].
      * split_and!; [lia.. |]. by apply open_window_accept.
      * done.
    + assert (sat_sub now now = 0) as Hz by (unfold sat_sub; lia). cbn. rewrite Hz. cbn.
      split; [done|]. rewrite lookup_insert_eq. split_and!; [done | done | done |].
      apply open_window_accept; [by apply Hnew | done].
  - rewrite bool_decide_false by done. destruct (default (0, now) (m !! ip)) as [n start].
    destruct (_ <=? _); [|destruct (n <? _)]; (split; [done|]); by rewrite lookup_insert_ne.
Qed.

Lemma tl_log_quotas k ops : forall now m old,
  tl_inv k now m old -> Sorted Z.le (now :: (tl_time <$> ops)) ->
  at_most_two_quotas RATE_LIMIT_WINDOW_SECS RATE_LIMIT_MAX (old ++ tl_log k (tl_answers m ops)).
Proof.
  induction ops as [|o ops IH]; intros now m old Hinv Hs.
  - cbn. rewrite app_nil_r. by eapply tl_inv_quotas.
  - inversion Hs as [|? ? Hs' Hhd]; subst. inversion Hhd; subst.
    apply (tl_inv_later _ _ (tl_time o)) in Hinv; [|done]. destruct o as [t|ip t]; cbn in *.
    + apply (IH t); [by apply tl_inv_prune | done].
    + pose proof (tl_inv_count _ _ _ _ ip Hinv) as Hc. destruct (count_request m ip t) as [b m'].
      cbn. rewrite app_assoc. apply (IH t); [|done]. destruct (bool_decide (ip = k) && b); [done|].
      by rewrite app_nil_r.
Qed.

(** C34 (safety): however the requests of all clients interleave on the shared map, pruning
    included, the requests of one address that the limiter lets through in any sixty seconds,
    wherever they start, are at most 120, twice the configured 60. *)
Theorem telemetry_accepted_per_minute k ops a :
  tl_chronological ops ->
  accepted_within RATE_LIMIT_WINDOW_SECS a (tl_log k (tl_answers ∅ ops)) <= 2 * RATE_LIMIT_MAX.
Proof.
  intros Hs. revert a. apply (tl_log_quotas k ops (default 0 (head (tl_time <$> ops))) ∅ []).
  - split; [done|]. rewrite lookup_empty. by apply closed_window_new.
  - unfold tl_chronological in Hs. destruct ops; cbn in *; constructor; done || by constructor.
Qed.

(** ** Pruning is not observable *)

(** The pruned map lags behind the unpruned one only by entries whose window has long run out. *)
Definition pruned (now : Z) (m m' : RateLimits) : Prop :=
  forall ip, m !! ip = m' !! ip \/
    m !! ip = None /\ exists n start, m' !! ip = Some (n, start) /\
                        start + 2 * RATE_LIMIT_WINDOW_SECS <= now.

Lemma pruned_later now now' m m' : pruned now m m' -> now <= now' -> pruned now' m m'.
Proof.
  intros H Hle ip. destruct (H ip) as [|(Hn & n & start & Hs & Ht)]; [by left | right].
  split; [done|]. exists n, start. split; [done | lia].
Qed.

Lemma pruned_prune now m m' : pruned now m m' -> pruned now (prune_expired_entries m now) m'.
Proof.
  intros H ip. unfold prune_expired_entries.
  destruct (H ip) as [He|(Hn & n & start & Hs & Ht)].
  - destruct (m !! ip) as [[n start]|] eqn:E.
    + destruct (decide (sat_sub now start < 2 * RATE_LIMIT_WINDOW_SECS)) as [Hlt|Hge].
      * left. by rewrite (proj2 (map_lookup_filter_Some _ _ _ (n, start))).
      * right. split; [apply map_lookup_filter_None; right; naive_solver|]. exists n, start.
        split; [done|]. unfold sat_sub, RATE_LIMIT_WINDOW_SECS in *. lia.
    + left. rewrite <- He. apply map_lookup_filter_None. by left.
  - right. split; [apply map_lookup_filter_None; by left|]. eauto.
Qed.

Lemma pruned_count now m m' ip :
  pruned now m m' ->
  (count_request m ip now).1 = (count_request m' ip now).1 /\
  pruned now (count_request m ip now).2 (count_request m' ip now).2.
Proof.
  intros H. assert (Hins : forall v, pruned now (<[ip := v]> m) (<[ip := v]> m')).
  { intros v ip'. destruct (decide (ip = ip')) as [<-|Hne]; [left; by rewrite !lookup_insert_eq|].
    rewrite !lookup_insert_ne by done. apply H. }
  unfold count_request. destruct (H ip) as [->|(-> & n & start & -> & Ht)].
  - destruct (default _ _) as [n start]. repeat case_match; split; try done; apply Hins.
  - cbn. assert (sat_sub now now = 0) as -> by (unfold sat_sub; lia). cbn.
    assert (RATE_LIMIT_WINDOW_SECS <= sat_sub now start) as Hle.
    { unfold sat_sub, RATE_LIMIT_WINDOW_SECS in *. lia. }
    rewrite (proj2 (Z.leb_le _ _) Hle). split; [done | apply Hins].
Qed.

Definition is_count (o : tl_op) : Prop := match o with TCount _ _ => True | TPrune _ => False end.
#[global] Instance is_count_dec o : Decision (is_count o).
Proof. destruct o; apply _. Defined.

Lemma pruned_answers ops : forall now m m',
  pruned now m m' -> Sorted Z.le (now :: (tl_time <$> ops)) ->
  tl_answers m ops = tl_answers m' (filter is_count ops).
Proof.
  induction ops as [|o ops IH]; intros now m m' Hp Hs; [done|].
  inversion Hs as [|? ? Hs' Hhd]; subst. inversion Hhd; subst.
  apply (pruned_later _ (tl_time o)) in Hp; [|done].
  destruct o as [t|ip t]; cbn [tl_time tl_answers fmap list_fmap] in *.
  - rewrite filter_cons_False by naive_solver. eapply IH; [|done]. by apply pruned_prune.
  - rewrite filter_cons_True by done. cbn [tl_answers]. destruct (pruned_count _ _ _ ip Hp) as [Hb Hm].
    destruct (count_request m ip t) as [b m1], (count_request m' ip t) as [b' m2]. cbn in *. subst b'.
    f_equal. by eapply IH.
Qed.

(** Pruning is an optimisation that no client can observe: whatever prunes
    requests run and whenever they run them, every request gets the answer it would get from a
    limiter that never removes an entry. *)
Theorem prune_unobservable ops :
  tl_chronological ops -> tl_answers ∅ ops = tl_answers ∅ (filter is_count ops).
Proof.
  intros Hs. apply (pruned_answers ops (default 0 (head (tl_time <$> ops)))); [by left|].
  unfold tl_chronological in Hs. destruct ops; cbn in *; constructor; done || by constructor.
Qed.

(** ** What the handlers emit *)
Definition output_ok {T R} (o : output T R) : Prop :=
  match o with
  | OHistogram _ v | OGauge _ v => metric_in_range v = true
  | OCounter _ _ n => 0 <= n <= 1000000
  | OLog _ r =>
      field_ok 128 (lg_session_id r) /\ field_ok 64 (lg_trace_id r) /\
      field_ok 128 (lg_span_name r) /\ field_ok 512 (lg_target r) /\ field_ok 512 (lg_message r)
  end.

Lemma record_part_ok {T R} part : Forall (output_ok (T := T) (R := R)) (record_part part).
Proof.
  unfold record_part. destruct (split_once 61 part) as [[key val]|]; [|constructor].
  destruct (parse_f64 (trim_end_matches (lit "ms") val)) as [num|] eqn:E; cbn [default]; [unfold id|constructor].
  apply parse_f64_valid in E. destruct (metric_in_range num) eqn:Hr; [|constructor].
  assert (0 <= d_as_u64 num <= 1000000) as Hu.
  { apply andb_true_iff in Hr as [_ [_ Hm]%andb_true_iff].
    split; [apply d_as_u64_range | by apply d_as_u64_million]. }
  unfold metric_output. repeat case_match; repeat constructor; cbn; try done; apply Hu.
Qed.

Lemma record_wasm_metrics_ok {T R} msg : Forall (output_ok (T := T) (R := R)) (record_wasm_metrics msg).
Proof.
  unfold record_wasm_metrics. induction (split_whitespace msg) as [|p ps IH]; [constructor|]. cbn.
  apply Forall_app. split; [apply record_part_ok | done].
Qed.

(** The record of an event. *)
Definition event_record {T T' R} (session_id : str) (ts : T') (e : TelemetryEvent T R) : LogRecord T' R :=
  mkLogRecord session_id (fit 64 (clean_text (te_trace_id e))) (fit 128 (clean_text (te_span_name e)))
    (fit 512 (clean_text (te_target e))) ts (te_rtt_ms e) (fit 512 (clean_text (te_message e))).

Lemma log_record_eq {T T' R} sid (ts : T') (e : TelemetryEvent T R) :
  log_record sid ts e = Ret (event_record sid ts e).
Proof. unfold log_record. by rewrite !sanitize_fit. Qed.

(** What one event adds: its metrics, its count, its record. *)
Definition event_outputs {T T' R} (sid : str) (level : string) (ts : T') (e : TelemetryEvent T R) :
    list (output T' R) :=
  snapshot_metrics e ++ [event_counter level; OLog level (event_record sid ts e)].

Definition is_log {T R} (o : output T R) : Prop := match o with OLog _ _ => True | _ => False end.
#[global] Instance is_log_dec {T R} (o : output T R) : Decision (is_log o).
Proof. destruct o; apply _. Defined.

Lemma record_no_log {T R} msg : filter (is_log (T := T) (R := R)) (record_wasm_metrics msg) = [].
Proof.
  unfold record_wasm_metrics. induction (split_whitespace msg) as [|p ps IH]; [done|]. cbn.
  rewrite filter_app, IH, app_nil_r. unfold record_part. destruct (split_once 61 p) as [[key val]|]; [|done].
  case_match; [|done]. unfold metric_output. by repeat case_match.
Qed.

Lemma event_outputs_log {T T' R} sid level (ts : T') (e : TelemetryEvent T R) :
  filter is_log (event_outputs sid level ts e) = [OLog level (event_record sid ts e)].
Proof.
  unfold event_outputs, snapshot_metrics. rewrite filter_app. case_bool_decide; [by rewrite record_no_log | done].
Qed.

Lemma event_outputs_ok {T T' R} sid level (ts : T') (e : TelemetryEvent T R) :
  field_ok 128 sid -> Forall output_ok (event_outputs sid level ts e).
Proof.
  intros Hsid. unfold event_outputs, snapshot_metrics. apply Forall_app. split.
  - case_bool_decide; [apply record_wasm_metrics_ok | constructor].
  - repeat constructor; cbn; try done; try apply Hsid; by apply fit_field.
Qed.

(** The session id the records carry. *)
Definition batch_session {T R} (b : TelemetryBatch T R) : str := fit 128 (clean_text (tb_session_id b)).

(** The size checks of both handlers. *)
Definition batch_ok {T R} (b : TelemetryBatch T R) : bool :=
  (Z.of_nat (length (tb_events b)) <=? MAX_BATCH_SIZE) && (str_len (tb_session_id b) <=? 128).

(** What a batch makes a handler emit, for a handler's reading of levels and timestamps. *)
Definition batch_outputs {T T' R} (level : Z -> string) (ts : T -> T') (b : TelemetryBatch T R) :
    list (output T' R) :=
  batch_counter ::
  (tb_events b ≫= fun e => event_outputs (batch_session b) (level (te_level e)) (ts (te_timestamp_ms e)) e).

Lemma batch_outputs_ok {T T' R} level (ts : T -> T') (b : TelemetryBatch T R) :
  Forall output_ok (batch_outputs level ts b).
Proof.
  constructor; [done|]. induction (tb_events b) as [|e es IH]; [constructor|]. cbn.
  apply Forall_app. split; [|done]. apply event_outputs_ok. by apply fit_field.
Qed.

Lemma batch_outputs_logs {T T' R} level (ts : T -> T') (b : TelemetryBatch T R) :
  filter is_log (batch_outputs level ts b) =
  (fun e => OLog (level (te_level e)) (event_record (batch_session b) (ts (te_timestamp_ms e)) e)) <$>
    tb_events b.
Proof.
  unfold batch_outputs. rewrite filter_cons_False by (intros []).
  induction (tb_events b) as [|e es IH]; [done|]. cbn. by rewrite filter_app, event_outputs_log, IH.
Qed.

(** *** The gRPC handler *)
Section Grpc.
Context {T R : Type} `{!TelemetryProto}.

Definition grpc_level (n : Z) : string :=
  level_str (default LevelUnspecified (telemetry_level_try_from n)).

Lemma process_events_grpc_eq events sid :
  process_events_grpc (T := T) (R := R) events sid =
  Ret (batch_counter ::
       (events ≫= fun e => event_outputs sid (grpc_level (te_level e)) (te_timestamp_ms e) e)).
Proof.
  unfold process_events_grpc. rewrite (for_each_append _ (fun e =>
    event_outputs sid (grpc_level (te_level e)) (te_timestamp_ms e) e)); [done|].
  intros out e. unfold grpc_event. by rewrite log_record_eq.
Qed.

(** What a request gets once its address is known and the limiter lets it through. *)
Definition size_answer (b : TelemetryBatch T R) : result unit Status :=
  if MAX_BATCH_SIZE <? Z.of_nat (length (tb_events b)) then
    Err (mkStatus CodeInvalidArgument "Batch size policy violation: limit is 256 events")
  else if 128 <? str_len (tb_session_id b) then
    Err (mkStatus CodeInvalidArgument "session_id exceeds 128 bytes")
  else Ok ().

Lemma size_answer_ok b : is_ok (size_answer b) = batch_ok b.
Proof. unfold size_answer, batch_ok. bdestr; done || lia. Qed.

Lemma submit_allowed m rq ip np now :
  extract_client_ip rq = Some ip ->
  submit_telemetry m rq np now =
  let '(allowed, m') := check_rate_limit m ip np now in
  if allowed then
    Ret (size_answer (rq_inner rq),
         if batch_ok (rq_inner rq) then batch_outputs grpc_level id (rq_inner rq) else [], m')
  else Ret (Err (mkStatus CodeResourceExhausted
                   "Telemetry rate limit exceeded. Try again in 60 seconds."), [], m').
Proof.
  intros Hip. unfold submit_telemetry. rewrite Hip.
  destruct (check_rate_limit m ip np now) as [[] m']; cbn [negb]; [|done].
  unfold size_answer, batch_ok. bdestr; try lia; cbn; try done.
  rewrite sanitize_fit. cbn. by rewrite process_events_grpc_eq.
Qed.
End Grpc.

(** *** The JSON handler *)
Lemma json_events_eq sid (events : list JsonTelemetryEvent) acc :
  for_each (json_event sid) acc events =
  Ret (acc ++ (events ≫= fun e =>
         event_outputs sid (json_level (te_level e)) (d_as_u64 (te_timestamp_ms e)) e)).
Proof. apply for_each_append. intros out e. unfold json_event. by rewrite log_record_eq. Qed.

Lemma json_allowed m addr batch np now :
  json_telemetry_handler m addr batch np now =
  let '(allowed, m') := check_rate_limit m (sa_ip addr) np now in
  if negb allowed then Ret (HttpTooManyRequests, "rate limit exceeded", [], m')
  else if batch_ok batch then Ret (HttpOk, "accepted", batch_outputs json_level d_as_u64 batch, m')
  else if MAX_BATCH_SIZE <? Z.of_nat (length (tb_events batch))
  then Ret (HttpBadRequest, "batch too large", [], m')
  else Ret (HttpBadRequest, "session_id too long", [], m').
Proof.
  unfold json_telemetry_handler. destruct (check_rate_limit m (sa_ip addr) np now) as [[] m'];
    cbn [negb]; [|done].
  unfold batch_ok. bdestr; try lia; cbn; try done.
  rewrite sanitize_fit. cbn. rewrite json_events_eq.
  destruct batch as [[|e es] sid]; cbn; by rewrite ?sanitize_fit.
Qed.


(** A gRPC batch is accepted exactly when the client's address can be determined,
    the limiter lets the address through, the batch has at most 256 events and its session id at
    most 128 bytes; the log records are then those of its events, one each and in order, under
    the event's level; and a request without an address leaves the limiter untouched. *)
Theorem submit_telemetry_spec {T R} `{!TelemetryProto} m np now (rq : Request (TelemetryBatch T R)) :
  exists r out m', submit_telemetry m rq np now = Ret (r, out, m') /\
    (r = Ok () <-> exists ip, extract_client_ip rq = Some ip /\
                     (check_rate_limit m ip np now).1 = true /\ batch_ok (rq_inner rq) = true) /\
    (r = Ok () -> filter is_log out =
       (fun e => OLog (grpc_level (te_level e))
          (event_record (batch_session (rq_inner rq)) (te_timestamp_ms e) e)) <$>
         tb_events (rq_inner rq)) /\
    (extract_client_ip rq = None -> m' = m) /\
    (forall ip, extract_client_ip rq = Some ip -> m' = (check_rate_limit m ip np now).2).
Proof.
  destruct (extract_client_ip rq) as [ip|] eqn:Hip.
  - rewrite (submit_allowed _ _ ip) by done.
    destruct (check_rate_limit m ip np now) as [b m'] eqn:Ec.
    destruct b; eexists _, _, m'; (split; [done|]).
    + assert (Hiff : size_answer (rq_inner rq) = Ok () <-> batch_ok (rq_inner rq) = true).
      { rewrite <- size_answer_ok. destruct (size_answer _) as [[]|]; cbn; by split. }
      split_and!.
      * rewrite Hiff. split; [intros Hb; exists ip; by rewrite Ec|]. intros (ip' & [= <-] & _ & Hb). done.
      * intros ->%Hiff. exact (batch_outputs_logs _ id _).
      * done.
      * intros ip' [= <-]. by rewrite Ec.
    + split_and!; [| done | done | intros ip' [= <-]; by rewrite Ec].
      split; [done|]. intros (ip' & [= <-] & Hc & _). rewrite Ec in Hc. done.
  - unfold submit_telemetry. rewrite Hip. eexists _, _, m. split; [done|].
    split_and!; [split; [done | by intros (ip & ? & _)] | done | done | done].
Qed.

(** ** The handlers agree *)

(** The outputs of the gRPC handler with its timestamps read as the JSON handler reads them. *)
Definition map_timestamps {T T' R} (f : T -> T') (o : output T R) : output T' R :=
  match o with
  | OHistogram n v => OHistogram n v
  | OGauge n v => OGauge n v
  | OCounter n l k => OCounter n l k
  | OLog l r => OLog l (mkLogRecord (lg_session_id r) (lg_trace_id r) (lg_span_name r) (lg_target r)
                          (f (lg_timestamp_ms r)) (lg_rtt_ms r) (lg_message r))
  end.

Lemma map_timestamps_metrics {T T' R} (f : T -> T') msg :
  map_timestamps f <$> record_wasm_metrics (R := R) msg = record_wasm_metrics msg.
Proof.
  unfold record_wasm_metrics. induction (split_whitespace msg) as [|p ps IH]; [done|]. cbn.
  rewrite fmap_app. f_equal; [|exact IH]. unfold record_part.
  destruct (split_once 61 p) as [[key val]|]; [|done]. case_match; [|done].
  unfold metric_output. by repeat case_match.
Qed.

Lemma map_timestamps_batch {T T' R} lv lv' (f : T -> T') (b : TelemetryBatch T R) :
  (forall n, lv n = lv' n) ->
  map_timestamps f <$> batch_outputs lv id b = batch_outputs lv' f b.
Proof.
  intros Hlv. unfold batch_outputs. cbn. f_equal.
  induction (tb_events b) as [|e es IH]; [done|]. cbn. rewrite fmap_app. f_equal; [|exact IH].
  unfold event_outputs, snapshot_metrics. rewrite fmap_app, Hlv. f_equal.
  case_bool_decide; [apply map_timestamps_metrics | done].
Qed.

Lemma grpc_level_json `{!TelemetryProto, !TelemetryProtoLaws} n : grpc_level n = json_level n.
Proof.
  unfold grpc_level, json_level. destruct (Z.eqb_spec n 3) as [->|H3]; [by rewrite try_from_error|].
  destruct (Z.eqb_spec n 2) as [->|H2]; [by rewrite try_from_warn|].
  destruct (telemetry_level_try_from n) as [l|] eqn:E; [|done].
  destruct (try_from_other n l) as [->| ->]; done.
Qed.

Definition http_of {A} (r : result A Status) : StatusCode :=
  match r with
  | Ok _ => HttpOk
  | Err e => if decide (st_code e = CodeResourceExhausted) then HttpTooManyRequests else HttpBadRequest
  end.

(** C30 (equivalence): the two endpoints process a batch alike: for the same batch from the same
    address, on the same limiter and at the same time, they accept or refuse together (with
    corresponding codes), emit the same metrics and log records in the same order, up to the
    representation of the timestamp, and leave the limiter in the same state.  The hypothesis on
    the protocol is the numbering of the levels the JSON handler writes out. *)
Theorem handlers_agree `{!TelemetryProto, !TelemetryProtoLaws} m np now addr
    (rq : Request JsonTelemetryBatch) :
  extract_client_ip rq = Some (sa_ip addr) ->
  exists r out c msg out' m',
    submit_telemetry m rq np now = Ret (r, out, m') /\
    json_telemetry_handler m addr (rq_inner rq) np now = Ret (c, msg, out', m') /\
    c = http_of r /\ out' = map_timestamps d_as_u64 <$> out.
Proof.
  intros Hip. rewrite (submit_allowed _ _ (sa_ip addr)), json_allowed by done.
  destruct (check_rate_limit m (sa_ip addr) np now) as [[] m']; cbn [negb].
  - pose proof (size_answer_ok (rq_inner rq)) as Hs. destruct (batch_ok (rq_inner rq)).
    + eexists _, _, _, _, _, m'. split_and!; [done | done | |].
      * by destruct (size_answer _).
      * symmetry. apply map_timestamps_batch, grpc_level_json.
    + unfold size_answer in *. case_match; [|case_match; [|done]];
        eexists _, _, _, _, _, m'; by split_and!.
  - eexists _, _, _, _, _, m'. by split_and!.
Qed.

(** ** Whose address is counted *)
Lemma forwarded_loop_v4 parts ip :
  forwarded_loop parts = Some (Some ip) -> exists a b c d, ip = V4 a b c d.
Proof.
  induction parts as [|part parts IH]; cbn [forwarded_loop]; [done|].
  destruct (strip_prefix (lit "for=") (trim part)) as [v|]; [|exact IH].
  destruct (head (split 58 (trim_matches 34 v))) as [s|] eqn:Eh; [|discriminate].
  destruct (parse_ip s) as [ip'|] eqn:Ep; [|exact IH]. intros [= <-].
  destruct ip' as [a b c d|gs]; [eauto|]. exfalso.
  apply parse_ip_v6_colon in Ep. revert Ep. apply (split_no_sep 58 (trim_matches 34 v)).
  destruct (split 58 (trim_matches 34 v)); [done|]. injection Eh as <-. set_solver.
Qed.

(** The characters of an IPv4 address. *)
Definition v4_char (c : char) : Prop := c = 46 \/ 48 <= c <= 57.

Lemma show_octet_chars n : 0 <= n <= 255 -> Forall v4_char (show_octet n).
Proof.
  intros Hn. unfold show_octet, v4_char.
  assert (0 <= n mod 10 < 10) by (apply Z.mod_pos_bound; lia).
  assert (0 <= (n / 10) mod 10 < 10) by (apply Z.mod_pos_bound; lia).
  assert (0 <= n / 100 < 10) by (split; [apply Z.div_pos | apply Z.div_lt_upper_bound]; lia).
  assert (0 <= n / 10) by (apply Z.div_pos; lia).
  assert (n < 100 -> n / 10 < 10) by (intros; apply Z.div_lt_upper_bound; lia).
  destruct (Z.ltb_spec n 10); [|destruct (Z.ltb_spec n 100)];
    rewrite ?Forall_cons; split_and?; try constructor; lia.
Qed.

(** An address of IPv4: four octets. *)
Definition octets (a b c d : Z) : Prop :=
  0 <= a <= 255 /\ 0 <= b <= 255 /\ 0 <= c <= 255 /\ 0 <= d <= 255.

Lemma show_v4_chars a b c d : octets a b c d -> Forall v4_char (show_v4 a b c d).
Proof.
  intros (Ha & Hb & Hc & Hd). unfold show_v4.
  repeat (apply Forall_app; split; [by apply show_octet_chars|]; constructor; [by left|]).
  by apply show_octet_chars.
Qed.

Lemma v4_chars_trim (f : char -> bool) s :
  (forall c, v4_char c -> f c = false) -> Forall v4_char s -> trim_end_by f (trim_start_by f s) = s.
Proof.
  intros Hf Hs. unfold trim_end_by, trim_start_by.
  assert (forall l, Forall v4_char l -> skip_while f l = l) as Hskip.
  { intros l [|c l' Hc _]; cbn; [done|]. by rewrite Hf. }
  rewrite (Hskip s Hs), Hskip; [apply rev_involutive|]. by apply Forall_rev.
Qed.

Lemma v4_chars_absent x s : ~ v4_char x -> Forall v4_char s -> x ∉ s.
Proof. intros Hx Hs Hin. rewrite Forall_forall in Hs. by apply Hx, Hs. Qed.

(** The header [for=a.b.c.d]. *)
Definition forwarded_for (a b c d : Z) : str := lit "for=" ++ show_v4 a b c d.

Lemma v4_char_visible c : v4_char c -> is_whitespace c = false.
Proof.
  intros Hc. unfold v4_char in Hc.
  assert (c = 46 \/ c = 48 \/ c = 49 \/ c = 50 \/ c = 51 \/ c = 52 \/ c = 53 \/ c = 54 \/ c = 55 \/
          c = 56 \/ c = 57) as H by lia.
  repeat destruct H as [->|H]; [reflexivity..|]. by subst.
Qed.

Lemma trim_forwarded s : Forall v4_char s -> trim (lit "for=" ++ s) = lit "for=" ++ s.
Proof.
  intros Hs. unfold trim, trim_end_by, trim_start_by.
  change (skip_while is_whitespace (lit "for=" ++ s)) with (lit "for=" ++ s).
  assert (skip_while is_whitespace (rev (lit "for=" ++ s)) = rev (lit "for=" ++ s)) as ->;
    [|apply rev_involutive].
  rewrite rev_app_distr. assert (Forall v4_char (rev s)) as Hr by (by apply Forall_rev).
  destruct Hr as [|c r Hc _]; [done|]. cbn [app skip_while]. by rewrite v4_char_visible.
Qed.

Lemma forwarded_for_ip a b c d :
  octets a b c d -> forwarded_loop (split 59 (forwarded_for a b c d)) = Some (Some (V4 a b c d)).
Proof.
  intros Ho. pose proof (show_v4_chars a b c d Ho) as Hc. unfold forwarded_for.
  rewrite split_no_occurrence.
  - cbn [forwarded_loop]. rewrite trim_forwarded by done.
    change (strip_prefix (lit "for=") (lit "for=" ++ show_v4 a b c d)) with (Some (show_v4 a b c d)).
    cbv iota. unfold trim_matches. rewrite v4_chars_trim; [| |exact Hc].
    + rewrite split_no_occurrence by (eapply v4_chars_absent; [|exact Hc]; unfold v4_char; lia).
      cbn [head]. destruct Ho as (Ha & Hb & Hc' & Hd). by rewrite parse_ip_show_v4.
    + intros x Hx. unfold v4_char in Hx. apply Z.eqb_neq. lia.
  - rewrite elem_of_app. intros [H|H].
    + change (lit "for=") with [102; 111; 114; 61] in H. set_solver.
    + revert H. eapply v4_chars_absent; [|exact Hc]. unfold v4_char. lia.
Qed.

Lemma unseen_accepted m ip np now : m !! ip = None -> (check_rate_limit m ip np now).1 = true.
Proof.
  intros Hm. unfold check_rate_limit.
  assert (forall m', m' !! ip = None -> (count_request m' ip now).1 = true) as Hc.
  { intros m' Hm'. assert (sat_sub now now = 0) as Hz by (unfold sat_sub; lia).
    unfold count_request. rewrite Hm'. cbn. by rewrite Hz. }
  case_match; apply Hc; [|done]. unfold prune_expired_entries. apply map_lookup_filter_None. by left.
Qed.

(** The address the limiter counts is the one the client writes into its own
    [Forwarded] header, whatever the peer address: every IPv4 address can be claimed, a request
    that claims an address the limiter has not seen is never refused by it, and so a client that
    varies the header is not limited at all.  An IPv6 address, on the other hand, is never taken
    from the header, because the value is cut at its first colon. *)
Theorem client_names_its_address {T R} `{!TelemetryProto} m np now a b c d xff remote
    (batch : TelemetryBatch T R) :
  octets a b c d ->
  let rq := mkRequest (Some (forwarded_for a b c d)) xff remote batch in
  extract_client_ip rq = Some (V4 a b c d) /\
  (m !! V4 a b c d = None ->
   exists r out m', submit_telemetry m rq np now = Ret (r, out, m') /\ http_of r <> HttpTooManyRequests) /\
  (forall header ip, forwarded_loop (split 59 header) = Some (Some ip) -> exists a b c d, ip = V4 a b c d).
Proof.
  intros Ho rq. assert (Hip : extract_client_ip rq = Some (V4 a b c d)).
  { unfold extract_client_ip, rq. cbn [rq_forwarded mbind option_bind]. by rewrite forwarded_for_ip. }
  split_and!; [done | | intros header ip; apply forwarded_loop_v4].
  intros Hm. rewrite (submit_allowed _ _ _ _ _ Hip).
  pose proof (unseen_accepted m (V4 a b c d) np now Hm) as Hc.
  destruct (check_rate_limit m (V4 a b c d) np now) as [bb m']. cbn in Hc. subst bb.
  eexists _, _, _. split; [done|]. unfold size_answer. by repeat case_match.
Qed.

(** ** Witnesses *)
Module TelemetryWitness.

(** The numbering of the protocol's levels. *)
#[export] Instance demo_proto : TelemetryProto := {|
  telemetry_level_try_from n :=
    if n =? 0 then Some LevelUnspecified else if n =? 1 then Some LevelInfo
    else if n =? 2 then Some LevelWarn else if n =? 3 then Some LevelError else None |}.

#[export] Instance demo_proto_laws : TelemetryProtoLaws.
Proof.
  split; [done | done |]. intros n l H2 H3. cbn. bdestr; try lia; intros [= <-]; by (left + right).
Qed.

(** Text with a line break, a carriage return and a three-byte character. *)
Definition noisy : str := lit "ab" ++ [10; 13; 0x20AC] ++ lit "cd".

Lemma sanitize_spec_witness :
  0 <= 6 /\ sanitize noisy 6 = Ret (lit "ab" ++ [0x20AC] ++ lit "c") /\
  exists r rest, sanitize noisy 6 = Ret r /\ field_ok 6 r /\ clean_text noisy = r ++ rest.
Proof.
  split; [lia|]. split; [vm_compute; reflexivity|].
  destruct (sanitize_spec noisy 6) as (r & rest & H1 & H2 & H3 & _); [lia|]. by exists r, rest.
Defined.

(** Sixty requests at the end of one window and sixty at the start of the next. *)
Definition straddle : list tl_op :=
  [TCount (V4 1 2 3 4) 0] ++ repeat (TCount (V4 1 2 3 4) 59) 60 ++ [TPrune 60] ++
  repeat (TCount (V4 1 2 3 4) 60) 61.

Lemma straddle_chronological : tl_chronological straddle.
Proof. apply Sorted_LocallySorted_iff. vm_compute. repeat constructor; discriminate. Qed.

Lemma telemetry_accepted_per_minute_witness :
  accepted_within 60 1 (tl_log (V4 1 2 3 4) (tl_answers ∅ straddle)) = 119 /\
  accepted_within 60 1 (tl_log (V4 1 2 3 4) (tl_answers ∅ straddle)) <= 120.
Proof.
  split; [vm_compute; reflexivity|].
  exact (telemetry_accepted_per_minute (V4 1 2 3 4) straddle 1 straddle_chronological).
Defined.

Lemma prune_unobservable_witness :
  tl_answers ∅ [TCount (V4 9 9 9 9) 0; TPrune 130; TCount (V4 9 9 9 9) 131] =
  tl_answers ∅ [TCount (V4 9 9 9 9) 0; TCount (V4 9 9 9 9) 131].
Proof.
  exact (prune_unobservable [TCount (V4 9 9 9 9) 0; TPrune 130; TCount (V4 9 9 9 9) 131]
           ltac:(unfold tl_chronological; cbn; repeat constructor; lia)).
Defined.

Definition demo_event : JsonTelemetryEvent :=
  mkTelemetryEvent (d_of_Z 12) 2 (lit "render") (lit "fps=60.0 rtt=12.3ms dropped=2 bad=inf") None
    (lit "t1") (lit "metrics_snapshot").
Definition demo_request : Request JsonTelemetryBatch :=
  mkRequest None None (Some (mkSocketAddr (V4 1 2 3 4) 5000))
    (mkTelemetryBatch [demo_event] (lit "session")).

Lemma handlers_agree_witness :
  exists r out c msg out' m',
    submit_telemetry ∅ demo_request 100 100 = Ret (r, out, m') /\
    json_telemetry_handler ∅ (mkSocketAddr (V4 1 2 3 4) 5000) (rq_inner demo_request) 100 100 =
      Ret (c, msg, out', m') /\
    c = http_of r /\ out' = map_timestamps d_as_u64 <$> out /\ length out = 6%nat.
Proof.
  destruct (handlers_agree ∅ 100 100 (mkSocketAddr (V4 1 2 3 4) 5000) demo_request eq_refl)
    as (r & out & c & msg & out' & m' & H1 & H2 & H3 & H4).
  exists r, out, c, msg, out', m'. split_and!; [exact H1 | exact H2 | exact H3 | exact H4 |].
  assert (match submit_telemetry (∅ : RateLimits) demo_request 100 100 with
          | Ret (_, o, _) => length o | _ => O end = 6%nat) as E by (vm_compute; reflexivity).
  rewrite H1 in E. exact E.
Defined.

Lemma client_names_its_address_witness :
  extract_client_ip (mkRequest (Some (forwarded_for 203 0 113 7)) None
    (Some (mkSocketAddr (V4 1 2 3 4) 5000)) (mkTelemetryBatch [demo_event] [])) = Some (V4 203 0 113 7).
Proof.
  apply (client_names_its_address ∅ 0 0 203 0 113 7 None (Some (mkSocketAddr (V4 1 2 3 4) 5000))
           (mkTelemetryBatch [demo_event] [])).
  unfold octets. lia.
Defined.

End TelemetryWitness.
