(* ===== verification/Email.v ===== *)
(** * E-mail senders ([aetheris-server/src/auth/email.rs])

    The one-time codes are sent by one of three implementations of [EmailSender]: one that writes
    to the log, one over SMTP and one over the HTTP interface of Resend.  The libraries (lettre,
    reqwest) and what is behind them are classes over the state [W] of the outside world. *)

From stdpp Require Import strings list.
From Stdlib Require Import ZArith Lia.
From S2P Require Import Prelude.

Open Scope Z_scope.

(** lettre: a relay with credentials, addresses, the message with its two alternatives, sending. *)
Class Lettre (W : Type) : Type := {
  SmtpTransport : Type;
  Mailbox : Type;
  Message : Type;
  smtp_relay : string -> string -> string -> result SmtpTransport string;
  parse_mailbox : string -> result Mailbox string;
  build_message : Mailbox -> Mailbox -> string -> string -> string -> result Message string;
  smtp_send : W -> SmtpTransport -> Message -> result unit string * W;
}.

(** The JSON body of a Resend request. *)
Record ResendBody := mkResendBody {
  rb_from : string; rb_to : list string; rb_subject : string; rb_text : string; rb_html : string }.

(** A response: the status and, if it can be read, the text. *)
Record HttpResponse := mkResponse { hr_status : Z; hr_text : option string }.

(** reqwest: a client with a timeout, a connection timeout (seconds) and a pool size, or a default
    client; [POST] with an [Authorization] header; and the printed form of a status. *)
Class Reqwest (W : Type) : Type := {
  HttpClient : Type;
  client_build : Z -> Z -> Z -> option HttpClient;
  client_default : HttpClient;
  http_post : W -> HttpClient -> string -> string -> ResendBody -> result HttpResponse string * W;
  show_status : Z -> string;
}.

Section Email.
Context {W : Type} `{!Lettre W, !Reqwest W}.
Context (env : string -> option string).

Record LettreSmtpEmailSender := mkSmtp { sm_transport : SmtpTransport; sm_from : string }.
Record ResendEmailSender := mkResend { rs_client : HttpClient; rs_api_key : string; rs_from : string }.

(** [Arc<dyn EmailSender>]. *)
Inductive EmailSender :=
| LogEmailSender
| SmtpSender (s : LettreSmtpEmailSender)
| ResendSender (s : ResendEmailSender).

(** [std::env::var(name).map_err(|_| "NAME missing")?]. *)
Definition required {A} (name : string) (k : string -> result A string) : result A string :=
  match env name with Some v => k v | None => Err (name +:+ " missing") end.

(** [LettreSmtpEmailSender::from_env]. *)
Definition smtp_from_env : result LettreSmtpEmailSender string :=
  required "SMTP_URL" (fun smtp_url =>
  required "SMTP_USERNAME" (fun smtp_user =>
  required "SMTP_PASSWORD" (fun smtp_pass =>
  required "SMTP_FROM" (fun from =>
  match smtp_relay smtp_url smtp_user smtp_pass with
  | Ok transport => Ok (mkSmtp transport from)
  | Err e => Err e
  end)))).

(** [ResendEmailSender::new]. *)
Definition resend_new (api_key from : string) : ResendEmailSender :=
  mkResend (default client_default (client_build 10 5 2)) api_key from.

(** [ResendEmailSender::from_env]. *)
Definition resend_from_env : result ResendEmailSender string :=
  required "RESEND_API_KEY" (fun api_key =>
  Ok (resend_new api_key (default "onboarding@resend.dev" (env "RESEND_FROM")))).

(** [status().is_success()]. *)
Definition is_success (status : Z) : bool := (200 <=? status) && (status <=? 299).

(** [LettreSmtpEmailSender::send]. *)
Definition smtp_email_send (w : W) (s : LettreSmtpEmailSender) (to subject plaintext html : string) :
    result unit string * W :=
  match parse_mailbox (sm_from s) with
  | Err e => (Err e, w)
  | Ok from =>
      match parse_mailbox to with
      | Err e => (Err e, w)
      | Ok to =>
          match build_message from to subject plaintext html with
          | Err e => (Err e, w)
          | Ok email => smtp_send w (sm_transport s) email
          end
      end
  end.

(** [ResendEmailSender::send]. *)
Definition resend_send (w : W) (s : ResendEmailSender) (to subject plaintext html : string) :
    result unit string * W :=
  let body := mkResendBody (rs_from s) [to] subject plaintext html in
  match http_post w (rs_client s) "https://api.resend.com/emails" ("Bearer " +:+ rs_api_key s) body with
  | (Err e, w) => (Err e, w)
  | (Ok response, w) =>
      if is_success (hr_status response) then (Ok (), w)
      else (Err ("Resend API error (" +:+ show_status (hr_status response) +:+ "): " +:+
                 default "" (hr_text response)), w)
  end.

(** [EmailSender::send]; the sender for development logs the recipient and the subject, and the
    body at the debug level. *)
Definition email_send (w : W) (s : EmailSender) (to subject plaintext html : string) :
    result unit string * W :=
  match s with
  | LogEmailSender => (Ok (), w)
  | SmtpSender s => smtp_email_send w s to subject plaintext html
  | ResendSender s => resend_send w s to subject plaintext html
  end.

(** ** Properties *)

(** The message reached the provider, which took it. *)
Definition handed_over (w : W) (s : EmailSender) (to subject plaintext html : string) (w' : W) : Prop :=
  match s with
  | LogEmailSender => False
  | SmtpSender s => exists from rcpt email,
      parse_mailbox (sm_from s) = Ok from /\ parse_mailbox to = Ok rcpt /\
      build_message from rcpt subject plaintext html = Ok email /\
      smtp_send w (sm_transport s) email = (Ok (), w')
  | ResendSender s => exists response,
      http_post w (rs_client s) "https://api.resend.com/emails" ("Bearer " +:+ rs_api_key s)
        (mkResendBody (rs_from s) [to] subject plaintext html) = (Ok response, w') /\
      200 <= hr_status response <= 299
  end.

(** A sender other than the log reports success exactly when the provider took the message. *)
Lemma email_send_ok w s to subject plaintext html w' :
  s <> LogEmailSender ->
  email_send w s to subject plaintext html = (Ok (), w') <-> handed_over w s to subject plaintext html w'.
Proof.
  intros Hs. destruct s as [|s|s]; [done|..]; cbn.
  - unfold smtp_email_send. destruct (parse_mailbox (sm_from s)) as [from|e] eqn:E1;
      [|split; [done|by intros (? & ? & ? & [=] & _)]].
    destruct (parse_mailbox to) as [rcpt|e] eqn:E2; [|split; [done|by intros (? & ? & ? & _ & [=] & _)]].
    destruct (build_message from rcpt subject plaintext html) as [email|e] eqn:E3.
    + split; [by eauto 8|]. intros (? & ? & ? & [= <-] & [= <-] & E & H). congruence.
    + split; [done|]. intros (? & ? & ? & [= <-] & [= <-] & E & _). congruence.
  - unfold resend_send. destruct (http_post _ _ _ _ _) as [[response|e] w1] eqn:E.
    + unfold is_success. destruct (Z.leb_spec 200 (hr_status response)), (Z.leb_spec (hr_status response) 299); cbn.
      * split; [intros [= <-]; eauto|]. by intros (? & [= <- <-] & _).
      * split; [done|]. intros (? & [= <- <-] & ?). lia.
      * split; [done|]. intros (? & [= <- <-] & ?). lia.
      * split; [done|]. intros (? & [= <- <-] & ?). lia.
    + split; [done|]. by intros (? & ? & _).
Qed.
End Email.
