(* ===== verification/Auth.v ===== *)
(** * The authentication service ([auth/mod.rs], [auth/google.rs])

    One-time passwords, Google sign-in, session tokens and their activity window.  Every gRPC
    handler is a computation of a state and error monad over [AuthServiceImpl]: [?] on an error
    returns it and keeps the state changes made so far, as in the source.

    The time read by [Utc::now()], the numbers drawn from the random generator, the identifiers
    [Ulid::new()] returns and the nonce of the token encryption are arguments of the handlers.
    PASETO, BLAKE2b, SHA-256, ULID, base64, hex and OpenID Connect are the fields of the class
    [AuthLib]; what the source relies on of them is the class [AuthLibLaws].  The two
    [DashMap]s, shared between requests, are finite maps: a handler's accesses to a map are the
    atomic steps of [DashMap], and handlers are run one after the other; [AuthTasks.v] interleaves them. *)

From stdpp Require Import gmap strings list pretty.
From Stdlib Require Import ZArith Lia.
From S2P Require Import Prelude RateLimit.

Open Scope Z_scope.

(** ** Strings *)

(** The Unicode-table functions of [str] that the service calls. *)
Class RustStr : Type := {
  str_trim : string -> string;
  str_to_lowercase : string -> string;
}.

(** [str::trim_start_matches] with a string pattern: strips the pattern as often as it occurs at
    the front. *)
Fixpoint trim_start_matches_fuel (fuel : nat) (pat s : string) : string :=
  match fuel with
  | O => s
  | S fuel =>
      if String.prefix pat s && negb (String.eqb pat "")
      then trim_start_matches_fuel fuel pat
             (String.substring (String.length pat) (String.length s - String.length pat) s)
      else s
  end.
Definition trim_start_matches (pat s : string) : string :=
  trim_start_matches_fuel (String.length s) pat s.

(** [format!("{:06}", n)]. *)
Fixpoint zeros (n : nat) : string := match n with O => "" | S n => "0" +:+ zeros n end.
Definition format_06 (n : Z) : string :=
  let s := pretty n in zeros (6 - String.length s) +:+ s.

(** [s.as_bytes()]. *)
Definition as_bytes (s : string) : list Z :=
  (fun a => Z.of_N (Ascii.N_of_ascii a)) <$> String.list_ascii_of_string s.

(** ** Time: nanoseconds since the epoch *)
Definition NANOS : Z := 1000000000.
Definition timestamp (t : Z) : Z := t / NANOS.
Definition timestamp_millis (t : Z) : Z := t / 1000000.
Definition minutes (n : Z) : Z := n * 60 * NANOS.
Definition hours (n : Z) : Z := n * 3600 * NANOS.
(** [as u64]. *)
Definition as_u64 (x : Z) : Z := x mod 2 ^ 64.

(** ** The libraries the service calls *)

(** A claim of a token: a JSON value, of which the service reads strings only. *)
Inductive ClaimValue := ClaimStr (s : string) | ClaimNum (n : Z).
Abbreviation Claims := (gmap string ClaimValue).

(** [claims.get(k).and_then(|v| v.as_str())]. *)
Definition get_str (claims : Claims) (k : string) : option string :=
  match claims !! k with Some (ClaimStr s) => Some s | _ => None end.

Class AuthLib : Type := {
  Key : Type;
  GoogleOidcClient : Type;
  IdToken : Type;
  (** [PasetoSymmetricKey::from(Key::<32>::from(bytes))]. *)
  key_from : string -> Key;
  (** [IssuedAtClaim::try_from(t.to_rfc3339())], [ExpirationClaim::try_from(t.to_rfc3339())]. *)
  time_claim : Z -> option string;
  (** [CustomClaim::try_from]: rejects the names of the registered claims. *)
  custom_claim : string -> ClaimValue -> option ClaimValue;
  (** [PasetoBuilder::default()], which reads the clock, with the given claims set, and [build],
      with the nonce it draws. *)
  paseto_build : Key -> Claims -> Z -> Z -> result string string;
  (** [PasetoParser::parse] at an instant. *)
  paseto_parse : Key -> Z -> string -> option Claims;
  blake2b256 : string -> string;
  sha256 : string -> list Z;
  ulid_to_string : Z -> string;
  base64_encode : list Z -> string;
  hex_encode : list Z -> string;
  (** [CoreIdToken::from_str], [IdToken::claims] with the client's verifier and the nonce, and
      the [sub] of the claims. *)
  id_token_from_str : string -> result IdToken string;
  id_token_claims : GoogleOidcClient -> IdToken -> string -> result string string;
}.

(** What the service relies on: an RFC 3339 time is accepted as a time claim; a token parses,
    with the key it was built with, after the instant its builder was made and before its expiry,
    to the claims that were set and the [nbf] that the builder adds where none is set; a
    BLAKE2b-256 digest has 32 bytes. *)
Class AuthLibLaws `{!AuthLib} : Prop := {
  time_claim_total t : is_Some (time_claim t);
  paseto_roundtrip key claims built seed token now exp x :
    paseto_build key claims built seed = Ok token -> claims !! "nbf" = None ->
    claims !! "exp" = Some (ClaimStr x) -> time_claim exp = Some x -> built < now < exp ->
    exists nbf, paseto_parse key now token = Some (<["nbf" := ClaimStr nbf]> claims);
  blake2b256_length m : String.length (blake2b256 m) = 32%nat;
}.

(** ** Data *)
Record VerifiedSession := mkVerifiedSession { vs_player_id : string; vs_jti : string }.

Inductive AuthError :=
| InvalidToken | MissingJti | MissingSub | SessionExpired | RateLimitExceeded (msg : string).

(** [#[error("..")]]. *)
Definition auth_error_to_string (e : AuthError) : string :=
  match e with
  | InvalidToken => "Invalid session token"
  | MissingJti => "Session missing jti claim"
  | MissingSub => "Session missing sub claim"
  | SessionExpired => "Session revoked or expired"
  | RateLimitExceeded msg => "Authentication rate limit exceeded: " +:+ msg
  end.

(** [From<AuthError> for tonic::Status]. *)
Definition status_from_auth_error (e : AuthError) : Status :=
  match e with
  | RateLimitExceeded msg => mkStatus CodeResourceExhausted msg
  | _ => mkStatus CodeUnauthenticated (auth_error_to_string e)
  end.

Record OtpRecord := mkOtpRecord {
  otp_email : string; otp_code_hash : string; otp_google_nonce : option string;
  otp_expires_at : Z; otp_attempts : Z }.

(** A call of [EmailSender::send]. *)
Record SentEmail := mkSentEmail {
  em_to : string; em_subject : string; em_plaintext : string; em_html : string }.

Inductive LoginMethod := EmailOtp | GoogleOidc.

Record OtpRequestAck := mkOtpRequestAck {
  oa_request_id : string; oa_expires_at_unix_ms : Z; oa_retry_after_seconds : option Z }.

(** [login_request::Method]. *)
Inductive Method :=
| MOtp (request_id code : string)
| MGoogle (google_id_token nonce_handle : string).

Record LoginResponse := mkLoginResponse {
  lr_session_token : string; lr_expires_at_unix_ms : Z; lr_player_id : string;
  lr_is_new_player : bool; lr_login_method : LoginMethod }.

Record RefreshResponse := mkRefreshResponse {
  rr_session_token : string; rr_expires_at_unix_ms : Z }.

Record QuicConnectToken := mkQuicConnectToken {
  qt_paseto : string; qt_server_address : string; qt_expires_at_unix_ms : Z; qt_client_id : Z }.

Record GoogleLoginNonceResponse := mkGoogleLoginNonceResponse {
  gn_nonce_handle : string; gn_nonce : string; gn_expires_at_unix_ms : Z }.

(** What minting a token draws: the time, the time its builder reads, an identifier and the
    encryption nonce. *)
Record MintInputs := mkMintInputs { mi_now : Z; mi_built : Z; mi_ulid : string; mi_seed : Z }.

Section Service.
Context `{!AuthLib, !RustStr}.

(** [email_sender] is the list of the messages handed to the sender. *)
Record AuthServiceImpl := mkAuthService {
  otp_store : gmap string OtpRecord;
  session_activity : gmap string Z;
  player_registry : gset string;
  email_sender : list SentEmail;
  google_client : option GoogleOidcClient;
  session_key : Key;
  transport_key : Key;
  rate_limiter : InMemoryRateLimiter;
  bypass_enabled : bool }.

Definition set_otp_store (f : gmap string OtpRecord -> gmap string OtpRecord)
    (s : AuthServiceImpl) : AuthServiceImpl :=
  mkAuthService (f (otp_store s)) (session_activity s) (player_registry s) (email_sender s)
    (google_client s) (session_key s) (transport_key s) (rate_limiter s) (bypass_enabled s).
Definition set_session_activity (f : gmap string Z -> gmap string Z) (s : AuthServiceImpl) :
    AuthServiceImpl :=
  mkAuthService (otp_store s) (f (session_activity s)) (player_registry s) (email_sender s)
    (google_client s) (session_key s) (transport_key s) (rate_limiter s) (bypass_enabled s).
Definition set_player_registry (f : gset string -> gset string) (s : AuthServiceImpl) :
    AuthServiceImpl :=
  mkAuthService (otp_store s) (session_activity s) (f (player_registry s)) (email_sender s)
    (google_client s) (session_key s) (transport_key s) (rate_limiter s) (bypass_enabled s).
Definition set_email_sender (f : list SentEmail -> list SentEmail) (s : AuthServiceImpl) :
    AuthServiceImpl :=
  mkAuthService (otp_store s) (session_activity s) (player_registry s) (f (email_sender s))
    (google_client s) (session_key s) (transport_key s) (rate_limiter s) (bypass_enabled s).
Definition set_rate_limiter (l : InMemoryRateLimiter) (s : AuthServiceImpl) : AuthServiceImpl :=
  mkAuthService (otp_store s) (session_activity s) (player_registry s) (email_sender s)
    (google_client s) (session_key s) (transport_key s) l (bypass_enabled s).

(** ** The handlers' monad *)
Definition M (A : Type) : Type := AuthServiceImpl -> exec (result A Status * AuthServiceImpl).

#[global] Instance M_ret : MRet M := fun A a s => Ret (Ok a, s).
#[global] Instance M_bind : MBind M := fun A B f m s =>
  match m s with
  | Ret (Ok a, s') => f a s'
  | Ret (Err e, s') => Ret (Err e, s')
  | Panic => Panic
  | Diverge => Diverge
  end.

Definition gets {A} (f : AuthServiceImpl -> A) : M A := fun s => Ret (Ok (f s), s).
Definition modify (f : AuthServiceImpl -> AuthServiceImpl) : M unit := fun s => Ret (Ok (), f s).
Definition throw {A} (e : Status) : M A := fun s => Ret (Err e, s).
Definition lift {A} (m : exec A) : M A :=
  fun s => match m with Ret a => Ret (Ok a, s) | Panic => Panic | Diverge => Diverge end.
(** [ok_or_else(..)?]. *)
Definition ok_or {A} (o : option A) (e : Status) : M A :=
  match o with Some a => mret a | None => throw e end.
(** [map_err(..)?]. *)
Definition or_throw {A E} (r : result A E) (f : E -> Status) : M A :=
  match r with Ok a => mret a | Err e => throw (f e) end.

(** ** Construction *)

(** [AuthServiceImpl::new], over the environment variables and the outcome of Google's
    discovery. *)
Definition auth_new (env : string -> option string) (google : option GoogleOidcClient) :
    exec AuthServiceImpl :=
  let env_name := default "dev" (env "AETHERIS_ENV") in
  let session_key_str := env "SESSION_PASETO_KEY" in
  let transport_key_str := env "TRANSPORT_PASETO_KEY" in
  let bypass :=
    match env "AETHERIS_AUTH_BYPASS" with
    | Some v =>
        let v := str_to_lowercase v in
        String.eqb v "1" || String.eqb v "true" || String.eqb v "yes" || String.eqb v "on"
    | None => false
    end in
  _ ← (if String.eqb env_name "production" then
         _ ← assert_ (negb bypass);
         assert_ (negb (negb (bool_decide (is_Some session_key_str)) ||
                        negb (bool_decide (is_Some transport_key_str))))
       else Ret ());
  session_key_val ←
    match session_key_str with
    | Some k => Ret k
    | None => _ ← assert_ (negb (String.eqb env_name "production"));
              Ret "01234567890123456789012345678901"
    end;
  transport_key_val ←
    match transport_key_str with
    | Some k => Ret k
    | None => _ ← assert_ (negb (String.eqb env_name "production"));
              Ret "01234567890123456789012345678901"
    end;
  _ ← assert_ (negb (negb (String.length session_key_val =? 32)%nat ||
                     negb (String.length transport_key_val =? 32)%nat));
  Ret (mkAuthService ∅ ∅ ∅ [] google (key_from session_key_val) (key_from transport_key_val)
         rate_limiter_new bypass).

(** ** Helpers *)
Definition normalize_email (email : string) : string := str_to_lowercase (str_trim email).

(** [u128::from_be_bytes]. *)
Definition u128_from_be_bytes (bs : list Z) : Z := foldl (fun acc b => acc * 256 + b) 0 bs.

Definition derive_player_id (method identifier : string) : string :=
  let hash := sha256 ("aetheris:" +:+ method +:+ ":" +:+ identifier) in
  ulid_to_string (u128_from_be_bytes (take 16 hash)).

(** The digest of a code and its request identifier ([hasher.update] twice). *)
Definition code_digest (code request_id : string) : string := blake2b256 (code +:+ request_id).

(** [GoogleOidcClient::verify_token]: the subject of the verified claims. *)
Definition verify_token (client : GoogleOidcClient) (id_token nonce : string) :
    result string Status :=
  match id_token_from_str id_token with
  | Err e => Err (mkStatus CodeUnauthenticated ("Malformed ID token: " +:+ e))
  | Ok token =>
      match id_token_claims client token nonce with
      | Err e => Err (mkStatus CodeUnauthenticated ("Invalid ID token claims: " +:+ e))
      | Ok claims => Ok claims
      end
  end.

(** The per-session offset that staggers the activity updates. *)
Definition jitter (jti : string) : Z := foldl (wrapping_add 64) 0 (as_bytes jti).

(** [is_session_authorized_with_tick]. *)
Definition is_session_authorized_with_tick (s : AuthServiceImpl) (jti : string)
    (tick : option Z) (now : Z) : bool * AuthServiceImpl :=
  match session_activity s !! jti with
  | Some activity =>
      let now := timestamp now in
      if 3600 <? now - activity then (false, s)
      else
        let needs_update :=
          match tick with
          | None => true
          | Some t => wrapping_add 64 t (jitter jti) mod 60 =? 0
          end in
        (true, if needs_update then set_session_activity (alter (fun _ => now) jti) s else s)
  | None => (false, s)
  end.

(** The claims of a session token. *)
Definition session_claims (player_id jti iat exp : string) : Claims :=
  <["exp" := ClaimStr exp]> (<["iat" := ClaimStr iat]>
    (<["jti" := ClaimStr jti]> (<["sub" := ClaimStr player_id]> ∅))).

(** [mint_session_token]. *)
Definition mint_session_token (player_id : string) (jti : option string) (mi : MintInputs) :
    M (string * Z) :=
  let jti := default (mi_ulid mi) jti in
  let iat := mi_now mi in
  let exp := iat + hours 24 in
  iat_claim ← lift (unwrap (time_claim iat));
  exp_claim ← lift (unwrap (time_claim exp));
  key ← gets session_key;
  token ← or_throw (paseto_build key (session_claims player_id jti iat_claim exp_claim)
                      (mi_built mi) (mi_seed mi))
                   (mkStatus CodeInternal);
  _ ← modify (set_session_activity (<[jti := timestamp iat]>));
  mret (token, as_u64 (timestamp_millis exp)).

(** [AuthSessionVerifier::verify_session]; the times of the parse and of the activity check. *)
Definition verify_session (s : AuthServiceImpl) (token : string) (tick : option Z)
    (now_parse now : Z) : result VerifiedSession AuthError * AuthServiceImpl :=
  match paseto_parse (session_key s) now_parse token with
  | None => (Err InvalidToken, s)
  | Some claims =>
      match get_str claims "jti" with
      | None => (Err MissingJti, s)
      | Some jti =>
          match get_str claims "sub" with
          | None => (Err MissingSub, s)
          | Some sub =>
              let '(b, s') := is_session_authorized_with_tick s jti tick now in
              if b then (Ok (mkVerifiedSession sub jti), s') else (Err SessionExpired, s')
          end
      end
  end.

(** [is_authorized]. *)
Definition is_authorized (s : AuthServiceImpl) (token : string) (now_parse now : Z) :
    bool * AuthServiceImpl :=
  let '(r, s') := verify_session s token None now_parse now in (is_ok r, s').
(** ** gRPC handlers *)

(** [self.rate_limiter.check_limit(..)?]. *)
Definition check_rate (t : RateLimitType) (identity : string) (now : Z) : M unit := fun s =>
  match check_limit (rate_limiter s) t identity now with
  | Ret (r, l) => Ret (r, set_rate_limiter l s)
  | Panic => Panic
  | Diverge => Diverge
  end.

(** What [request_otp] draws: the instants of the two rate checks, the number drawn from
    [0..1_000_000], the request identifier and the time. *)
Record OtpInputs := mkOtpInputs {
  oi_ip_instant : Z; oi_email_instant : Z; oi_number : Z; oi_ulid : string; oi_now : Z }.

(** [request_otp]; the message to the sender is spawned as a task and its outcome dropped. *)
Definition request_otp (remote_addr : option string) (req_email : string) (i : OtpInputs) :
    M OtpRequestAck :=
  bypass ← gets bypass_enabled;
  _ ← (if (bypass : bool) then mret ()
       else match remote_addr with
            | Some ip => check_rate Ip ip (oi_ip_instant i)
            | None => mret ()
            end);
  let email := normalize_email req_email in
  _ ← (if (bypass : bool) then mret () else check_rate Email email (oi_email_instant i));
  let code := format_06 (oi_number i) in
  let request_id := oi_ulid i in
  let expires_at := oi_now i + minutes 10 in
  let code_hash := code_digest code request_id in
  _ ← modify (set_otp_store (<[request_id := mkOtpRecord email code_hash None expires_at 0]>));
  _ ← modify (set_email_sender (fun sent => sent ++
        [mkSentEmail email "Your Aetheris OTP" ("Code: " +:+ code)
           ("<h1>Code: " +:+ code +:+ "</h1>")]));
  mret (mkOtpRequestAck request_id (as_u64 (timestamp_millis expires_at)) (Some 0)).

(** [entry.attempts += 1; if entry.attempts >= 3 { self.otp_store.remove(&request_id) }]. *)
Definition record_attempt (request_id : string) (entry : OtpRecord) : M unit :=
  attempts ← lift (chk_add 8 (otp_attempts entry) 1);
  _ ← modify (set_otp_store (<[request_id :=
        mkOtpRecord (otp_email entry) (otp_code_hash entry) (otp_google_nonce entry)
          (otp_expires_at entry) attempts]>));
  if 3 <=? attempts then modify (set_otp_store (delete request_id)) else mret ().

(** [self.player_registry.insert(player_id, ()).is_none()]. *)
Definition register_player (player_id : string) : M bool :=
  known ← gets (fun s => bool_decide (player_id ∈ player_registry s));
  _ ← modify (set_player_registry (fun r => {[player_id]} ∪ r));
  mret (negb known).

(** Registers the player and mints the token; the end of the three successful logins. *)
Definition open_session (player_id : string) (jti : option string) (method : LoginMethod)
    (mi : MintInputs) (consume : M unit) : M LoginResponse :=
  is_new_player ← register_player player_id;
  '(token, exp) ← mint_session_token player_id jti mi;
  _ ← consume;
  mret (mkLoginResponse token exp player_id is_new_player method).

(** [entry.email == "smoke-test@aetheris.dev" || entry.email.starts_with("bot_")]. *)
Definition bypass_email (email : string) : bool :=
  String.eqb email "smoke-test@aetheris.dev" || String.prefix "bot_" email.

(** [login] with [Method::Otp]; [now] is the time of the expiry check. *)
Definition login_otp (request_id code : string) (now : Z) (mi : MintInputs) : M LoginResponse :=
  store ← gets otp_store;
  entry ← ok_or (store !! request_id) (mkStatus CodeUnauthenticated "Invalid credentials");
  bypass ← gets bypass_enabled;
  if bypass && bypass_email (otp_email entry) && String.eqb code "000001" then
    open_session (derive_player_id "email" (otp_email entry)) (Some "admin") EmailOtp mi
      (modify (set_otp_store (delete request_id)))
  else if bypass && bypass_email (otp_email entry) && String.eqb code "000000" then
    _ ← record_attempt request_id entry;
    throw (mkStatus CodeUnauthenticated "Bypass: Forced failure for 000000")
  else if otp_expires_at entry <? now then
    _ ← modify (set_otp_store (delete request_id));
    throw (mkStatus CodeDeadlineExceeded "OTP expired")
  else if String.eqb (code_digest code request_id) (otp_code_hash entry) then
    open_session (derive_player_id "email" (otp_email entry)) None EmailOtp mi
      (modify (set_otp_store (delete request_id)))
  else
    _ ← record_attempt request_id entry;
    throw (mkStatus CodeUnauthenticated "Invalid code").

(** [login] with [Method::Google]. *)
Definition login_google (google_id_token nonce_handle : string) (mi : MintInputs) :
    M LoginResponse :=
  client ← gets google_client;
  client ← ok_or client (mkStatus CodeInternal "Google OIDC not configured");
  store ← gets otp_store;
  nonce ← ok_or (store !! nonce_handle ≫= otp_google_nonce)
                (mkStatus CodeUnauthenticated "Invalid nonce_handle");
  identity ← or_throw (verify_token client google_id_token nonce) id;
  _ ← modify (set_otp_store (delete nonce_handle));
  open_session (derive_player_id "google" identity) None GoogleOidc mi (mret ()).

(** [login]. *)
Definition login (method : option Method) (now : Z) (mi : MintInputs) : M LoginResponse :=
  method ← ok_or method (mkStatus CodeInvalidArgument "Missing login method");
  match method with
  | MOtp request_id code => login_otp request_id code now mi
  | MGoogle google_id_token nonce_handle => login_google google_id_token nonce_handle mi
  end.

(** [logout]: [authorization] is the header's text, when it has one; the answer is always
    [revoked: true]. *)
Definition logout (authorization : option string) (body_token : string) (now : Z) : M bool :=
  let token_str :=
    match trim_start_matches "Bearer " <$> authorization with
    | Some t => Some t
    | None => if String.eqb body_token "" then None else Some body_token
    end in
  key ← gets session_key;
  let jti_to_revoke :=
    token ← token_str; claims ← paseto_parse key now token; get_str claims "jti" in
  _ ← match jti_to_revoke with
      | Some jti => modify (set_session_activity (delete jti))
      | None => mret ()
      end;
  mret true.

(** [refresh_token]; the times of the parse and of the activity check. *)
Definition refresh_token (token : string) (now_parse now_check : Z) (mi : MintInputs) :
    M RefreshResponse :=
  key ← gets session_key;
  claims ← ok_or (paseto_parse key now_parse token)
                 (mkStatus CodeUnauthenticated "Invalid session token");
  jti ← ok_or (get_str claims "jti") (mkStatus CodeUnauthenticated "Token missing jti");
  sub ← ok_or (get_str claims "sub") (mkStatus CodeUnauthenticated "Token missing sub");
  authorized ← (fun s => let '(b, s') := is_session_authorized_with_tick s jti None now_check in
                         Ret (Ok b, s'));
  if negb authorized then throw (mkStatus CodeUnauthenticated "Session revoked or expired")
  else
    _ ← modify (set_session_activity (delete jti));
    let new_jti := if String.eqb jti "admin" then Some "admin" else None in
    '(new_token, exp) ← mint_session_token sub new_jti mi;
    mret (mkRefreshResponse new_token exp).

(** What [issue_connect_token] draws: a client identifier, 24 bytes, the time, the
    time its builder reads and the encryption nonce. *)
Record ConnectInputs := mkConnectInputs {
  ci_client_id : Z; ci_nonce : list Z; ci_now : Z; ci_built : Z; ci_seed : Z }.

(** [issue_connect_token]; the request's session token is not read. *)
Definition issue_connect_token (session_token server_address : string) (i : ConnectInputs) :
    M QuicConnectToken :=
  let server_nonce := base64_encode (ci_nonce i) in
  let iat := ci_now i in
  let exp := iat + minutes 5 in
  c_client ← lift (unwrap (custom_claim "client_id" (ClaimNum (ci_client_id i))));
  c_server ← lift (unwrap (custom_claim "server" (ClaimStr server_address)));
  c_nonce ← lift (unwrap (custom_claim "server_nonce" (ClaimStr server_nonce)));
  c_iat ← lift (unwrap (time_claim iat));
  c_exp ← lift (unwrap (time_claim exp));
  key ← gets transport_key;
  token ← or_throw (paseto_build key
                      (<["exp" := ClaimStr c_exp]> (<["iat" := ClaimStr c_iat]>
                         (<["server_nonce" := c_nonce]> (<["server" := c_server]>
                            (<["client_id" := c_client]> ∅))))) (ci_built i) (ci_seed i))
                   (mkStatus CodeInternal);
  mret (mkQuicConnectToken token server_address (as_u64 (timestamp_millis exp)) (ci_client_id i)).

(** [create_google_login_nonce]. *)
Definition create_google_login_nonce (nonce_bytes : list Z) (ulid : string) (now : Z) :
    M GoogleLoginNonceResponse :=
  let nonce := hex_encode nonce_bytes in
  let nonce_handle := ulid in
  let expires_at := now + minutes 10 in
  _ ← modify (set_otp_store (<[nonce_handle := mkOtpRecord "" "" (Some nonce) expires_at 0]>));
  mret (mkGoogleLoginNonceResponse nonce_handle nonce (as_u64 (timestamp_millis expires_at))).
End Service.
