(* ===== verification/AuthProps.v ===== *)
(** * Properties of the authentication service

    A weakest-precondition calculus for the handlers' monad, a specification of each handler in
    it, and the theorems over single calls and over every sequence of calls: guessing a one-time
    password is bounded, a password is used once, a session that was closed stays closed, the
    administrator session exists only where the development bypass is on, and the path from a
    requested password to a verified session works. *)

From stdpp Require Import gmap strings list pretty.
From Stdlib Require Import ZArith Lia.
From S2P Require Import Prelude RateLimit Auth.

Open Scope Z_scope.

Section Props.
Context `{LIB : !AuthLib, LAWS : !AuthLibLaws, STR : !RustStr}.
Implicit Types s : AuthServiceImpl.

(** ** Weakest preconditions: [m] returns from [s], with a result and a state that satisfy
    [Q]. *)
Definition wp {A} (m : M A) s (Q : result A Status -> AuthServiceImpl -> Prop) : Prop :=
  exists r s', m s = Ret (r, s') /\ Q r s'.

Lemma wp_bind {A B} (m : M A) (f : A -> M B) s Q :
  wp m s (fun r s' => match r with Ok a => wp (f a) s' Q | Err e => Q (Err e) s' end) ->
  wp (m ≫= f) s Q.
Proof.
  intros (r & s' & Hm & H). unfold wp, mbind, M_bind. rewrite Hm. destruct r; [done|]. eauto.
Qed.

Lemma wp_mono {A} (m : M A) s (Q Q' : result A Status -> AuthServiceImpl -> Prop) :
  wp m s Q -> (forall r s', Q r s' -> Q' r s') -> wp m s Q'.
Proof. intros (r & s' & Hm & HQ) H. exists r, s'. auto. Qed.

Lemma wp_mret {A} (a : A) s Q : Q (Ok a) s -> wp (mret a) s Q.
Proof. intros. by exists (Ok a), s. Qed.
Lemma wp_throw {A} e s (Q : result A Status -> AuthServiceImpl -> Prop) :
  Q (Err e) s -> wp (throw e) s Q.
Proof. intros. by exists (Err e), s. Qed.
Lemma wp_gets {A} (f : AuthServiceImpl -> A) s Q : Q (Ok (f s)) s -> wp (gets f) s Q.
Proof. intros. by exists (Ok (f s)), s. Qed.
Lemma wp_modify f s Q : Q (Ok ()) (f s) -> wp (modify f) s Q.
Proof. intros. by exists (Ok ()), (f s). Qed.
Lemma wp_lift {A} (m : exec A) a s Q : m = Ret a -> Q (Ok a) s -> wp (lift m) s Q.
Proof. intros -> ?. by exists (Ok a), s. Qed.
Lemma wp_ok_or {A} (o : option A) e s (Q : result A Status -> AuthServiceImpl -> Prop) :
  (forall a, o = Some a -> Q (Ok a) s) -> (o = None -> Q (Err e) s) -> wp (ok_or o e) s Q.
Proof. intros H1 H2. destruct o; [apply wp_mret | apply wp_throw]; auto. Qed.
Lemma wp_or_throw {A E} (r : result A E) f s (Q : result A Status -> AuthServiceImpl -> Prop) :
  (forall a, r = Ok a -> Q (Ok a) s) -> (forall e, r = Err e -> Q (Err (f e)) s) ->
  wp (or_throw r f) s Q.
Proof. intros H1 H2. destruct r; [apply wp_mret | apply wp_throw]; auto. Qed.
Lemma wp_ret {A} (m : M A) s r s' Q : m s = Ret (r, s') -> wp m s Q -> Q r s'.
Proof. intros Hm (r1 & s1 & H & HQ). rewrite Hm in H. by injection H as -> ->. Qed.

Lemma wp_ok {A} (m : M A) s a s' (P : A -> AuthServiceImpl -> Prop) :
  m s = Ret (Ok a, s') ->
  wp m s (fun r s'' => match r with Ok a' => P a' s'' | Err _ => True end) -> P a s'.
Proof. intros Hm H. exact (wp_ret m s _ _ _ Hm H). Qed.

Lemma wp_returns {A} (m : M A) s (P : A -> AuthServiceImpl -> Prop) :
  wp m s (fun r s' => match r with Ok a => P a s' | Err _ => False end) ->
  exists a s', m s = Ret (Ok a, s') /\ P a s'.
Proof. intros ([a|e] & s' & Hm & HP); [eauto | done]. Qed.

(** Steps through the primitives of the monad. *)
Ltac wp_step :=
  match goal with
  | |- wp (_ ≫= _) _ _ => apply wp_bind
  | |- wp (mret _) _ _ => apply wp_mret
  | |- wp (throw _) _ _ => apply wp_throw
  | |- wp (gets _) _ _ => apply wp_gets
  | |- wp (modify _) _ _ => apply wp_modify
  | |- wp (ok_or _ _) _ _ => apply wp_ok_or; intros
  | |- wp (or_throw _ _) _ _ => apply wp_or_throw; intros
  | |- wp (match ?b with _ => _ end) _ _ => destruct b eqn:?
  end.
Ltac wp_run := repeat (wp_step; cbv beta iota).

(** ** Specifications of the shared steps *)

(** The claims of the token that [mint_session_token] builds. *)
Definition minted_claims (player_id jti : string) (iat : Z) : Claims :=
  session_claims player_id jti (default "" (time_claim iat))
    (default "" (time_claim (iat + hours 24))).

Lemma unwrap_time_claim t : unwrap (time_claim t) = Ret (default "" (time_claim t)).
Proof. destruct (time_claim_total t) as [x ->]. done. Qed.

Lemma wp_mint player_id jti mi s Q :
  let j := default (mi_ulid mi) jti in
  let claims := minted_claims player_id j (mi_now mi) in
  (forall token, paseto_build (session_key s) claims (mi_built mi) (mi_seed mi) = Ok token ->
     Q (Ok (token, as_u64 (timestamp_millis (mi_now mi + hours 24))))
       (set_session_activity (<[j := timestamp (mi_now mi)]>) s)) ->
  (forall e, paseto_build (session_key s) claims (mi_built mi) (mi_seed mi) = Err e ->
     Q (Err (mkStatus CodeInternal e)) s) ->
  wp (mint_session_token player_id jti mi) s Q.
Proof.
  intros j claims Hok Herr. unfold mint_session_token.
  apply wp_bind. eapply wp_lift; [apply unwrap_time_claim|].
  apply wp_bind. eapply wp_lift; [apply unwrap_time_claim|]. wp_run; auto.
Qed.

(** The state once [player_id] is registered. *)
Definition registered (player_id : string) s : AuthServiceImpl :=
  set_player_registry (fun r => {[player_id]} ∪ r) s.

Lemma wp_register player_id s Q :
  Q (Ok (negb (bool_decide (player_id ∈ player_registry s)))) (registered player_id s) ->
  wp (register_player player_id) s Q.
Proof. intros H. unfold register_player. by wp_run. Qed.

(** The state once the session is open. *)
Definition opened (player_id jti : string) (now : Z) s : AuthServiceImpl :=
  set_session_activity (<[jti := timestamp now]>) (registered player_id s).

Lemma wp_open_session player_id jti method mi consume s Q :
  let j := default (mi_ulid mi) jti in
  let claims := minted_claims player_id j (mi_now mi) in
  (forall token, paseto_build (session_key s) claims (mi_built mi) (mi_seed mi) = Ok token ->
     wp consume (opened player_id j (mi_now mi) s) (fun r s' =>
       match r with
       | Ok _ => Q (Ok (mkLoginResponse token (as_u64 (timestamp_millis (mi_now mi + hours 24)))
                          player_id (negb (bool_decide (player_id ∈ player_registry s))) method)) s'
       | Err e => Q (Err e) s'
       end)) ->
  (forall e, paseto_build (session_key s) claims (mi_built mi) (mi_seed mi) = Err e ->
     Q (Err (mkStatus CodeInternal e)) (registered player_id s)) ->
  wp (open_session player_id jti method mi consume) s Q.
Proof.
  intros j claims Hok Herr. unfold open_session.
  apply wp_bind, wp_register, wp_bind, wp_mint; [intros token Htok | auto].
  apply wp_bind. eapply wp_mono; [by apply Hok|]. intros [] s'; [|done]. apply wp_mret.
Qed.

(** ** Invariant *)

(** Every live one-time password has fewer than three failed attempts, a password record made
    for Google sign-in carries no address and no digest, and the limiter keeps its own
    invariant. *)
Record otp_ok (r : OtpRecord) : Prop := {
  ok_attempts : 0 <= otp_attempts r <= 2;
  ok_kind : otp_google_nonce r <> None -> otp_email r = "" /\ otp_code_hash r = "" }.

Record auth_inv s : Prop := {
  inv_otp : forall id r, otp_store s !! id = Some r -> otp_ok r;
  inv_limiter : limiter_ok (rate_limiter s) }.

Lemma auth_inv_otp f s :
  auth_inv s -> (forall id r, f (otp_store s) !! id = Some r -> otp_ok r) ->
  auth_inv (set_otp_store f s).
Proof. intros [] ?. by split. Qed.

Lemma auth_inv_otp_insert id r s :
  auth_inv s -> otp_ok r -> auth_inv (set_otp_store (<[id := r]>) s).
Proof.
  intros Hs Hr. apply auth_inv_otp; [done|]. intros id' r'. rewrite lookup_insert. case_decide.
  - by intros [= <-].
  - by apply Hs.
Qed.

Lemma auth_inv_otp_delete id s : auth_inv s -> auth_inv (set_otp_store (delete id) s).
Proof.
  intros Hs. apply auth_inv_otp; [done|]. intros id' r' [_ H]%lookup_delete_Some. by eapply Hs.
Qed.

Lemma auth_inv_activity f s : auth_inv s -> auth_inv (set_session_activity f s).
Proof. intros []. by split. Qed.
Lemma auth_inv_registry f s : auth_inv s -> auth_inv (set_player_registry f s).
Proof. intros []. by split. Qed.
Lemma auth_inv_email f s : auth_inv s -> auth_inv (set_email_sender f s).
Proof. intros []. by split. Qed.
Lemma auth_inv_limiter l s : auth_inv s -> limiter_ok l -> auth_inv (set_rate_limiter l s).
Proof. intros [] ?. by split. Qed.

Lemma auth_inv_opened p j n s : auth_inv s -> auth_inv (opened p j n s).
Proof. intros. by apply auth_inv_activity, auth_inv_registry. Qed.

(** A failed attempt. *)
Definition bump (r : OtpRecord) : OtpRecord :=
  mkOtpRecord (otp_email r) (otp_code_hash r) (otp_google_nonce r) (otp_expires_at r)
    (otp_attempts r + 1).

Definition attempted (id : string) (r : OtpRecord) s : AuthServiceImpl :=
  if 3 <=? otp_attempts r + 1
  then set_otp_store (delete id) (set_otp_store (<[id := bump r]>) s)
  else set_otp_store (<[id := bump r]>) s.

Lemma wp_record_attempt id r s Q :
  otp_ok r -> Q (Ok ()) (attempted id r s) -> wp (record_attempt id r) s Q.
Proof.
  intros [Hr _] HQ. unfold record_attempt, attempted in *. apply wp_bind.
  eapply wp_lift; [apply chk_add_Ret; unfold umax; lia|]. apply wp_bind, wp_modify.
  destruct (3 <=? otp_attempts r + 1); wp_run; done.
Qed.

Lemma attempted_eq id r s :
  attempted id r s =
  set_otp_store (if 3 <=? otp_attempts r + 1 then delete id else <[id := bump r]>) s.
Proof.
  unfold attempted, set_otp_store. destruct (3 <=? otp_attempts r + 1); cbn; [|done].
  by rewrite delete_insert_eq.
Qed.

Lemma auth_inv_attempted id r s :
  auth_inv s -> otp_ok r -> auth_inv (attempted id r s).
Proof.
  intros Hs [Ha Hk]. rewrite attempted_eq. destruct (Z.leb_spec 3 (otp_attempts r + 1)).
  - by apply auth_inv_otp_delete.
  - apply auth_inv_otp_insert; [done|]. split; cbn; [lia | done].
Qed.

Lemma wp_check_rate t i now s Q :
  auth_inv s ->
  (forall r l, limiter_ok l -> Q r (set_rate_limiter l s)) -> wp (check_rate t i now) s Q.
Proof.
  intros Hs H. unfold wp, check_rate. rewrite check_limit_pure by apply Hs.
  pose proof (check_pure_ok _ t i now (inv_limiter _ Hs)) as Hok.
  destruct (check_pure _ _ _ _) as [r l]. eauto.
Qed.

(** ** Sequences of calls *)
Inductive auth_call :=
| CRequestOtp (remote_addr : option string) (email : string) (i : OtpInputs)
| CLogin (method : option Method) (now : Z) (mi : MintInputs)
| CLogout (authorization : option string) (body_token : string) (now : Z)
| CRefresh (token : string) (now_parse now_check : Z) (mi : MintInputs)
| CConnect (session_token server_address : string) (i : ConnectInputs)
| CGoogleNonce (nonce_bytes : list Z) (ulid : string) (now : Z)
| CVerify (token : string) (tick : option Z) (now_parse now : Z)
| CAuthorized (jti : string) (tick : option Z) (now : Z).

Inductive answer :=
| AOtp (ack : OtpRequestAck)
| ALogin (resp : LoginResponse)
| ALogout (revoked : bool)
| ARefresh (resp : RefreshResponse)
| AConnect (token : QuicConnectToken)
| ANonce (resp : GoogleLoginNonceResponse)
| AVerify (r : result VerifiedSession AuthError)
| AAuthorized (b : bool).

(** The service answers one call. *)
Definition auth_step (c : auth_call) : M answer :=
  match c with
  | CRequestOtp addr email i => a ← request_otp addr email i; mret (AOtp a)
  | CLogin m now mi => a ← login m now mi; mret (ALogin a)
  | CLogout auth body now => a ← logout auth body now; mret (ALogout a)
  | CRefresh token n1 n2 mi => a ← refresh_token token n1 n2 mi; mret (ARefresh a)
  | CConnect st addr i => a ← issue_connect_token st addr i; mret (AConnect a)
  | CGoogleNonce bs ulid now => a ← create_google_login_nonce bs ulid now; mret (ANonce a)
  | CVerify token tick now_parse now => fun s =>
      let '(r, s') := verify_session s token tick now_parse now in Ret (Ok (AVerify r), s')
  | CAuthorized jti tick now => fun s =>
      let '(b, s') := is_session_authorized_with_tick s jti tick now in
      Ret (Ok (AAuthorized b), s')
  end.

(** Answers the calls in order and logs each with its answer. *)
Definition auth_log : Type := list (auth_call * result answer Status).

Definition auth_run s (calls : list auth_call) : exec (auth_log * AuthServiceImpl) :=
  for_each (fun '(log, s) c => '(r, s') ← auth_step c s; Ret (log ++ [(c, r)], s'))
    ([], s) calls.

(** The identifiers a call draws: for a record of the password store, and for a session. *)
Definition call_creates (c : auth_call) : option string :=
  match c with
  | CRequestOtp _ _ i => Some (oi_ulid i)
  | CGoogleNonce _ ulid _ => Some ulid
  | _ => None
  end.
Definition call_mints (c : auth_call) : option string :=
  match c with CLogin _ _ mi | CRefresh _ _ _ mi => Some (mi_ulid mi) | _ => None end.

(** Custom claims the service sets are not reserved names. *)
Definition custom_claims_ok : Prop :=
  forall k v, k ∈ ["client_id"; "server"; "server_nonce"] -> is_Some (custom_claim k v).

(** The failed attempts left on a password. *)
Definition budget s (id : string) : Z :=
  match otp_store s !! id with Some r => 3 - otp_attempts r | None => 0 end.

(** What every call guarantees about the password [id] and the session [j], when it does not
    draw them as fresh identifiers. *)
Record evolves (id j : string) s s' : Prop := {
  ev_inv : auth_inv s';
  ev_session_key : session_key s' = session_key s;
  ev_bypass : bypass_enabled s' = bypass_enabled s;
  ev_budget : budget s' id <= budget s id;
  ev_closed : j <> "admin" \/ bypass_enabled s = false ->
    session_activity s !! j = None -> session_activity s' !! j = None }.

Lemma evolves_refl id j s : auth_inv s -> evolves id j s s.
Proof. by split. Qed.

Lemma evolves_trans id j s1 s2 s3 : evolves id j s1 s2 -> evolves id j s2 s3 -> evolves id j s1 s3.
Proof.
  intros [] []. split; try done; [congruence.. | lia |]. intros Hj Hc.
  apply ev_closed1; [destruct Hj; [by left | right; congruence] | auto].
Qed.

Lemma budget_nonneg s id : auth_inv s -> 0 <= budget s id <= 3.
Proof.
  intros Hs. unfold budget. destruct (otp_store s !! id) eqn:E; [|lia].
  apply (inv_otp _ Hs) in E as [? _]. lia.
Qed.

Lemma evolves_delete id j s id' : auth_inv s -> evolves id j s (set_otp_store (delete id') s).
Proof.
  intros Hs. split; try done; [by apply auth_inv_otp_delete|].
  pose proof (budget_nonneg s id Hs) as Hb. unfold budget in *. cbn. rewrite lookup_delete.
  case_decide; [lia | done].
Qed.

Lemma evolves_insert id j s id' r :
  auth_inv s -> otp_ok r -> id' <> id -> evolves id j s (set_otp_store (<[id' := r]>) s).
Proof.
  intros Hs Hr Hne. split; try done; [by apply auth_inv_otp_insert|].
  unfold budget. cbn. by rewrite lookup_insert_ne.
Qed.

Lemma evolves_registered id j s p : auth_inv s -> evolves id j s (registered p s).
Proof. intros Hs. split; try done. by apply auth_inv_registry. Qed.

Lemma evolves_email id j s f : auth_inv s -> evolves id j s (set_email_sender f s).
Proof. intros Hs. split; try done. by apply auth_inv_email. Qed.

Lemma evolves_limiter id j s l :
  auth_inv s -> limiter_ok l -> evolves id j s (set_rate_limiter l s).
Proof. intros Hs ?. split; try done. by apply auth_inv_limiter. Qed.

Lemma evolves_activity id j s f :
  auth_inv s ->
  (j <> "admin" \/ bypass_enabled s = false -> session_activity s !! j = None ->
     f (session_activity s) !! j = None) ->
  evolves id j s (set_session_activity f s).
Proof. intros Hs ?. split; try done. by apply auth_inv_activity. Qed.

Lemma evolves_opened id j s p j' now :
  auth_inv s -> j <> j' \/ (j' = "admin" /\ bypass_enabled s = true) ->
  evolves id j s (opened p j' now s).
Proof.
  intros Hs Hj. eapply evolves_trans; [by apply (evolves_registered _ _ _ p)|].
  apply evolves_activity; [by apply auth_inv_registry|]. cbn. intros Ha Hc.
  rewrite lookup_insert_ne; [done|]. destruct Hj as [|[-> Hb]]; [done|].
  destruct Ha; [done | congruence].
Qed.

(** A failed attempt uses up one of the three. *)
Lemma evolves_attempted id j s id' r :
  auth_inv s -> otp_store s !! id' = Some r ->
  evolves id j s (attempted id' r s) /\
  (id' = id -> budget (attempted id' r s) id + 1 <= budget s id).
Proof.
  intros Hs Hr. pose proof (inv_otp _ Hs _ _ Hr) as Hok.
  assert (id' = id -> budget (attempted id' r s) id + 1 <= budget s id) as Hb.
  { intros <-. unfold budget. rewrite attempted_eq, Hr. cbn. destruct Hok as [Ha _].
    destruct (Z.leb_spec 3 (otp_attempts r + 1)); rewrite lookup_delete || rewrite lookup_insert;
      rewrite decide_True by done; cbn; lia. }
  split; [|done]. split; rewrite ?attempted_eq; try done.
  - rewrite <- attempted_eq. by apply auth_inv_attempted.
  - destruct (decide (id' = id)) as [Heq|Hne]; [rewrite <- attempted_eq; specialize (Hb Heq); lia|].
    unfold budget. cbn. destruct (3 <=? _); [rewrite lookup_delete_ne by done | rewrite lookup_insert_ne by done]; done.
Qed.

Lemma evolves_authorized id j s jti tick now b s' :
  auth_inv s -> is_session_authorized_with_tick s jti tick now = (b, s') -> evolves id j s s'.
Proof.
  intros Hs. unfold is_session_authorized_with_tick.
  destruct (session_activity s !! jti) as [act|] eqn:E; [|intros [= _ <-]; by apply evolves_refl].
  destruct (3600 <? _); [intros [= _ <-]; by apply evolves_refl|].
  intros [= _ <-]. case_match; [|by apply evolves_refl].
  apply evolves_activity; [done|]. intros _ Hj. rewrite lookup_alter_ne by congruence. done.
Qed.

(** ** Every handler evolves the state *)
Section Handlers.
Context (id j : string).

Lemma wp_evolves_bind {A B} (m : M A) (f : A -> M B) s :
  wp m s (fun _ s' => evolves id j s s') ->
  (forall a s', auth_inv s' -> wp (f a) s' (fun _ s'' => evolves id j s' s'')) ->
  wp (m ≫= f) s (fun _ s' => evolves id j s s').
Proof.
  intros Hm Hf. apply wp_bind. eapply wp_mono; [exact Hm|]. intros [a|e] s' Hev; [|done].
  eapply wp_mono; [apply Hf, Hev|]. intros r s''. by apply evolves_trans.
Qed.

Lemma request_otp_evolves addr email i s :
  auth_inv s -> oi_ulid i <> id ->
  wp (request_otp addr email i) s (fun _ s' => evolves id j s s').
Proof.
  intros Hs Hid. unfold request_otp. apply wp_evolves_bind; [by apply wp_gets, evolves_refl|].
  clear dependent s. intros bypass s Hs. apply wp_evolves_bind.
  { destruct bypass; [by apply wp_mret, evolves_refl|].
    destruct addr; [|by apply wp_mret, evolves_refl].
    apply wp_check_rate; [done|]. intros. by apply evolves_limiter. }
  clear dependent s. intros _ s Hs. apply wp_evolves_bind.
  { destruct bypass; [by apply wp_mret, evolves_refl|].
    apply wp_check_rate; [done|]. intros. by apply evolves_limiter. }
  clear dependent s. intros _ s Hs. apply wp_evolves_bind.
  { apply wp_modify, evolves_insert; try done. }
  clear dependent s. intros _ s Hs. apply wp_evolves_bind.
  { by apply wp_modify, evolves_email. }
  clear dependent s. intros _ s Hs. by apply wp_mret, evolves_refl.
Qed.

Lemma google_nonce_evolves bs ulid now s :
  auth_inv s -> ulid <> id ->
  wp (create_google_login_nonce bs ulid now) s (fun _ s' => evolves id j s s').
Proof.
  intros Hs Hid. unfold create_google_login_nonce. apply wp_evolves_bind.
  - apply wp_modify, evolves_insert; try done.
  - clear dependent s. intros _ s Hs. by apply wp_mret, evolves_refl.
Qed.

Lemma open_session_evolves p jti method mi consume s :
  auth_inv s -> mi_ulid mi <> j ->
  jti = None \/ (jti = Some "admin" /\ bypass_enabled s = true) ->
  (forall s', auth_inv s' -> wp consume s' (fun _ s'' => evolves id j s' s'')) ->
  wp (open_session p jti method mi consume) s (fun _ s' => evolves id j s s').
Proof.
  intros Hs Hj Hjti Hcons. apply wp_open_session.
  - intros token _. eapply wp_mono; [apply Hcons; by apply auth_inv_opened|].
    intros r s' Hev. assert (evolves id j s s').
    { eapply evolves_trans; [|exact Hev]. apply evolves_opened; [done|].
      destruct Hjti as [->|[-> ?]]; cbn; [by left | by right]. }
    by destruct r.
  - intros. by apply evolves_registered.
Qed.

Lemma login_google_evolves token handle mi s :
  auth_inv s -> mi_ulid mi <> j ->
  wp (login_google token handle mi) s (fun _ s' => evolves id j s s').
Proof.
  intros Hs Hj. unfold login_google. wp_run; try by apply evolves_refl.
  eapply wp_mono; [apply open_session_evolves; try done|].
  - by apply auth_inv_otp_delete.
  - by left.
  - intros. by apply wp_mret, evolves_refl.
  - intros r s' Hev. eapply evolves_trans; [|exact Hev]. by apply evolves_delete.
Qed.

(** A wrong code: the answers of [login] that count as a failed attempt. *)
Definition attempt_failed (r : result LoginResponse Status) : Prop :=
  match r with
  | Err e => st_code e = CodeUnauthenticated /\
      (st_message e = "Invalid code" \/ st_message e = "Bypass: Forced failure for 000000")
  | Ok _ => False
  end.

Lemma login_otp_evolves rid code now mi s :
  auth_inv s -> mi_ulid mi <> j ->
  wp (login_otp rid code now mi) s (fun r s' =>
    evolves id j s s' /\ (rid = id -> attempt_failed r -> budget s' id + 1 <= budget s id)).
Proof.
  intros Hs Hj. unfold login_otp. do 2 (wp_step; cbv beta iota). wp_step. wp_step.
  2: { split; [by apply evolves_refl|]. intros _ [_ [[=]|[=]]]. }
  rename a into r. wp_step. wp_step. cbv beta iota.
  assert (Hopen : forall jti, jti = None \/ (jti = Some "admin" /\ bypass_enabled s = true) ->
    wp (open_session (derive_player_id "email" (otp_email r)) jti EmailOtp mi
          (modify (set_otp_store (delete rid)))) s (fun r s' =>
      evolves id j s s' /\ (rid = id -> attempt_failed r -> budget s' id + 1 <= budget s id))).
  { intros jti Hjti. apply wp_open_session.
    - intros token _. apply wp_modify. split; [|done].
      eapply evolves_trans; [|apply evolves_delete, auth_inv_opened, Hs].
      apply evolves_opened; [done|]. destruct Hjti as [->|[-> ?]]; cbn; [by left | by right].
    - intros e _. split; [by apply evolves_registered|]. intros _ [[=] _]. }
  pose proof (inv_otp _ Hs _ _ H) as Hr.
  destruct (evolves_attempted id j s rid r Hs H) as [Hev Hb].
  wp_step; [apply Hopen; right; split; [done|]; by destruct (bypass_enabled s)|].
  wp_step; [apply wp_bind, wp_record_attempt; [done|]; apply wp_throw; auto|].
  wp_step.
  { wp_run. split; [by apply evolves_delete|]. intros _ [[=] _]. }
  wp_step; [apply Hopen; by left|].
  apply wp_bind, wp_record_attempt; [done|]. apply wp_throw. auto.
Qed.

Lemma logout_evolves auth body now s :
  auth_inv s -> wp (logout auth body now) s (fun _ s' => evolves id j s s').
Proof.
  intros Hs. unfold logout. wp_run; try by apply evolves_refl.
  apply evolves_activity; [done|]. intros _ Hc. rewrite lookup_delete. by case_decide.
Qed.

Lemma authorized_closed s jti tick now b s' :
  session_activity s !! jti = None ->
  is_session_authorized_with_tick s jti tick now = (b, s') -> b = false.
Proof. intros E. unfold is_session_authorized_with_tick. rewrite E. congruence. Qed.

Lemma refresh_evolves token n1 n2 mi s :
  auth_inv s -> mi_ulid mi <> j ->
  wp (refresh_token token n1 n2 mi) s (fun _ s' => evolves id j s s').
Proof.
  intros Hs Hj. unfold refresh_token. wp_run; try by apply evolves_refl.
  rename a0 into jti. unfold wp at 1.
  destruct (is_session_authorized_with_tick s jti None n2) as [b s1] eqn:E.
  eexists _, _. split; [done|]. cbv beta iota.
  pose proof (evolves_authorized id j _ _ _ _ _ _ Hs E) as Hev.
  destruct b; cbv beta iota; [|by apply wp_throw].
  assert (Hjti : session_activity s !! j = None -> jti <> j).
  { intros Hn ->. by apply authorized_closed in E. }
  pose proof (ev_inv _ _ _ _ Hev) as Hs1. cbn [negb]. wp_step. wp_step. cbv beta iota.
  apply wp_bind, wp_mint.
  - intros token' _. apply wp_mret. split; cbn.
    + by apply auth_inv_activity, auth_inv_activity.
    + apply Hev.
    + apply Hev.
    + apply (ev_budget _ _ _ _ Hev).
    + intros Ha Hc. rewrite lookup_insert_ne, lookup_delete_ne; [by apply Hev | auto |].
      destruct (String.eqb_spec jti "admin"); cbn; [subst; auto | done].
  - intros e _. eapply evolves_trans; [exact Hev|]. apply evolves_activity; [done|].
    intros _ Hc. rewrite lookup_delete. by case_decide.
Qed.
Lemma connect_evolves st addr i s :
  custom_claims_ok -> auth_inv s ->
  wp (issue_connect_token st addr i) s (fun _ s' => evolves id j s s').
Proof.
  intros Hc Hs. unfold issue_connect_token.
  destruct (Hc "client_id" (ClaimNum (ci_client_id i))) as [x1 ->]; [set_solver|].
  destruct (Hc "server" (ClaimStr addr)) as [x2 ->]; [set_solver|].
  destruct (Hc "server_nonce" (ClaimStr (base64_encode (ci_nonce i)))) as [x3 ->]; [set_solver|].
  do 5 (apply wp_bind; eapply wp_lift; [done || apply unwrap_time_claim|]).
  wp_run; by apply evolves_refl.
Qed.

(** A logged call that is a wrong guess of the password [id]. *)
Definition wrong_guess (e : auth_call * result answer Status) : bool :=
  match e with
  | (CLogin (Some (MOtp rid _)) _ _, Err st) =>
      String.eqb rid id && bool_decide (st_code st = CodeUnauthenticated) &&
      (String.eqb (st_message st) "Invalid code" ||
       String.eqb (st_message st) "Bypass: Forced failure for 000000")
  | _ => false
  end.

Lemma evolves_step {A} (m : M A) (f : A -> answer) c s :
  wp m s (fun _ s' => evolves id j s s') ->
  (forall r : result answer Status, wrong_guess (c, r) = false) ->
  wp (a ← m; mret (f a)) s (fun r s' =>
    evolves id j s s' /\ budget s' id + Z.b2z (wrong_guess (c, r)) <= budget s id).
Proof.
  intros Hm Hc. apply wp_bind. eapply wp_mono; [exact Hm|].
  intros [a|e] s' Hev; [apply wp_mret|]; (split; [done|]); rewrite Hc; cbn;
    pose proof (ev_budget _ _ _ _ Hev); lia.
Qed.

Lemma wrong_guess_failed rid code now mi e :
  wrong_guess (CLogin (Some (MOtp rid code)) now mi, Err e) = true ->
  rid = id /\ attempt_failed (Err e).
Proof.
  cbn. rewrite !andb_true_iff, orb_true_iff, bool_decide_eq_true, !String.eqb_eq. naive_solver.
Qed.

Lemma login_evolves m now mi s :
  auth_inv s -> mi_ulid mi <> j ->
  wp (auth_step (CLogin m now mi)) s (fun r s' =>
    evolves id j s s' /\ budget s' id + Z.b2z (wrong_guess (CLogin m now mi, r)) <= budget s id).
Proof.
  intros Hs Hj. destruct m as [[rid code|token handle]|].
  - cbn [auth_step]. unfold login. apply wp_bind, wp_bind, wp_mret.
    eapply wp_mono; [by apply login_otp_evolves|]. intros [a|e] s' [Hev Hb].
    + apply wp_mret. split; [done|]. cbn. pose proof (ev_budget _ _ _ _ Hev). lia.
    + split; [done|]. destruct (wrong_guess _) eqn:E; [|cbn; pose proof (ev_budget _ _ _ _ Hev); lia].
      apply wrong_guess_failed in E as [-> Hf]. cbn [Z.b2z]. auto.
  - apply evolves_step; [|by intros []]. apply wp_bind, wp_mret. by apply login_google_evolves.
  - apply evolves_step; [|by intros []]. apply wp_bind, wp_throw. by apply evolves_refl.
Qed.

Lemma auth_step_evolves c s :
  custom_claims_ok -> auth_inv s -> call_creates c <> Some id -> call_mints c <> Some j ->
  wp (auth_step c) s (fun r s' =>
    evolves id j s s' /\ budget s' id + Z.b2z (wrong_guess (c, r)) <= budget s id).
Proof.
  intros Hcc Hs Hid Hj. destruct c; cbn in Hid, Hj.
  - apply evolves_step; [|by intros []]. apply request_otp_evolves; [done | congruence].
  - apply login_evolves; [done | congruence].
  - apply evolves_step; [|by intros []]. by apply logout_evolves.
  - apply evolves_step; [|by intros []]. apply refresh_evolves; [done | congruence].
  - apply evolves_step; [|by intros []]. by apply connect_evolves.
  - apply evolves_step; [|by intros []]. apply google_nonce_evolves; [done | congruence].
  - cbn. unfold wp. destruct (verify_session s token tick now_parse now) as [r s'] eqn:E.
    eexists _, _. split; [done|]. cbn. assert (evolves id j s s') as Hev.
    { revert E. unfold verify_session.
      repeat case_match; try (intros [= _ <-]; by apply evolves_refl);
        intros [= _ <-]; by eapply evolves_authorized. }
    split; [done|]. pose proof (ev_budget _ _ _ _ Hev). lia.
  - cbn. unfold wp. destruct (is_session_authorized_with_tick s jti tick now) as [b s'] eqn:E.
    eexists _, _. split; [done|]. cbn.
    pose proof (evolves_authorized id j _ _ _ _ _ _ Hs E) as Hev.
    split; [done|]. pose proof (ev_budget _ _ _ _ Hev). lia.
Qed.

(** The same over a sequence of calls. *)
Lemma auth_run_evolves calls s :
  custom_claims_ok -> auth_inv s ->
  Forall (fun c => call_creates c <> Some id /\ call_mints c <> Some j) calls ->
  exists log s', auth_run s calls = Ret (log, s') /\ evolves id j s s' /\
    budget s' id + count_if wrong_guess log <= budget s id.
Proof.
  intros Hcc Hs Hc. unfold auth_run.
  destruct (for_each_inv (fun '(log, s') => evolves id j s s' /\
      budget s' id + count_if wrong_guess log <= budget s id)
    (fun '(log, s) c => '(r, s') ← auth_step c s; Ret (log ++ [(c, r)], s')) calls ([], s))
    as ([log s'] & -> & H); [split; [by apply evolves_refl | cbn; lia] | | by eauto].
  intros [log s1] c Hin [Hev Hb]. rewrite Forall_forall in Hc. destruct (Hc c Hin) as [H1 H2].
  destruct (auth_step_evolves c s1) as (r & s2 & -> & Hev2 & Hb2); [done | apply Hev | done..|].
  eexists (_, _). split; [done|]. split; [by eapply evolves_trans|].
  rewrite count_if_snoc. lia.
Qed.
End Handlers.

(** ** Properties *)

(** C11 (safety): whatever calls the service answers, one after the other and from any number
    of clients, at most three wrong guesses of a one-time password are ever compared with it; after
    the third the password is gone and even the right code is refused.  The only assumption on
    the calls is that they do not draw the password's own identifier again.  Every call returns:
    none panics.  (For calls answered at the same time see [AuthTasksProps.v].) *)
Theorem otp_guess_bound id calls s :
  custom_claims_ok -> auth_inv s -> Forall (fun c => call_creates c <> Some id) calls ->
  exists log s', auth_run s calls = Ret (log, s') /\
    count_if (wrong_guess id) log <= 3 /\
    (count_if (wrong_guess id) log = 3 -> forall code now mi,
       login (Some (MOtp id code)) now mi s' =
       Ret (Err (mkStatus CodeUnauthenticated "Invalid credentials"), s')).
Proof.
  intros Hcc Hs Hc. pose (j := fresh (omap call_mints calls)).
  destruct (auth_run_evolves id j calls s) as (log & s' & Hrun & Hev & Hb); [done..| |].
  { rewrite Forall_forall in *. intros c Hin. split; [auto|]. intros Hm.
    apply (infinite_is_fresh (omap call_mints calls)). apply list_elem_of_omap. eauto. }
  pose proof (budget_nonneg s id Hs). pose proof (ev_inv _ _ _ _ Hev) as Hs'.
  pose proof (budget_nonneg s' id Hs'). exists log, s'. split_and!; [done | lia |].
  intros H3 code now mi. assert (otp_store s' !! id = None) as E.
  { destruct (otp_store s' !! id) as [r|] eqn:E; [|done]. pose proof (inv_otp _ Hs' _ _ E) as [Ha _].
    assert (budget s' id = 3 - otp_attempts r) by (unfold budget; by rewrite E). lia. }
  unfold login, login_otp, mbind, M_bind, ok_or, gets, mret, M_ret. by rewrite E.
Qed.

(** C21 (safety): a login with a one-time password succeeds only for a record of the store made
    by [request_otp] (never for a Google sign-in nonce), with the code that was sent, before its
    expiry (or, where the development bypass is on, for a test address with the test code); it
    consumes the record, logs in the player derived from the record's address, reports whether
    that player is new, and opens the session. *)
Theorem login_otp_sound id code now mi s resp s' :
  auth_inv s -> login (Some (MOtp id code)) now mi s = Ret (Ok resp, s') ->
  exists r, otp_store s !! id = Some r /\ otp_google_nonce r = None /\
    (bypass_enabled s = true /\ bypass_email (otp_email r) = true /\ code = "000001" \/
     now <= otp_expires_at r /\ code_digest code id = otp_code_hash r) /\
    otp_store s' = delete id (otp_store s) /\
    lr_player_id resp = derive_player_id "email" (otp_email r) /\
    (lr_is_new_player resp = true <-> lr_player_id resp ∉ player_registry s) /\
    player_registry s' = {[lr_player_id resp]} ∪ player_registry s /\
    exists jti, session_activity s' !! jti = Some (timestamp (mi_now mi)) /\
      (jti = mi_ulid mi \/ bypass_enabled s = true /\ jti = "admin").
Proof.
  intros Hs Hrun. pattern resp, s'. apply (wp_ok _ _ _ _ _ Hrun). unfold login.
  apply wp_bind, wp_mret. unfold login_otp. do 2 (wp_step; cbv beta iota).
  wp_step. wp_step; [|done]. rename a into r. do 2 wp_step. cbv beta iota.
  pose proof (inv_otp _ Hs _ _ H) as [_ Hk].
  assert (Hnonce : otp_email r <> "" \/ otp_code_hash r <> "" -> otp_google_nonce r = None).
  { destruct (otp_google_nonce r); [|done]. destruct Hk; [done|]. naive_solver. }
  assert (Hnew : forall p, negb (bool_decide (p ∈ player_registry s)) = true <-> p ∉ player_registry s).
  { intros p. rewrite negb_true_iff. apply bool_decide_eq_false. }
  wp_step; [|wp_step; [|wp_step; [|wp_step]]].
  - apply wp_open_session; [|done]. intros token _. apply wp_modify. exists r.
    apply andb_true_iff in Heqb as [[Hb He]%andb_true_iff Hcode%String.eqb_eq].
    split_and!; [done | | by left | done | done | apply Hnew | done |].
    + apply Hnonce. left. intros E. rewrite E in He. discriminate He.
    + exists "admin". cbn. rewrite lookup_insert_eq. auto.
  - apply wp_bind, wp_record_attempt; [|by apply wp_throw]. by eapply inv_otp.
  - by wp_run.
  - apply wp_open_session; [|done]. intros token _. apply wp_modify. exists r.
    apply String.eqb_eq in Heqb2. apply Z.ltb_ge in Heqb1.
    split_and!; [done | | by right | done | done | apply Hnew | done |].
    + apply Hnonce. right. rewrite <- Heqb2. intros Hd%(f_equal String.length).
      unfold code_digest in Hd. by rewrite blake2b256_length in Hd.
    + exists (mi_ulid mi). cbn. rewrite lookup_insert_eq. auto.
  - apply wp_bind, wp_record_attempt; [|by apply wp_throw]. by eapply inv_otp.
Qed.

Lemma verify_session_Ok s token tick now_parse now sess s' :
  verify_session s token tick now_parse now = (Ok sess, s') ->
  is_session_authorized_with_tick s (vs_jti sess) tick now = (true, s').
Proof.
  unfold verify_session. repeat case_match; try discriminate. intros [= <- <-]. done.
Qed.

(** A session that is closed stays closed, over every sequence of calls that does not draw its
    identifier again. *)
Lemma closed_stays_closed jti calls s :
  custom_claims_ok -> auth_inv s -> session_activity s !! jti = None ->
  jti <> "admin" \/ bypass_enabled s = false ->
  Forall (fun c => call_mints c <> Some jti) calls ->
  exists log s', auth_run s calls = Ret (log, s') /\ session_activity s' !! jti = None.
Proof.
  intros Hcc Hs Hn Ha Hc. pose (id := fresh (omap call_creates calls)).
  destruct (auth_run_evolves id jti calls s) as (log & s' & Hrun & Hev & _); [done..| |].
  { rewrite Forall_forall in *. intros c Hin. split; [|auto]. intros Hm.
    apply (infinite_is_fresh (omap call_creates calls)). apply list_elem_of_omap. eauto. }
  exists log, s'. split; [done|]. by apply Hev.
Qed.

(** After [logout] with a valid token, no call sequence brings the session back:
    every later check of the session fails, at any time, and no token of that session verifies.
    (The shared administrator session of the development bypass is opened again by the next
    bypass login, and is excluded where the bypass is on.) *)
Theorem logout_is_final s token claims jti now calls :
  custom_claims_ok -> auth_inv s ->
  token <> "" -> paseto_parse (session_key s) now token = Some claims ->
  get_str claims "jti" = Some jti -> jti <> "admin" \/ bypass_enabled s = false ->
  Forall (fun c => call_mints c <> Some jti) calls ->
  exists s1 log s2, logout None token now s = Ret (Ok true, s1) /\
    auth_run s1 calls = Ret (log, s2) /\
    (forall tick now', is_session_authorized_with_tick s2 jti tick now' = (false, s2)) /\
    (forall token' tick now1 now2 sess s3,
       verify_session s2 token' tick now1 now2 = (Ok sess, s3) -> vs_jti sess <> jti).
Proof.
  intros Hcc Hs Ht Hp Hj Ha Hc.
  exists (set_session_activity (delete jti) s).
  destruct (closed_stays_closed jti calls (set_session_activity (delete jti) s))
    as (log & s2 & Hrun & Hn); [done | by apply auth_inv_activity | | done | done |].
  { cbn. apply lookup_delete_eq. }
  exists log, s2. split_and!; [| done | |].
  - unfold logout, mbind, M_bind, gets. cbn.
    destruct (String.eqb_spec token ""); [done|]. cbn. rewrite Hp. cbn. by rewrite Hj.
  - intros. unfold is_session_authorized_with_tick. by rewrite Hn.
  - intros token' tick now1 now2 sess s3 H%verify_session_Ok Hjti. rewrite Hjti in H.
    by apply authorized_closed in H.
Qed.

Lemma assert_Ret b : assert_ b = Ret () -> b = true.
Proof. by destruct b. Qed.

Lemma auth_new_fresh env google s :
  auth_new env google = Ret s ->
  auth_inv s /\ session_activity s = ∅ /\
  (env "AETHERIS_ENV" = Some "production" -> bypass_enabled s = false).
Proof.
  unfold auth_new. intros H. apply bind_Ret_inv in H as ([] & Hb & H). exec_inv.
  split_and!; [|done|].
  - split; cbn [otp_store rate_limiter]; intros ? ?; unfold rate_limiter_new; by rewrite lookup_empty.
  - cbn. intros E. rewrite E in Hb. cbn in Hb. apply bind_Ret_inv in Hb as ([] & Hb%assert_Ret & _).
    by apply negb_true_iff in Hb.
Qed.

(** A service started with [AETHERIS_ENV=production] never has an administrator
    session: whatever calls it answers, no session check with the identifier [admin] succeeds
    and no token verifies to it.  (Identifiers drawn by [Ulid::new()] have 26 characters.) *)
Theorem production_has_no_admin env google s calls :
  custom_claims_ok -> env "AETHERIS_ENV" = Some "production" ->
  auth_new env google = Ret s ->
  Forall (fun c => forall u, call_mints c = Some u -> String.length u = 26%nat) calls ->
  exists log s', auth_run s calls = Ret (log, s') /\
    (forall tick now, (is_session_authorized_with_tick s' "admin" tick now).1 = false) /\
    (forall token tick now1 now2 sess s'',
       verify_session s' token tick now1 now2 = (Ok sess, s'') -> vs_jti sess <> "admin").
Proof.
  intros Hcc Henv Hnew Hc. apply auth_new_fresh in Hnew as (Hs & Hn & Hb).
  destruct (closed_stays_closed "admin" calls s) as (log & s' & Hrun & Hn');
    [done | done | by rewrite Hn | right; by apply Hb | |].
  { eapply Forall_impl; [exact Hc|]. intros c H E. by specialize (H _ E). }
  exists log, s'. split_and!; [done | |].
  - intros. unfold is_session_authorized_with_tick. by rewrite Hn'.
  - intros token tick now1 now2 sess s3 H%verify_session_Ok Hjti. rewrite Hjti in H.
    by apply authorized_closed in H.
Qed.

(** ** From a requested password to a verified session *)

(** What a request for a password leaves behind. *)
Lemma request_otp_Ok addr email i s ack s' :
  auth_inv s -> request_otp addr email i s = Ret (Ok ack, s') ->
  let code := format_06 (oi_number i) in
  oa_request_id ack = oi_ulid i /\
  otp_store s' !! oi_ulid i = Some (mkOtpRecord (normalize_email email)
    (code_digest code (oi_ulid i)) None (oi_now i + minutes 10) 0) /\
  email_sender s' = email_sender s ++ [mkSentEmail (normalize_email email) "Your Aetheris OTP"
    ("Code: " +:+ code) ("<h1>Code: " +:+ code +:+ "</h1>")] /\
  session_key s' = session_key s /\ bypass_enabled s' = bypass_enabled s /\
  player_registry s' = player_registry s.
Proof.
  intros Hs Hrun code. pattern ack, s'. apply (wp_ok _ _ _ _ _ Hrun).
  unfold request_otp. wp_step. wp_step. cbv beta iota.
  set (Q := fun s1 => auth_inv s1 /\ exists l, s1 = set_rate_limiter l s).
  assert (Hrate : forall (b : bool) t ident n s1, Q s1 ->
    wp (if b then mret () else check_rate t ident n) s1
       (fun r s2 => Q s2)).
  { intros b t ident n s1 [H1 [l ->]]. destruct b.
    - apply wp_mret. split; [done | eauto].
    - apply wp_check_rate; [done|]. intros r l' Hl. split; [by apply auth_inv_limiter | by exists l']. }
  apply wp_bind. eapply (wp_mono _ _ (fun r s2 => Q s2)).
  { assert (Q s) as HQ by (split; [done | exists (rate_limiter s); by destruct s]).
    destruct addr; [by apply Hrate|]. by destruct (bypass_enabled s); apply wp_mret. }
  intros [[]|e] s1 HQ1; [|done]. apply wp_bind.
  eapply wp_mono; [by apply Hrate|]. intros [[]|e] s2 [_ [l ->]]; [|done].
  wp_run. cbn. rewrite lookup_insert_eq. done.
Qed.

(** A minted token parses, from when it was built and for 24 hours, to what it was minted for. *)
Lemma minted_parses key pid jti iat built seed token now :
  paseto_build key (minted_claims pid jti iat) built seed = Ok token -> built < now < iat + hours 24 ->
  exists claims, paseto_parse key now token = Some claims /\
    get_str claims "jti" = Some jti /\ get_str claims "sub" = Some pid.
Proof.
  intros Hb Hnow. destruct (time_claim_total (iat + hours 24)) as [x Hx].
  destruct (paseto_roundtrip key (minted_claims pid jti iat) built seed token now (iat + hours 24) x)
    as [nbf Hp]; [done | reflexivity | | done | done |].
  - unfold minted_claims, session_claims. rewrite Hx. reflexivity.
  - eexists. split; [exact Hp|]. split; reflexivity.
Qed.

(** An open session is authorized as long as it has not been idle for more than an hour. *)
Lemma authorized_open s jti act tick now :
  session_activity s !! jti = Some act -> timestamp now - act <= 3600 ->
  (is_session_authorized_with_tick s jti tick now).1 = true.
Proof.
  intros E Hle. unfold is_session_authorized_with_tick. rewrite E.
  destruct (Z.ltb_spec 3600 (timestamp now - act)); [lia | done].
Qed.

Lemma authorized_inv s jti tick now s' :
  is_session_authorized_with_tick s jti tick now = (true, s') ->
  exists act, session_activity s !! jti = Some act /\ timestamp now - act <= 3600 /\
    session_key s' = session_key s.
Proof.
  unfold is_session_authorized_with_tick. destruct (session_activity s !! jti) as [act|]; [|done].
  destruct (Z.ltb_spec 3600 (timestamp now - act)); [done|]. intros [= <-].
  exists act. split_and!; [done | lia |]. by case_match.
Qed.

(** A token minted for an open session verifies. *)
Lemma verify_minted s pid jti iat built seed token tick now_parse now :
  paseto_build (session_key s) (minted_claims pid jti iat) built seed = Ok token ->
  session_activity s !! jti = Some (timestamp iat) ->
  built < now_parse < iat + hours 24 -> timestamp now - timestamp iat <= 3600 ->
  (verify_session s token tick now_parse now).1 = Ok (mkVerifiedSession pid jti).
Proof.
  intros Hb Ha H24 Hidle. unfold verify_session.
  destruct (minted_parses _ _ _ _ _ _ _ now_parse Hb H24) as (claims & -> & -> & ->).
  pose proof (authorized_open s jti _ tick now Ha Hidle) as Hok.
  destruct (is_session_authorized_with_tick _ _ _ _) as [b s3]. cbn in Hok. by rewrite Hok.
Qed.

Lemma foldl_wrapping_nonneg l acc : 0 <= acc -> 0 <= foldl (wrapping_add 64) acc l.
Proof.
  revert acc. induction l as [|x l IH]; intros acc Ha; cbn; [done|].
  apply IH. unfold wrapping_add. apply Z.mod_pos_bound. lia.
Qed.

Lemma jitter_nonneg jti : 0 <= jitter jti.
Proof. by apply foldl_wrapping_nonneg. Qed.

(** C20 (roundtrip): with the bypass off, the code that [request_otp] hands to the e-mail sender, addressed to the
    normalised address, logs its owner in within ten minutes: [login] answers with a token of
    the player derived from that address, flags the player as new when it was not registered,
    removes the password so that it cannot be used again, and the token verifies to that player
    after the instant it was built, for as long as the session has not been idle for more than an
    hour and the token has not reached its 24 hours. *)
Theorem otp_roundtrip addr email i now mi token ack s s1 :
  auth_inv s -> bypass_enabled s = false ->
  request_otp addr email i s = Ret (Ok ack, s1) -> now <= oi_now i + minutes 10 ->
  let code := format_06 (oi_number i) in
  let address := normalize_email email in
  let player := derive_player_id "email" address in
  paseto_build (session_key s) (minted_claims player (mi_ulid mi) (mi_now mi)) (mi_built mi) (mi_seed mi)
    = Ok token ->
  (exists mail, last (email_sender s1) = Some mail /\ em_to mail = address /\
     em_plaintext mail = "Code: " +:+ code) /\
  exists resp s2, login (Some (MOtp (oa_request_id ack) code)) now mi s1 = Ret (Ok resp, s2) /\
    lr_session_token resp = token /\ lr_player_id resp = player /\
    lr_is_new_player resp = negb (bool_decide (player ∈ player_registry s)) /\
    otp_store s2 !! oa_request_id ack = None /\
    forall tick now1 now2, mi_built mi < now1 < mi_now mi + hours 24 ->
      timestamp now2 - timestamp (mi_now mi) <= 3600 ->
      (verify_session s2 token tick now1 now2).1 = Ok (mkVerifiedSession player (mi_ulid mi)).
Proof.
  intros Hs Hb Hreq Hnow code address player Hbuild.
  apply request_otp_Ok in Hreq as (Hid & Hrec & Hmail & Hkey & Hby & Hreg); [|done].
  split; [by rewrite Hmail, last_snoc; eexists|].
  rewrite Hid. apply wp_returns. unfold login, login_otp. apply wp_bind, wp_mret.
  wp_step. wp_step. cbv beta iota.
  apply wp_bind. rewrite Hrec. apply wp_mret. wp_step. wp_step. cbv beta iota. rewrite Hby, Hb.
  cbn [andb otp_expires_at otp_code_hash otp_email].
  destruct (Z.ltb_spec (oi_now i + minutes 10) now); [lia|].
  rewrite String.eqb_refl. apply wp_open_session; rewrite Hkey; cbn [default];
    fold address player; [|congruence].
  intros token' Htok. rewrite Hbuild in Htok. injection Htok as <-. apply wp_modify.
  split_and!; cbn; [done | done | by rewrite Hreg | by rewrite lookup_delete_eq |].
  intros tick now1 now2 H24 Hidle. apply verify_minted with (mi_now mi) (mi_built mi) (mi_seed mi); try done; cbn.
  - by rewrite Hkey.
  - apply lookup_insert_eq.
Qed.

(** C7 (functional): a refresh succeeds for a live session and only for one: when the token parses
    to a session of a player that is open and has not been idle for more than an hour, and the new
    token can be built, it is answered; and whenever a refresh is answered, the token was such a one,
    its session is closed (unless it is the administrator session, which keeps its identifier), and
    the new token verifies to the same player under the new session, after the instant it was built,
    until its 24 hours are over or the session has been idle for more than an hour. *)
Theorem refresh_rotates token n1 n2 mi s :
  auth_inv s ->
  let jti' jti := if String.eqb jti "admin" then "admin" else mi_ulid mi in
  let live claims jti sub :=
    paseto_parse (session_key s) n1 token = Some claims /\
    get_str claims "jti" = Some jti /\ get_str claims "sub" = Some sub /\
    (exists act, session_activity s !! jti = Some act /\ timestamp n2 - act <= 3600) in
  (forall claims jti sub new_token, live claims jti sub ->
     paseto_build (session_key s) (minted_claims sub (jti' jti) (mi_now mi)) (mi_built mi) (mi_seed mi)
       = Ok new_token ->
     exists resp s', refresh_token token n1 n2 mi s = Ret (Ok resp, s') /\
                     rr_session_token resp = new_token) /\
  (forall resp s', refresh_token token n1 n2 mi s = Ret (Ok resp, s') ->
     exists claims jti sub, live claims jti sub /\
       (jti <> jti' jti -> session_activity s' !! jti = None) /\
       forall tick now1 now2, mi_built mi < now1 < mi_now mi + hours 24 ->
         timestamp now2 - timestamp (mi_now mi) <= 3600 ->
         (verify_session s' (rr_session_token resp) tick now1 now2).1 =
           Ok (mkVerifiedSession sub (jti' jti))).
Proof.
  intros Hs jti' live.
  assert (forall jti, default (mi_ulid mi) (if String.eqb jti "admin" then Some "admin" else None) = jti' jti)
    as Hd by (intros jti; unfold jti'; by destruct (String.eqb jti "admin")).
  split.
  - intros claims jti sub new_token (Hp & Hj & Hsub & act & Hact & Hidle) Hb. apply wp_returns.
    unfold refresh_token. apply wp_bind, wp_gets. rewrite Hp. apply wp_bind, wp_mret. rewrite Hj.
    apply wp_bind, wp_mret. rewrite Hsub. apply wp_bind, wp_mret. apply wp_bind. unfold wp at 1.
    pose proof (authorized_open s jti act None n2 Hact Hidle) as Hok.
    destruct (is_session_authorized_with_tick s jti None n2) as [b s1] eqn:E. cbn in Hok. subst b.
    apply authorized_inv in E as (_ & _ & _ & Hk). eexists _, _. split; [done|]. cbn [negb].
    apply wp_bind, wp_modify. apply wp_bind, wp_mint; cbn [session_key set_session_activity];
      rewrite Hd, Hk, Hb; [|done]. intros ? [= <-]. by apply wp_mret.
  - intros resp s' Hrun. pattern resp, s'. apply (wp_ok _ _ _ _ _ Hrun). unfold refresh_token.
    wp_run; try done. rename a into claims, a0 into jti, a1 into sub.
    unfold wp at 1. destruct (is_session_authorized_with_tick s jti None n2) as [b s1] eqn:E.
    eexists _, _. split; [done|]. cbv beta iota.
    destruct b; cbn [negb]; [|by apply wp_throw].
    pose proof (authorized_inv _ _ _ _ _ E) as (act & Hact & Hidle & Hk).
    wp_step. wp_step. cbv beta iota. apply wp_bind, wp_mint; [|done]. intros token' Htok. cbn in Htok.
    rewrite Hd in *. apply wp_mret. exists claims, jti, sub.
    split_and!; [split_and!; try done; by exists act | |].
    + intros Hne. cbn. rewrite lookup_insert_ne by done. apply lookup_delete_eq.
    + intros tick now1 now2 H24 Hidle'. apply verify_minted with (mi_now mi) (mi_built mi) (mi_seed mi); try done; cbn.
      apply lookup_insert_eq.
Qed.

(** The activity updates are staggered but never starve: in any 60 consecutive
    ticks there is one at which a check of a live session moves its activity to the current
    time, so a session checked every tick never becomes idle. *)
Theorem activity_update_coalesced jti t :
  0 <= t -> t + 59 + jitter jti <= umax 64 ->
  exists k, 0 <= k < 60 /\ forall s act now,
    session_activity s !! jti = Some act -> timestamp now - act <= 3600 ->
    exists s', is_session_authorized_with_tick s jti (Some (t + k)) now = (true, s') /\
      session_activity s' !! jti = Some (timestamp now).
Proof.
  intros Ht Hmax. pose proof (jitter_nonneg jti) as Hj.
  exists ((- (t + jitter jti)) mod 60). pose proof (Z.mod_pos_bound (- (t + jitter jti)) 60 ltac:(lia)).
  split; [done|]. intros s act now E Hidle. unfold is_session_authorized_with_tick. rewrite E.
  destruct (Z.ltb_spec 3600 (timestamp now - act)); [lia|].
  set (k := (- (t + jitter jti)) mod 60) in *. unfold wrapping_add, umax in *.
  rewrite (Z.mod_small (t + k + jitter jti)) by lia.
  assert ((t + k + jitter jti) mod 60 = 0) as ->.
  { replace (t + k + jitter jti) with (k + (t + jitter jti)) by lia. unfold k.
    rewrite Zplus_mod_idemp_l. by replace (- (t + jitter jti) + (t + jitter jti)) with 0 by lia. }
  eexists. split; [done|]. cbn. rewrite lookup_alter_eq, E. done.
Qed.
End Props.
