(* ===== verification/AuthWitness.v ===== *)
(** * Witnesses for the authentication service

    An executable instance of the libraries the service calls, for which the laws of
    [AuthLibLaws] are proved, and the properties of [AuthProps] applied to concrete runs. *)

From stdpp Require Import gmap strings list pretty countable.
From Stdlib Require Import ZArith Lia Ascii.
From S2P Require Import Prelude RateLimit Auth AuthProps.

Open Scope Z_scope.

Module AuthWitness.

(** ** A concrete library: tokens are encodings of their key and claims *)
#[local] Instance ClaimValue_eq : EqDecision ClaimValue.
Proof. solve_decision. Defined.
#[local] Instance ClaimValue_countable : Countable ClaimValue.
Proof.
  apply (inj_countable'
    (fun v => match v with ClaimStr s => inl s | ClaimNum n => inr n end : string + Z)
    (fun x => match x with inl s => ClaimStr s | inr n => ClaimNum n end)).
  by intros [].
Defined.

Fixpoint pos_str (p : positive) : string :=
  match p with
  | xH => ""
  | xO p => String "0"%char (pos_str p)
  | xI p => String "1"%char (pos_str p)
  end.
Fixpoint str_pos (s : string) : positive :=
  match s with
  | EmptyString => xH
  | String c s => if Ascii.eqb c "0"%char then xO (str_pos s) else xI (str_pos s)
  end.

Lemma str_pos_str p : str_pos (pos_str p) = p.
Proof. induction p; cbn; congruence. Qed.

Definition claim_time (claims : Claims) (name : string) : option Z :=
  x ← get_str claims name; decode (A := Z) (str_pos x).
Definition usable (now : Z) (claims : Claims) : bool :=
  match claim_time claims "nbf", claim_time claims "exp" with
  | Some n, Some e => (n <? now) && (now <? e)
  | _, _ => false
  end.
Definition built_claims (built : Z) (claims : Claims) : Claims :=
  <["nbf" := ClaimStr (pos_str (encode built))]> claims.

(** The first 32 bytes of the message, padded. *)
Definition pad32 (m : string) : string := String.substring 0 32 (m +:+ zeros 32).

#[export] Instance demo_lib : AuthLib := {|
  Key := string; GoogleOidcClient := unit; IdToken := string;
  key_from k := k;
  time_claim t := Some (pos_str (encode t));
  custom_claim _ v := Some v;
  paseto_build key claims built _ := Ok (pos_str (encode (key, built_claims built claims)));
  paseto_parse key now token :=
    match decode (A := string * Claims) (str_pos token) with
    | Some (k, claims) => if String.eqb k key && usable now claims then Some claims else None
    | None => None
    end;
  blake2b256 := pad32;
  sha256 m := as_bytes m;
  ulid_to_string n := pretty n;
  base64_encode l := pretty (u128_from_be_bytes l);
  hex_encode l := pretty (u128_from_be_bytes l);
  id_token_from_str t := Ok t;
  id_token_claims _ t nonce := Ok t |}.

Lemma substring_length n m s :
  (n + m <= String.length s)%nat -> String.length (String.substring n m s) = m.
Proof.
  revert n m. induction s as [|c s IH]; intros [|n] [|m]; cbn; intros H; try lia; try done.
  - f_equal. apply IH. lia.
  - apply IH. lia.
  - apply IH. lia.
Qed.

#[export] Instance demo_laws : AuthLibLaws.
Proof.
  split.
  - intros t. by eexists.
  - intros key claims built seed token now exp x Hb _ Hx Ht Hnow. cbn in *.
    injection Hb as <-. injection Ht as <-. rewrite str_pos_str, decode_encode, String.eqb_refl. cbn.
    exists (pos_str (encode built)).
    assert (usable now (built_claims built claims) = true) as ->; [|done].
    unfold usable, claim_time, get_str, built_claims.
    rewrite lookup_insert_eq, lookup_insert_ne, Hx by done. cbn. rewrite !str_pos_str, !decode_encode.
    by rewrite !(proj2 (Z.ltb_lt _ _)) by lia.
  - intros m. apply substring_length. 
    assert (forall a b, String.length (a +:+ b) = (String.length a + String.length b)%nat) as ->.
    { clear. induction a as [|c a IH]; intros b; cbn; [done|]. change (S (String.length (a +:+ b)) = S (String.length a + String.length b))%nat. by rewrite IH. }
    change (String.length (zeros 32)) with 32%nat. lia.
Qed.

(** Addresses in lower case without surrounding blanks are their own normal form. *)
#[export] Instance demo_str : RustStr := {| str_trim s := s; str_to_lowercase s := s |}.

Lemma demo_claims_ok : custom_claims_ok.
Proof. intros k v _. by eexists. Qed.

(** ** Concrete states and runs *)
Definition prod_env (v : string) : option string :=
  if String.eqb v "AETHERIS_ENV" then Some "production"
  else if String.eqb v "SESSION_PASETO_KEY" then Some "01234567890123456789012345678901"
  else if String.eqb v "TRANSPORT_PASETO_KEY" then Some "abcdefghijklmnopqrstuvwxyzabcdef"
  else None.

Definition s0 : AuthServiceImpl :=
  mkAuthService ∅ ∅ ∅ [] None "01234567890123456789012345678901"
    "abcdefghijklmnopqrstuvwxyzabcdef" rate_limiter_new false.

Lemma s0_inv : auth_inv s0.
Proof. split; cbn [otp_store rate_limiter s0]; intros ? ?; unfold rate_limiter_new; by rewrite lookup_empty. Qed.

Definition ULID1 : string := "01ARZ3NDEKTSV4RRFFQ69G5FAV".
Definition ULID2 : string := "01BX5ZZKBKACTAV9WEVGEMMVRZ".
Definition ULID3 : string := "01CX5ZZKBKACTAV9WEVGEMMVS0".

Definition otp_inputs : OtpInputs := mkOtpInputs 0 0 123 ULID1 (hours 1).
Definition mint_inputs : MintInputs := mkMintInputs (hours 1 + minutes 1) (hours 1 + minutes 1) ULID2 7.

(** A password was requested. *)
Definition otp_record : OtpRecord :=
  mkOtpRecord "a@b.c" (code_digest "000123" ULID1) None (hours 1 + minutes 10) 0.
Definition s1 : AuthServiceImpl := set_otp_store (<[ULID1 := otp_record]>) s0.

Lemma s1_inv : auth_inv s1.
Proof. apply auth_inv_otp_insert; [apply s0_inv|]. split; cbn; [lia | done]. Qed.

(** A session is open. *)
Definition s2 : AuthServiceImpl := set_session_activity (<[ULID2 := 3660]>) s0.

Lemma s2_inv : auth_inv s2.
Proof. apply auth_inv_activity, s0_inv. Qed.

Definition player : string := derive_player_id "email" "a@b.c".
Definition demo_claims : Claims :=
  built_claims (hours 1 + minutes 1) (minted_claims player ULID2 (hours 1 + minutes 1)).
Definition demo_token : string := pos_str (encode ("01234567890123456789012345678901", demo_claims)).

Lemma demo_parses : paseto_parse (session_key s2) (hours 2) demo_token = Some demo_claims.
Proof.
  cbn [paseto_parse demo_lib]. unfold demo_token. rewrite str_pos_str, decode_encode.
  assert (usable (hours 2) demo_claims = true) as ->; [vm_compute; reflexivity|].
  change (String.eqb _ _) with true. reflexivity.
Qed.
Lemma demo_claims_get :
  get_str demo_claims "jti" = Some ULID2 /\ get_str demo_claims "sub" = Some player.
Proof. split; reflexivity. Qed.

Definition guess (code : string) : auth_call :=
  CLogin (Some (MOtp ULID1 code)) (hours 1 + minutes 1) mint_inputs.

Definition is_Ok_ret {A B} (m : exec (result A Status * B)) : bool :=
  match m with Ret (Ok _, _) => true | _ => false end.

Lemma is_Ok_ret_ex {A B} (m : exec (result A Status * B)) :
  is_Ok_ret m = true -> exists a s', m = Ret (Ok a, s').
Proof. destruct m as [[[] ?]| |]; cbn; try discriminate. eauto. Qed.

(** ** Witnesses *)
Lemma otp_guess_bound_witness :
  exists log s', auth_run s1 (guess <$> ["1"; "2"; "3"; "000123"]) = Ret (log, s') /\
    count_if (wrong_guess ULID1) log <= 3.
Proof.
  destruct (otp_guess_bound ULID1 (guess <$> ["1"; "2"; "3"; "000123"]) s1)
    as (log & s' & H1 & H2 & _).
  - exact demo_claims_ok.
  - exact s1_inv.
  - repeat constructor; discriminate.
  - exists log, s'. split; [exact H1 | exact H2].
Defined.

(** The three wrong guesses count, and the right code is then refused. *)
Example third_guess_is_last :
  match auth_run s1 (guess <$> ["1"; "2"; "3"; "000123"]) with
  | Ret (log, _) => (count_if (wrong_guess ULID1) log, (fun e => is_ok e.2) <$> log)
  | _ => (0, [])
  end = (3, [false; false; false; false]).
Proof. vm_compute. reflexivity. Qed.

Lemma login_otp_sound_witness :
  exists resp s', login (Some (MOtp ULID1 "000123")) (hours 1 + minutes 1) mint_inputs s1
                  = Ret (Ok resp, s') /\ lr_player_id resp = player.
Proof.
  destruct (is_Ok_ret_ex (login (Some (MOtp ULID1 "000123")) (hours 1 + minutes 1) mint_inputs s1))
    as (resp & s' & H); [vm_compute; reflexivity|].
  exists resp, s'. split; [exact H|].
  destruct (login_otp_sound ULID1 "000123" _ _ s1 resp s' s1_inv H)
    as (r & Hr & _ & _ & _ & Hp & _).
  rewrite Hp. cbn in Hr. rewrite lookup_insert_eq in Hr. injection Hr as <-. reflexivity.
Defined.

Definition later_calls : list auth_call :=
  [CVerify demo_token None (hours 2) (hours 2); CLogin None 0 (mkMintInputs 0 0 ULID3 0);
   CRefresh demo_token (hours 2) (hours 2) (mkMintInputs 0 0 ULID3 0)].

Lemma logout_is_final_witness :
  exists s' log s'', logout None demo_token (hours 2) s2 = Ret (Ok true, s') /\
    auth_run s' later_calls = Ret (log, s'') /\
    forall tick now', is_session_authorized_with_tick s'' ULID2 tick now' = (false, s'').
Proof.
  destruct (logout_is_final s2 demo_token demo_claims ULID2
              (hours 2) later_calls) as (s' & log & s'' & H1 & H2 & H3 & _).
  - exact demo_claims_ok.
  - exact s2_inv.
  - apply String.eqb_neq. vm_compute. reflexivity.
  - exact demo_parses.
  - reflexivity.
  - left. discriminate.
  - repeat constructor; discriminate.
  - exists s', log, s''. split; [exact H1|]. split; [exact H2 | exact H3].
Defined.

Lemma production_has_no_admin_witness :
  exists s log s', auth_new prod_env None = Ret s /\ auth_run s later_calls = Ret (log, s') /\
    forall tick now, (is_session_authorized_with_tick s' "admin" tick now).1 = false.
Proof.
  exists s0. destruct (production_has_no_admin prod_env None s0 later_calls)
    as (log & s' & H1 & H2 & _).
  - exact demo_claims_ok.
  - reflexivity.
  - reflexivity.
  - repeat constructor; cbn; intros u Hu; try discriminate; injection Hu as <-; reflexivity.
  - exists log, s'. split; [reflexivity|]. split; [exact H1 | exact H2].
Defined.

Lemma otp_roundtrip_witness :
  exists ack sa resp sb, request_otp None "a@b.c" otp_inputs s0 = Ret (Ok ack, sa) /\
    login (Some (MOtp (oa_request_id ack) "000123")) (hours 1 + minutes 1) mint_inputs sa
      = Ret (Ok resp, sb) /\ lr_session_token resp = demo_token /\
    (verify_session sb demo_token None (hours 2) (hours 2)).1 = Ok (mkVerifiedSession player ULID2).
Proof.
  destruct (is_Ok_ret_ex (request_otp None "a@b.c" otp_inputs s0)) as (ack & sa & H);
    [vm_compute; reflexivity|].
  destruct (otp_roundtrip None "a@b.c" otp_inputs (hours 1 + minutes 1) mint_inputs demo_token ack
              s0 sa s0_inv eq_refl H) as (_ & resp & sb & H1 & H2 & _ & _ & _ & H3).
  - vm_compute. discriminate.
  - reflexivity.
  - exists ack, sa, resp, sb. split; [exact H|]. split; [exact H1|]. split; [exact H2|].
    apply H3; vm_compute; [split; reflexivity | discriminate].
Defined.

Lemma refresh_rotates_witness :
  exists resp s', refresh_token demo_token (hours 2) (hours 2) (mkMintInputs (hours 2) (hours 2) ULID3 0) s2
                  = Ret (Ok resp, s') /\ session_activity s' !! ULID2 = None.
Proof.
  destruct (is_Ok_ret_ex (refresh_token demo_token (hours 2) (hours 2)
              (mkMintInputs (hours 2) (hours 2) ULID3 0) s2)) as (resp & s' & H); [vm_compute; reflexivity|].
  exists resp, s'. split; [exact H|].
  destruct (refresh_rotates demo_token (hours 2) (hours 2) (mkMintInputs (hours 2) (hours 2) ULID3 0) s2
              s2_inv) as [_ Hr].
  destruct (Hr _ _ H) as (claims & jti & sub & (Hp & Hj & _) & Hc & _).
  rewrite demo_parses in Hp. injection Hp as <-.
  rewrite (proj1 demo_claims_get) in Hj. injection Hj as <-. apply Hc. discriminate.
Defined.

Lemma activity_update_coalesced_witness :
  exists k, 0 <= k < 60 /\ exists s',
    is_session_authorized_with_tick s2 ULID2 (Some (1000 + k)) (hours 2) = (true, s') /\
    session_activity s' !! ULID2 = Some 7200.
Proof.
  destruct (activity_update_coalesced ULID2 1000) as (k & Hk & H); [lia | vm_compute; discriminate |].
  exists k. split; [exact Hk|].
  apply (H s2 3660 (hours 2)); [apply lookup_insert_eq | vm_compute; discriminate].
Defined.

End AuthWitness.
