(* ===== verification/Google.v ===== *)
(** * The client of Google sign-in ([auth/google.rs], [GoogleOidcClient::new])

    The client is made from two variables of the environment and from the provider's metadata,
    which the OpenID Connect library fetches through the HTTP client it is handed.  Both libraries
    are classes; the function handed over is translated.  What makes a started service able to
    verify Google's tokens, and what a login answers when it is not, follow. *)

From stdpp Require Import gmap strings list.
From Stdlib Require Import ZArith Lia.
From S2P Require Import Prelude RateLimit Email Auth AuthProps.

Open Scope Z_scope.

(** [openidconnect::HttpClientError]: an error of reqwest, or another with its text. *)
Inductive HttpClientError := ReqwestError (e : string) | OtherError (e : string).

(** [openidconnect::HttpResponse]. *)
Record OidcResponse := mkOidcResponse {
  or_status : Z; or_headers : list (string * string); or_body : list Z }.

(** What is used of reqwest and of openidconnect: a client that follows redirects or not, the
    conversion and execution of a request, the parts of a response; the parsing of an issuer's
    URL, the discovery of its metadata through a function that performs requests, and the client
    made of the metadata with an id and a secret. *)
Class OidcLib `{!AuthLib} : Type := {
  OidcHttp : Type;
  http_builder_build : bool -> result OidcHttp string;
  OidcRequest : Type;
  RqRequest : Type;
  RqResponse : Type;
  try_into_request : OidcRequest -> result RqRequest string;
  execute : OidcHttp -> RqRequest -> result RqResponse string;
  resp_status : RqResponse -> Z;
  resp_headers : RqResponse -> list (string * string);
  resp_bytes : RqResponse -> result (list Z) string;
  IssuerUrl : Type;
  issuer_url_new : string -> result IssuerUrl string;
  ProviderMetadata : Type;
  discover_async : IssuerUrl -> (OidcRequest -> result OidcResponse HttpClientError) ->
                   result ProviderMetadata string;
  from_provider_metadata : ProviderMetadata -> string -> option string -> GoogleOidcClient;
}.

Section Google.
Context `{LIB : !AuthLib, STR : !RustStr, OL : !OidcLib}.
Context (env : string -> option string).

(** The function that performs the requests of the discovery. *)
Definition perform_request (http_client : OidcHttp) (req : OidcRequest) :
    result OidcResponse HttpClientError :=
  match try_into_request req with
  | Err e => Err (OtherError ("Reqwest error: " +:+ e))
  | Ok req =>
      match execute http_client req with
      | Err e => Err (ReqwestError e)
      | Ok resp =>
          match resp_bytes resp with
          | Err e => Err (ReqwestError e)
          | Ok body => Ok (mkOidcResponse (resp_status resp) (resp_headers resp) body)
          end
      end
  end.

(** [GoogleOidcClient::new]. *)
Definition google_new : result GoogleOidcClient string :=
  required env "GOOGLE_CLIENT_ID" (fun client_id =>
  required env "GOOGLE_CLIENT_SECRET" (fun client_secret =>
    match http_builder_build false with
    | Err e => Err e
    | Ok http_client =>
        match issuer_url_new "https://accounts.google.com" with
        | Err e => Err e
        | Ok issuer =>
            match discover_async issuer (perform_request http_client) with
            | Err e => Err e
            | Ok metadata =>
                Ok (from_provider_metadata metadata client_id (Some client_secret))
            end
        end
    end)).

(** Without both variables there is no client, whatever the network does. *)
Lemma google_new_configured client :
  google_new = Ok client ->
  is_Some (env "GOOGLE_CLIENT_ID") /\ is_Some (env "GOOGLE_CLIENT_SECRET").
Proof. unfold google_new, required. by repeat case_match. Qed.

(** A service started without them refuses every sign-in with Google, and remembers nothing of
    it: [login] answers that it is not configured. *)
Lemma unconfigured_google_login s token handle now mi :
  auth_new env (ok_of google_new) = Ret s ->
  env "GOOGLE_CLIENT_ID" = None \/ env "GOOGLE_CLIENT_SECRET" = None ->
  login (Some (MGoogle token handle)) now mi s =
    Ret (Err (mkStatus CodeInternal "Google OIDC not configured"), s).
Proof.
  intros Hs Hn. assert (google_client s = None) as Hc.
  { unfold auth_new in Hs. apply bind_Ret_inv in Hs as ([] & _ & Hs). exec_inv. cbn.
    destruct google_new as [client|] eqn:E; [|done].
    apply google_new_configured in E as [[? E1] [? E2]]. destruct Hn; congruence. }
  unfold login, login_google, mbind, M_bind, gets. cbn. rewrite Hc. done.
Qed.
End Google.
