(* ===== verification/AuthTasks.v ===== *)
(** * The authentication service under concurrent requests ([auth/mod.rs])

    [AuthServiceImpl] is cloned into every gRPC request and into the scheduler; its maps are
    [DashMap]s behind [Arc]s, so handlers interleave at every access to a map.  Here a handler is
    a tree of accesses, [task]: each access is what one call of [DashMap] does while it holds the
    lock of a shard.  Only the guard of [otp_store.get_mut] outlives its access: it is taken by
    [OtpGetMut], given back by [drop(entry)] ([OtpDrop]) or when the handler ends, and as long as it
    is held every other access to a key of its shard waits, the handler's own included.

    [run_task] runs a task alone; [AuthTasksProps.v] shows that it never waits for its own guard and
    does what [Auth.v] computes.  [pool_step] runs one access of one of many tasks: a list of
    [action]s is an interleaving.  No handler awaits anything after its first access, so a request in
    flight keeps a thread of the runtime: an interleaving needs as many threads as it has requests
    in flight at one time ([pool_width] in [AuthTasksProps.v]). *)

From stdpp Require Import gmap strings list fin_maps.
From Stdlib Require Import ZArith Lia.
From S2P Require Import Prelude RateLimit Auth AuthProps.

Open Scope Z_scope.

(** ** Accesses to the shared state *)
Inductive access :=
| OtpInsert (id : string) (r : OtpRecord)
| OtpGetMut (id : string)
| OtpStore (id : string) (r : OtpRecord)
| OtpDrop (id : string)
| OtpGet (id : string)
| OtpRemove (id : string)
| RegistryInsert (player_id : string)
| SessionGet (jti : string)
| SessionTouch (jti : string) (now : Z)
| SessionInsert (jti : string) (now : Z)
| SessionRemove (jti : string)
| CheckLimit (t : RateLimitType) (identity : string) (now : Z)
| SendEmail (m : SentEmail).

(** What an access answers; [RegistryInsert] whether the key was absent. *)
Definition reply (a : access) : Type :=
  match a with
  | OtpGetMut _ | OtpGet _ => option OtpRecord
  | RegistryInsert _ => bool
  | SessionGet _ => option Z
  | CheckLimit _ _ _ => exec (result unit Status)
  | _ => unit
  end.

(** ** Tasks *)
Inductive task (A : Type) : Type :=
| Done (r : result A Status)
| Crash
| Access (a : access) (k : reply a -> task A).
Arguments Done {A} _.
Arguments Crash {A}.
Arguments Access {A} _ _.

#[global] Instance task_ret : MRet task := fun A a => Done (Ok a).
#[global] Instance task_bind : MBind task := fun A B f =>
  fix bind p :=
    match p with
    | Done (Ok a) => f a
    | Done (Err e) => Done (Err e)
    | Crash => Crash
    | Access a k => Access a (fun b => bind (k b))
    end.

Definition call (a : access) : task (reply a) := Access a (fun b => Done (Ok b)).
Definition fail_with {A} (e : Status) : task A := Done (Err e).
Definition task_lift {A} (m : exec A) : task A :=
  match m with Ret a => Done (Ok a) | _ => Crash end.
Definition task_ok_or {A} (o : option A) (e : Status) : task A :=
  match o with Some a => Done (Ok a) | None => Done (Err e) end.
Definition task_or_throw {A E} (r : result A E) (f : E -> Status) : task A :=
  match r with Ok a => Done (Ok a) | Err e => Done (Err (f e)) end.

Section Tasks.
Context `{!AuthLib, !RustStr}.

(** The fields of the service that never change. *)
Record Fields := mkFields {
  f_google_client : option GoogleOidcClient;
  f_session_key : Key;
  f_transport_key : Key;
  f_bypass_enabled : bool }.

Definition fields_of (s : AuthServiceImpl) : Fields :=
  mkFields (google_client s) (session_key s) (transport_key s) (bypass_enabled s).

(** ** What an access does *)
Definition perform (a : access) (s : AuthServiceImpl) : reply a * AuthServiceImpl :=
  match a with
  | OtpInsert id r => ((), set_otp_store (<[id := r]>) s)
  | OtpGetMut id => (otp_store s !! id, s)
  | OtpStore id r => ((), set_otp_store (<[id := r]>) s)
  | OtpDrop id => ((), s)
  | OtpGet id => (otp_store s !! id, s)
  | OtpRemove id => ((), set_otp_store (delete id) s)
  | RegistryInsert p =>
      (negb (bool_decide (p ∈ player_registry s)), set_player_registry (fun r => {[p]} ∪ r) s)
  | SessionGet jti => (session_activity s !! jti, s)
  | SessionTouch jti now => ((), set_session_activity (alter (fun _ => now) jti) s)
  | SessionInsert jti now => ((), set_session_activity (<[jti := now]>) s)
  | SessionRemove jti => ((), set_session_activity (delete jti) s)
  | CheckLimit t identity now =>
      match check_limit (rate_limiter s) t identity now with
      | Ret (r, l) => (Ret r, set_rate_limiter l s)
      | Panic => (Panic, s)
      | Diverge => (Diverge, s)
      end
  | SendEmail m => ((), set_email_sender (fun sent => sent ++ [m]) s)
  end.

(** What the accesses of a task compute one after the other, locks aside. *)
Fixpoint run_accesses {A} (p : task A) (s : AuthServiceImpl) :
    exec (result A Status * AuthServiceImpl) :=
  match p with
  | Done r => Ret (r, s)
  | Crash => Panic
  | Access a k => let '(b, s') := perform a s in run_accesses (k b) s'
  end.

(** ** The handlers *)

(** [is_session_authorized_with_tick]: the optimistic read, and the update under another lock. *)
Definition authorized_task (jti : string) (tick : option Z) (now : Z) : task bool :=
  activity ← call (SessionGet jti);
  match activity with
  | Some activity =>
      let now := timestamp now in
      if 3600 <? now - activity then mret false
      else
        let needs_update :=
          match tick with
          | None => true
          | Some t => wrapping_add 64 t (jitter jti) mod 60 =? 0
          end in
        if needs_update then _ ← call (SessionTouch jti now); mret true else mret true
  | None => mret false
  end.

(** [mint_session_token]. *)
Definition mint_task (f : Fields) (player_id : string) (jti : option string) (mi : MintInputs) :
    task (string * Z) :=
  let jti := default (mi_ulid mi) jti in
  let iat := mi_now mi in
  let exp := iat + hours 24 in
  iat_claim ← task_lift (unwrap (time_claim iat));
  exp_claim ← task_lift (unwrap (time_claim exp));
  token ← task_or_throw
            (paseto_build (f_session_key f) (session_claims player_id jti iat_claim exp_claim)
               (mi_built mi) (mi_seed mi)) (mkStatus CodeInternal);
  _ ← call (SessionInsert jti (timestamp iat));
  mret (token, as_u64 (timestamp_millis exp)).

(** [verify_session]. *)
Definition verify_task (f : Fields) (token : string) (tick : option Z) (now_parse now : Z) :
    task (result VerifiedSession AuthError) :=
  match paseto_parse (f_session_key f) now_parse token with
  | None => mret (Err InvalidToken)
  | Some claims =>
      match get_str claims "jti" with
      | None => mret (Err MissingJti)
      | Some jti =>
          match get_str claims "sub" with
          | None => mret (Err MissingSub)
          | Some sub =>
              b ← authorized_task jti tick now;
              mret (if (b : bool) then Ok (mkVerifiedSession sub jti) else Err SessionExpired)
          end
      end
  end.

(** [self.rate_limiter.check_limit(..)?]. *)
Definition limit_task (t : RateLimitType) (identity : string) (now : Z) : task unit :=
  r ← call (CheckLimit t identity now);
  r ← task_lift r;
  task_or_throw r id.

(** [request_otp]. *)
Definition request_otp_task (f : Fields) (remote_addr : option string) (req_email : string)
    (i : OtpInputs) : task OtpRequestAck :=
  _ ← (if f_bypass_enabled f then mret ()
       else match remote_addr with
            | Some ip => limit_task Ip ip (oi_ip_instant i)
            | None => mret ()
            end);
  let email := normalize_email req_email in
  _ ← (if f_bypass_enabled f then mret () else limit_task Email email (oi_email_instant i));
  let code := format_06 (oi_number i) in
  let request_id := oi_ulid i in
  let expires_at := oi_now i + minutes 10 in
  let code_hash := code_digest code request_id in
  _ ← call (OtpInsert request_id (mkOtpRecord email code_hash None expires_at 0));
  _ ← call (SendEmail (mkSentEmail email "Your Aetheris OTP" ("Code: " +:+ code)
                         ("<h1>Code: " +:+ code +:+ "</h1>")));
  mret (mkOtpRequestAck request_id (as_u64 (timestamp_millis expires_at)) (Some 0)).

(** [entry.attempts += 1] through the guard, and from the third attempt on [drop(entry)] and
    [otp_store.remove]. *)
Definition attempt_task (request_id : string) (entry : OtpRecord) : task unit :=
  attempts ← task_lift (chk_add 8 (otp_attempts entry) 1);
  _ ← call (OtpStore request_id (mkOtpRecord (otp_email entry) (otp_code_hash entry)
              (otp_google_nonce entry) (otp_expires_at entry) attempts));
  if 3 <=? attempts then _ ← call (OtpDrop request_id); call (OtpRemove request_id) else mret ().

(** The end of a successful login with a code: [entry] is held while the player is registered and
    the token minted, then dropped, then the record removed. *)
Definition open_otp_task (f : Fields) (request_id player_id : string) (jti : option string)
    (mi : MintInputs) : task LoginResponse :=
  is_new_player ← call (RegistryInsert player_id);
  '(token, exp) ← mint_task f player_id jti mi;
  _ ← call (OtpDrop request_id);
  _ ← call (OtpRemove request_id);
  mret (mkLoginResponse token exp player_id is_new_player EmailOtp).

(** [login] with [Method::Otp]. *)
Definition login_otp_task (f : Fields) (request_id code : string) (now : Z) (mi : MintInputs) :
    task LoginResponse :=
  entry ← call (OtpGetMut request_id);
  entry ← task_ok_or entry (mkStatus CodeUnauthenticated "Invalid credentials");
  if f_bypass_enabled f && bypass_email (otp_email entry) && String.eqb code "000001" then
    open_otp_task f request_id (derive_player_id "email" (otp_email entry)) (Some "admin") mi
  else if f_bypass_enabled f && bypass_email (otp_email entry) && String.eqb code "000000" then
    _ ← attempt_task request_id entry;
    fail_with (mkStatus CodeUnauthenticated "Bypass: Forced failure for 000000")
  else if otp_expires_at entry <? now then
    _ ← call (OtpDrop request_id);
    _ ← call (OtpRemove request_id);
    fail_with (mkStatus CodeDeadlineExceeded "OTP expired")
  else if String.eqb (code_digest code request_id) (otp_code_hash entry) then
    open_otp_task f request_id (derive_player_id "email" (otp_email entry)) None mi
  else
    _ ← attempt_task request_id entry;
    fail_with (mkStatus CodeUnauthenticated "Invalid code").

(** [login] with [Method::Google]: the guard of [get] is gone when the nonce has been cloned. *)
Definition login_google_task (f : Fields) (google_id_token nonce_handle : string)
    (mi : MintInputs) : task LoginResponse :=
  client ← task_ok_or (f_google_client f) (mkStatus CodeInternal "Google OIDC not configured");
  entry ← call (OtpGet nonce_handle);
  nonce ← task_ok_or ((entry : option OtpRecord) ≫= otp_google_nonce)
                     (mkStatus CodeUnauthenticated "Invalid nonce_handle");
  identity ← task_or_throw (verify_token client google_id_token nonce) id;
  _ ← call (OtpRemove nonce_handle);
  let player_id := derive_player_id "google" identity in
  is_new_player ← call (RegistryInsert player_id);
  '(token, exp) ← mint_task f player_id None mi;
  mret (mkLoginResponse token exp player_id is_new_player GoogleOidc).

(** [login]. *)
Definition login_task (f : Fields) (method : option Method) (now : Z) (mi : MintInputs) :
    task LoginResponse :=
  method ← task_ok_or method (mkStatus CodeInvalidArgument "Missing login method");
  match method with
  | MOtp request_id code => login_otp_task f request_id code now mi
  | MGoogle google_id_token nonce_handle => login_google_task f google_id_token nonce_handle mi
  end.

(** [logout]. *)
Definition logout_task (f : Fields) (authorization : option string) (body_token : string)
    (now : Z) : task bool :=
  let token_str :=
    match trim_start_matches "Bearer " <$> authorization with
    | Some t => Some t
    | None => if String.eqb body_token "" then None else Some body_token
    end in
  let jti_to_revoke :=
    token ← token_str; claims ← paseto_parse (f_session_key f) now token; get_str claims "jti" in
  _ ← match jti_to_revoke with
      | Some jti => call (SessionRemove jti)
      | None => mret ()
      end;
  mret true.

(** [refresh_token]. *)
Definition refresh_task (f : Fields) (token : string) (now_parse now_check : Z)
    (mi : MintInputs) : task RefreshResponse :=
  claims ← task_ok_or (paseto_parse (f_session_key f) now_parse token)
                      (mkStatus CodeUnauthenticated "Invalid session token");
  jti ← task_ok_or (get_str claims "jti") (mkStatus CodeUnauthenticated "Token missing jti");
  sub ← task_ok_or (get_str claims "sub") (mkStatus CodeUnauthenticated "Token missing sub");
  authorized ← authorized_task jti None now_check;
  if negb authorized
  then fail_with (mkStatus CodeUnauthenticated "Session revoked or expired")
  else
    _ ← call (SessionRemove jti);
    let new_jti := if String.eqb jti "admin" then Some "admin" else None in
    '(new_token, exp) ← mint_task f sub new_jti mi;
    mret (mkRefreshResponse new_token exp).

(** [issue_connect_token] touches no map. *)
Definition connect_task (f : Fields) (session_token server_address : string)
    (i : ConnectInputs) : task QuicConnectToken :=
  let server_nonce := base64_encode (ci_nonce i) in
  let iat := ci_now i in
  let exp := iat + minutes 5 in
  c_client ← task_lift (unwrap (custom_claim "client_id" (ClaimNum (ci_client_id i))));
  c_server ← task_lift (unwrap (custom_claim "server" (ClaimStr server_address)));
  c_nonce ← task_lift (unwrap (custom_claim "server_nonce" (ClaimStr server_nonce)));
  c_iat ← task_lift (unwrap (time_claim iat));
  c_exp ← task_lift (unwrap (time_claim exp));
  token ← task_or_throw (paseto_build (f_transport_key f)
                      (<["exp" := ClaimStr c_exp]> (<["iat" := ClaimStr c_iat]>
                         (<["server_nonce" := c_nonce]> (<["server" := c_server]>
                            (<["client_id" := c_client]> ∅))))) (ci_built i) (ci_seed i))
                   (mkStatus CodeInternal);
  mret (mkQuicConnectToken token server_address (as_u64 (timestamp_millis exp)) (ci_client_id i)).

(** [create_google_login_nonce]. *)
Definition nonce_task (nonce_bytes : list Z) (ulid : string) (now : Z) :
    task GoogleLoginNonceResponse :=
  let nonce := hex_encode nonce_bytes in
  let nonce_handle := ulid in
  let expires_at := now + minutes 10 in
  _ ← call (OtpInsert nonce_handle (mkOtpRecord "" "" (Some nonce) expires_at 0));
  mret (mkGoogleLoginNonceResponse nonce_handle nonce (as_u64 (timestamp_millis expires_at))).

(** The task a request starts. *)
Definition auth_task (f : Fields) (c : auth_call) : task answer :=
  match c with
  | CRequestOtp addr email i => a ← request_otp_task f addr email i; mret (AOtp a)
  | CLogin m now mi => a ← login_task f m now mi; mret (ALogin a)
  | CLogout auth body now => a ← logout_task f auth body now; mret (ALogout a)
  | CRefresh token n1 n2 mi => a ← refresh_task f token n1 n2 mi; mret (ARefresh a)
  | CConnect st addr i => a ← connect_task f st addr i; mret (AConnect a)
  | CGoogleNonce bs ulid now => a ← nonce_task bs ulid now; mret (ANonce a)
  | CVerify token tick now_parse now =>
      r ← verify_task f token tick now_parse now; mret (AVerify r)
  | CAuthorized jti tick now => b ← authorized_task jti tick now; mret (AAuthorized b)
  end.

(** ** Many tasks *)

(** A request being answered, with the key whose guard it holds. *)
Record worker := mkWorker {
  w_call : auth_call; w_task : task answer; w_guard : option string }.

Record pool := mkPool { p_service : AuthServiceImpl; p_workers : gmap nat worker }.

(** [DashMap] keeps each key in one of several shards, chosen by its hash. *)
Variable shard : string -> Z.

(** The key whose shard an access locks; [OtpStore] and [OtpDrop] go through the guard. *)
Definition locks (a : access) : option string :=
  match a with
  | OtpInsert id _ | OtpGetMut id | OtpGet id | OtpRemove id => Some id
  | _ => None
  end.

(** A task holds a guard on the shard of [id]. *)
Definition holds_shard (id : string) (w : worker) : bool :=
  match w_guard w with Some g => shard g =? shard id | None => false end.

Definition guarded (ws : gmap nat worker) (id : string) : bool :=
  existsb (holds_shard id) (map_to_list ws).*2.

Definition blocked (ws : gmap nat worker) (a : access) : bool :=
  match locks a with Some id => guarded ws id | None => false end.

(** The guard a task holds after an access. *)
Definition guard_after (a : access) (g : option string) : reply a -> option string :=
  match a with
  | OtpGetMut id => fun b => match b with Some _ => Some id | None => g end
  | OtpDrop _ => fun _ => None
  | _ => fun _ => g
  end.

(** A task that runs with nobody else, with its own guard [g]: one that locks the shard its guard is
    on waits for itself, for ever. *)
Fixpoint run_task {A} (p : task A) (g : option string) (s : AuthServiceImpl) :
    exec (result A Status * AuthServiceImpl) :=
  match p with
  | Done r => Ret (r, s)
  | Crash => Panic
  | Access a k =>
      match locks a, g with
      | Some id, Some id' =>
          if shard id' =? shard id then Diverge
          else let '(b, s') := perform a s in run_task (k b) (guard_after a g b) s'
      | _, _ => let '(b, s') := perform a s in run_task (k b) (guard_after a g b) s'
      end
  end.

(** A request arrives, or a task runs its next access; a task that has come to its end answers,
    which gives back the guard it may still hold. *)
Inductive action := Arrive (t : nat) (c : auth_call) | Turn (t : nat).

Inductive pool_event :=
| EvArrive (t : nat) (c : auth_call)
| EvAccess (t : nat) (g : option string) (a : access) (b : reply a)
| EvReply (t : nat) (c : auth_call) (r : result answer Status)
| EvCrash (t : nat) (c : auth_call).

(** [None] when the action is not possible: the name is taken, there is no such task, or the task
    waits for a lock. *)
Definition pool_step (p : pool) (act : action) : option (pool * pool_event) :=
  let s := p_service p in
  let ws := p_workers p in
  match act with
  | Arrive t c =>
      match ws !! t with
      | Some _ => None
      | None => Some (mkPool s (<[t := mkWorker c (auth_task (fields_of s) c) None]> ws),
                      EvArrive t c)
      end
  | Turn t =>
      w ← ws !! t;
      match w_task w with
      | Done r => Some (mkPool s (delete t ws), EvReply t (w_call w) r)
      | Crash => Some (mkPool s (delete t ws), EvCrash t (w_call w))
      | Access a k =>
          if blocked ws a then None
          else
            let '(b, s') := perform a s in
            Some (mkPool s' (<[t := mkWorker (w_call w) (k b) (guard_after a (w_guard w) b)]> ws),
                  EvAccess t (w_guard w) a b)
      end
  end.

(** An interleaving: the pool it ends in and what happened, in order. *)
Fixpoint pool_run (p : pool) (acts : list action) : option (pool * list pool_event) :=
  match acts with
  | [] => Some (p, [])
  | act :: acts =>
      '(p', ev) ← pool_step p act;
      '(p'', evs) ← pool_run p' acts;
      Some (p'', ev :: evs)
  end.

(** The service with no request in flight. *)
Definition idle_pool (s : AuthServiceImpl) : pool := mkPool s ∅.
End Tasks.

(** ** The accesses of a task are the handler of [Auth.v] *)
Section Refinement.
Context `{!AuthLib, !RustStr}.
Implicit Types s : AuthServiceImpl.

Lemma run_accesses_bind {A B} (p : task A) (f : A -> task B) s :
  run_accesses (p ≫= f) s =
  match run_accesses p s with
  | Ret (Ok a, s') => run_accesses (f a) s'
  | Ret (Err e, s') => Ret (Err e, s')
  | Panic => Panic
  | Diverge => Diverge
  end.
Proof.
  revert s. induction p as [[a|e] | | a k IH]; intros s; [done..|].
  cbn. destruct (perform a s) as [b s']. apply IH.
Qed.

(** Two computations bound one after the other agree when both pieces do. *)
Lemma bind_agree {A B} (p : task A) (m : M A) (k : A -> task B) (h : A -> M B) s :
  run_accesses p s = m s ->
  (forall a s', m s = Ret (Ok a, s') -> run_accesses (k a) s' = h a s') ->
  run_accesses (p ≫= k) s = (m ≫= h) s.
Proof.
  intros Hp Hk. rewrite run_accesses_bind, Hp. unfold mbind at 1, M_bind.
  destruct (m s) as [[[a|e] s']| |] eqn:E; [|done..]. by apply Hk.
Qed.

Lemma run_call {A} (a : access) (k : reply a -> task A) s out :
  run_accesses (k (perform a s).1) (perform a s).2 = out -> run_accesses (call a ≫= k) s = out.
Proof. intros <-. cbn. by destruct (perform a s). Qed.

Lemma gets_bind {A B} (g : AuthServiceImpl -> A) (h : A -> M B) s : (gets g ≫= h) s = h (g s) s.
Proof. done. Qed.

Lemma modify_bind {B} (g : AuthServiceImpl -> AuthServiceImpl) (h : unit -> M B) s :
  (modify g ≫= h) s = h () (g s).
Proof. done. Qed.

Lemma ok_or_agree {A B} (o : option A) e (k : A -> task B) (h : A -> M B) s :
  (forall a, o = Some a -> run_accesses (k a) s = h a s) ->
  run_accesses (task_ok_or o e ≫= k) s = (ok_or o e ≫= h) s.
Proof. intros Hk. destruct o; [by apply Hk | done]. Qed.

Lemma or_throw_agree {A E B} (r : result A E) g (k : A -> task B) (h : A -> M B) s :
  (forall a, r = Ok a -> run_accesses (k a) s = h a s) ->
  run_accesses (task_or_throw r g ≫= k) s = (or_throw r g ≫= h) s.
Proof. intros Hk. destruct r; [by apply Hk | done]. Qed.

Lemma unwrap_agree {A B} (o : option A) (k : A -> task B) (h : A -> M B) s :
  (forall a, o = Some a -> run_accesses (k a) s = h a s) ->
  run_accesses (task_lift (unwrap o) ≫= k) s = (lift (unwrap o) ≫= h) s.
Proof. intros Hk. destruct o; [by apply Hk | done]. Qed.

Lemma check_limit_converges l t i now : check_limit l t i now <> Diverge.
Proof.
  unfold check_limit, chk_add. destruct (limit_of t <=? _); [done|].
  by destruct (_ <=? umax 32).
Qed.

Lemma limit_task_run t i now s : run_accesses (limit_task t i now) s = check_rate t i now s.
Proof.
  pose proof (check_limit_converges (rate_limiter s) t i now) as Hc.
  unfold limit_task, check_rate. cbn.
  by destruct (check_limit _ _ _ _) as [[[] l]| |].
Qed.

Lemma mint_task_run player_id jti mi s :
  run_accesses (mint_task (fields_of s) player_id jti mi) s = mint_session_token player_id jti mi s.
Proof.
  unfold mint_task, mint_session_token.
  apply unwrap_agree; intros iat _. apply unwrap_agree; intros exp _.
  rewrite gets_bind. by apply or_throw_agree.
Qed.

Lemma authorized_task_run jti tick now s :
  run_accesses (authorized_task jti tick now) s =
  let '(b, s') := is_session_authorized_with_tick s jti tick now in Ret (Ok b, s').
Proof.
  unfold authorized_task, is_session_authorized_with_tick. apply (run_call (SessionGet jti)). cbn.
  destruct (session_activity s !! jti); [|done]. cbn. destruct (3600 <? _); [done|].
  by destruct (match tick with None => _ | Some _ => _ end).
Qed.

Lemma authorized_fields jti tick now s :
  fields_of (is_session_authorized_with_tick s jti tick now).2 = fields_of s.
Proof. unfold is_session_authorized_with_tick. by repeat case_match. Qed.

Lemma attempt_task_run id r s :
  run_accesses (attempt_task id r) s = record_attempt id r s.
Proof.
  unfold attempt_task, record_attempt, chk_add. destruct (_ <=? umax 8); [|done].
  apply bind_agree; [done|]. intros n s' [= <- <-]. cbn. by destruct (3 <=? _).
Qed.

Lemma open_otp_task_run id player_id jti mi s :
  run_accesses (open_otp_task (fields_of s) id player_id jti mi) s =
  open_session player_id jti EmailOtp mi (modify (set_otp_store (delete id))) s.
Proof.
  unfold open_otp_task, open_session. apply (run_call (RegistryInsert player_id)).
  cbn [perform fst snd].
  change (fields_of s) with (fields_of (set_player_registry (fun r => {[player_id]} ∪ r) s)).
  apply (bind_agree _ (mint_session_token player_id jti mi)); [apply mint_task_run|].
  by intros [token exp] s' _.
Qed.

Lemma login_otp_task_run id code now mi s :
  run_accesses (login_otp_task (fields_of s) id code now mi) s = login_otp id code now mi s.
Proof.
  unfold login_otp_task, login_otp. apply (run_call (OtpGetMut id)). rewrite gets_bind.
  cbn [perform fst snd].
  apply ok_or_agree; intros r _. rewrite gets_bind. cbn [f_bypass_enabled fields_of].
  destruct (_ && String.eqb code "000001"); [apply open_otp_task_run|].
  destruct (_ && String.eqb code "000000"); [by apply bind_agree; [apply attempt_task_run|]|].
  destruct (_ <? now); [done|].
  destruct (String.eqb _ _); [apply open_otp_task_run|].
  by apply bind_agree; [apply attempt_task_run|].
Qed.

Lemma login_google_task_run token handle mi s :
  run_accesses (login_google_task (fields_of s) token handle mi) s = login_google token handle mi s.
Proof.
  unfold login_google_task, login_google. rewrite gets_bind.
  apply ok_or_agree; intros client _. apply (run_call (OtpGet handle)).
  rewrite gets_bind. cbn [perform fst snd].
  apply ok_or_agree; intros nonce _. apply or_throw_agree; intros identity _.
  apply (run_call (OtpRemove handle)). rewrite modify_bind. cbn [perform fst snd].
  apply (run_call (RegistryInsert _)). cbn [perform fst snd].
  set (s' := set_player_registry _ _).
  change (fields_of s) with (fields_of s').
  apply (bind_agree _ (mint_session_token (derive_player_id "google" identity) None mi));
    [apply mint_task_run|]. by intros [tok exp] s2 _.
Qed.

Lemma refresh_task_run token now_parse now_check mi s :
  run_accesses (refresh_task (fields_of s) token now_parse now_check mi) s =
  refresh_token token now_parse now_check mi s.
Proof.
  unfold refresh_task, refresh_token. rewrite gets_bind.
  apply ok_or_agree; intros claims _. apply ok_or_agree; intros jti _.
  apply ok_or_agree; intros sub _.
  apply bind_agree; [apply authorized_task_run|]. intros b s' Hs'.
  assert (fields_of s' = fields_of s) as <-.
  { rewrite <- (authorized_fields jti None now_check s).
    by destruct (is_session_authorized_with_tick _ _ _ _); injection Hs' as _ <-. }
  destruct (negb b); [done|]. apply (run_call (SessionRemove jti)). rewrite modify_bind.
  cbn [perform fst snd].
  apply bind_agree; [|by intros [] ? _].
  apply (mint_task_run _ _ _ (set_session_activity (delete jti) s')).
Qed.

Lemma request_otp_task_run addr email i s :
  run_accesses (request_otp_task (fields_of s) addr email i) s = request_otp addr email i s.
Proof.
  unfold request_otp_task, request_otp. rewrite gets_bind. cbn [f_bypass_enabled fields_of].
  apply bind_agree.
  { destruct (bypass_enabled s), addr; [done..| apply limit_task_run | done]. }
  intros [] s1 _. apply bind_agree; [|by intros [] s2 _].
  destruct (bypass_enabled s); [done | apply limit_task_run].
Qed.

Lemma connect_task_run st addr i s :
  run_accesses (connect_task (fields_of s) st addr i) s = issue_connect_token st addr i s.
Proof.
  unfold connect_task, issue_connect_token. do 5 (apply unwrap_agree; intros ? _).
  rewrite gets_bind. by apply or_throw_agree.
Qed.

(** Every request computes what the handler of the service does. *)
Lemma auth_task_accesses c s : run_accesses (auth_task (fields_of s) c) s = auth_step c s.
Proof.
  destruct c; unfold auth_task, auth_step.
  - apply bind_agree; [apply request_otp_task_run | done].
  - apply bind_agree; [|done]. apply ok_or_agree. intros [id code|tok handle] _;
      [apply login_otp_task_run | apply login_google_task_run].
  - apply bind_agree; [|done]. unfold logout_task, logout. rewrite gets_bind.
    apply bind_agree; [|done]. cbn [f_session_key fields_of]. by case_match.
  - apply bind_agree; [apply refresh_task_run | done].
  - apply bind_agree; [apply connect_task_run | done].
  - done.
  - unfold verify_task, verify_session. cbn [f_session_key fields_of].
    destruct (paseto_parse _ _ _) as [claims|]; [|done]. destruct (get_str claims "jti"); [|done].
    destruct (get_str claims "sub"); [|done]. rewrite !run_accesses_bind, authorized_task_run.
    by destruct (is_session_authorized_with_tick _ _ _ _) as [[] s'].
  - rewrite run_accesses_bind, authorized_task_run.
    by destruct (is_session_authorized_with_tick _ _ _ _) as [[] s'].
Qed.
End Refinement.
