(* ===== verification/AuthTasksProps.v ===== *)
(** * Interleavings of the authentication service: the theorems

    Every handler follows a small automaton ([phase]) that says which guard it holds and what it
    still owes: a handler that has opened a session from a password record, or counted its third
    wrong guess, must drop its guard and then remove the record.  [obeys] says that a task
    follows the automaton whatever its accesses answer; [pool_inv] that all tasks of a pool do and
    that the guards are consistent with the store.  From it: no deadlock, a bound on the turns of
    every task, and how much more than the sequential service an interleaving can get out of one
    password. *)

From stdpp Require Import gmap strings list fin_maps.
From Stdlib Require Import ZArith Lia.
From S2P Require Import Prelude RateLimit Auth AuthProps AuthTasks.

Open Scope Z_scope.

#[global] Instance OtpRecord_eq : EqDecision OtpRecord.
Proof. solve_decision. Defined.
#[global] Instance SentEmail_eq : EqDecision SentEmail.
Proof. solve_decision. Defined.
#[global] Instance access_eq : EqDecision access.
Proof. solve_decision. Defined.

(** ** The automaton of a handler *)

(** [Holding id r true]: the record is to be removed; [Closing id]: the guard is dropped and the
    removal comes next. *)
Inductive phase :=
| Idle
| Holding (id : string) (r : OtpRecord) (closing : bool)
| Closing (id : string).

Definition guard_of (f : phase) : option string :=
  match f with Holding id _ _ => Some id | _ => None end.

(** Where a handler may end. *)
Definition quiet (f : phase) : Prop :=
  match f with Idle | Holding _ _ false => True | _ => False end.

(** The handler has still to remove the record of [id]. *)
Definition pending (id : string) (f : phase) : Prop :=
  match f with Holding id' _ true | Closing id' => id' = id | _ => False end.

#[global] Instance pending_dec id f : Decision (pending id f).
Proof. destruct f as [|? ? []|]; cbn; apply _. Defined.

(** The phase after an access, if the access is allowed. *)
Definition next (f : phase) (a : access) : reply a -> option phase :=
  match a with
  | OtpGetMut id => fun b =>
      match f with
      | Idle => Some (match b with Some r => Holding id r false | None => Idle end)
      | _ => None
      end
  | OtpInsert _ _ | OtpGet _ => fun _ => match f with Idle => Some Idle | _ => None end
  | OtpStore id r => fun _ =>
      match f with
      | Holding id' r' false =>
          if bool_decide (id = id' /\ r = bump r')
          then Some (Holding id r (3 <=? otp_attempts r)) else None
      | _ => None
      end
  | OtpDrop id => fun _ =>
      match f with
      | Holding id' _ c =>
          if bool_decide (id = id') then Some (if c then Closing id else Idle) else None
      | _ => None
      end
  | OtpRemove id => fun _ =>
      match f with
      | Idle => Some Idle
      | Closing id' => if bool_decide (id = id') then Some Idle else None
      | _ => None
      end
  | SessionInsert _ _ => fun _ =>
      match f with
      | Idle => Some Idle
      | Holding id r false => Some (Holding id r true)
      | _ => None
      end
  | RegistryInsert _ => fun _ =>
      match f with Idle => Some Idle | Holding id r false => Some f | _ => None end
  | _ => fun _ => match f with Idle => Some Idle | _ => None end
  end.

(** [p] follows the automaton from [f] within [n] accesses, all of them in [P], and when it comes
    to a result ends in [Q]. *)
Fixpoint obeys {A} (P : access -> Prop) (n : nat) (f : phase) (p : task A) (Q : phase -> Prop)
    {struct p} : Prop :=
  match p with
  | Done (Ok _) => Q f
  | Done (Err _) | Crash => quiet f
  | Access a k =>
      P a /\
      match n with
      | O => False
      | S n => forall b, match next f a b with
                         | Some f' => obeys P n f' (k b) Q
                         | None => False
                         end
      end
  end.

Lemma obeys_weaken {A} P (p : task A) m n f (Q Q' : phase -> Prop) :
  obeys P m f p Q' -> (m <= n)%nat -> (forall f', Q' f' -> Q f') -> obeys P n f p Q.
Proof.
  revert m n f. induction p as [[a|e] | | a h IH]; intros m n f Hp Hle Hq; cbn in *;
    [by apply Hq | done..|].
  destruct Hp as [Ha Hp]. split; [done|]. destruct m, n; [done..| lia |].
  intros b. specialize (Hp b). destruct (next f a b); [|done]. eapply IH; [done | lia | done].
Qed.

Lemma obeys_bind {A B} P (p : task A) (k : A -> task B) m n f (Q Q' : phase -> Prop) :
  obeys P m f p Q' -> (forall f' a, Q' f' -> obeys P n f' (k a) Q) ->
  obeys P (m + n) f (p ≫= k) Q.
Proof.
  revert m f. induction p as [[a|e] | | a h IH]; intros m f Hp Hk; [|done..|].
  - eapply obeys_weaken; [by apply Hk | lia | done].
  - destruct Hp as [Ha Hp]. split; [done|]. destruct m; [done|].
    intros b. specialize (Hp b). destruct (next f a b) as [f'|]; [|done]. by apply IH.
Qed.

(** Steps that touch no map, and a single access. *)
Lemma obeys_lift {A B} P n (m : exec A) (k : A -> task B) f Q :
  quiet f -> (forall a, obeys P n f (k a) Q) -> obeys P n f (task_lift m ≫= k) Q.
Proof. intros Hf Hk. destruct m; [apply Hk | done..]. Qed.

Lemma obeys_ok_or {A B} P n (o : option A) e (k : A -> task B) f Q :
  quiet f -> (forall a, obeys P n f (k a) Q) -> obeys P n f (task_ok_or o e ≫= k) Q.
Proof. intros Hf Hk. destruct o; [apply Hk | done]. Qed.

Lemma obeys_or_throw {A E B} P n (r : result A E) g (k : A -> task B) f Q :
  quiet f -> (forall a, obeys P n f (k a) Q) -> obeys P n f (task_or_throw r g ≫= k) Q.
Proof. intros Hf Hk. destruct r; [apply Hk | done]. Qed.

Lemma obeys_call {B} (P : access -> Prop) n (a : access) (k : reply a -> task B) f Q :
  P a -> (forall b, match next f a b with Some f' => obeys P n f' (k b) Q | None => False end) ->
  obeys P (S n) f (call a ≫= k) Q.
Proof. done. Qed.

(** The keys a request may insert: the identifiers it draws, and the session of the bypass. *)
Definition draws (c : auth_call) (a : access) : Prop :=
  match a with
  | OtpInsert id _ => call_creates c = Some id
  | SessionInsert jti _ => call_mints c = Some jti \/ jti = "admin"
  | _ => True
  end.

(** Follows a handler from access to access. *)
Ltac follow :=
  repeat first
    [ progress intros
    | progress cbn beta
    | apply obeys_lift; [done|]
    | apply obeys_ok_or; [done|]
    | apply obeys_or_throw; [done|]
    | match goal with
      | |- obeys _ _ _ (call ?a ≫= _) _ => apply (obeys_call _ _ a); [try done | cbn [next]]
      | |- obeys _ _ _ (call _) _ => split; [try done | cbn [next]]
      | |- obeys _ _ _ (Access _ _) _ => split; [try done | cbn [next]]
      end
    | rewrite bool_decide_eq_true_2 by done
    | case_match ];
  try done.

Section Handlers.
Context `{!AuthLib, !RustStr}.
Variable P : access -> Prop.

Lemma mint_obeys f player_id jti mi n :
  (forall now, P (SessionInsert (default (mi_ulid mi) jti) now)) ->
  obeys P (S n) Idle (mint_task f player_id jti mi) (eq Idle).
Proof. intros. unfold mint_task. follow. Qed.

Lemma mint_holding_obeys f player_id jti mi id r n :
  (forall now, P (SessionInsert (default (mi_ulid mi) jti) now)) ->
  obeys P (S n) (Holding id r false) (mint_task f player_id jti mi) (eq (Holding id r true)).
Proof. intros. unfold mint_task. follow. Qed.
End Handlers.

Section Tasks.
Context `{!AuthLib, !RustStr}.
Variable c : auth_call.

Lemma authorized_obeys jti tick now :
  obeys (draws c) 2 Idle (authorized_task jti tick now) (eq Idle).
Proof. unfold authorized_task. follow. Qed.

Lemma limit_obeys t i now : obeys (draws c) 1 Idle (limit_task t i now) (eq Idle).
Proof. unfold limit_task, task_or_throw. follow. Qed.

Lemma open_otp_obeys f id r player_id jti mi :
  draws c (SessionInsert (default (mi_ulid mi) jti) 0) ->
  obeys (draws c) 4 (Holding id r false) (open_otp_task f id player_id jti mi) (eq Idle).
Proof.
  intros. unfold open_otp_task. follow.
  apply (obeys_bind _ _ _ 1 2 _ _ (eq (Holding id r true))); [by apply mint_holding_obeys|].
  intros ? [token exp] <-. follow.
Qed.

Lemma attempt_obeys id r :
  obeys (draws c) 3 (Holding id r false) (attempt_task id r) quiet.
Proof.
  unfold attempt_task, chk_add. destruct (_ <=? umax 8); [|done].
  apply (obeys_call _ _ (OtpStore _ _)); [done|]. intros []. cbn [next].
  rewrite bool_decide_eq_true_2 by done. cbn. destruct (3 <=? _); follow.
Qed.

Lemma login_otp_obeys f id code now mi :
  call_mints c = Some (mi_ulid mi) ->
  obeys (draws c) 5 Idle (login_otp_task f id code now mi) quiet.
Proof.
  intros Hc. unfold login_otp_task. apply (obeys_call _ _ (OtpGetMut id)); [done|].
  intros [r|]; [|done]. cbn [next task_ok_or].
  assert (forall jti, draws c (SessionInsert (default (mi_ulid mi) jti) 0) ->
    obeys (draws c) 4 (Holding id r false)
      (open_otp_task f id (derive_player_id "email" (otp_email r)) jti mi) quiet) as Hopen.
  { intros. eapply obeys_weaken; [by apply open_otp_obeys | lia | by intros ? <-]. }
  assert (forall st, obeys (draws c) 4 (Holding id r false)
    (attempt_task id r ≫= fun _ => fail_with (A := LoginResponse) st) quiet) as Hattempt.
  { intros. apply (obeys_bind _ _ _ 3 1 _ _ quiet); [apply attempt_obeys | by intros]. }
  cbn [mbind task_bind]. destruct (_ && String.eqb code "000001"); [apply Hopen; by right|].
  destruct (_ && String.eqb code "000000"); [apply Hattempt|].
  destruct (_ <? now); [follow|].
  destruct (String.eqb _ _); [apply Hopen; by left | apply Hattempt].
Qed.

Lemma login_google_obeys f token handle mi :
  call_mints c = Some (mi_ulid mi) ->
  obeys (draws c) 4 Idle (login_google_task f token handle mi) (eq Idle).
Proof.
  intros Hc. unfold login_google_task. follow.
  apply (obeys_bind _ _ _ 1 0 _ _ (eq Idle)); [apply mint_obeys; by left|].
  by intros ? [tok exp] <-.
Qed.

Lemma refresh_obeys f token now_parse now_check mi :
  call_mints c = Some (mi_ulid mi) ->
  obeys (draws c) 4 Idle (refresh_task f token now_parse now_check mi) (eq Idle).
Proof.
  intros Hc. unfold refresh_task. do 3 (apply obeys_ok_or; [done|]; intros ?).
  apply (obeys_bind _ _ _ 2 2 _ _ (eq Idle)); [apply authorized_obeys|].
  intros ? b <-. destruct (negb b); [done|]. follow.
  all: apply (obeys_bind _ _ _ 1 0 _ _ (eq Idle)); [|by intros ? [tok exp] <-].
  all: apply mint_obeys; cbn; auto.
Qed.

Lemma request_otp_obeys f addr email i :
  call_creates c = Some (oi_ulid i) ->
  obeys (draws c) 4 Idle (request_otp_task f addr email i) (eq Idle).
Proof.
  intros Hc. unfold request_otp_task.
  apply (obeys_bind _ _ _ 1 3 _ _ (eq Idle)).
  { destruct (f_bypass_enabled f), addr; [done..| apply limit_obeys | done]. }
  intros ? _ <-. apply (obeys_bind _ _ _ 1 2 _ _ (eq Idle)).
  { destruct (f_bypass_enabled f); [done | apply limit_obeys]. }
  intros ? _ <-. follow.
Qed.

Lemma verify_obeys f token tick now_parse now :
  obeys (draws c) 2 Idle (verify_task f token tick now_parse now) (eq Idle).
Proof.
  unfold verify_task. repeat case_match; try done.
  apply (obeys_bind _ _ _ 2 0 _ _ (eq Idle)); [apply authorized_obeys | by intros ? ? <-].
Qed.
End Tasks.

(** Every request follows the automaton, whatever its accesses answer, within five accesses. *)
Lemma auth_task_obeys `{!AuthLib, !RustStr} f c :
  obeys (draws c) 5 Idle (auth_task f c) quiet.
Proof.
  assert (forall A (p : task A) (g : A -> answer), obeys (draws c) 5 Idle p quiet ->
    obeys (draws c) 5 Idle (p ≫= fun a => mret (g a)) quiet) as Hret.
  { intros A p g Hp. change 5%nat with (5 + 0)%nat. eapply obeys_bind; [done | by intros]. }
  assert (forall A n (p : task A), (n <= 5)%nat -> obeys (draws c) n Idle p (eq Idle) ->
    obeys (draws c) 5 Idle p quiet) as Hidle.
  { intros A n p Hn Hp. eapply obeys_weaken; [done.. | by intros ? <-]. }
  destruct c; cbn [auth_task]; apply Hret.
  - eapply Hidle; [|by apply request_otp_obeys]. lia.
  - unfold login_task. apply obeys_ok_or; [done|]. intros [id code|tok handle].
    + by apply login_otp_obeys.
    + eapply Hidle; [|by apply login_google_obeys]. lia.
  - unfold logout_task. case_match; follow.
  - eapply Hidle; [|by apply refresh_obeys]. lia.
  - unfold connect_task. follow.
  - unfold nonce_task. follow.
  - eapply Hidle; [|apply verify_obeys]. lia.
  - eapply Hidle; [|apply authorized_obeys]. lia.
Qed.

Lemma guard_after_next f a b f' :
  next f a b = Some f' -> guard_after a (guard_of f) b = guard_of f'.
Proof.
  destruct a; cbn in *; destruct f as [|? ? []|]; cbn; try done; try (by intros [= <-]);
    try (case_bool_decide; [|done]); destruct_and?; subst; try (by intros [= <-]).
  by destruct b; intros [= <-].
Qed.

(** A task that follows the automaton never waits for its own guard: alone, it does what its
    accesses compute. *)
Lemma obeys_alone `{!AuthLib, !RustStr} {A} shard P (p : task A) : forall n f Q s,
  obeys P n f p Q -> run_task shard p (guard_of f) s = run_accesses p s.
Proof.
  induction p as [r| |a k IH]; intros n f Q s Ho; [done..|]. cbn in Ho |- *.
  destruct Ho as [_ Ho]. destruct n as [|n]; [done|].
  destruct (perform a s) as [b s'] eqn:Hs. specialize (Ho b).
  destruct (next f a b) as [f'|] eqn:Hn; [|done].
  rewrite (guard_after_next _ _ _ _ Hn).
  rewrite (IH b n f' Q s' Ho). destruct (locks a) as [id|] eqn:Hl; [|done].
  destruct f as [|id' r' c'|]; [done| |done]. by destruct a.
Qed.

(** A request with no other in flight, access by access and lock by lock, is answered as the
    handler of [Auth.v] answers it. *)
Lemma auth_task_refines `{!AuthLib, !RustStr} shard c s :
  run_task shard (auth_task (fields_of s) c) None s = auth_step c s.
Proof.
  rewrite <- auth_task_accesses.
  apply (obeys_alone shard (draws c) _ 5 Idle quiet). apply auth_task_obeys.
Qed.

(** ** The invariant of a pool *)
Section Pool.
Context `{!AuthLib, !RustStr}.
Variable shard : string -> Z.

Abbreviation ghosts := (gmap nat (phase * nat)).

(** Each task follows its automaton with the accesses it has left; a task that holds a record sees
    what the store has, and no two guards are on one shard. *)
Record pool_inv (p : pool) (g : ghosts) : Prop := {
  pi_tasks : forall t,
    match p_workers p !! t, g !! t with
    | Some w, Some (f, n) =>
        obeys (draws (w_call w)) n f (w_task w) quiet /\ w_guard w = guard_of f
    | None, None => True
    | _, _ => False
    end;
  pi_holds : forall t n id r c,
    g !! t = Some (Holding id r c, n) -> otp_store (p_service p) !! id = Some r;
  pi_excl : forall t1 t2 n1 n2 id1 id2 r1 r2 c1 c2, t1 <> t2 ->
    g !! t1 = Some (Holding id1 r1 c1, n1) -> g !! t2 = Some (Holding id2 r2 c2, n2) ->
    shard id1 <> shard id2;
  pi_left : forall t f n, g !! t = Some (f, n) -> (n <= 5)%nat }.

(** One step of the pool, seen by the automata. *)
Inductive moved (p p' : pool) (g : ghosts) : pool_event -> ghosts -> Prop :=
| moved_arrive t c :
    g !! t = None -> p_service p' = p_service p ->
    moved p p' g (EvArrive t c) (<[t := (Idle, 5%nat)]> g)
| moved_access t w f n a b f' :
    p_workers p !! t = Some w -> g !! t = Some (f, S n) -> next f a b = Some f' ->
    draws (w_call w) a -> perform a (p_service p) = (b, p_service p') ->
    moved p p' g (EvAccess t (guard_of f) a b) (<[t := (f', n)]> g)
| moved_reply t w f n r :
    p_workers p !! t = Some w -> g !! t = Some (f, n) -> quiet f ->
    p_service p' = p_service p ->
    moved p p' g (EvReply t (w_call w) r) (delete t g)
| moved_crash t w f n :
    p_workers p !! t = Some w -> g !! t = Some (f, n) -> quiet f ->
    p_service p' = p_service p ->
    moved p p' g (EvCrash t (w_call w)) (delete t g).

Lemma guarded_false ws id t w x :
  guarded shard ws id = false -> ws !! t = Some w -> w_guard w = Some x -> shard x <> shard id.
Proof.
  unfold guarded. intros Hg Hw Hx Heq.
  assert (existsb (holds_shard shard id) (map_to_list ws).*2 = true) as Ht; [|congruence].
  apply existsb_exists. exists w. split.
  - apply list_elem_of_In, list_elem_of_fmap. exists (t, w). by rewrite elem_of_map_to_list.
  - unfold holds_shard. rewrite Hx. by apply Z.eqb_eq.
Qed.

Lemma guarded_none ws id :
  (forall t w, ws !! t = Some w -> w_guard w = None) -> guarded shard ws id = false.
Proof.
  intros Hws. apply not_true_is_false. unfold guarded. rewrite existsb_exists.
  intros (w & Hin & Hw). apply list_elem_of_In, list_elem_of_fmap in Hin as ([t w'] & -> & Hin).
  apply elem_of_map_to_list in Hin. unfold holds_shard in Hw. cbn in Hw.
  by rewrite (Hws _ _ Hin) in Hw.
Qed.

(** An access changes a password record only under its lock or its guard. *)
Lemma store_frame a s b s' id :
  perform a s = (b, s') -> locks a <> Some id -> (forall r, a <> OtpStore id r) ->
  otp_store s' !! id = otp_store s !! id.
Proof.
  destruct a; cbn; intros Hp Hl Hr; try (by injection Hp as _ <-).
  - injection Hp as _ <-. cbn. rewrite lookup_insert_ne; congruence.
  - injection Hp as _ <-. cbn. rewrite lookup_insert_ne; [done | by intros ->; eapply Hr].
  - injection Hp as _ <-. cbn. rewrite lookup_delete_ne; congruence.
  - by destruct (check_limit _ _ _ _) as [[]| |]; injection Hp as _ <-.
Qed.

(** What the phase after an access says of the record it holds. *)
Lemma next_holding f a b f' s s' id r c :
  next f a b = Some f' -> perform a s = (b, s') -> f' = Holding id r c ->
  (forall id0 r0 c0, f = Holding id0 r0 c0 -> otp_store s !! id0 = Some r0) ->
  otp_store s' !! id = Some r /\
  (locks a = Some id /\ f = Idle \/ exists r0, f = Holding id r0 false /\ locks a = None).
Proof.
  intros Hn Hp -> Hf. destruct a; cbn in *;
    repeat (case_match; simplify_eq/=; try done); try (by destruct f as [|? ? []|]; simplify_eq).
  all: try (split; [eauto | eauto]).
  - apply lookup_insert_eq.
  - match goal with H : bool_decide _ = true |- _ => apply bool_decide_eq_true in H as [-> ->] end.
    eauto.
Qed.

Lemma pi_task p g t w :
  pool_inv p g -> p_workers p !! t = Some w ->
  exists f n, g !! t = Some (f, n) /\ obeys (draws (w_call w)) n f (w_task w) quiet /\
              w_guard w = guard_of f.
Proof.
  intros Hp Hw. pose proof (pi_tasks _ _ Hp t) as Ht. rewrite Hw in Ht.
  destruct (g !! t) as [[f n]|]; [by exists f, n | done].
Qed.

Lemma pi_ghost p g t f n :
  pool_inv p g -> g !! t = Some (f, n) ->
  exists w, p_workers p !! t = Some w /\ w_guard w = guard_of f.
Proof.
  intros Hp Hg. pose proof (pi_tasks _ _ Hp t) as Ht. rewrite Hg in Ht.
  destruct (p_workers p !! t) as [w|]; [exists w; naive_solver | done].
Qed.

Lemma pool_inv_idle s : pool_inv (idle_pool s) ∅.
Proof. split; intros; by rewrite ?lookup_empty in *. Qed.

Lemma pool_inv_arrive p g t c :
  pool_inv p g -> g !! t = None ->
  pool_inv (mkPool (p_service p)
              (<[t := mkWorker c (auth_task (fields_of (p_service p)) c) None]> (p_workers p)))
           (<[t := (Idle, 5%nat)]> g).
Proof.
  intros Hp Hg. split; cbn.
  - intros t'. destruct (decide (t = t')) as [<-|].
    + rewrite !lookup_insert_eq. split; [apply auth_task_obeys | done].
    + rewrite !lookup_insert_ne by done. apply Hp.
  - intros t' n id r cl. rewrite lookup_insert. case_decide; [done|]. apply Hp.
  - intros t1 t2 n1 n2 id1 id2 r1 r2 c1 c2 Hne. rewrite !lookup_insert.
    repeat case_decide; try done. by apply Hp.
  - intros t' f n. rewrite lookup_insert. case_decide; [intros [= _ <-]; lia | apply Hp].
Qed.

Lemma pool_inv_end p g t :
  pool_inv p g -> pool_inv (mkPool (p_service p) (delete t (p_workers p))) (delete t g).
Proof.
  intros Hp. split; cbn.
  - intros t'. destruct (decide (t = t')) as [<-|].
    + by rewrite !lookup_delete_eq.
    + rewrite !lookup_delete_ne by done. apply Hp.
  - intros t' n id r c [_ Hg]%lookup_delete_Some. by eapply Hp.
  - intros t1 t2 n1 n2 id1 id2 r1 r2 c1 c2 Hne [_ H1]%lookup_delete_Some [_ H2]%lookup_delete_Some.
    by eapply Hp.
  - intros t' f n [_ Hg]%lookup_delete_Some. by eapply Hp.
Qed.

Lemma pool_inv_access p g t w a k f n b f' s' :
  pool_inv p g -> p_workers p !! t = Some w -> w_task w = Access a k ->
  g !! t = Some (f, S n) -> w_guard w = guard_of f ->
  obeys (draws (w_call w)) n f' (k b) quiet ->
  blocked shard (p_workers p) a = false -> next f a b = Some f' ->
  perform a (p_service p) = (b, s') ->
  pool_inv (mkPool s' (<[t := mkWorker (w_call w) (k b) (guard_after a (w_guard w) b)]>
                         (p_workers p))) (<[t := (f', n)]> g).
Proof.
  intros Hp Hw Hk Hg Hgd Ho Hb Hn Hs.
  assert (forall t' id0 r0 c0 n0, g !! t' = Some (Holding id0 r0 c0, n0) ->
            forall id, locks a = Some id -> shard id0 <> shard id) as Hfree.
  { intros t' id0 r0 c0 n0 H' id Hl. unfold blocked in Hb. rewrite Hl in Hb.
    destruct (pi_ghost _ _ _ _ _ Hp H') as (w' & Hw' & Hx). by eapply guarded_false. }
  assert (forall t' id0 r0 c0 n0, t' <> t -> g !! t' = Some (Holding id0 r0 c0, n0) ->
            otp_store s' !! id0 = Some r0) as Hother.
  { intros t' id0 r0 c0 n0 Hne H'. rewrite (store_frame a (p_service p) b s' id0).
    - by eapply Hp.
    - done.
    - intros Hl. by eapply Hfree.
    - intros r ->. cbn in Hn. destruct f as [|id1 r1 []|]; try done.
      case_bool_decide; [|done]. destruct_and!. subst.
      by eapply (pi_excl _ _ Hp t' t). }
  assert (forall id r c, f' = Holding id r c -> otp_store s' !! id = Some r /\
            (locks a = Some id /\ f = Idle \/ exists r0, f = Holding id r0 false /\ locks a = None))
    as Hself.
  { intros id r c Hf'. eapply next_holding; [done..|]. intros id0 r0 c0 ->. by eapply Hp. }
  split; cbn.
  - intros t'. destruct (decide (t = t')) as [<-|].
    + rewrite !lookup_insert_eq. split; [done|]. rewrite Hgd. by apply guard_after_next.
    + rewrite !lookup_insert_ne by done. apply Hp.
  - intros t' n' id r c. rewrite lookup_insert. case_decide; [|by eauto].
    intros [= Hf' _]. by eapply Hself.
  - assert (forall t2 n2 id1 id2 r1 r2 c1 c2, t <> t2 -> f' = Holding id1 r1 c1 ->
              g !! t2 = Some (Holding id2 r2 c2, n2) -> shard id1 <> shard id2) as Hx.
    { intros t2 n2 id1 id2 r1 r2 c1 c2 Hne Hf' H2.
      destruct (Hself _ _ _ Hf') as [_ [[Hl ->] | (r0 & -> & _)]].
      - intros Heq. by eapply Hfree.
      - by eapply (pi_excl _ _ Hp t t2). }
    intros t1 t2 n1 n2 id1 id2 r1 r2 c1 c2 Hne. rewrite !lookup_insert.
    repeat case_decide; subst; try done.
    + intros [= Hf' _] Hh2. by eapply Hx.
    + intros Hh1 [= Hf' _] Heq. by eapply Hx.
    + by apply Hp.
  - intros t' f0 n'. rewrite lookup_insert. case_decide; [intros [= _ <-] | apply Hp].
    apply (pi_left _ _ Hp) in Hg. lia.
Qed.

(** Every step keeps the invariant. *)
Lemma pool_step_moved p g act p' ev :
  pool_inv p g -> pool_step shard p act = Some (p', ev) ->
  exists g', pool_inv p' g' /\ moved p p' g ev g'.
Proof.
  intros Hp. destruct act as [t c|t]; cbn.
  - destruct (p_workers p !! t) eqn:Hw; [done|]. intros [= <- <-].
    assert (g !! t = None) as Hg.
    { pose proof (pi_tasks _ _ Hp t) as Ht. rewrite Hw in Ht. by destruct (g !! t). }
    eexists. split; [by apply pool_inv_arrive | by constructor].
  - destruct (p_workers p !! t) as [w|] eqn:Hw; [|done]. cbn.
    destruct (pi_task _ _ _ _ Hp Hw) as (f & n & Hg & Ho & Hgd).
    destruct (w_task w) as [r | | a k] eqn:Hk.
    + intros [= <- <-]. exists (delete t g). split; [by apply pool_inv_end|].
      econstructor; [done..| by destruct r | done].
    + intros [= <- <-]. exists (delete t g). split; [by apply pool_inv_end|].
      econstructor; [done..| done].
    + destruct (blocked _ _ _) eqn:Hb; [done|]. destruct (perform _ _) as [b s'] eqn:Hs.
      intros [= <- <-]. destruct Ho as [Ha Ho]. destruct n as [|n]; [done|]. specialize (Ho b).
      destruct (next f a b) as [f'|] eqn:Hn; [|done].
      exists (<[t := (f', n)]> g). split; [by eapply pool_inv_access|].
      rewrite Hgd. by econstructor.
Qed.

(** ** Runs *)

Lemma pool_run_cons p act acts p'' evs :
  pool_run shard p (act :: acts) = Some (p'', evs) ->
  exists p' ev evs', pool_step shard p act = Some (p', ev) /\
    pool_run shard p' acts = Some (p'', evs') /\ evs = ev :: evs'.
Proof.
  cbn. destruct (pool_step shard p act) as [[p' ev]|]; [|done]. cbn.
  destruct (pool_run shard p' acts) as [[p2 evs']|] eqn:E; [|done]. cbn.
  intros [= <- <-]. by exists p', ev, evs'.
Qed.

(** The most requests in flight at one time. *)
Fixpoint pool_width (p : pool) (acts : list action) : Z :=
  Z.max (Z.of_nat (size (p_workers p)))
    match acts with
    | [] => 0
    | act :: acts =>
        match pool_step shard p act with Some (p', _) => pool_width p' acts | None => 0 end
    end.

Lemma pool_width_step p act acts p' ev :
  pool_step shard p act = Some (p', ev) -> pool_width p' acts <= pool_width p (act :: acts).
Proof. intros Hs. cbn. rewrite Hs. lia. Qed.

Lemma pool_width_size p acts : Z.of_nat (size (p_workers p)) <= pool_width p acts.
Proof. destruct acts; cbn; lia. Qed.

(** A property of a run by induction over its steps, with the automata at hand. *)
Lemma pool_run_ind (I : pool -> ghosts -> list pool_event -> Prop) width p g acts p' evs0
    evs :
  pool_inv p g -> I p g evs0 ->
  (forall p g evs p' g' ev, pool_inv p g -> pool_inv p' g' -> I p g evs ->
     moved p p' g ev g' -> (exists act, act ∈ acts /\ pool_step shard p act = Some (p', ev)) ->
     Z.of_nat (size (p_workers p')) <= width -> I p' g' (evs ++ [ev])) ->
  pool_run shard p acts = Some (p', evs) -> pool_width p acts <= width ->
  exists g', pool_inv p' g' /\ I p' g' (evs0 ++ evs).
Proof.
  revert p g evs0 evs. induction acts as [|act acts IH]; intros p g evs0 evs Hp HI Hstep Hrun Hw.
  - injection Hrun as <- <-. exists g. by rewrite app_nil_r.
  - apply pool_run_cons in Hrun as (p1 & ev & evs' & Hs & Hr & ->).
    destruct (pool_step_moved _ _ _ _ _ Hp Hs) as (g1 & Hp1 & Hm).
    replace (evs0 ++ ev :: evs') with ((evs0 ++ [ev]) ++ evs') by by rewrite <- app_assoc.
    pose proof (pool_width_step _ _ acts _ _ Hs). pose proof (pool_width_size p1 acts).
    apply (IH p1 g1); [done | | | done | lia].
    + apply (Hstep p g); [done..| | lia]. exists act. split; [constructor | done].
    + intros p2 g2 evs2 p3 g3 ev3 ? ? ? ? (act3 & ? & ?) ?. apply (Hstep p2 g2); [done..| |done].
      exists act3. split; [by constructor | done].
Qed.

(** ** How much one password yields *)

(** A wrong guess was counted in the record of [id]; a session was opened from it. *)
Definition counts_guess (id : string) (ev : pool_event) : bool :=
  match ev with EvAccess _ _ (OtpStore id' _) _ => String.eqb id' id | _ => false end.

Definition opens_session (id : string) (ev : pool_event) : bool :=
  match ev with EvAccess _ (Some g) (SessionInsert _ _) _ => String.eqb g id | _ => false end.

(** Requests that arrive draw none of the identifiers in [bad]. *)
Definition arrivals (ok : auth_call -> Prop) (acts : list action) : Prop :=
  Forall (fun act => match act with Arrive _ c => ok c | Turn _ => True end) acts.

Definition owed (id : string) (x : phase * nat) : Z := if decide (pending id x.1) then 1 else 0.

Lemma owed_range id x : 0 <= owed id x <= 1.
Proof. unfold owed. case_decide; lia. Qed.

Lemma owed_pending id f n : pending id f -> owed id (f, n) = 1.
Proof. intros. unfold owed. by rewrite decide_True. Qed.

Lemma owed_not id f n : ~ pending id f -> owed id (f, n) = 0.
Proof. intros. unfold owed. by rewrite decide_False. Qed.

Lemma quiet_not_pending id f : quiet f -> ~ pending id f.
Proof. destruct f as [|? ? []|]; cbn; tauto. Qed.

Lemma ghosts_size p g : pool_inv p g -> size g = size (p_workers p).
Proof.
  intros Hp. rewrite <- !size_dom. f_equal. apply set_eq. intros t. rewrite !elem_of_dom.
  pose proof (pi_tasks _ _ Hp t) as Ht.
  destruct (p_workers p !! t), (g !! t) as [[]|]; cbn in *; try done.
  all: split; [by intros [? ?] | by intros [? ?]].
Qed.

Lemma owed_width id p g : pool_inv p g -> map_sum (owed id) g <= Z.of_nat (size (p_workers p)).
Proof.
  intros Hp. rewrite <- (ghosts_size _ _ Hp).
  pose proof (map_sum_le_size (owed id) 1 g (owed_range id)). lia.
Qed.

(** The requests in flight, and those that arrive, are in [ok]. *)
Definition in_flight (ok : auth_call -> Prop) (p : pool) : Prop :=
  forall t w, p_workers p !! t = Some w -> ok (w_call w).

Lemma in_flight_step ok acts p act p' ev :
  arrivals ok acts -> act ∈ acts -> in_flight ok p -> pool_step shard p act = Some (p', ev) ->
  in_flight ok p'.
Proof.
  intros Ha Hin Hp. apply (proj1 (Forall_forall _ _) Ha) in Hin. destruct act as [t c|t]; cbn.
  - destruct (p_workers p !! t); [done|]. intros [= <- _] t' w. cbn. rewrite lookup_insert.
    case_decide; [by intros [= <-] | apply Hp].
  - destruct (p_workers p !! t) as [w|] eqn:Hw; [|done]. cbn.
    destruct (w_task w) as [r | | a k].
    1,2: intros [= <- _] t' w'; cbn; intros [_ Hw']%lookup_delete_Some; apply (Hp _ _ Hw').
    destruct (blocked _ _ _); [done|]. destruct (perform _ _). intros [= <- _] t' w'. cbn.
    rewrite lookup_insert. case_decide; [|apply Hp]. intros [= <-]. apply (Hp _ _ Hw).
Qed.

(** While the record of [id] is there, every session opened from it and every wrong guess after
    the second is owed a removal by a request that is still in flight. *)
Definition accounted (id : string) (a0 n : Z) (p : pool) (g : ghosts) (evs : list pool_event) :
    Prop :=
  let used := count_if (opens_session id) evs +
              Z.max 0 (a0 + count_if (counts_guess id) evs - 2) in
  in_flight (fun c => call_creates c <> Some id) p /\ used <= n /\
  forall r, otp_store (p_service p) !! id = Some r ->
    otp_attempts r = a0 + count_if (counts_guess id) evs /\ used <= map_sum (owed id) g.

Lemma accounted_same id a0 n p g evs p' g' ev :
  accounted id a0 n p g evs -> in_flight (fun c => call_creates c <> Some id) p' ->
  counts_guess id ev = false -> opens_session id ev = false ->
  (otp_store (p_service p') !! id = otp_store (p_service p) !! id /\
   map_sum (owed id) g' = map_sum (owed id) g) \/ otp_store (p_service p') !! id = None ->
  accounted id a0 n p' g' (evs ++ [ev]).
Proof.
  intros (Hf & Hn & Hr) Hf' H1 H2 H3. unfold accounted. rewrite !count_if_snoc, H1, H2.
  rewrite !Z.add_0_r. split_and!; [done..|]. destruct H3 as [[-> ->]| ->]; done.
Qed.

(** What is owed changes with the phase of the task that moves. *)
Lemma owed_step id (g : ghosts) t f n f' n' :
  g !! t = Some (f, n) ->
  map_sum (owed id) (<[t := (f', n')]> g) =
  map_sum (owed id) g - owed id (f, n) + owed id (f', n').
Proof. apply map_sum_insert_Some. Qed.

(** An access that neither counts a guess nor opens a session of [id] leaves the record and what
    is owed as they are, or removes the record. *)
Lemma other_access id c s t f n a b f' n' s' :
  draws c a -> call_creates c <> Some id -> next f a b = Some f' -> perform a s = (b, s') ->
  counts_guess id (EvAccess t (guard_of f) a b) = false ->
  opens_session id (EvAccess t (guard_of f) a b) = false ->
  (otp_store s' !! id = otp_store s !! id /\ owed id (f', n') = owed id (f, n)) \/
  otp_store s' !! id = None.
Proof.
  intros Hd Hc Hn Hs Hg Ho.
  destruct (decide (a = OtpRemove id)) as [->|Hrm].
  { right. injection Hs as _ <-. apply lookup_delete_eq. }
  left. split.
  - assert (locks a = Some id -> otp_store s' !! id = otp_store s !! id) as Hl.
    { destruct a; cbn in *; intros [= ->]; try done; by injection Hs as _ <-. }
    destruct (decide (locks a = Some id)); [by apply Hl|].
    eapply store_frame; [done..|]. intros r ->. cbn in Hg. by rewrite String.eqb_refl in Hg.
  - unfold owed. cbn [fst]. apply decide_ext.
    destruct a; cbn in *; destruct f as [|iq rq []|iq]; cbn in *; simplify_eq/=; try done;
      try (case_bool_decide; [|done]); destruct_and?; simplify_eq/=; try done.
    + by destruct (_ !! _).
    + apply String.eqb_neq in Hg. by destruct (3 <=? _).
    + naive_solver.
    + apply String.eqb_neq in Ho. naive_solver.
Qed.

(** The two accesses that do. *)
Lemma guess_access id p g t n a b f f' :
  pool_inv p g -> g !! t = Some (f, n) -> next f a b = Some f' ->
  counts_guess id (EvAccess t (guard_of f) a b) = true ->
  exists r, f = Holding id r false /\ a = OtpStore id (bump r) /\
    f' = Holding id (bump r) (3 <=? otp_attempts r + 1) /\
    otp_store (p_service p) !! id = Some r.
Proof.
  intros Hp Hg Hn Hc. destruct a; try done. apply String.eqb_eq in Hc as ->. cbn in Hn.
  destruct f as [|iq rq []|]; try done. case_bool_decide as Hb; [|done].
  destruct Hb as [-> ->]. injection Hn as <-. exists rq. split_and!; [done..|].
  by eapply (pi_holds _ _ Hp).
Qed.

Lemma open_access id p g t n a b f f' :
  pool_inv p g -> g !! t = Some (f, n) -> next f a b = Some f' ->
  opens_session id (EvAccess t (guard_of f) a b) = true ->
  exists r jti now, f = Holding id r false /\ a = SessionInsert jti now /\
    f' = Holding id r true /\ otp_store (p_service p) !! id = Some r.
Proof.
  intros Hp Hg Hn Hc. destruct a; try (by destruct f). cbn in Hn, Hc.
  destruct f as [|iq rq []|]; try done. apply String.eqb_eq in Hc as ->.
  injection Hn as <-. exists rq, jti, now. split_and!; [done..|]. by eapply (pi_holds _ _ Hp).
Qed.

Lemma accounted_access id a0 width p g evs t w f n a b f' p' :
  pool_inv p g -> pool_inv p' (<[t := (f', n)]> g) -> accounted id a0 width p g evs ->
  p_workers p !! t = Some w -> g !! t = Some (f, S n) -> next f a b = Some f' ->
  draws (w_call w) a -> perform a (p_service p) = (b, p_service p') ->
  in_flight (fun c => call_creates c <> Some id) p' ->
  Z.of_nat (size (p_workers p')) <= width ->
  accounted id a0 width p' (<[t := (f', n)]> g) (evs ++ [EvAccess t (guard_of f) a b]).
Proof.
  intros Hp Hp' Ha Hw Hg Hn Hd Hs Hf' Hwd.
  pose proof (owed_step id g t f (S n) f' n Hg) as Hsum. pose proof (owed_width id _ _ Hp') as Hle.
  destruct (counts_guess id (EvAccess t (guard_of f) a b)) eqn:Hc;
    [|destruct (opens_session id (EvAccess t (guard_of f) a b)) eqn:Ho].
  - destruct (guess_access _ _ _ _ _ _ _ _ _ Hp Hg Hn Hc) as (r & -> & -> & -> & Hr).
    destruct Ha as (Hf & Hb & Hall). destruct (Hall r Hr) as [Hatt Hused].
    unfold accounted. rewrite !count_if_snoc, Hc. cbn [opens_session Z.b2z].
    rewrite !Z.add_0_r. injection Hs as _ Hs. rewrite <- Hs. cbn [otp_store set_otp_store].
    rewrite lookup_insert_eq. rewrite (owed_not _ (Holding id r false)) in Hsum by intros [].
    destruct (3 <=? otp_attempts r + 1) eqn:H3;
      [rewrite owed_pending in Hsum by done | rewrite owed_not in Hsum by intros []].
    all: split_and!; [done | lia |]; intros r' [= <-]; cbn; lia.
  - destruct (open_access _ _ _ _ _ _ _ _ _ Hp Hg Hn Ho) as (r & jti & now & -> & -> & -> & Hr).
    destruct Ha as (Hf & Hb & Hall). destruct (Hall r Hr) as [Hatt Hused].
    unfold accounted. rewrite !count_if_snoc, Ho. cbn [counts_guess Z.b2z].
    rewrite !Z.add_0_r. injection Hs as _ Hs. rewrite <- Hs. cbn [otp_store set_session_activity].
    rewrite (owed_not _ (Holding id r false)) in Hsum by intros [].
    rewrite owed_pending in Hsum by done.
    split_and!; [done | lia |]. intros r' Hr'. rewrite Hr in Hr'. injection Hr' as <-. lia.
  - apply (accounted_same _ _ _ p g); [done..|].
    destruct (other_access id (w_call w) (p_service p) t f (S n) a b f' n (p_service p'))
      as [[Hst Hz]|Hst]; try done; [by eapply (proj1 Ha)|left|by right].
    split; [done | lia].
Qed.

Lemma accounted_step id a0 width acts p g evs p' g' act ev :
  arrivals (fun c => call_creates c <> Some id) acts -> act ∈ acts ->
  pool_step shard p act = Some (p', ev) ->
  pool_inv p g -> pool_inv p' g' -> accounted id a0 width p g evs -> moved p p' g ev g' ->
  Z.of_nat (size (p_workers p')) <= width -> accounted id a0 width p' g' (evs ++ [ev]).
Proof.
  intros Har Hin Hstep Hp Hp' Ha Hm Hw.
  pose proof (in_flight_step _ _ _ _ _ _ Har Hin (proj1 Ha) Hstep) as Hf'.
  destruct Hm as [t c Hg Hs | t w f n a b f' Hwk Hg Hn Hd Hs | t w f n r _ Hg Hq Hs
                 | t w f n _ Hg Hq Hs].
  - apply (accounted_same _ _ _ p g); [done..|]. left. rewrite Hs. split; [done|].
    rewrite map_sum_insert_None by done. done.
  - by eapply accounted_access.
  - apply (accounted_same _ _ _ p g); [done..|]. left. rewrite Hs. split; [done|].
    rewrite (map_sum_delete _ _ _ _ Hg), owed_not by by apply quiet_not_pending. lia.
  - apply (accounted_same _ _ _ p g); [done..|]. left. rewrite Hs. split; [done|].
    rewrite (map_sum_delete _ _ _ _ Hg), owed_not by by apply quiet_not_pending. lia.
Qed.

(** C6 (bounds): in every interleaving of any requests, what one password yields is bounded by the
    number of requests in flight at one time: the sessions opened from it, together with the wrong
    guesses counted after the second, are at most the width of the interleaving.  (With one request
    at a time: one session, or three wrong guesses.) *)
Theorem otp_yield_bound s id r acts p evs :
  otp_store s !! id = Some r -> 0 <= otp_attempts r <= 2 ->
  arrivals (fun c => call_creates c <> Some id) acts ->
  pool_run shard (idle_pool s) acts = Some (p, evs) ->
  count_if (opens_session id) evs +
    Z.max 0 (otp_attempts r + count_if (counts_guess id) evs - 2)
  <= pool_width (idle_pool s) acts.
Proof.
  intros Hr Hatt Har Hrun.
  destruct (pool_run_ind (accounted id (otp_attempts r) (pool_width (idle_pool s) acts))
    (pool_width (idle_pool s) acts) (idle_pool s) ∅ acts p [] evs) as (g & _ & Ha).
  - apply pool_inv_idle.
  - split_and!; [intros t w; cbn; by rewrite lookup_empty| |].
    + pose proof (pool_width_size (idle_pool s) acts) as Hw. cbn in *. lia.
    + cbn. rewrite Hr. intros r' [= <-]. rewrite map_sum_empty. lia.
  - intros p1 g1 evs1 p2 g2 ev Hp1 Hp2 Ha Hm (act & Hin & Hs) Hw. by eapply accounted_step.
  - done.
  - done.
  - apply Ha.
Qed.

(** ** Every request is answered *)

(** A task that holds a guard can move: it never waits for a lock. *)
Lemma holder_moves p g t w :
  pool_inv p g -> p_workers p !! t = Some w -> w_guard w <> None ->
  is_Some (pool_step shard p (Turn t)).
Proof.
  intros Hp Hw Hx. destruct (pi_task _ _ _ _ Hp Hw) as (f & n & Hg & Ho & Hgd).
  cbn. rewrite Hw. cbn. destruct (w_task w) as [r| |a k]; [eauto..|].
  destruct Ho as [_ Ho]. destruct n as [|n]; [done|]. destruct (perform a _) as [b s'] eqn:Hs.
  specialize (Ho b). unfold blocked.
  assert (locks a = None) as ->; [|eauto].
  rewrite Hgd in Hx. destruct f as [|id r c|]; [done| |done]. by destruct a.
Qed.

(** As long as a request is in flight, some request can move. *)
Lemma pool_progress p g t w :
  pool_inv p g -> p_workers p !! t = Some w -> exists t', is_Some (pool_step shard p (Turn t')).
Proof.
  intros Hp Hw. destruct (w_task w) as [r| |a k] eqn:Hk;
    [exists t; cbn; rewrite Hw; cbn; rewrite Hk; eauto..|].
  destruct (blocked shard (p_workers p) a) eqn:Hb.
  - unfold blocked in Hb. destruct (locks a) as [id|]; [|done].
    apply existsb_exists in Hb as (w' & Hin & Hx).
    apply list_elem_of_In, list_elem_of_fmap in Hin as ([t' w''] & -> & Hin).
    apply elem_of_map_to_list in Hin. exists t'. eapply holder_moves; [done..|].
    unfold holds_shard in Hx. cbn in Hx. by destruct (w_guard w'').
  - exists t. cbn. rewrite Hw. cbn. rewrite Hk, Hb. destruct (perform a _). eauto.
Qed.

(** What the tasks have left: their accesses and their answer. *)
Definition left_of (x : phase * nat) : Z := 1 + Z.of_nat x.2.

Lemma turn_uses p g t p' g' ev :
  pool_step shard p (Turn t) = Some (p', ev) -> moved p p' g ev g' ->
  map_sum left_of g' + 1 <= map_sum left_of g.
Proof.
  intros Hs Hm. destruct Hm as [t' c Hg Hsv | t' w f n a b f' Hw Hg | t' w f n r Hw Hg
                               | t' w f n Hw Hg].
  - exfalso. cbn in Hs. destruct (p_workers p !! t) as [w|]; [|done]. cbn in Hs.
    destruct (w_task w); [done..|]. destruct (blocked _ _ _); [done|]. by destruct (perform _ _).
  - rewrite (map_sum_insert_Some _ _ _ _ _ Hg). unfold left_of. cbn. lia.
  - rewrite (map_sum_delete _ _ _ _ Hg). unfold left_of at 2. cbn. lia.
  - rewrite (map_sum_delete _ _ _ _ Hg). unfold left_of at 2. cbn. lia.
Qed.

Lemma left_bound p g : pool_inv p g ->
  0 <= map_sum left_of g <= 6 * Z.of_nat (size (p_workers p)).
Proof.
  intros Hp. rewrite <- (ghosts_size _ _ Hp). destruct Hp as [_ _ _ Hl]. revert Hl.
  induction g as [|t [f n] g Hg IH] using map_ind; intros Hl.
  - rewrite map_sum_empty, map_size_empty. lia.
  - rewrite map_sum_insert_None, map_size_insert_None by done. unfold left_of at 1 3. cbn.
    assert (n <= 5)%nat by (eapply (Hl t); apply lookup_insert_eq).
    assert (0 <= map_sum left_of g <= 6 * Z.of_nat (size g)); [|lia].
    apply IH. intros t' f' n' Hg'. eapply (Hl t'). rewrite lookup_insert_ne; [done|]. congruence.
Qed.

Lemma pool_run_inv s acts p evs :
  pool_run shard (idle_pool s) acts = Some (p, evs) -> exists g, pool_inv p g.
Proof.
  intros Hr. destruct (pool_run_ind (fun _ _ _ => True) (pool_width (idle_pool s) acts)
    (idle_pool s) ∅ acts p [] evs) as (g & Hp & _);
    [apply pool_inv_idle | done | done | done | lia | by exists g].
Qed.

(** A task that waits, waits for another that holds a guard on the shard, and that can move. *)
Lemma waits_for_mover p g t w :
  pool_inv p g -> p_workers p !! t = Some w ->
  is_Some (pool_step shard p (Turn t)) \/
  exists a k id t' w', w_task w = Access a k /\ locks a = Some id /\ t' <> t /\
    p_workers p !! t' = Some w' /\ holds_shard shard id w' = true /\
    is_Some (pool_step shard p (Turn t')).
Proof.
  intros Hp Hw. destruct (decide (w_guard w = None)) as [Hg|Hg]; [|left; by eapply holder_moves].
  destruct (w_task w) as [r| |a k] eqn:Hk; [left; cbn; rewrite Hw; cbn; rewrite Hk; eauto..|].
  destruct (blocked shard (p_workers p) a) eqn:Hb.
  - right. unfold blocked in Hb. destruct (locks a) as [id|] eqn:Hl; [|done].
    apply existsb_exists in Hb as (w' & Hin & Hx).
    apply list_elem_of_In, list_elem_of_fmap in Hin as ([t' w''] & -> & Hin).
    apply elem_of_map_to_list in Hin. exists a, k, id, t', w''. cbn [snd] in Hx.
    assert (w_guard w'' <> None) as Hg' by (unfold holds_shard in Hx; by destruct (w_guard w'')).
    split_and!; try done; [congruence | by eapply holder_moves].
  - left. cbn. rewrite Hw. cbn. rewrite Hk, Hb. destruct (perform a _). eauto.
Qed.

(** From every pool the requests in flight can be brought to their end. *)
Lemma can_drain n : forall p g, pool_inv p g -> map_sum left_of g <= Z.of_nat n ->
  exists ts p' evs, pool_run shard p (Turn <$> ts) = Some (p', evs) /\ p_workers p' = ∅.
Proof.
  induction n as [|n IH]; intros p g Hp Hn.
  all: destruct (decide (p_workers p = ∅)) as [|Hne]; [by exists [], p, []|].
  all: apply map_choose in Hne as (t & w & Hw).
  all: destruct (pool_progress _ _ _ _ Hp Hw) as (t' & [p1 ev] & Hs).
  all: destruct (pool_step_moved _ _ _ _ _ Hp Hs) as (g1 & Hp1 & Hm).
  all: pose proof (turn_uses _ _ _ _ _ _ Hs Hm); pose proof (left_bound _ _ Hp1).
  - lia.
  - destruct (IH p1 g1 Hp1) as (ts & p' & evs & Hr & Hx); [lia|].
    exists (t' :: ts), p', (ev :: evs). split; [|done]. cbn -[pool_step]. rewrite Hs. cbn -[pool_run].
    by rewrite Hr.
Qed.

(** The turns a request of the name [t] has taken since it arrived. *)
Definition turn_of (t : nat) (ev : pool_event) : bool :=
  match ev with
  | EvAccess t' _ _ _ | EvReply t' _ _ | EvCrash t' _ => bool_decide (t' = t)
  | EvArrive _ _ => false
  end.
Definition arrives (t : nat) (ev : pool_event) : bool :=
  match ev with EvArrive t' _ => bool_decide (t' = t) | _ => false end.
Definition since (t : nat) (evs : list pool_event) : Z :=
  foldl (fun n ev => if arrives t ev then 0 else n + Z.b2z (turn_of t ev)) 0 evs.

Lemma since_snoc t evs ev :
  since t (evs ++ [ev]) = if arrives t ev then 0 else since t evs + Z.b2z (turn_of t ev).
Proof. unfold since. by rewrite foldl_app. Qed.

Lemma since_split t evs1 c evs2 :
  Forall (fun ev => arrives t ev = false) evs2 ->
  since t (evs1 ++ EvArrive t c :: evs2) = count_if (turn_of t) evs2.
Proof.
  induction evs2 as [|ev evs2 IH] using rev_ind; intros Hall.
  - rewrite since_snoc. cbn. by rewrite bool_decide_eq_true_2.
  - apply Forall_app in Hall as [Hall Hev]. apply (proj1 (Forall_singleton _ _)) in Hev. cbn beta in Hev.
    replace (evs1 ++ EvArrive t c :: evs2 ++ [ev]) with ((evs1 ++ EvArrive t c :: evs2) ++ [ev])
      by by rewrite <- app_assoc.
    by rewrite since_snoc, Hev, (IH Hall), count_if_snoc.
Qed.

(** With what it has left, a request never comes to more than six. *)
Definition within_six (t : nat) (p : pool) (g : ghosts) (evs : list pool_event) : Prop :=
  since t evs + match g !! t with Some x => left_of x | None => 0 end <= 6.

Lemma within_six_step t p g evs p' g' ev :
  within_six t p g evs -> moved p p' g ev g' -> within_six t p' g' (evs ++ [ev]).
Proof.
  unfold within_six. intros Hi Hm. rewrite since_snoc.
  destruct Hm as [t' c Hg _ | t' w f n a b f' _ Hg | t' w f n r _ Hg | t' w f n _ Hg];
    cbn [arrives turn_of]; destruct (decide (t' = t)) as [->|Hne].
  all: rewrite ?bool_decide_eq_true_2, ?bool_decide_eq_false_2 by done.
  all: rewrite ?lookup_insert_eq, ?lookup_delete_eq, ?lookup_insert_ne, ?lookup_delete_ne by done.
  all: rewrite ?Hg in Hi; unfold left_of in *; cbn in *; lia.
Qed.


(** ** Logging out *)

Lemma pool_run_split p acts p' evs1 evs2 :
  pool_run shard p acts = Some (p', evs1 ++ evs2) ->
  exists acts1 acts2 pm, acts = acts1 ++ acts2 /\
    pool_run shard p acts1 = Some (pm, evs1) /\ pool_run shard pm acts2 = Some (p', evs2).
Proof.
  revert p acts. induction evs1 as [|ev evs1 IH]; intros p acts Hr.
  - by exists [], acts, p.
  - destruct acts as [|act acts]; [done|].
    apply pool_run_cons in Hr as (p1 & ev' & evs' & Hs & Hr & [= <- <-]).
    apply IH in Hr as (acts1 & acts2 & pm & -> & H1 & H2).
    exists (act :: acts1), acts2, pm. split_and!; [done| |done]. cbn. rewrite Hs. cbn.
    by rewrite H1.
Qed.

Lemma arrivals_app ok acts1 acts2 :
  arrivals ok (acts1 ++ acts2) <-> arrivals ok acts1 /\ arrivals ok acts2.
Proof. apply Forall_app. Qed.

Lemma in_flight_run ok s acts p evs :
  arrivals ok acts -> pool_run shard (idle_pool s) acts = Some (p, evs) -> in_flight ok p.
Proof.
  intros Ha Hr. destruct (pool_run_ind (fun p _ _ => in_flight ok p)
    (pool_width (idle_pool s) acts) (idle_pool s) ∅ acts p [] evs) as (g & _ & Hp);
    [apply pool_inv_idle | intros t w; cbn; by rewrite lookup_empty | | done | lia | done].
  intros p1 g1 evs1 p2 g2 ev _ _ Hp1 _ (act & Hin & Hs) _. by eapply in_flight_step.
Qed.

Lemma perform_fields a s : fields_of (perform a s).2 = fields_of s.
Proof. destruct a; cbn; try done. by destruct (check_limit _ _ _ _) as [[]| |]. Qed.

(** An access brings a closed session back only by inserting it. *)
Lemma perform_closed a s jti :
  session_activity s !! jti = None -> (forall now, a <> SessionInsert jti now) ->
  session_activity (perform a s).2 !! jti = None.
Proof.
  intros Hn Ha. destruct a; cbn; try done.
  - rewrite lookup_alter. case_decide; [|done]. subst. by rewrite Hn.
  - rewrite lookup_insert_ne; [done|]. intros ->. by eapply Ha.
  - rewrite lookup_delete. by case_decide.
  - by destruct (check_limit _ _ _ _) as [[]| |].
Qed.

(** An answer for which the session must be open. *)
Definition grants (key : Key) (jti : string) (c : auth_call) (r : result answer Status) : Prop :=
  match c, r with
  | CVerify _ _ _ _, Ok (AVerify (Ok sess)) => vs_jti sess = jti
  | CAuthorized j _ _, Ok (AAuthorized true) => j = jti
  | CRefresh token now_parse _ _, Ok _ =>
      exists claims, paseto_parse key now_parse token = Some claims /\
                     get_str claims "jti" = Some jti
  | _, _ => False
  end.

(** What an access may answer while the session is closed. *)
Definition closed_answer (jti : string) (a : access) : reply a -> Prop :=
  match a with SessionGet j => fun b => j = jti -> b = None | _ => fun _ => True end.

(** Every result of [p] is in [Q] when the session is closed at its reads. *)
Fixpoint yields {A} (jti : string) (p : task A) (Q : result A Status -> Prop) : Prop :=
  match p with
  | Done r => Q r
  | Crash => True
  | Access a k => forall b, closed_answer jti a b -> yields jti (k b) Q
  end.

Lemma yields_bind {A B} jti (p : task A) (k : A -> task B) (Q : result B Status -> Prop) :
  yields jti p (fun r => match r with Ok a => yields jti (k a) Q | Err e => Q (Err e) end) ->
  yields jti (p ≫= k) Q.
Proof.
  induction p as [[a|e]| |a h IH]; [done..|]. intros Hp b Hb. apply IH. by apply Hp.
Qed.

Lemma yields_weaken {A} jti (p : task A) (Q Q' : result A Status -> Prop) :
  yields jti p Q' -> (forall r, Q' r -> Q r) -> yields jti p Q.
Proof.
  intros Hp Hq. induction p as [r| |a h IH]; [by apply Hq | done|]. intros b Hb.
  apply IH. by apply Hp.
Qed.

Lemma yields_ok_or {A B} jti (o : option A) e (k : A -> task B) (Q : result B Status -> Prop) :
  Q (Err e) -> (forall a, o = Some a -> yields jti (k a) Q) ->
  yields jti (task_ok_or o e ≫= k) Q.
Proof. intros He Hk. destruct o; [by apply Hk | done]. Qed.

Lemma yields_any {A} jti (p : task A) (Q : result A Status -> Prop) :
  (forall r, Q r) -> yields jti p Q.
Proof. intros Hq. induction p as [r| |a h IH]; [apply Hq | done|]. intros b _. apply IH. Qed.

(** A check of a closed session answers [false]. *)
Lemma authorized_yields jti j tick now :
  yields jti (authorized_task j tick now) (fun r => r = Ok true -> j <> jti).
Proof.
  intros b Hb. cbn in Hb. destruct b as [activity|]; [|done].
  assert (j <> jti) as Hne by (intros ->; discriminate (Hb eq_refl)).
  by apply yields_any.
Qed.

(** No request grants while the session is closed. *)
Lemma auth_task_refuses f jti c :
  yields jti (auth_task f c) (fun r => ~ grants (f_session_key f) jti c r).
Proof.
  destruct c as [| | |token now_parse now_check mi| | |token tick now_parse now|j tick now].
  1-3,5,6: apply yields_any; intros r Hg; by destruct r as [[]|].
  - apply yields_bind. unfold refresh_task.
    apply yields_ok_or; [cbn; tauto|]. intros claims Hp.
    apply yields_ok_or; [cbn; tauto|]. intros j Hj.
    apply yields_ok_or; [cbn; tauto|]. intros sub _. apply yields_bind.
    eapply yields_weaken; [apply authorized_yields|]. intros [[]|e] Hr; [|cbn; tauto..].
    apply yields_any. intros [resp|e]; [|cbn; tauto]. intros (claims' & Hp' & Hj').
    apply Hr; [done|]. congruence.
  - apply yields_bind. unfold verify_task.
    destruct (paseto_parse _ _ _) as [claims|] eqn:Hp; [|cbn; tauto].
    destruct (get_str claims "jti") as [j'|] eqn:Hj; [|cbn; tauto].
    destruct (get_str claims "sub") as [sub|]; [|cbn; tauto]. apply yields_bind.
    eapply yields_weaken; [apply authorized_yields|]. intros [[]|e] Hr; [|cbn; tauto..].
    intros Hg. by apply Hr.
  - apply yields_bind. eapply yields_weaken; [apply authorized_yields|].
    intros [[]|e] Hr; [|cbn; tauto..]. intros Hg. by apply Hr.
Qed.

(** The session is closed, and no request in flight draws its identifier. *)
Definition closed_pool (jti : string) (key : Key) (p : pool) : Prop :=
  in_flight (fun c => call_mints c <> Some jti) p /\
  session_key (p_service p) = key /\ session_activity (p_service p) !! jti = None.

(** Moreover the tasks named [t] refuse, and so did all that have answered. *)
Definition shut (jti : string) (key : Key) (t : nat) (p : pool) (evs : list pool_event) : Prop :=
  closed_pool jti key p /\
  (forall w, p_workers p !! t = Some w ->
     yields jti (w_task w) (fun r => ~ grants key jti (w_call w) r)) /\
  (forall c r, EvReply t c r ∈ evs -> ~ grants key jti c r).

Lemma key_of_fields s s' : fields_of s' = fields_of s -> session_key s' = session_key s.
Proof. by intros [= _ ? _ _]. Qed.

Lemma closed_step jti key acts p g act p' ev :
  jti <> "admin" -> arrivals (fun c => call_mints c <> Some jti) acts -> act ∈ acts ->
  pool_inv p g -> closed_pool jti key p -> pool_step shard p act = Some (p', ev) ->
  closed_pool jti key p'.
Proof.
  intros Hadm Har Hin Hp (Hf & Hk & Hn) Hs.
  split; [by eapply in_flight_step|].
  destruct (pool_step_moved _ _ _ _ _ Hp Hs) as (g' & _ & Hm).
  destruct Hm as [t c _ -> | t w f n a b f' Hw _ _ Hd Hpf | t w f n r _ _ _ -> | t w f n _ _ _ ->];
    [done| |done..].
  pose proof (perform_closed a (p_service p) jti Hn) as Hcl.
  pose proof (perform_fields a (p_service p)) as Hfl. rewrite Hpf in Hcl, Hfl. cbn in Hcl, Hfl.
  split; [by rewrite (key_of_fields _ _ Hfl)|]. apply Hcl. intros now ->.
  destruct Hd as [Hd|Hd]; [by apply (Hf _ _ Hw) | done].
Qed.

(** What an access answers in a pool where the session is closed. *)
Lemma perform_closed_answer jti a s :
  session_activity s !! jti = None -> closed_answer jti a (perform a s).1.
Proof. intros Hn. destruct a; try done. cbn. by intros ->. Qed.

Lemma shut_step jti key t acts p g evs act p' ev :
  jti <> "admin" -> arrivals (fun c => call_mints c <> Some jti) acts -> act ∈ acts ->
  pool_inv p g -> shut jti key t p evs -> pool_step shard p act = Some (p', ev) ->
  shut jti key t p' (evs ++ [ev]).
Proof.
  intros Hadm Har Hin Hp (Hc & Hw & He) Hs. pose proof Hc as (Hf & Hk & Hn).
  split; [by eapply closed_step|]. destruct act as [t' c|t']; cbn in Hs.
  - destruct (p_workers p !! t') eqn:E; [done|]. injection Hs as <- <-. split.
    + intros w. cbn. rewrite lookup_insert. case_decide; [|apply Hw]. intros [= <-].
      rewrite <- Hk. apply (auth_task_refuses (fields_of (p_service p))).
    + intros c' r [?|Hx]%elem_of_app; [by apply He|]. by apply list_elem_of_singleton in Hx.
  - destruct (p_workers p !! t') as [w'|] eqn:E; [|done]. cbn in Hs.
    destruct (w_task w') as [r| |a k] eqn:Hk'.
    + injection Hs as <- <-. split.
      * intros w. cbn. intros [_ ?]%lookup_delete_Some. by apply Hw.
      * intros c' r' [?|Hx]%elem_of_app; [by apply He|]. apply list_elem_of_singleton in Hx.
        injection Hx as -> -> ->. specialize (Hw _ E). by rewrite Hk' in Hw.
    + injection Hs as <- <-. split.
      * intros w. cbn. intros [_ ?]%lookup_delete_Some. by apply Hw.
      * intros c' r' [?|Hx]%elem_of_app; [by apply He|]. by apply list_elem_of_singleton in Hx.
    + destruct (blocked _ _ _); [done|].
      pose proof (perform_closed_answer jti a _ Hn) as Hans.
      destruct (perform a (p_service p)) as [b s'] eqn:Hpf. injection Hs as <- <-. split.
      * intros w. cbn. rewrite lookup_insert. case_decide; [|apply Hw]. subst.
        intros [= <-]. specialize (Hw _ E). rewrite Hk' in Hw. by apply Hw.
      * intros c' r' [?|Hx]%elem_of_app; [by apply He|]. by apply list_elem_of_singleton in Hx.
Qed.

Definition access_of (ev : pool_event) : option access :=
  match ev with EvAccess _ _ a _ => Some a | _ => None end.

Lemma step_access p act p' ev a :
  pool_step shard p act = Some (p', ev) -> access_of ev = Some a ->
  p_service p' = (perform a (p_service p)).2.
Proof.
  intros Hs Ha. destruct act as [t c|t]; cbn in Hs.
  - destruct (p_workers p !! t); [done|]. by injection Hs as <- <-.
  - destruct (p_workers p !! t) as [w|]; [|done]. cbn in Hs.
    destruct (w_task w) as [r| |a' k]; [by injection Hs as <- <-..|].
    destruct (blocked _ _ _); [done|]. destruct (perform a' _) as [b s'] eqn:Hp.
    injection Hs as <- <-. injection Ha as <-. by rewrite Hp.
Qed.

Lemma step_arrive p act p' t c :
  pool_step shard p act = Some (p', EvArrive t c) ->
  p' = mkPool (p_service p) (<[t := mkWorker c (auth_task (fields_of (p_service p)) c) None]>
                               (p_workers p)).
Proof.
  intros Hs. destruct act as [t' c'|t']; cbn in Hs.
  - destruct (p_workers p !! t'); [done|]. by injection Hs as <- -> ->.
  - destruct (p_workers p !! t') as [w|]; [|done]. cbn in Hs.
    destruct (w_task w) as [r| |a' k]; [done..|].
    destruct (blocked _ _ _); [done|]. by destruct (perform a' _) as [b s'].
Qed.

Lemma step_fields p act p' ev :
  pool_step shard p act = Some (p', ev) -> fields_of (p_service p') = fields_of (p_service p).
Proof.
  intros Hs. destruct (access_of ev) as [a|] eqn:Ha.
  { rewrite (step_access _ _ _ _ _ Hs Ha). apply perform_fields. }
  destruct act as [t c|t]; cbn in Hs.
  - destruct (p_workers p !! t); [done|]. by injection Hs as <- <-.
  - destruct (p_workers p !! t) as [w|]; [|done]. cbn in Hs.
    destruct (w_task w) as [r| |a' k]; [by injection Hs as <- <-..|].
    destruct (blocked _ _ _); [done|]. destruct (perform a' _). by injection Hs as <- <-.
Qed.

Lemma run_fields p acts p' evs :
  pool_run shard p acts = Some (p', evs) -> fields_of (p_service p') = fields_of (p_service p).
Proof.
  revert p evs. induction acts as [|act acts IH]; intros p evs Hr.
  - by injection Hr as <- <-.
  - apply pool_run_cons in Hr as (p1 & ev & evs' & Hs & Hr & ->).
    rewrite (IH _ _ Hr). by eapply step_fields.
Qed.

Lemma closed_run jti key p g acts p' evs :
  jti <> "admin" -> arrivals (fun c => call_mints c <> Some jti) acts -> pool_inv p g ->
  closed_pool jti key p -> pool_run shard p acts = Some (p', evs) ->
  closed_pool jti key p' /\ exists g', pool_inv p' g'.
Proof.
  intros Hadm Har Hp Hc Hr.
  destruct (pool_run_ind (fun p _ _ => closed_pool jti key p) (pool_width p acts) p g acts p' []
    evs) as (g' & Hp' & Hc'); [done | done | | done | lia | by eauto].
  intros p1 g1 evs1 p2 g2 ev Hp1 _ Hc1 _ (act & Hin & Hs) _. by eapply closed_step.
Qed.

Lemma shut_run jti key t p g acts p' evs :
  jti <> "admin" -> arrivals (fun c => call_mints c <> Some jti) acts -> pool_inv p g ->
  shut jti key t p [] -> pool_run shard p acts = Some (p', evs) -> shut jti key t p' evs.
Proof.
  intros Hadm Har Hp Hc Hr.
  destruct (pool_run_ind (fun p _ evs => shut jti key t p evs) (pool_width p acts) p g acts p' []
    evs) as (g' & Hp' & Hc'); [done | done | | done | lia | done].
  intros p1 g1 evs1 p2 g2 ev Hp1 _ Hc1 _ (act & Hin & Hs) _. by eapply shut_step.
Qed.

(** C9 (safety): once a session other than the bypass administrator's ("admin") has been removed, by a
    logout or a refresh, no interleaving in which no request draws its identifier brings it back: it
    stays out of the map, whatever requests were in flight at that moment, and no request that
    arrives afterwards verifies, authorizes or refreshes it. *)
Theorem logout_is_final_interleaved s jti acts p t0 x u t c evs1 evs2 evs3 :
  jti <> "admin" -> arrivals (fun c => call_mints c <> Some jti) acts ->
  pool_run shard (idle_pool s) acts =
    Some (p, evs1 ++ EvAccess t0 x (SessionRemove jti) u :: evs2 ++ EvArrive t c :: evs3) ->
  session_activity (p_service p) !! jti = None /\
  (forall c' r, EvReply t c' r ∈ evs3 -> ~ grants (session_key s) jti c' r).
Proof.
  intros Hadm Har Hrun.
  apply pool_run_split in Hrun as (acts1 & acts2 & p1 & -> & Hr1 & Hr2).
  apply arrivals_app in Har as [Ha1 Ha2]. destruct acts2 as [|act acts2]; [done|].
  apply pool_run_cons in Hr2 as (p2 & ev & evs & Hs & Hr2 & [= <- <-]).
  apply pool_run_split in Hr2 as (acts3 & acts4 & p3 & -> & Hr3 & Hr4).
  destruct acts4 as [|act' acts4]; [done|].
  apply pool_run_cons in Hr4 as (p4 & ev & evs & Hs4 & Hr4 & [= <- <-]).
  assert (arrivals (fun c => call_mints c <> Some jti) ([act] ++ acts3 ++ [act'] ++ acts4))
    as Ha by exact Ha2.
  apply arrivals_app in Ha as [Ha5 [Ha3 [Ha6 Ha4]%arrivals_app]%arrivals_app].
  destruct (pool_run_inv _ _ _ _ Hr1) as [g1 Hp1].
  destruct (pool_step_moved _ _ _ _ _ Hp1 Hs) as (g2 & Hp2 & _).
  assert (closed_pool jti (session_key s) p2) as Hc2.
  { split_and!.
    - eapply (in_flight_step _ [act]); [done | constructor | apply (in_flight_run _ _ _ _ _ Ha1 Hr1)
                                     | done].
    - rewrite (key_of_fields _ _ (step_fields _ _ _ _ Hs)).
      by rewrite (key_of_fields _ _ (run_fields _ _ _ _ Hr1)).
    - rewrite (step_access _ _ _ _ (SessionRemove jti) Hs eq_refl). apply lookup_delete_eq. }
  destruct (closed_run _ _ _ _ _ _ _ Hadm Ha3 Hp2 Hc2 Hr3) as [Hc3 [g3 Hp3]].
  destruct (pool_step_moved _ _ _ _ _ Hp3 Hs4) as (g4 & Hp4 & _).
  assert (closed_pool jti (session_key s) p4) as Hc4.
  { apply (closed_step jti _ [act'] p3 g3 act' p4 (EvArrive t c)); try done. constructor. }
  assert (shut jti (session_key s) t p4 []) as Hsh.
  { split_and!; [done | | by intros c' r' Hx; apply not_elem_of_nil in Hx]. rewrite (step_arrive _ _ _ _ _ Hs4). cbn.
    intros w. rewrite lookup_insert_eq. intros [= <-]. destruct Hc3 as (_ & <- & _).
    apply (auth_task_refuses (fields_of (p_service p3))). }
  destruct (shut_run _ _ _ _ _ _ _ _ Hadm Ha4 Hp4 Hsh Hr4) as ((_ & _ & Hn) & _ & He).
  by split.
Qed.
End Pool.
