(* ===== verification/AuthRaces.v ===== *)
(** * What interleaved requests can get out of the authentication service

    Three windows between a check and the change that should follow it: between [drop(entry)] and
    [otp_store.remove] in [login], and between the check and the [remove] of the session in
    [refresh_token].  Each theorem gives the interleaving, for every service and every choice of
    shards.  A request in flight keeps a thread of the runtime, so an interleaving needs as many
    threads as its width: the theorem on guesses asks for more threads than it has codes. *)

From stdpp Require Import gmap strings list fin_maps.
From Stdlib Require Import ZArith Lia.
From S2P Require Import Prelude RateLimit Auth AuthProps AuthTasks AuthTasksProps.

Open Scope Z_scope.

Section Races.
Context `{!AuthLib, !RustStr}.
Variable shard : string -> Z.
Implicit Types (s : AuthServiceImpl) (ws : gmap nat worker).

(** ** Stepping *)

(** Nobody holds a guard. *)
Definition unguarded ws : Prop := forall t w, ws !! t = Some w -> w_guard w = None.

Lemma unguarded_insert ws t w : unguarded ws -> w_guard w = None -> unguarded (<[t := w]> ws).
Proof. intros Hu Hw t' w'. rewrite lookup_insert. case_decide; [by intros [= <-] | apply Hu]. Qed.

Lemma step_turn s ws t c a k x :
  ws !! t = Some (mkWorker c (Access a k) x) -> locks a = None \/ unguarded ws ->
  pool_step shard (mkPool s ws) (Turn t) =
  Some (mkPool (perform a s).2
          (<[t := mkWorker c (k (perform a s).1) (guard_after a x (perform a s).1)]> ws),
        EvAccess t x a (perform a s).1).
Proof.
  intros Hw Hl. cbn. rewrite Hw. cbn.
  assert (blocked shard ws a = false) as ->.
  { unfold blocked. destruct (locks a) as [id|]; [|done]. destruct Hl as [|Hu]; [done|].
    by apply guarded_none. }
  by destruct (perform a s).
Qed.

Lemma step_reply s ws t c r x :
  ws !! t = Some (mkWorker c (Done r) x) ->
  pool_step shard (mkPool s ws) (Turn t) = Some (mkPool s (delete t ws), EvReply t c r).
Proof. intros Hw. cbn. by rewrite Hw. Qed.

Lemma step_new s ws t c :
  ws !! t = None ->
  pool_step shard (mkPool s ws) (Arrive t c) =
  Some (mkPool s (<[t := mkWorker c (auth_task (fields_of s) c) None]> ws), EvArrive t c).
Proof. intros Hw. cbn. by rewrite Hw. Qed.

Lemma run_step p act acts p1 ev p2 evs :
  pool_step shard p act = Some (p1, ev) -> pool_run shard p1 acts = Some (p2, evs) ->
  pool_run shard p (act :: acts) = Some (p2, ev :: evs).
Proof. intros Hs Hr. cbn. rewrite Hs. cbn. by rewrite Hr. Qed.

Lemma run_app p acts1 p1 evs1 acts2 p2 evs2 :
  pool_run shard p acts1 = Some (p1, evs1) -> pool_run shard p1 acts2 = Some (p2, evs2) ->
  pool_run shard p (acts1 ++ acts2) = Some (p2, evs1 ++ evs2).
Proof.
  revert p evs1. induction acts1 as [|act acts1 IH]; intros p evs1 H1 H2.
  - by injection H1 as <- <-.
  - apply pool_run_cons in H1 as (p' & ev & evs' & Hs & H1 & ->).
    cbn [app]. by eapply run_step; [|apply IH].
Qed.

(** Requests in flight at one time are at most those there were and those that arrive. *)
Definition is_arrival (act : action) : bool := match act with Arrive _ _ => true | Turn _ => false end.

Lemma pool_step_size p act p' ev :
  pool_step shard p act = Some (p', ev) ->
  Z.of_nat (size (p_workers p')) <= Z.of_nat (size (p_workers p)) + Z.b2z (is_arrival act).
Proof.
  destruct act as [t c|t]; cbn.
  - destruct (p_workers p !! t) eqn:E; [done|]. intros [= <- _]. cbn.
    rewrite map_size_insert_None by done. lia.
  - destruct (p_workers p !! t) as [w|] eqn:E; [|done]. cbn. pose proof (map_size_delete t (p_workers p)).
    destruct (w_task w); [intros [= <- _]; cbn; rewrite E in *; lia..|].
    destruct (blocked _ _ _); [done|]. destruct (perform _ _). intros [= <- _]. cbn.
    rewrite map_size_insert_Some by done. lia.
Qed.

Lemma pool_width_arrivals acts : forall p,
  pool_width shard p acts <= Z.of_nat (size (p_workers p)) + count_if is_arrival acts.
Proof.
  induction acts as [|act acts IH]; intros p; [cbn; lia|].
  pose proof (count_if_nonneg is_arrival acts) as Hc.
  assert (count_if is_arrival (act :: acts) = Z.b2z (is_arrival act) + count_if is_arrival acts) as ->
    by by destruct act.
  assert (0 <= Z.b2z (is_arrival act)) by by destruct act. cbn [pool_width].
  destruct (pool_step shard p act) as [[p' ev]|] eqn:Hs; [|lia].
  apply pool_step_size in Hs. specialize (IH p'). lia.
Qed.

(** ** The accesses of three requests, one after the other *)

Lemma refresh_script f token claims jti sub activity n1 n2 mi iat exp tok :
  paseto_parse (f_session_key f) n1 token = Some claims ->
  get_str claims "jti" = Some jti -> get_str claims "sub" = Some sub -> jti <> "admin" ->
  timestamp n2 - activity <= 3600 ->
  time_claim (mi_now mi) = Some iat -> time_claim (mi_now mi + hours 24) = Some exp ->
  paseto_build (f_session_key f) (session_claims sub (mi_ulid mi) iat exp) (mi_built mi) (mi_seed mi) = Ok tok ->
  exists k0 k1 k2 k3,
    auth_task f (CRefresh token n1 n2 mi) = Access (SessionGet jti) k0 /\
    k0 (Some activity) = Access (SessionTouch jti (timestamp n2)) k1 /\
    k1 () = Access (SessionRemove jti) k2 /\
    k2 () = Access (SessionInsert (mi_ulid mi) (timestamp (mi_now mi))) k3 /\
    k3 () = Done (Ok (ARefresh (mkRefreshResponse tok
                                  (as_u64 (timestamp_millis (mi_now mi + hours 24)))))).
Proof.
  intros Hp Hj Hsub Hadm Hidle Hiat Hexp Hb. cbn [auth_task]. unfold refresh_task.
  rewrite Hp. cbn [mbind task_bind task_ok_or]. rewrite Hj. cbn [mbind task_bind task_ok_or].
  rewrite Hsub. eexists _, _, _, _. split; [reflexivity|]. split.
  { cbn. rewrite (proj2 (Z.ltb_ge _ _)) by lia. reflexivity. }
  split; [reflexivity|]. split.
  { cbn. rewrite (proj2 (String.eqb_neq _ _)) by done. unfold mint_task. rewrite Hiat, Hexp. cbn.
    rewrite Hb. reflexivity. }
  reflexivity.
Qed.

Lemma logout_script f token claims jti now :
  token <> "" -> paseto_parse (f_session_key f) now token = Some claims ->
  get_str claims "jti" = Some jti ->
  exists k, auth_task f (CLogout None token now) = Access (SessionRemove jti) k /\
    k () = Done (Ok (ALogout true)).
Proof.
  intros Hne Hp Hj. cbn. rewrite (proj2 (String.eqb_neq _ _)) by done. cbn. rewrite Hp. cbn.
  rewrite Hj. eexists. split; reflexivity.
Qed.

(** A login with a wrong code, when two have been counted. *)
Lemma wrong_script f id code now mi r :
  f_bypass_enabled f = false -> now <= otp_expires_at r ->
  code_digest code id <> otp_code_hash r -> 2 <= otp_attempts r < 255 ->
  exists k0 k1 k2 k3,
    auth_task f (CLogin (Some (MOtp id code)) now mi) = Access (OtpGetMut id) k0 /\
    k0 (Some r) = Access (OtpStore id (bump r)) k1 /\
    k1 () = Access (OtpDrop id) k2 /\
    k2 () = Access (OtpRemove id) k3 /\
    k3 () = Done (Err (mkStatus CodeUnauthenticated "Invalid code")).
Proof.
  intros Hby Hexp Hd Ha. eexists _, _, _, _. split; [reflexivity|]. split.
  { cbn. rewrite Hby. cbn. rewrite (proj2 (Z.ltb_ge _ _)) by lia.
    rewrite (proj2 (String.eqb_neq _ _)) by done. unfold attempt_task.
    rewrite chk_add_Ret by (unfold umax; lia). cbn [task_lift mbind task_bind].
    rewrite (proj2 (Z.leb_le 3 (otp_attempts r + 1))) by lia. reflexivity. }
  split; [reflexivity|]. split; reflexivity.
Qed.

(** A login with the right code. *)
Lemma right_script f id code now mi r iat exp tok :
  f_bypass_enabled f = false -> now <= otp_expires_at r ->
  code_digest code id = otp_code_hash r ->
  time_claim (mi_now mi) = Some iat -> time_claim (mi_now mi + hours 24) = Some exp ->
  paseto_build (f_session_key f)
    (session_claims (derive_player_id "email" (otp_email r)) (mi_ulid mi) iat exp) (mi_built mi) (mi_seed mi)
    = Ok tok ->
  exists k0 k1 k2 k3 k4,
    auth_task f (CLogin (Some (MOtp id code)) now mi) = Access (OtpGetMut id) k0 /\
    k0 (Some r) = Access (RegistryInsert (derive_player_id "email" (otp_email r))) k1 /\
    (forall b, k1 b = Access (SessionInsert (mi_ulid mi) (timestamp (mi_now mi))) (k2 b) /\
       k2 b () = Access (OtpDrop id) (k3 b) /\ k3 b () = Access (OtpRemove id) (k4 b) /\
       k4 b () = Done (Ok (ALogin (mkLoginResponse tok
                    (as_u64 (timestamp_millis (mi_now mi + hours 24)))
                    (derive_player_id "email" (otp_email r)) b EmailOtp)))).
Proof.
  intros Hby Hexp Hd Hiat Hexpc Hb. eexists _, _, _, _, _. split; [reflexivity|]. split.
  { cbn. rewrite Hby. cbn. rewrite (proj2 (Z.ltb_ge _ _)) by lia.
    rewrite (proj2 (String.eqb_eq _ _)) by done. reflexivity. }
  intros b. split.
  { cbn. unfold mint_task. rewrite Hiat, Hexpc. cbn. rewrite Hb. reflexivity. }
  split; [reflexivity|]. split; reflexivity.
Qed.

(** ** A refresh that began before a logout outlives it *)

(** C37 (error): a refresh whose check passed just before a logout of the same session completes
    after it: the logout answers [revoked: true], the old session is gone, and yet the refresh
    answers with a token whose new session is open. *)
Theorem refresh_survives_logout s token claims jti sub activity now n1 n2 mi iat exp tok :
  paseto_parse (session_key s) n1 token = Some claims ->
  paseto_parse (session_key s) now token = Some claims -> token <> "" ->
  get_str claims "jti" = Some jti -> get_str claims "sub" = Some sub -> jti <> "admin" ->
  session_activity s !! jti = Some activity -> timestamp n2 - activity <= 3600 ->
  time_claim (mi_now mi) = Some iat -> time_claim (mi_now mi + hours 24) = Some exp ->
  paseto_build (session_key s) (session_claims sub (mi_ulid mi) iat exp) (mi_built mi) (mi_seed mi) = Ok tok ->
  mi_ulid mi <> jti ->
  exists acts p evs1 evs2 resp,
    pool_run shard (idle_pool s) acts =
      Some (p, evs1 ++ [EvReply 1 (CLogout None token now) (Ok (ALogout true))] ++ evs2 ++
               [EvReply 0 (CRefresh token n1 n2 mi) (Ok (ARefresh resp))]) /\
    rr_session_token resp = tok /\
    session_activity (p_service p) !! jti = None /\
    session_activity (p_service p) !! mi_ulid mi = Some (timestamp (mi_now mi)).
Proof.
  intros Hp1 Hp2 Htok Hj Hsub Hadm Hact Hidle Hiat Hexp Hb Hne.
  destruct (refresh_script (fields_of s) token claims jti sub activity n1 n2 mi iat exp tok)
    as (k0 & k1 & k2 & k3 & E0 & E1 & E2 & E3 & E4); [done..|].
  destruct (logout_script (fields_of s) token claims jti now) as (l & L0 & L1); [done..|].
  exists [Arrive 0 (CRefresh token n1 n2 mi); Turn 0; Arrive 1 (CLogout None token now); Turn 1;
          Turn 1; Turn 0; Turn 0; Turn 0; Turn 0].
  eexists _, [_; _; _; _], [_; _; _], _. split.
  { eapply run_step; [by apply step_new|]. rewrite E0.
    eapply run_step; [by eapply step_turn; [apply lookup_insert_eq | left]|].
    cbn [perform fst snd]. rewrite Hact, E1, insert_insert_eq.
    eapply run_step; [by apply step_new|]. rewrite L0.
    eapply run_step; [by eapply step_turn; [apply lookup_insert_eq | left]|].
    cbn [perform fst snd]. rewrite L1, insert_insert_eq.
    eapply run_step; [by eapply step_reply, lookup_insert_eq|].
    rewrite delete_insert_id by done.
    eapply run_step; [by eapply step_turn; [apply lookup_insert_eq | left]|].
    cbn [perform fst snd]. rewrite E2, insert_insert_eq.
    eapply run_step; [by eapply step_turn; [apply lookup_insert_eq | left]|].
    cbn [perform fst snd]. rewrite E3, insert_insert_eq.
    eapply run_step; [by eapply step_turn; [apply lookup_insert_eq | left]|].
    cbn [perform fst snd]. rewrite E4, insert_insert_eq.
    eapply run_step; [by eapply step_reply, lookup_insert_eq|]. reflexivity. }
  cbn. split_and!; [done| |].
  - rewrite lookup_insert_ne by done. apply lookup_delete_eq.
  - apply lookup_insert_eq.
Qed.

(** ** Guesses in flight are all compared *)
Section Guesses.
Variables (id : string) (now : Z) (mi : MintInputs).

Abbreviation guess code := (CLogin (Some (MOtp id code)) now mi).

(** One wrong guess up to [drop(entry)]: it has been counted, and the record is still there. *)
Lemma wrong_round s ws t code r :
  unguarded ws -> ws !! t = None -> otp_store s !! id = Some r ->
  bypass_enabled s = false -> now <= otp_expires_at r ->
  code_digest code id <> otp_code_hash r -> 2 <= otp_attempts r < 255 ->
  exists w evs,
    pool_run shard (mkPool s ws) [Arrive t (guess code); Turn t; Turn t; Turn t] =
      Some (mkPool (set_otp_store (<[id := bump r]>) s) (<[t := w]> ws), evs) /\
    w_guard w = None /\ count_if (counts_guess id) evs = 1.
Proof.
  intros Hu Ht Hr Hby Hexp Hd Ha.
  destruct (wrong_script (fields_of s) id code now mi r)
    as (k0 & k1 & k2 & k3 & E0 & E1 & E2 & E3 & E4); [done..|].
  eexists _, _. split.
  { eapply run_step; [by apply step_new|]. rewrite E0.
    eapply run_step; [eapply step_turn; [apply lookup_insert_eq | right; by apply unguarded_insert]|].
    cbn [perform fst snd guard_after]. rewrite Hr, E1, insert_insert_eq.
    eapply run_step; [by eapply step_turn; [apply lookup_insert_eq | left]|].
    cbn [perform fst snd guard_after]. rewrite E2, insert_insert_eq.
    eapply run_step; [by eapply step_turn; [apply lookup_insert_eq | left]|].
    cbn [perform fst snd guard_after]. rewrite E3, insert_insert_eq. reflexivity. }
  split; [done|]. cbn. rewrite String.eqb_refl. done.
Qed.

(** Everything of the record but its counter. *)
Definition same_code (r r' : OtpRecord) : Prop :=
  otp_email r' = otp_email r /\ otp_code_hash r' = otp_code_hash r /\
  otp_expires_at r' = otp_expires_at r.

Lemma wrong_rounds codes : forall n s ws r,
  unguarded ws -> (forall t, (n <= t)%nat -> ws !! t = None) -> otp_store s !! id = Some r ->
  bypass_enabled s = false -> now <= otp_expires_at r ->
  Forall (fun code => code_digest code id <> otp_code_hash r) codes ->
  2 <= otp_attempts r -> otp_attempts r + Z.of_nat (length codes) <= 255 ->
  exists acts s' ws' r' evs,
    pool_run shard (mkPool s ws) acts = Some (mkPool s' ws', evs) /\
    unguarded ws' /\ (forall t, (n + length codes <= t)%nat -> ws' !! t = None) /\
    otp_store s' !! id = Some r' /\ same_code r r' /\ fields_of s' = fields_of s /\
    count_if (counts_guess id) evs = Z.of_nat (length codes) /\
    count_if is_arrival acts = Z.of_nat (length codes).
Proof.
  induction codes as [|code codes IH]; intros n s ws r Hu Hn Hr Hby Hexp Hd H2 Hlen.
  - exists [], s, ws, r, []. split_and!; try done. intros t Ht. apply Hn. cbn in Ht. lia.
  - apply Forall_cons in Hd as [Hd1 Hd]. cbn [length] in Hlen.
    destruct (wrong_round s ws n code r) as (w & evs1 & Hrun1 & Hw & Hc1); try done; [by apply Hn|lia|].
    destruct (IH (S n) (set_otp_store (<[id := bump r]>) s) (<[n := w]> ws) (bump r))
      as (acts & s' & ws' & r' & evs & Hrun & Hu' & Hn' & Hr' & (He & Hh & Hx) & Hf & Hc & Hv); try done.
    + by apply unguarded_insert.
    + intros t Ht. rewrite lookup_insert_ne by lia. apply Hn. lia.
    + apply lookup_insert_eq.
    + cbn. lia.
    + cbn. lia.
    + eexists _, s', ws', r', _. split_and!; try done; [by eapply run_app | | |].
      * intros t Ht. apply Hn'. cbn [length] in Ht. lia.
      * rewrite count_if_app, Hc1, Hc. cbn [length]. lia.
      * rewrite count_if_app, Hv. cbn. lia.
Qed.
End Guesses.

(** C36 (error): the limit of three guesses does not bind requests in flight together.  Without the
    bypass and on a runtime with [threads] threads, when two wrong guesses of a password that has not
    expired have been counted, fewer than [threads] further wrong codes (253 at most) sent at once can
    all be compared, for the record is removed only after each has released it: there is an
    interleaving with at most [threads] requests in flight at one time in which all are, and in which
    a login with the right code that comes after them still succeeds. *)
Theorem guess_limit_evaded s id r now mi codes right iat exp tok threads :
  otp_store s !! id = Some r -> otp_attempts r = 2 -> now <= otp_expires_at r ->
  bypass_enabled s = false ->
  Forall (fun code => code_digest code id <> otp_code_hash r) codes ->
  Z.of_nat (length codes) <= 253 -> Z.of_nat (length codes) < threads ->
  code_digest right id = otp_code_hash r ->
  time_claim (mi_now mi) = Some iat -> time_claim (mi_now mi + hours 24) = Some exp ->
  paseto_build (session_key s)
    (session_claims (derive_player_id "email" (otp_email r)) (mi_ulid mi) iat exp) (mi_built mi) (mi_seed mi)
    = Ok tok ->
  exists acts p evs resp,
    pool_run shard (idle_pool s) acts =
      Some (p, evs ++ [EvReply (length codes) (CLogin (Some (MOtp id right)) now mi)
                         (Ok (ALogin resp))]) /\
    pool_width shard (idle_pool s) acts <= threads /\
    count_if (counts_guess id) evs = Z.of_nat (length codes) /\
    lr_session_token resp = tok /\
    session_activity (p_service p) !! mi_ulid mi = Some (timestamp (mi_now mi)).
Proof.
  intros Hr Ha Hexp Hby Hd Hlen Hthr Hright Hiat Hexpc Hb.
  destruct (wrong_rounds id now mi codes 0 s ∅ r)
    as (acts & s' & ws & r' & evs & Hrun & Hu & Hn & Hr' & (He & Hh & Hx) & Hf & Hc & Hv); try done.
  1,2: lia.
  injection Hf as Hf1 Hf2 Hf3 Hf4. cbn [Nat.add] in Hn.
  destruct (right_script (fields_of s') id right now mi r' iat exp tok)
    as (k0 & k1 & k2 & k3 & k4 & E0 & E1 & EK); cbn; try congruence.
  eexists (acts ++ [Arrive (length codes) _; Turn _; Turn _; Turn _; Turn _; Turn _; Turn _]),
    _, (evs ++ [_; _; _; _; _; _]), _. split_and!.
  { rewrite <- app_assoc. eapply run_app; [done|].
    eapply run_step; [apply step_new; by apply Hn|]. rewrite E0.
    eapply run_step; [eapply step_turn; [apply lookup_insert_eq | right; by apply unguarded_insert]|].
    cbn [perform fst snd guard_after]. rewrite Hr', E1, insert_insert_eq.
    eapply run_step; [by eapply step_turn; [apply lookup_insert_eq | left]|].
    cbn [perform fst snd guard_after].
    set (b := negb _). destruct (EK b) as (F1 & F2 & F3 & F4). rewrite F1, insert_insert_eq.
    eapply run_step; [by eapply step_turn; [apply lookup_insert_eq | left]|].
    cbn [perform fst snd guard_after]. rewrite F2, insert_insert_eq.
    eapply run_step; [by eapply step_turn; [apply lookup_insert_eq | left]|].
    cbn [perform fst snd guard_after]. rewrite F3, insert_insert_eq.
    eapply run_step; [eapply step_turn; [apply lookup_insert_eq | right; by apply unguarded_insert]|].
    cbn [perform fst snd guard_after]. rewrite F4, insert_insert_eq.
    eapply run_step; [by eapply step_reply, lookup_insert_eq|]. reflexivity. }
  - etrans; [apply pool_width_arrivals|]. rewrite count_if_app, Hv. cbn.
    rewrite map_size_empty. lia.
  - rewrite count_if_app, Hc. cbn. lia.
  - done.
  - apply lookup_insert_eq.
Qed.
End Races.
