(* ===== verification/AuthTasksWitness.v ===== *)
(** * Concrete interleavings of the authentication service

    All keys in one shard, the library of [AuthWitness.v], and the theorems on interleavings applied
    to runs that evaluate. *)

From stdpp Require Import gmap strings list fin_maps.
From Stdlib Require Import ZArith Lia.
From S2P Require Import Prelude RateLimit Auth AuthProps AuthWitness.
From S2P Require Import AuthTasks AuthTasksProps AuthRaces.

Open Scope Z_scope.

Module AuthTasksWitness.
Import AuthWitness.

Definition one_shard (id : string) : Z := 0.

(** The right code sent twice at once: the second request gets the record between the first one's
    [drop(entry)] and its [remove]. *)
Definition second_guess : auth_call :=
  CLogin (Some (MOtp ULID1 "000123")) (hours 1 + minutes 1)
    (mkMintInputs (hours 1 + minutes 1) (hours 1 + minutes 1) ULID3 8).
Definition both_logins : list action :=
  [Arrive 0 (guess "000123"); Arrive 1 second_guess; Turn 0; Turn 0; Turn 0; Turn 0;
   Turn 1; Turn 1; Turn 1; Turn 1; Turn 0; Turn 0; Turn 1; Turn 1].

Definition is_done {A} (o : option A) : bool := match o with Some _ => true | None => false end.

(** The pool and the events of a run. *)
Definition end_pool (s : AuthServiceImpl) (acts : list action) : pool :=
  match pool_run one_shard (idle_pool s) acts with Some (p, _) => p | None => idle_pool s end.
Definition end_events (s : AuthServiceImpl) (acts : list action) : list pool_event :=
  match pool_run one_shard (idle_pool s) acts with Some (_, evs) => evs | None => [] end.

Lemma run_end s acts :
  is_done (pool_run one_shard (idle_pool s) acts) = true ->
  pool_run one_shard (idle_pool s) acts = Some (end_pool s acts, end_events s acts).
Proof. unfold end_pool, end_events. by destruct (pool_run _ _ _) as [[p evs]|]. Qed.

Lemma ended_ex {A B} (o : option (A * B)) : is_done o = true -> exists a b, o = Some (a, b).
Proof. destruct o as [[a b]|]; [eauto | done]. Qed.

Lemma done_ex {A} (o : option A) : is_done o = true -> exists a, o = Some a.
Proof. destruct o; [eauto | done]. Qed.

Lemma not_done {A} (o : option A) : is_Some o -> is_done o = false -> False.
Proof. by intros [a ->]. Qed.

Definition login_ok (ev : pool_event) : bool :=
  match ev with EvReply _ _ (Ok (ALogin _)) => true | _ => false end.

(** One code, two sessions: single use does not hold of requests in flight together. *)
Example one_code_two_sessions :
  match pool_run one_shard (idle_pool s1) both_logins with
  | Some (p, evs) => (count_if login_ok evs, count_if (opens_session ULID1) evs,
                      session_activity (p_service p) !! ULID2, session_activity (p_service p) !! ULID3)
  | None => (0, 0, None, None)
  end = (2, 2, Some 3660, Some 3660).
Proof. vm_compute. reflexivity. Qed.

Lemma otp_yield_bound_witness :
  exists p evs, pool_run one_shard (idle_pool s1) both_logins = Some (p, evs) /\
    count_if (opens_session ULID1) evs +
      Z.max 0 (0 + count_if (counts_guess ULID1) evs - 2)
    <= pool_width one_shard (idle_pool s1) both_logins.
Proof.
  destruct (ended_ex (pool_run one_shard (idle_pool s1) both_logins)) as (p & evs & H);
    [vm_compute; reflexivity|].
  exists p, evs. split; [exact H|].
  apply (otp_yield_bound one_shard s1 ULID1 otp_record both_logins p evs).
  - apply lookup_insert_eq.
  - vm_compute. split; discriminate.
  - repeat constructor; discriminate.
  - exact H.
Defined.

(** Two requests, of which the second waits for the first one's guard. *)
Definition one_waits : list action :=
  [Arrive 0 (guess "000123"); Arrive 1 second_guess; Turn 0].

Example second_waits :
  match pool_run one_shard (idle_pool s1) one_waits with
  | Some (p, _) => (is_done (pool_step one_shard p (Turn 0)), is_done (pool_step one_shard p (Turn 1)))
  | None => (false, false)
  end = (true, false).
Proof. vm_compute. reflexivity. Qed.


(** A logout while a verification is in flight, and a verification after it. *)
Definition logout_acts : list action :=
  [Arrive 0 (CVerify demo_token None (hours 2) (hours 2)); Turn 0;
   Arrive 1 (CLogout None demo_token (hours 2)); Turn 1;
   Turn 0; Arrive 2 (CVerify demo_token None (hours 2) (hours 2)); Turn 2; Turn 2].

Lemma logout_is_final_interleaved_witness :
  exists p evs1 x evs2 evs3,
    pool_run one_shard (idle_pool s2) logout_acts =
      Some (p, evs1 ++ EvAccess 1 x (SessionRemove ULID2) () :: evs2 ++
               EvArrive 2 (CVerify demo_token None (hours 2) (hours 2)) :: evs3) /\
    session_activity (p_service p) !! ULID2 = None.
Proof.
  pose proof (run_end s2 logout_acts eq_refl) as H.
  assert (exists evs1 x evs2 evs3, end_events s2 logout_acts =
            evs1 ++ EvAccess 1 x (SessionRemove ULID2) () :: evs2 ++
            EvArrive 2 (CVerify demo_token None (hours 2) (hours 2)) :: evs3)
    as (evs1 & x & evs2 & evs3 & Hevs).
  { eexists [_; _; _], _, [_], _. vm_compute. reflexivity. }
  rewrite Hevs in H. exists (end_pool s2 logout_acts), evs1, x, evs2, evs3. split; [exact H|].
  apply (logout_is_final_interleaved one_shard s2 ULID2 logout_acts _ 1 x () 2
           (CVerify demo_token None (hours 2) (hours 2)) evs1 evs2 evs3).
  - discriminate.
  - repeat constructor; discriminate.
  - exact H.
Defined.

Definition built (at_ : Z) (claims : Claims) : string :=
  match paseto_build (session_key s0) claims at_ 0 with Ok token => token | Err _ => "" end.

Lemma refresh_survives_logout_witness :
  exists acts p evs1 evs2 resp,
    pool_run one_shard (idle_pool s2) acts =
      Some (p, evs1 ++ [EvReply 1 (CLogout None demo_token (hours 2)) (Ok (ALogout true))] ++ evs2 ++
               [EvReply 0 (CRefresh demo_token (hours 2) (hours 2) (mkMintInputs (hours 2) (hours 2) ULID3 0))
                  (Ok (ARefresh resp))]) /\
    session_activity (p_service p) !! ULID3 = Some (timestamp (hours 2)).
Proof.
  destruct (refresh_survives_logout one_shard s2 demo_token
              demo_claims ULID2 player 3660 (hours 2)
              (hours 2) (hours 2) (mkMintInputs (hours 2) (hours 2) ULID3 0)
              (pos_str (encode (hours 2))) (pos_str (encode (hours 2 + hours 24)))
              (built (hours 2) (session_claims player ULID3 (pos_str (encode (hours 2)))
                        (pos_str (encode (hours 2 + hours 24))))))
    as (acts & p & evs1 & evs2 & resp & H & _ & _ & Hs).
  - exact demo_parses.
  - exact demo_parses.
  - apply String.eqb_neq. vm_compute. reflexivity.
  - exact (proj1 demo_claims_get).
  - exact (proj2 demo_claims_get).
  - discriminate.
  - apply lookup_insert_eq.
  - vm_compute. discriminate.
  - reflexivity.
  - reflexivity.
  - reflexivity.
  - discriminate.
  - exists acts, p, evs1, evs2, resp. split; [exact H | exact Hs].
Defined.

(** Two wrong guesses have been counted. *)
Definition s1_two : AuthServiceImpl :=
  set_otp_store (<[ULID1 := mkOtpRecord "a@b.c" (code_digest "000123" ULID1) None
                              (hours 1 + minutes 10) 2]>) s0.

Lemma guess_limit_evaded_witness :
  exists acts p evs resp,
    pool_run one_shard (idle_pool s1_two) acts =
      Some (p, evs ++ [EvReply 4 (guess "000123") (Ok (ALogin resp))]) /\
    pool_width one_shard (idle_pool s1_two) acts <= 8 /\
    count_if (counts_guess ULID1) evs = 4.
Proof.
  destruct (guess_limit_evaded one_shard s1_two ULID1
              (mkOtpRecord "a@b.c" (code_digest "000123" ULID1) None (hours 1 + minutes 10) 2)
              (hours 1 + minutes 1) mint_inputs ["000001"; "000002"; "000003"; "000004"] "000123"
              (pos_str (encode (hours 1 + minutes 1))) (pos_str (encode (hours 1 + minutes 1 + hours 24)))
              (built (hours 1 + minutes 1) (session_claims player ULID2 (pos_str (encode (hours 1 + minutes 1)))
                        (pos_str (encode (hours 1 + minutes 1 + hours 24))))) 8)
    as (acts & p & evs & resp & H & Hw & Hc & _).
  - apply lookup_insert_eq.
  - reflexivity.
  - vm_compute. discriminate.
  - reflexivity.
  - repeat constructor; vm_compute; discriminate.
  - vm_compute. discriminate.
  - vm_compute. reflexivity.
  - reflexivity.
  - reflexivity.
  - reflexivity.
  - reflexivity.
  - exists acts, p, evs, resp. split; [exact H|]. split; [exact Hw | exact Hc].
Defined.
End AuthTasksWitness.
