(* ===== verification/Matchmaking.v ===== *)
(** * Matchmaking ([aetheris-server/src/matchmaking/mod.rs])

    The registry of game servers and the matchmaking queue.  [join_queue] leaves a task behind
    that waits one second for a cancellation and then matches: the service is a state machine
    whose steps are the gRPC handlers and the two ways a task can end.

    A task's cancellation arrives when its [oneshot::Sender] is used or dropped.  The sender lives
    in [active_queues] only, so it is gone exactly when the entry of the task's token is no longer
    the task's own: [active_queues] maps a token to the task whose sender it holds. *)

From stdpp Require Import gmap strings list.
From Stdlib Require Import ZArith Lia.
From S2P Require Import Prelude RateLimit Auth.

Open Scope Z_scope.

(** The fields of the protocol's [ServerInstance] that the service reads ([u32] counts). *)
Record ServerInstance := mkServerInstance {
  si_instance_id : string; si_addr : string;
  si_players : Z; si_reserved : Z; si_max_players : Z }.

(** [last_heartbeat] is an [Instant] in nanoseconds. *)
Record RegisteredServer := mkRegisteredServer {
  rg_info : ServerInstance; rg_last_heartbeat : Z }.

(** What a queue's stream carries. *)
Inductive QueueUpdate :=
| Queued (position estimated_wait_seconds : Z)
| Matched (quic_token : QuicConnectToken) (server_address world_instance_id : string).

(** [s.last_heartbeat.elapsed().as_secs() < 30]. *)
Definition heartbeat_live (now : Z) (s : RegisteredServer) : bool :=
  Z.max 0 (now - rg_last_heartbeat s) / 1000000000 <? 30.

(** The free places of a live server that has some; [+] on [u32] is checked. *)
Definition free_places (now : Z) (s : RegisteredServer) : exec (option Z) :=
  if heartbeat_live now s then
    total ← chk_add 32 (si_players (rg_info s)) (si_reserved (rg_info s));
    Ret (if total <? si_max_players (rg_info s) then Some (si_max_players (rg_info s) - total) else None)
  else Ret None.

(** [.filter(..).filter(..).max_by_key(..)]: of several maxima the last. *)
Definition pick_step (now : Z) (best : option (ServerInstance * Z)) (s : RegisteredServer) :
    exec (option (ServerInstance * Z)) :=
  free ← free_places now s;
  Ret (match free, best with
       | None, _ => best
       | Some f, None => Some (rg_info s, f)
       | Some f, Some (_, f') => if f' <=? f then Some (rg_info s, f) else best
       end).

Definition pick_server (now : Z) (servers : list RegisteredServer) :
    exec (option ServerInstance) :=
  best ← for_each (pick_step now) None servers;
  Ret (match best with Some (i, _) => Some i | None => None end).

Section Service.
Context `{LIB : !AuthLib, STR : !RustStr}.

(** The service, with the queue tasks that have not ended (by number, with their token) and the
    messages sent to each queue's stream. *)
Record MatchmakingServiceImpl := mkMatchmaking {
  mm_servers : gmap string RegisteredServer;
  mm_authorizer : AuthServiceImpl;
  mm_active_queues : gmap string nat;
  mm_tasks : gmap nat string;
  mm_streams : list (nat * result QueueUpdate Status) }.

Definition matchmaking_new (authorizer : AuthServiceImpl) : MatchmakingServiceImpl :=
  mkMatchmaking ∅ authorizer ∅ ∅ [].

(** [register_instance]. *)
Definition register_instance (s : MatchmakingServiceImpl) (instance : option ServerInstance)
    (now : Z) : result bool Status * MatchmakingServiceImpl :=
  match instance with
  | None => (Err (mkStatus CodeInvalidArgument "Missing instance info"), s)
  | Some i =>
      (Ok true, mkMatchmaking (<[si_instance_id i := mkRegisteredServer i now]> (mm_servers s))
                  (mm_authorizer s) (mm_active_queues s) (mm_tasks s) (mm_streams s))
  end.

(** [heartbeat]. *)
Definition heartbeat (s : MatchmakingServiceImpl) (instance_id : string) (players : Z) (now : Z) :
    result bool Status * MatchmakingServiceImpl :=
  match mm_servers s !! instance_id with
  | Some server =>
      let i := rg_info server in
      let server := mkRegisteredServer
        (mkServerInstance (si_instance_id i) (si_addr i) players (si_reserved i) (si_max_players i))
        now in
      (Ok true, mkMatchmaking (<[instance_id := server]> (mm_servers s)) (mm_authorizer s)
                  (mm_active_queues s) (mm_tasks s) (mm_streams s))
  | None => (Err (mkStatus CodeNotFound "Instance not registered"), s)
  end.

(** [list_servers]. *)
Definition list_servers (s : MatchmakingServiceImpl) : list ServerInstance :=
  rg_info <$> (map_to_list (mm_servers s)).*2.

(** [join_queue]; [id] is the number of the new task, [now_parse] and [now] the times of the
    authorization. *)
Definition join_queue (s : MatchmakingServiceImpl) (session_token : string) (id : nat)
    (now_parse now : Z) : result unit Status * MatchmakingServiceImpl :=
  let '(ok, auth) := is_authorized (mm_authorizer s) session_token now_parse now in
  if ok then
    (Ok (), mkMatchmaking (mm_servers s) auth (<[session_token := id]> (mm_active_queues s))
              (<[id := session_token]> (mm_tasks s))
              (mm_streams s ++ [(id, Ok (Queued 1 1))]))
  else
    (Err (mkStatus CodeUnauthenticated "Invalid session"),
     mkMatchmaking (mm_servers s) auth (mm_active_queues s) (mm_tasks s) (mm_streams s)).

(** [cancel_queue]. *)
Definition cancel_queue (s : MatchmakingServiceImpl) (session_token : string) :
    bool * MatchmakingServiceImpl :=
  match mm_active_queues s !! session_token with
  | Some _ =>
      (true, mkMatchmaking (mm_servers s) (mm_authorizer s)
               (delete session_token (mm_active_queues s)) (mm_tasks s) (mm_streams s))
  | None => (false, s)
  end.

(** The end of a task: its last message, then [active_queues.remove(&session_token)]. *)
Definition finish_task (s : MatchmakingServiceImpl) (id : nat) (token : string)
    (update : result QueueUpdate Status) : MatchmakingServiceImpl :=
  mkMatchmaking (mm_servers s) (mm_authorizer s) (delete token (mm_active_queues s))
    (delete id (mm_tasks s)) (mm_streams s ++ [(id, update)]).

(** A task's sender is gone. *)
Definition cancel_received (s : MatchmakingServiceImpl) (id : nat) (token : string) : Prop :=
  mm_active_queues s !! token <> Some id.

(** What a task answers when its second has passed. *)
Definition match_update (s : MatchmakingServiceImpl) (token : string) (now : Z)
    (i : ConnectInputs) : exec (result QueueUpdate Status) :=
  optimal ← pick_server now (map_to_list (mm_servers s)).*2;
  match optimal with
  | None => Ret (Err (mkStatus CodeResourceExhausted "No servers available"))
  | Some server =>
      '(r, _) ← issue_connect_token token (si_addr server) i (mm_authorizer s);
      Ret (match r with
           | Ok t => Ok (Matched t (si_addr server) (si_instance_id server))
           | Err e => Err (mkStatus CodeInternal
                             ("Failed to issue connect token: " +:+ st_message e))
           end)
  end.

(** ** The queue as a state machine *)
Inductive mm_step (s : MatchmakingServiceImpl) : MatchmakingServiceImpl -> Prop :=
| ms_join token id n1 n2 : mm_tasks s !! id = None -> mm_step s (join_queue s token id n1 n2).2
| ms_cancel token : mm_step s (cancel_queue s token).2
| ms_register i now : mm_step s (register_instance s i now).2
| ms_heartbeat i p now : mm_step s (heartbeat s i p now).2
| ms_task_cancelled id token :
    mm_tasks s !! id = Some token -> cancel_received s id token ->
    mm_step s (finish_task s id token (Err (mkStatus CodeCancelled "Matchmaking cancelled by user")))
| ms_task_elapsed id token now i u :
    mm_tasks s !! id = Some token -> match_update s token now i = Ret u ->
    mm_step s (finish_task s id token u).
End Service.

(** ** Choosing a server *)
Definition counts_ok (s : RegisteredServer) : Prop :=
  0 <= si_players (rg_info s) /\ 0 <= si_reserved (rg_info s) /\
  si_players (rg_info s) + si_reserved (rg_info s) <= umax 32.

(** [i] is a live server with [f] > 0 free places. *)
Definition candidate (now : Z) (l : list RegisteredServer) (i : ServerInstance) (f : Z) : Prop :=
  exists s, s ∈ l /\ rg_info s = i /\ heartbeat_live now s = true /\
    f = si_max_players i - (si_players i + si_reserved i) /\ 0 < f.

Lemma free_places_spec now s :
  counts_ok s ->
  exists r, free_places now s = Ret r /\ forall f, r = Some f <-> candidate now [s] (rg_info s) f.
Proof.
  intros (_ & _ & Hm). unfold free_places. destruct (heartbeat_live now s) eqn:Hl.
  - rewrite chk_add_Ret by done. eexists. split; [done|]. intros f.
    destruct (Z.ltb_spec (si_players (rg_info s) + si_reserved (rg_info s)) (si_max_players (rg_info s))).
    + split.
      * intros [= <-]. exists s. split_and!; try done; [constructor | lia].
      * intros (s' & ->%list_elem_of_singleton & _ & _ & -> & _). done.
    + split; [done|]. intros (s' & ->%list_elem_of_singleton & _ & _ & -> & Hf). lia.
  - exists None. split; [done|]. intros f. split; [done|].
    intros (s' & ->%list_elem_of_singleton & _ & Hl' & _). congruence.
Qed.

(** The best of the servers seen so far. *)
Definition best_of (now : Z) (l : list RegisteredServer) (b : option (ServerInstance * Z)) : Prop :=
  match b with
  | Some (i, f) => candidate now l i f /\ forall i' f', candidate now l i' f' -> f' <= f
  | None => forall i f, ~ candidate now l i f
  end.

Lemma candidate_app now l l' i f :
  candidate now (l ++ l') i f <-> candidate now l i f \/ candidate now l' i f.
Proof. unfold candidate. setoid_rewrite elem_of_app. naive_solver. Qed.

Lemma pick_loop now l done b :
  Forall counts_ok l -> best_of now done b ->
  exists b', for_each (pick_step now) b l = Ret b' /\ best_of now (done ++ l) b'.
Proof.
  intros Hl. revert done b. induction Hl as [|s l Hs _ IH]; intros dn b Hb.
  - exists b. by rewrite app_nil_r.
  - destruct (free_places_spec now s Hs) as (r & Hr & Hf).
    rewrite for_each_cons. unfold pick_step at 2. rewrite Hr. cbn [mbind exec_bind].
    replace (dn ++ s :: l) with ((dn ++ [s]) ++ l) by (by rewrite <- app_assoc).
    apply IH. unfold best_of in *.
    assert (Hone : forall i f, candidate now [s] i f -> i = rg_info s /\ r = Some f).
    { intros i f (s' & ->%list_elem_of_singleton & <- & Hc). split; [done|]. apply Hf.
      exists s. split; [constructor|]. done. }
    destruct r as [f|]; [|destruct b as [[i' f']|]].
    + assert (candidate now [s] (rg_info s) f) as Hc by (by apply Hf).
      destruct b as [[i' f']|]; [destruct (Z.leb_spec f' f)|]; setoid_rewrite candidate_app;
        (split; [naive_solver|]) || idtac.
      * intros i2 f2 [H2|H2]; [destruct Hb as [_ Hb]; specialize (Hb _ _ H2); lia|].
        apply Hone in H2 as [_ [= ->]]. lia.
      * intros i2 f2 [H2|H2]; [destruct Hb as [_ Hb]; specialize (Hb _ _ H2); lia|].
        apply Hone in H2 as [_ [= ->]]. lia.
      * intros i2 f2 [H2|H2]; [by apply Hb in H2|]. apply Hone in H2 as [_ [= ->]]. lia.
    + setoid_rewrite candidate_app. split; [naive_solver|].
      intros i2 f2 [H2|H2]; [by eapply Hb | by apply Hone in H2 as [_ ?]].
    + intros i2 f2 [H2|H2]%candidate_app; [by eapply Hb | by apply Hone in H2 as [_ ?]].
Qed.

(** The matchmaker picks, among the servers whose last heartbeat is less than
    30 seconds old and that have places left, one with the most places; it picks none only when
    there is no such server; and its arithmetic does not overflow while players and
    reservations together fit 32 bits. *)
Theorem pick_server_optimal now l :
  Forall counts_ok l ->
  exists r, pick_server now l = Ret r /\
    match r with
    | Some i => exists f, candidate now l i f /\ forall i' f', candidate now l i' f' -> f' <= f
    | None => forall i f, ~ candidate now l i f
    end.
Proof.
  intros Hl. destruct (pick_loop now l [] None Hl) as (b & Hb & Hbest).
  { intros i f (s & Hs & _). by apply not_elem_of_nil in Hs. }
  unfold pick_server. rewrite Hb. eexists. split; [done|].
  destruct b as [[i f]|]; cbn in *; [by exists f | done].
Qed.

(** ** The queue *)
Section Queue.
Context `{LIB : !AuthLib, STR : !RustStr}.
Implicit Types s : MatchmakingServiceImpl.

(** What the last messages of the streams of [id] say. *)
Definition cancelled_by_user : result QueueUpdate Status :=
  Err (mkStatus CodeCancelled "Matchmaking cancelled by user").

(** Joining the queue again with the same token, while the first request is still
    waiting, cancels both: the new entry drops the first task's sender, the first task's end
    removes the new entry, and that drops the new task's sender.  No one has called
    [cancel_queue]. *)
Theorem rejoin_cancels_both s token id1 id2 n1 n2 :
  id1 <> id2 -> mm_tasks s !! id1 = Some token -> mm_tasks s !! id2 = None ->
  (is_authorized (mm_authorizer s) token n1 n2).1 = true ->
  let s1 := (join_queue s token id2 n1 n2).2 in
  exists s3, rtc mm_step s1 s3 /\ mm_tasks s3 !! id1 = None /\ mm_tasks s3 !! id2 = None /\
    mm_streams s3 = mm_streams s1 ++ [(id1, cancelled_by_user); (id2, cancelled_by_user)].
Proof.
  intros Hne H1 H2 Hok s1. unfold s1, join_queue in *.
  destruct (is_authorized _ _ _ _) as [ok auth]. cbn in Hok. subst ok. cbn.
  match goal with |- context [rtc mm_step ?x _] => set (x1 := x) end.
  exists (finish_task (finish_task x1 id1 token cancelled_by_user) id2 token cancelled_by_user).
  split_and!.
  - eapply rtc_l; [apply (ms_task_cancelled x1 id1 token)|].
    + cbn. by rewrite lookup_insert_ne.
    + unfold cancel_received. cbn. rewrite lookup_insert_eq. congruence.
    + apply rtc_once, ms_task_cancelled.
      * cbn. rewrite lookup_delete_ne by done. by rewrite lookup_insert_eq.
      * unfold cancel_received. cbn. by rewrite lookup_delete_eq.
  - cbn. rewrite lookup_delete_ne by done. by rewrite lookup_delete_eq.
  - cbn. by rewrite lookup_delete_eq.
  - cbn. by rewrite <- !app_assoc.
Qed.

(** A server that registers is listed, replaces an earlier registration of its
    id, and its heartbeats are accepted and update its player count and nothing else of it; a
    heartbeat of an id that is not registered is refused and changes nothing. *)
Theorem register_then_heartbeat s i p t1 t2 :
  let s1 := (register_instance s (Some i) t1).2 in
  i ∈ list_servers s1 /\
  (exists s2, heartbeat s1 (si_instance_id i) p t2 = (Ok true, s2) /\
     mm_servers s2 = <[si_instance_id i := mkRegisteredServer
        (mkServerInstance (si_instance_id i) (si_addr i) p (si_reserved i) (si_max_players i)) t2]>
        (mm_servers s)) /\
  (forall id, mm_servers s !! id = None ->
     heartbeat s id p t2 = (Err (mkStatus CodeNotFound "Instance not registered"), s)).
Proof.
  cbn. split_and!.
  - unfold list_servers. cbn. apply list_elem_of_fmap. exists (mkRegisteredServer i t1). split; [done|].
    apply list_elem_of_fmap. exists (si_instance_id i, mkRegisteredServer i t1). split; [done|].
    apply elem_of_map_to_list. apply lookup_insert_eq.
  - eexists. unfold heartbeat. cbn. rewrite lookup_insert_eq. split; [done|]. cbn.
    by rewrite insert_insert_eq.
  - intros id H. unfold heartbeat. by rewrite H.
Qed.
End Queue.

(** ** Witnesses *)
Module MatchmakingWitness.
Definition server (id : string) (players max : Z) (beat : Z) : RegisteredServer :=
  mkRegisteredServer (mkServerInstance id "addr" players 0 max) beat.

(** One full, one stale, two with places. *)
Definition demo_servers : list RegisteredServer :=
  [server "full" 8 8 100000000000; server "stale" 0 64 0;
   server "small" 3 8 100000000000; server "big" 3 32 100000000000].

Lemma pick_server_optimal_witness :
  exists r, pick_server 101000000000 demo_servers = Ret r /\ (si_instance_id <$> r) = Some "big".
Proof.
  destruct (pick_server_optimal 101000000000 demo_servers) as (r & H & _).
  - repeat constructor; vm_compute; discriminate.
  - exists r. split; [exact H|]. vm_compute in H. injection H as <-. reflexivity.
Defined.
End MatchmakingWitness.
