(* ===== verification/Config.v ===== *)
(** * Server configuration ([aetheris-server/src/config.rs])

    [ServerConfig::load] reads three environment variables, each with a default for an absent or
    malformed value.  [str::parse] for unsigned integers is modelled as the standard library
    documents it: an optional [+], at least one decimal digit, and no overflow. *)

From stdpp Require Import base sets list strings pretty.
From Stdlib Require Import ZArith Lia Ascii.
From S2P Require Import Prelude.

Open Scope Z_scope.

(** The value of a decimal digit. *)
Definition digit_val (c : ascii) : option Z :=
  let n := Z.of_N (N_of_ascii c) in
  if (48 <=? n) && (n <=? 57) then Some (n - 48) else None.

(** [checked_mul(10)], [checked_add(d)] over the digits, as [from_str_radix] does. *)
Fixpoint parse_digits (w acc : Z) (s : string) : option Z :=
  match s with
  | EmptyString => Some acc
  | String c s =>
      match digit_val c with
      | Some d =>
          if acc * 10 <=? umax w then
            if acc * 10 + d <=? umax w then parse_digits w (acc * 10 + d) s else None
          else None
      | None => None
      end
  end.

(** [s.parse::<uW>()]. *)
Definition parse_uint (w : Z) (s : string) : option Z :=
  match s with
  | EmptyString => None
  | String c s' =>
      if Ascii.eqb c "+"%char then
        match s' with EmptyString => None | _ => parse_digits w 0 s' end
      else parse_digits w 0 s
  end.

Record ServerConfig := mkServerConfig {
  sc_metrics_port : Z; sc_tick_rate : Z; sc_encode_threads : Z }.

(** [std::env::var(name).ok().and_then(|s| s.parse().ok()).unwrap_or(default)]. *)
Definition env_uint (env : string -> option string) (name : string) (w dflt : Z) : Z :=
  default dflt (env name ≫= parse_uint w).

(** [ServerConfig::load]; [usize] has 64 bits. *)
Definition load (env : string -> option string) : ServerConfig :=
  mkServerConfig (env_uint env "AETHERIS_METRICS_PORT" 16 9000)
    (env_uint env "AETHERIS_TICK_RATE" 64 60)
    (env_uint env "AETHERIS_ENCODE_THREADS" 64 2).

(** ** Properties *)
Lemma digit_val_range c d : digit_val c = Some d -> 0 <= d <= 9.
Proof. unfold digit_val. bdestr; cbn; try done. intros [= <-]. lia. Qed.

Lemma parse_digits_range w acc s n :
  0 <= acc <= umax w -> parse_digits w acc s = Some n -> in_u w n.
Proof.
  revert acc. induction s as [|c s IH]; intros acc Ha; cbn; [by intros [= <-]|].
  destruct (digit_val c) as [d|] eqn:Ed; [|done]. apply digit_val_range in Ed.
  destruct (Z.leb_spec (acc * 10) (umax w)); [|done].
  destruct (Z.leb_spec (acc * 10 + d) (umax w)); [|done]. apply IH. lia.
Qed.

Lemma parse_uint_range w s n : 0 <= w -> parse_uint w s = Some n -> in_u w n.
Proof.
  intros Hw. assert (0 <= 0 <= umax w).
  { unfold umax. pose proof (Z.pow_pos_nonneg 2 w). lia. }
  destruct s as [|c s]; [done|]. unfold parse_uint. destruct (Ascii.eqb c "+"%char).
  - destruct s; [done|]. by apply parse_digits_range.
  - by apply parse_digits_range.
Qed.

(** ** Decimal printing ([to_string]) is parsed back *)
Lemma digit_val_pretty x : (x < 10)%N -> digit_val (pretty_N_char x) = Some (Z.of_N x).
Proof.
  intros H. destruct x as [|p]; [reflexivity|].
  do 4 (try destruct p as [p|p|]); (reflexivity || lia).
Qed.

Lemma parse_pretty_go w x s :
  Z.of_N x <= umax w -> parse_digits w 0 (pretty_N_go x s) = parse_digits w (Z.of_N x) s.
Proof.
  revert s. induction (N.lt_wf_0 x) as [x _ IH]; intros s Hx.
  destruct (decide (x = 0)%N) as [->|Hne]; [done|]. rewrite pretty_N_go_step by lia.
  assert (Z.of_N x = Z.of_N (x `div` 10) * 10 + Z.of_N (x `mod` 10)) as E.
  { rewrite <- (N2Z.inj_mul _ 10), <- N2Z.inj_add, (N.mul_comm _ 10), <- N.div_mod by lia. done. }
  pose proof (N.mod_lt x 10 ltac:(lia)).
  assert (x `div` 10 < x)%N by (apply N.div_lt; lia).
  rewrite IH by lia. cbn [parse_digits].
  rewrite digit_val_pretty by lia.
  rewrite <- E. generalize dependent (x `mod` 10)%N. generalize dependent (x `div` 10)%N.
  intros q _ r E Hr. destruct (Z.leb_spec (Z.of_N q * 10) (umax w)); [|lia].
  by rewrite (proj2 (Z.leb_le _ _) Hx).
Qed.

(** A string that starts with a digit is parsed digit by digit. *)
Definition starts_digit (s : string) : Prop :=
  match s with String c _ => is_Some (digit_val c) | EmptyString => False end.

Lemma starts_digit_go x s : starts_digit s -> starts_digit (pretty_N_go x s).
Proof.
  revert s. induction (N.lt_wf_0 x) as [x _ IH]; intros s Hs.
  destruct (decide (x = 0)%N) as [->|Hne]; [done|]. rewrite pretty_N_go_step by lia.
  apply IH; [apply N.div_lt; lia|]. pose proof (N.mod_lt x 10 ltac:(lia)).
  cbn. rewrite digit_val_pretty by lia. eauto.
Qed.

Lemma parse_uint_digits w s : starts_digit s -> parse_uint w s = parse_digits w 0 s.
Proof.
  destruct s as [|c s]; [done|]. intros [d Hd]. unfold parse_uint.
  destruct (Ascii.eqb_spec c "+"%char) as [->|]; [by vm_compute in Hd | done].
Qed.

Lemma parse_uint_pretty w (n : N) : Z.of_N n <= umax w -> parse_uint w (pretty n) = Some (Z.of_N n).
Proof.
  intros Hn. unfold pretty, pretty_N. destruct (decide (n = 0)%N) as [->|Hne].
  - change (Z.of_N 0) with 0 in *.
    change ((if 0 <=? umax w then if 0 <=? umax w then Some 0 else None else None) = Some 0).
    by rewrite (proj2 (Z.leb_le 0 _) Hn).
  - assert (starts_digit (pretty_N_go n "")) as Hd.
    { rewrite pretty_N_go_step by lia. apply starts_digit_go. cbn. pose proof (N.mod_lt n 10 ltac:(lia)).
      rewrite digit_val_pretty by lia. eauto. }
    rewrite parse_uint_digits by done. by rewrite parse_pretty_go.
Qed.

(** Whatever the environment holds, every setting is in the range of its type; a
    variable that is absent or does not parse leaves the default; and a number of the type,
    printed in decimal, is read back. *)
Theorem load_spec env :
  let c := load env in
  in_u 16 (sc_metrics_port c) /\ in_u 64 (sc_tick_rate c) /\ in_u 64 (sc_encode_threads c) /\
  (env "AETHERIS_TICK_RATE" = None -> sc_tick_rate c = 60) /\
  (forall v, env "AETHERIS_TICK_RATE" = Some v -> parse_uint 64 v = None -> sc_tick_rate c = 60) /\
  (forall n : N, env "AETHERIS_TICK_RATE" = Some (pretty n) -> Z.of_N n <= umax 64 ->
     sc_tick_rate c = Z.of_N n).
Proof.
  assert (forall name w d, 0 <= w -> in_u w d -> in_u w (env_uint env name w d)) as Hu.
  { intros name w d Hw Hd. unfold env_uint. destruct (env name) as [v|]; [|done]. cbn.
    destruct (parse_uint w v) eqn:E; [|done]. by apply parse_uint_range in E. }
  cbn. split_and!; try (apply Hu; [lia | split; done]).
  - unfold env_uint. by intros ->.
  - unfold env_uint. intros v -> E. cbn. by rewrite E.
  - unfold env_uint. intros n -> Hn. cbn. by rewrite parse_uint_pretty.
Qed.
