(* ===== verification/Tick.v ===== *)
(** * The tick scheduler ([aetheris-server/src/tick.rs])

    The five-stage tick: poll the transport, authenticate and apply the clients' messages,
    simulate, extract the changes and send them.  The world, the session verifier, the
    transport, the encoder and the reassembler are the traits the scheduler is written against:
    classes here, so that what is proved of the scheduler holds of every implementation; the ECS
    adapter and the authentication service are instances ([Server.v]).

    The iteration order of a [HashMap] is an argument ([HashOrder]): any permutation of the
    entries.  Metrics, logging and spans are left out; the instants that only feed them are not
    read.  The outbound channel is the list of the messages sent to it (the capacity of the
    channel and the task that drains it are the subject of [Outbound.v]). *)

From stdpp Require Import gmap strings list pretty.
From Stdlib Require Import ZArith Lia.
From S2P Require Import Prelude F32 Protocol Auth Config.

Open Scope Z_scope.

(** ** Interfaces *)

(** [aetheris_protocol::traits::WorldState]. *)
Class WorldState (W : Type) : Type := {
  ws_advance_tick : W -> W;
  ws_stress_test : W -> Z -> bool -> exec W;
  ws_despawn_networked : W -> NetworkId -> result unit WorldError * W;
  ws_spawn_kind_for : W -> Z -> f32 -> f32 -> f32 -> ClientId -> exec (NetworkId * W);
  ws_spawn_session_agent : W -> Z -> f32 -> f32 -> f32 -> ClientId -> exec (NetworkId * W);
  ws_queue_reliable_event : W -> option ClientId -> PlatformEvent -> W;
  ws_clear_world : W -> W;
  ws_apply_updates : W -> list (ClientId * ComponentUpdate) -> W;
  ws_simulate : W -> exec W;
  ws_extract_deltas : W -> list ReplicationEvent * W;
  ws_extract_reliable_events : W -> list (option ClientId * WireEvent) * W;
  ws_state_hash : W -> Z;
  ws_post_extract : W -> W;
  ws_get_entity_workspace : W -> NetworkId -> option NetworkId;
  ws_get_client_workspace : W -> ClientId -> option NetworkId;
}.

(** [crate::auth::AuthSessionVerifier]; a call may change the verifier's state. *)
Class AuthSessionVerifier (A : Type) : Type := {
  av_verify_session : A -> string -> option Z -> result VerifiedSession AuthError * A;
  av_is_session_authorized : A -> string -> option Z -> bool * A;
}.

(** [aetheris_protocol::traits::PlatformTransport]. *)
Class PlatformTransport (T : Type) : Type := {
  pt_poll_events : T -> exec (result (list NetworkEvent) TransportError * T);
  pt_send_unreliable : T -> ClientId -> bytes -> result unit TransportError * T;
  pt_send_reliable : T -> ClientId -> bytes -> result unit TransportError * T;
  pt_broadcast_unreliable : T -> bytes -> result unit TransportError * T;
  pt_disconnect : T -> ClientId -> result unit TransportError * T;
  pt_connected_client_count : T -> exec Z;
}.

(** [aetheris_protocol::traits::Encoder]; [encode_event_into] returns the bytes it wrote to a
    buffer of the given length. *)
Class Encoder : Type := {
  encode_event : NetworkEvent -> result bytes EncodeError;
  encode_event_into : NetworkEvent -> Z -> result bytes EncodeError;
  decode_event : bytes -> result NetworkEvent EncodeError;
  decode : bytes -> result ComponentUpdate EncodeError;
  max_encoded_size : Z;
}.

(** [aetheris_protocol::reassembler::Reassembler]. *)
Class Reassembler (R : Type) : Type := {
  re_new : R;
  re_ingest : R -> ClientId -> FragmentedEvent -> option bytes * R;
  re_prune : R -> R;
}.

(** Constants and conversions of the protocol crate, and the package version. *)
Class WireProtocol : Type := {
  MAX_SAFE_PAYLOAD_SIZE : Z;
  MAX_FRAGMENT_PAYLOAD_SIZE : Z;
  PROTOCOL_VERSION : string;
  CARGO_PKG_VERSION : string;
  into_network_event : WireEvent -> ClientId -> NetworkEvent;
}.

(** The order in which a [HashMap] keyed by clients is iterated. *)
Class HashOrder : Type := {
  hm_iter : forall {V : Type}, gmap ClientId V -> list (ClientId * V);
  hm_iter_perm : forall {V : Type} (m : gmap ClientId V), hm_iter m ≡ₚ map_to_list m;
}.

(** ** Data *)
Inductive OutboundMessage :=
| OUnreliable (client_id : ClientId) (data : bytes)
| OReliable (client_id : ClientId) (data : bytes)
| OBroadcastUnreliable (data : bytes).

Inductive DeltaTargets :=
| Broadcast
| Recipients (clients : list ClientId)
| NoRecipients.

Abbreviation ClientTable := (gmap ClientId (VerifiedSession * option NetworkId)).

(** [outbound_tx] is [None] before a channel is set, then the messages sent to it;
    [auth_timestamps] keeps its keys. *)
Record TickScheduler (A R : Type) := mkScheduler {
  ts_tick_rate : Z;
  ts_current_tick : Z;
  ts_auth_service : A;
  ts_authenticated_clients : ClientTable;
  ts_auth_timestamps : gset ClientId;
  ts_reassembler : R;
  ts_next_message_id : Z;
  ts_outbound_tx : option (list OutboundMessage);
  ts_recording_ticks : option Z;
  ts_golden_hashes : list Z;
  ts_spawn_at_zero : bool }.
Arguments mkScheduler {A R}.
Arguments ts_tick_rate {A R}.
Arguments ts_current_tick {A R}.
Arguments ts_auth_service {A R}.
Arguments ts_authenticated_clients {A R}.
Arguments ts_auth_timestamps {A R}.
Arguments ts_reassembler {A R}.
Arguments ts_next_message_id {A R}.
Arguments ts_outbound_tx {A R}.
Arguments ts_recording_ticks {A R}.
Arguments ts_golden_hashes {A R}.
Arguments ts_spawn_at_zero {A R}.

Section setters.
Context {A R : Type}.
Implicit Types s : TickScheduler A R.

Definition set_current_tick s t : TickScheduler A R :=
  mkScheduler (ts_tick_rate s) t (ts_auth_service s) (ts_authenticated_clients s)
    (ts_auth_timestamps s) (ts_reassembler s) (ts_next_message_id s) (ts_outbound_tx s)
    (ts_recording_ticks s) (ts_golden_hashes s) (ts_spawn_at_zero s).
Definition set_auth_service s a : TickScheduler A R :=
  mkScheduler (ts_tick_rate s) (ts_current_tick s) a (ts_authenticated_clients s)
    (ts_auth_timestamps s) (ts_reassembler s) (ts_next_message_id s) (ts_outbound_tx s)
    (ts_recording_ticks s) (ts_golden_hashes s) (ts_spawn_at_zero s).
Definition set_clients s c t : TickScheduler A R :=
  mkScheduler (ts_tick_rate s) (ts_current_tick s) (ts_auth_service s) c t (ts_reassembler s)
    (ts_next_message_id s) (ts_outbound_tx s) (ts_recording_ticks s) (ts_golden_hashes s)
    (ts_spawn_at_zero s).
Definition set_reassembler s r : TickScheduler A R :=
  mkScheduler (ts_tick_rate s) (ts_current_tick s) (ts_auth_service s)
    (ts_authenticated_clients s) (ts_auth_timestamps s) r (ts_next_message_id s)
    (ts_outbound_tx s) (ts_recording_ticks s) (ts_golden_hashes s) (ts_spawn_at_zero s).
Definition set_outbound s m o : TickScheduler A R :=
  mkScheduler (ts_tick_rate s) (ts_current_tick s) (ts_auth_service s)
    (ts_authenticated_clients s) (ts_auth_timestamps s) (ts_reassembler s) m o
    (ts_recording_ticks s) (ts_golden_hashes s) (ts_spawn_at_zero s).
Definition set_golden s g : TickScheduler A R :=
  mkScheduler (ts_tick_rate s) (ts_current_tick s) (ts_auth_service s)
    (ts_authenticated_clients s) (ts_auth_timestamps s) (ts_reassembler s)
    (ts_next_message_id s) (ts_outbound_tx s) (ts_recording_ticks s) g (ts_spawn_at_zero s).
Definition with_spawn_at_zero s (v : bool) : TickScheduler A R :=
  mkScheduler (ts_tick_rate s) (ts_current_tick s) (ts_auth_service s)
    (ts_authenticated_clients s) (ts_auth_timestamps s) (ts_reassembler s)
    (ts_next_message_id s) (ts_outbound_tx s) (ts_recording_ticks s) (ts_golden_hashes s) v.
(** [set_outbound_tx]: a fresh channel. *)
Definition set_outbound_tx s : TickScheduler A R := set_outbound s (ts_next_message_id s) (Some []).

(** [tx.send(..).await], when there is a channel. *)
Definition send_outbound s (msg : OutboundMessage) : TickScheduler A R :=
  match ts_outbound_tx s with
  | Some sent => set_outbound s (ts_next_message_id s) (Some (sent ++ [msg]))
  | None => s
  end.
End setters.

(** What a tick accumulates while it applies the clients' events. *)
Record Ctx (A R W : Type) := mkCtx {
  cx_sched : TickScheduler A R;
  cx_world : W;
  cx_updates : list (ClientId * ComponentUpdate);
  cx_pongs : list (ClientId * Z);
  cx_clear_acks : list ClientId;
  cx_to_disconnect : list ClientId }.
Arguments mkCtx {A R W}.
Arguments cx_sched {A R W}.
Arguments cx_world {A R W}.
Arguments cx_updates {A R W}.
Arguments cx_pongs {A R W}.
Arguments cx_clear_acks {A R W}.
Arguments cx_to_disconnect {A R W}.

(** How a tick ends: normally, or with [std::process::exit(0)] once a golden recording is
    written. *)
Inductive tick_result (A R W T : Type) :=
| TickDone (s : TickScheduler A R) (w : W) (t : T)
| TickExit (golden : list Z).
Arguments TickDone {A R W T}.
Arguments TickExit {A R W T}.

(** [h.to_le_bytes()] of a [u64]. *)
Definition to_le_bytes (h : Z) : list Z := (fun i => Z.land (Z.shiftr h (8 * Z.of_nat i)) 255) <$> seq 0 8.

(** [data.chunks(n)], for a positive [n]. *)
Fixpoint chunks_fuel {X} (fuel : nat) (n : nat) (l : list X) : list (list X) :=
  match fuel, l with
  | O, _ => []
  | _, [] => []
  | S fuel, _ => take n l :: chunks_fuel fuel n (drop n l)
  end.
Definition chunks {X} (n : nat) (l : list X) : list (list X) := chunks_fuel (length l) n l.

Section Tick.
Context {W : Type} `{!WorldState W} {A : Type} `{!AuthSessionVerifier A}.
Context {R : Type} `{!Reassembler R} {T : Type} `{!PlatformTransport T}.
Context {EN : Encoder} {WP : WireProtocol} {HO : HashOrder}.
(** The environment variables, and whether [std::fs::write] of the golden file succeeds. *)
Context (env : string -> option string) (golden_write : list Z -> bool).

Abbreviation scheduler := (TickScheduler A R).
Abbreviation ctx := (Ctx A R W).
Implicit Types (s : scheduler) (cx : ctx) (w : W).

(** [TickScheduler::new]. *)
Definition scheduler_new (tick_rate : Z) (auth_service : A) : scheduler :=
  mkScheduler tick_rate 0 auth_service ∅ ∅ re_new 1 None
    (env "AETHERIS_RECORD_GOLDEN" ≫= parse_uint 64) []
    (bool_decide (is_Some (env "AETHERIS_RECORD_GOLDEN"))).

(** [can_run_playground_command]. *)
Definition can_run_playground_command (jti : string) : bool :=
  String.eqb jti "admin" || bool_decide (env "AETHERIS_ENV" = Some "dev").

(** [get_filtered_manifest]. *)
Definition get_filtered_manifest s (jti : string) : gmap string string :=
  let manifest := <["version_protocol" := PROTOCOL_VERSION]>
                    (<["version_server" := CARGO_PKG_VERSION]> ∅) in
  if can_run_playground_command jti then
    <["clients_active" := pretty (N.of_nat (size (ts_authenticated_clients s)))]>
      (<["tick_rate" := pretty (Z.to_N (ts_tick_rate s))]> manifest)
  else manifest.

(** ** Context updates *)
Definition upd_sched cx s : ctx :=
  mkCtx s (cx_world cx) (cx_updates cx) (cx_pongs cx) (cx_clear_acks cx) (cx_to_disconnect cx).
Definition upd_world cx w : ctx :=
  mkCtx (cx_sched cx) w (cx_updates cx) (cx_pongs cx) (cx_clear_acks cx) (cx_to_disconnect cx).
Definition push_updates cx us : ctx :=
  mkCtx (cx_sched cx) (cx_world cx) (cx_updates cx ++ us) (cx_pongs cx) (cx_clear_acks cx)
    (cx_to_disconnect cx).
Definition push_pong cx p : ctx :=
  mkCtx (cx_sched cx) (cx_world cx) (cx_updates cx) (cx_pongs cx ++ [p]) (cx_clear_acks cx)
    (cx_to_disconnect cx).
Definition push_clear_ack cx c : ctx :=
  mkCtx (cx_sched cx) (cx_world cx) (cx_updates cx) (cx_pongs cx) (cx_clear_acks cx ++ [c])
    (cx_to_disconnect cx).
Definition push_disconnect cx c : ctx :=
  mkCtx (cx_sched cx) (cx_world cx) (cx_updates cx) (cx_pongs cx) (cx_clear_acks cx)
    (cx_to_disconnect cx ++ [c]).

Abbreviation clients cx := (ts_authenticated_clients (cx_sched cx)).

(** Forgets a client and despawns its session agent:
    [if let Some((_, Some(nid))) = self.authenticated_clients.remove(&id) {
       let _ = world.despawn_networked(nid); }
     self.auth_timestamps.remove(&id);] *)
Definition drop_client cx (id : ClientId) : ctx :=
  let w := match clients cx !! id with
           | Some (_, Some nid) => (ws_despawn_networked (cx_world cx) nid).2
           | _ => cx_world cx
           end in
  upd_world (upd_sched cx (set_clients (cx_sched cx) (delete id (clients cx))
                             (ts_auth_timestamps (cx_sched cx) ∖ {[id]}))) w.

(** ** Periodic session validation (every 60 ticks) *)
Definition validate_client (tick : Z) (acc : A * list ClientId)
    (entry : ClientId * (VerifiedSession * option NetworkId)) : A * list ClientId :=
  let '(auth, to_remove) := acc in
  let '(client_id, (session, _)) := entry in
  let '(ok, auth) := av_is_session_authorized auth (vs_jti session) (Some tick) in
  (auth, if ok then to_remove else to_remove ++ [client_id]).

Definition validate_sessions (tick : Z) cx : ctx :=
  if is_multiple_of tick 60 then
    let '(auth, to_remove) :=
      foldl (validate_client tick) (ts_auth_service (cx_sched cx), []) (hm_iter (clients cx)) in
    foldl (fun cx c => push_disconnect (drop_client cx c) c)
      (upd_sched cx (set_auth_service (cx_sched cx) auth)) to_remove
  else cx.

(** ** Stage 2.1: reassembly and normalisation *)
Definition ingest cx (client_id : ClientId) (fragment : FragmentedEvent) :
    option (ClientId * bytes) * ctx :=
  let '(data, r) := re_ingest (ts_reassembler (cx_sched cx)) client_id fragment in
  (pair client_id <$> data, upd_sched cx (set_reassembler (cx_sched cx) r)).

(** The client and the bytes of a message; [None] where the loop continues with the next
    event. *)
Definition normalize cx (event : NetworkEvent) : option (ClientId * bytes) * ctx :=
  match event with
  | Fragment client_id fragment => ingest cx client_id fragment
  | UnreliableMessage client_id data | ReliableMessage client_id data =>
      match decode_event data with
      | Ok (Fragment _ fragment) => ingest cx client_id fragment
      | _ => (Some (client_id, data), cx)
      end
  | ClientConnected _ => (None, cx)
  | ClientDisconnected id | Disconnected id | SessionClosed id | StreamReset id =>
      (None, drop_client cx id)
  | Ping client_id tick =>
      (None, match clients cx !! client_id with
             | Some _ => push_pong cx (client_id, tick)
             | None => cx
             end)
  | ClearWorld _ | StartSession _ | RequestWorkspaceManifest _ | NPlatformEvent _ _
  | StressTest _ _ _ | ReplicationBatch _ _ | EntitySpawned _ _ | EntityDespawned _ _
  | Spawn _ _ _ _ _ | Pong _ | Auth _ => (None, cx)
  end.

(** ** Stage 2.2: authentication *)

(** The clients of other connections with the player's identity. *)
Definition ghosts cx (client_id : ClientId) (player_id : string) : list ClientId :=
  (filter (fun e => vs_player_id e.2.1 = player_id /\ e.1 <> client_id)
     (hm_iter (clients cx))).*1.

(** The session of an authenticated client, re-validated; [None] where the loop continues with
    the next event (a revoked session, an authentication message, an unauthenticated client). *)
Definition authenticate (tick : Z) cx (client_id : ClientId) (raw_data : bytes) :
    option VerifiedSession * ctx :=
  match clients cx !! client_id with
  | Some (session, _) =>
      let '(ok, auth) :=
        av_is_session_authorized (ts_auth_service (cx_sched cx)) (vs_jti session) (Some tick) in
      let cx := upd_sched cx (set_auth_service (cx_sched cx) auth) in
      if ok then (Some session, cx) else (None, drop_client cx client_id)
  | None =>
      match decode_event raw_data with
      | Ok (Auth session_token) =>
          let '(r, auth) :=
            av_verify_session (ts_auth_service (cx_sched cx)) session_token (Some tick) in
          let cx := upd_sched cx (set_auth_service (cx_sched cx) auth) in
          match r with
          | Ok session =>
              let old_clients := ghosts cx client_id (vs_player_id session) in
              let cx := foldl (fun cx old => push_disconnect (drop_client cx old) old) cx
                              old_clients in
              (None, upd_sched cx (set_clients (cx_sched cx)
                                     (<[client_id := (session, None)]> (clients cx))
                                     ({[client_id]} ∪ ts_auth_timestamps (cx_sched cx))))
          | Err _ => (None, cx)
          end
      | _ => (None, cx)
      end
  end.

(** ** Protocol events of an authenticated client *)
Definition MAX_STRESS : Z := 1000.

(** Sets the session agent of a client that is in the table. *)
Definition set_agent cx (client_id : ClientId) (agent : option NetworkId) : ctx :=
  upd_sched cx (set_clients (cx_sched cx)
    (alter (fun e => (e.1, agent)) client_id (clients cx)) (ts_auth_timestamps (cx_sched cx))).

Definition start_session cx (client_id : ClientId) : exec ctx :=
  match clients cx !! client_id with
  | Some (_, agent_id) =>
      '(network_id, cx) ←
        match agent_id with
        | Some nid => Ret (nid, cx)
        | None =>
            '(nid, w) ← ws_spawn_session_agent (cx_world cx) 1 f0 f0 f0 client_id;
            Ret (nid, set_agent (upd_world cx w) client_id (Some nid))
        end;
      let w := ws_queue_reliable_event (cx_world cx) (Some client_id) (Possession network_id) in
      Ret (upd_sched (upd_world cx w)
             (set_clients (cx_sched cx) (clients cx)
                (ts_auth_timestamps (cx_sched cx) ∖ {[client_id]})))
  | None => Ret cx
  end.

Definition to_update (client_id : ClientId) (e : ReplicationEvent) : ClientId * ComponentUpdate :=
  (client_id,
   mkComponentUpdate (re_network_id e) (re_component_kind e) (re_payload e) (re_tick e)).

Definition handle_event cx (client_id : ClientId) (session : VerifiedSession)
    (event : NetworkEvent) : exec ctx :=
  match event with
  | Ping _ p_tick => Ret (push_pong cx (client_id, p_tick))
  | Auth _ => Ret cx
  | StressTest _ count rotate =>
      if can_run_playground_command (vs_jti session) then
        w ← ws_stress_test (cx_world cx) (Z.min count MAX_STRESS) rotate;
        Ret (upd_world cx w)
      else Ret cx
  | Spawn _ entity_type x y rot =>
      if can_run_playground_command (vs_jti session) then
        '(_, w) ← ws_spawn_kind_for (cx_world cx) entity_type x y rot client_id;
        Ret (upd_world cx w)
      else Ret cx
  | StartSession _ => start_session cx client_id
  | ClearWorld _ =>
      if can_run_playground_command (vs_jti session) then
        let cx := upd_world cx (ws_clear_world (cx_world cx)) in
        Ret (push_clear_ack (set_agent cx client_id None) client_id)
      else Ret cx
  | RequestWorkspaceManifest _ =>
      let jti := match clients cx !! client_id with
                 | Some (session, _) => vs_jti session
                 | None => "" end in
      let manifest := get_filtered_manifest (cx_sched cx) jti in
      Ret (upd_world cx (ws_queue_reliable_event (cx_world cx) (Some client_id)
                           (WorkspaceManifest manifest)))
  | ReplicationBatch _ events => Ret (push_updates cx (to_update client_id <$> events))
  | _ => Ret cx
  end.

(** One polled event, through the whole of stage 2. *)
Definition process_event (tick : Z) cx (event : NetworkEvent) : exec ctx :=
  match normalize cx event with
  | (None, cx) => Ret cx
  | (Some (client_id, raw_data), cx) =>
      match authenticate tick cx client_id raw_data with
      | (None, cx) => Ret cx
      | (Some session, cx) =>
          match decode_event raw_data with
          | Ok protocol_event => handle_event cx client_id session protocol_event
          | Err _ =>
              match decode raw_data with
              | Ok update => Ret (push_updates cx [(client_id, update)])
              | Err _ => Ret cx
              end
          end
      end
  end.

(** Stage 2: all the events, then the updates they carried. *)
Definition apply_events (tick : Z) cx (events : list NetworkEvent) : exec ctx :=
  match events with
  | [] => Ret cx
  | _ =>
      cx ← for_each (process_event tick) cx events;
      let cx := upd_world cx (ws_apply_updates (cx_world cx) (cx_updates cx)) in
      Ret (upd_sched cx (set_reassembler (cx_sched cx) (re_prune (ts_reassembler (cx_sched cx)))))
  end.

(** ** Direct replies: acknowledgements of [ClearWorld], then pongs *)
Definition send_clear_ack (t : T) (target : ClientId) : T :=
  match encode_event (ClearWorld target) with
  | Ok data => (pt_send_reliable t target data).2
  | Err _ => t
  end.

Definition send_pong (t : T) (p : ClientId * Z) : T :=
  match encode_event (Pong p.2) with
  | Ok data => (pt_send_unreliable t p.1 data).2
  | Err _ => t
  end.

(** ** Stage 4: extraction, with the golden recording *)
Inductive extracted :=
| Extracted (s : scheduler) (w : W) (deltas : list ReplicationEvent)
    (reliable : list (option ClientId * WireEvent))
| GoldenSaved (data : list Z).

Definition extract_stage (tick : Z) s w : extracted :=
  let '(ds, w) := ws_extract_deltas w in
  let s' := match ts_recording_ticks s with
            | Some limit =>
                if tick <? limit then set_golden s (ts_golden_hashes s ++ [ws_state_hash w]) else s
            | None => s
            end in
  let complete := match ts_recording_ticks s with
                  | Some limit => (tick <? limit) && (tick + 1 =? limit)
                  | None => false
                  end in
  let data := ts_golden_hashes s' ≫= to_le_bytes in
  if complete && golden_write data then GoldenSaved data
  else
    let '(rs, w) := ws_extract_reliable_events w in
    Extracted s' (ws_post_extract w) ds rs.

(** ** Stage 5: encode and send *)
Definition send_reliable_to (wire_event : WireEvent) s (id : ClientId) : scheduler :=
  match encode_event (into_network_event wire_event id) with
  | Ok data => send_outbound s (OReliable id data)
  | Err _ => s
  end.

Definition reliable_targets s (target : option ClientId) : list ClientId :=
  match target with
  | Some id => [id]
  | None => (hm_iter (ts_authenticated_clients s)).*1
  end.

Definition send_reliable_event s (ev : option ClientId * WireEvent) : scheduler :=
  foldl (send_reliable_to ev.2) s (reliable_targets s ev.1).

(** [get_delta_targets]. *)
Definition get_delta_targets w (cls : ClientTable) (entity_id : NetworkId) : DeltaTargets :=
  match ws_get_entity_workspace w entity_id with
  | Some workspace_id =>
      let recipients :=
        filter (fun c => ws_get_client_workspace w c = Some workspace_id) (hm_iter cls).*1 in
      match recipients with [] => NoRecipients | _ => Recipients recipients end
  | None => Broadcast
  end.

(** Whom a change is sent to. *)
Definition target_clients (cls : ClientTable) (targets : DeltaTargets) : list ClientId :=
  match targets with
  | Broadcast => (hm_iter cls).*1
  | Recipients recipients => recipients
  | NoRecipients => []
  end.

(** [client_batches.entry(client).or_default().push(delta.clone())]. *)
Definition push_batch (delta : ReplicationEvent) (b : gmap ClientId (list ReplicationEvent))
    (c : ClientId) : gmap ClientId (list ReplicationEvent) :=
  <[c := default [] (b !! c) ++ [delta]]> b.

Definition add_delta w (cls : ClientTable) (b : gmap ClientId (list ReplicationEvent))
    (delta : ReplicationEvent) : gmap ClientId (list ReplicationEvent) :=
  foldl (push_batch delta) b
    (target_clients cls (get_delta_targets w cls (re_network_id delta))).

Definition client_batches w (cls : ClientTable) (deltas : list ReplicationEvent) :
    gmap ClientId (list ReplicationEvent) :=
  foldl (add_delta w cls) ∅ deltas.

(** The encoding of a batch: into the scratch buffer, or allocated when that is too small. *)
Definition encode_batch (b : ClientId * list ReplicationEvent) :
    ClientId * result bytes EncodeError :=
  let batch_event := ReplicationBatch b.1 b.2 in
  (b.1, match encode_event_into batch_event max_encoded_size with
        | Ok data => Ok data
        | Err BufferOverflow => encode_event batch_event
        | Err e => Err e
        end).

(** The fragments of a message, in order. *)
Fixpoint send_fragments (message_id total : Z) (targets : DeltaTargets) (i : Z)
    (cs : list bytes) s (sent : Z) : scheduler * Z :=
  match cs with
  | [] => (s, sent)
  | chunk :: cs =>
      match u16_try_from i with
      | None => (s, sent)
      | Some fragment_index =>
          let ev := Fragment (mkCid 0) (mkFragmentedEvent message_id fragment_index total chunk) in
          let '(s, sent) :=
            match encode_event ev with
            | Ok data =>
                match targets with
                | Broadcast => (send_outbound s (OBroadcastUnreliable data), sent + 1)
                | Recipients rs =>
                    (foldl (fun s c => send_outbound s (OUnreliable c data)) s rs,
                     sent + Z.of_nat (length rs))
                | NoRecipients => (s, sent)
                end
            | Err _ => (s, sent)
            end in
          send_fragments message_id total targets (i + 1) cs s sent
      end
  end.

(** [fragment_and_send]. *)
Definition fragment_and_send s (data : bytes) (len : Z) (targets : DeltaTargets) :
    exec (result Z EncodeError * scheduler) :=
  match ts_outbound_tx s with
  | None => Ret (Ok 0, s)
  | Some _ =>
      let message_id := ts_next_message_id s in
      let s := set_outbound s (wrapping_add 32 message_id 1) (ts_outbound_tx s) in
      _ ← assert_ (len <=? Z.of_nat (length data));
      _ ← assert_ (0 <? MAX_FRAGMENT_PAYLOAD_SIZE);
      let cs := chunks (Z.to_nat MAX_FRAGMENT_PAYLOAD_SIZE) (take (Z.to_nat len) data) in
      match u16_try_from (Z.of_nat (length cs)) with
      | None => Ret (Err (EncodeIo "Too many fragments"), s)
      | Some total =>
          let '(s, sent) := send_fragments message_id total targets 0 cs s 0 in
          Ret (Ok sent, s)
      end
  end.

(** One encoded batch: in one datagram, or in fragments. *)
Definition send_batch s (b : ClientId * result bytes EncodeError) : exec scheduler :=
  match b.2 with
  | Ok data =>
      if MAX_SAFE_PAYLOAD_SIZE <? Z.of_nat (length data) then
        '(_, s) ← fragment_and_send s data (Z.of_nat (length data)) (Recipients [b.1]);
        Ret s
      else Ret (send_outbound s (OUnreliable b.1 data))
  | Err _ => Ret s
  end.

Definition send_deltas s w (deltas : list ReplicationEvent) : exec scheduler :=
  match deltas with
  | [] => Ret s
  | _ =>
      let batches := hm_iter (client_batches w (ts_authenticated_clients s) deltas) in
      for_each send_batch s (encode_batch <$> batches)
  end.

(** ** The tick *)

(** Before the poll: the tick counter and the world's change tick. *)
Definition begin_tick s w : exec (Z * scheduler * W) :=
  let tick := ts_current_tick s in
  next ← chk_add 64 tick 1;
  let w := ws_advance_tick w in
  w ← (if (tick =? 0) && ts_spawn_at_zero s then ws_stress_test w 100 true else Ret w);
  Ret (tick, set_current_tick s next, w).

Definition disconnect_all (t : T) (ids : list ClientId) : T :=
  foldl (fun t id => (pt_disconnect t id).2) t ids.

(** [tick_step]. *)
Definition tick_step s w (t : T) : exec (tick_result A R W T) :=
  '(tick, s, w) ← begin_tick s w;
  '(polled, t) ← pt_poll_events t;
  match polled with
  | Err _ => Ret (TickDone s w t)
  | Ok events =>
      let cx := validate_sessions tick (mkCtx s w [] [] [] []) in
      cx ← apply_events tick cx events;
      let t := foldl send_clear_ack t (cx_clear_acks cx) in
      let t := foldl send_pong t (cx_pongs cx) in
      w ← ws_simulate (cx_world cx);
      match extract_stage tick (cx_sched cx) w with
      | GoldenSaved data => Ret (TickExit data)
      | Extracted s w deltas reliable =>
          let s := foldl send_reliable_event s reliable in
          s ← send_deltas s w deltas;
          Ret (TickDone s w (disconnect_all t (cx_to_disconnect cx)))
      end
  end.
End Tick.
