(* ===== verification/MultiTransport.v ===== *)
(** * The transport aggregator ([aetheris-server/src/multi_transport.rs])

    [MultiTransport] forwards to a list of transports and is itself a transport.  The file models
    each method over transports of any implementation and proves how calls are routed, how errors
    of one transport affect the others, and what a failing poll loses. *)

From stdpp Require Import list strings.
From Stdlib Require Import ZArith Lia.
From S2P Require Import Prelude Protocol Tick.

Open Scope Z_scope.

Section MultiTransport.
Context {T : Type} `{PT : !PlatformTransport T}.

(** The transports, in the order they were added. *)
Abbreviation MultiTransport := (list T).

Definition multi_new : MultiTransport := [].
Definition add_transport (m : MultiTransport) (t : T) : MultiTransport := m ++ [t].

(** The loop of [send_unreliable] and of [send_reliable]: the first transport that does not
    answer [ClientNotConnected] decides. *)
Fixpoint send_first (send : T -> result unit TransportError * T) (client_id : ClientId)
    (m : MultiTransport) : result unit TransportError * MultiTransport :=
  match m with
  | [] => (Err (ClientNotConnected client_id), [])
  | t :: m =>
      match send t with
      | (Ok _, t) => (Ok (), t :: m)
      | (Err (ClientNotConnected _), t) =>
          let '(r, m) := send_first send client_id m in (r, t :: m)
      | (Err e, t) => (Err e, t :: m)
      end
  end.

Definition multi_send_unreliable (m : MultiTransport) (client_id : ClientId) (data : bytes) :
    result unit TransportError * MultiTransport :=
  send_first (fun t => pt_send_unreliable t client_id data) client_id m.

Definition multi_send_reliable (m : MultiTransport) (client_id : ClientId) (data : bytes) :
    result unit TransportError * MultiTransport :=
  send_first (fun t => pt_send_reliable t client_id data) client_id m.

(** [broadcast_unreliable]: every transport is asked; the first error is kept. *)
Fixpoint broadcast_loop (data : bytes) (first_error : option TransportError)
    (m : MultiTransport) : option TransportError * MultiTransport :=
  match m with
  | [] => (first_error, [])
  | t :: m =>
      let '(r, t) := pt_broadcast_unreliable t data in
      let first_error := match r, first_error with
                         | Err e, None => Some e
                         | _, _ => first_error
                         end in
      let '(e, m) := broadcast_loop data first_error m in (e, t :: m)
  end.

Definition multi_broadcast_unreliable (m : MultiTransport) (data : bytes) :
    result unit TransportError * MultiTransport :=
  let '(e, m) := broadcast_loop data None m in
  (match e with Some e => Err e | None => Ok () end, m).

(** [poll_events]: [?] returns the first error, with the transports polled so far. *)
Fixpoint poll_loop (all_events : list NetworkEvent) (m : MultiTransport) :
    exec (result (list NetworkEvent) TransportError * MultiTransport) :=
  match m with
  | [] => Ret (Ok all_events, [])
  | t :: m =>
      '(r, t) ← pt_poll_events t;
      match r with
      | Ok evs => '(r, m) ← poll_loop (all_events ++ evs) m; Ret (r, t :: m)
      | Err e => Ret (Err e, t :: m)
      end
  end.

Definition multi_poll_events (m : MultiTransport) :
    exec (result (list NetworkEvent) TransportError * MultiTransport) := poll_loop [] m.

Definition multi_disconnect (m : MultiTransport) (client_id : ClientId) :
    result unit TransportError * MultiTransport :=
  (Ok (), (fun t => (pt_disconnect t client_id).2) <$> m).

(** [connected_client_count]: a sum of [usize]. *)
Definition multi_connected_client_count (m : MultiTransport) : exec Z :=
  for_each (fun total t => n ← pt_connected_client_count t; chk_add 64 total n) 0 m.

(** [impl PlatformTransport for MultiTransport]. *)
#[global] Instance multi_transport : PlatformTransport MultiTransport := {|
  pt_poll_events := multi_poll_events;
  pt_send_unreliable := multi_send_unreliable;
  pt_send_reliable := multi_send_reliable;
  pt_broadcast_unreliable := multi_broadcast_unreliable;
  pt_disconnect := multi_disconnect;
  pt_connected_client_count := multi_connected_client_count |}.

(** ** Properties *)
Definition not_connected (r : result unit TransportError) : Prop :=
  exists c, r = Err (ClientNotConnected c).

(** A transport that does not know the client is passed over, in its new state. *)
Lemma send_first_skip send c t m :
  not_connected (send t).1 ->
  send_first send c (t :: m) = ((send_first send c m).1, (send t).2 :: (send_first send c m).2).
Proof.
  intros [c' Hc]. cbn. destruct (send t) as [r t']. cbn in *. subst r.
  by destruct (send_first send c m).
Qed.

(** A send goes to the first transport that knows the client: its answer is the
    answer, the transports before it are tried and unaffected by its outcome, the ones after it
    are not tried.  When no transport knows the client the answer is [ClientNotConnected] with
    the client's id. *)
Theorem send_routes send c (pre : list T) :
  Forall (fun t => not_connected (send t).1) pre ->
  send_first send c pre = (Err (ClientNotConnected c), (fun t => (send t).2) <$> pre) /\
  forall t post, ~ not_connected (send t).1 ->
    send_first send c (pre ++ t :: post) =
    ((send t).1, ((fun t => (send t).2) <$> pre) ++ (send t).2 :: post).
Proof.
  induction 1 as [|t pre Ht _ [IH1 IH2]].
  - split; [done|]. intros t post Ht. cbn. destruct (send t) as [[[]|[]] t'] eqn:E; cbn; try done.
    destruct Ht. by eexists.
  - split; [by rewrite send_first_skip, IH1|]. intros t' post Ht'.
    cbn [app]. rewrite send_first_skip, IH2 by done. done.
Qed.

Lemma broadcast_loop_spec data fe m :
  broadcast_loop data fe m =
  (match fe with
   | Some e => Some e
   | None => head (omap (fun t => match (pt_broadcast_unreliable t data).1 with
                                  | Err e => Some e | Ok _ => None end) m)
   end, (fun t => (pt_broadcast_unreliable t data).2) <$> m).
Proof.
  revert fe. induction m as [|t m IH]; intros fe; cbn; [by destruct fe|].
  destruct (pt_broadcast_unreliable t data) as [[[]|e] t']; rewrite IH; cbn; by destruct fe.
Qed.

(** A broadcast reaches every transport, whatever the others answer, and
    succeeds when all of them do; otherwise it answers the first error. *)
Theorem broadcast_reaches_all m data :
  (multi_broadcast_unreliable m data).2 = (fun t => (pt_broadcast_unreliable t data).2) <$> m /\
  ((multi_broadcast_unreliable m data).1 = Ok () <->
   Forall (fun t => is_ok (pt_broadcast_unreliable t data).1 = true) m).
Proof.
  unfold multi_broadcast_unreliable. rewrite broadcast_loop_spec. cbn. split; [done|].
  induction m as [|t m IH]; cbn; [by split|].
  destruct (pt_broadcast_unreliable t data) as [[[]|e] t'] eqn:E; cbn; rewrite Forall_cons, E; cbn.
  - rewrite IH. naive_solver.
  - naive_solver.
Qed.

(** A transport that hands over its events when polled, and what it is afterwards. *)
Definition hands_over (t : T) (evs : list NetworkEvent) (t' : T) : Prop :=
  pt_poll_events t = Ret (Ok evs, t').

Lemma poll_loop_spec acc pre evs pre' :
  Forall3 hands_over pre evs pre' ->
  poll_loop acc pre = Ret (Ok (acc ++ concat evs), pre') /\
  forall t post e t', pt_poll_events t = Ret (Err e, t') ->
    poll_loop acc (pre ++ t :: post) = Ret (Err e, pre' ++ t' :: post).
Proof.
  intros H. revert acc. induction H as [|t ev t' pre evs pre' Ht _ IH]; intros acc; cbn.
  - split; [by rewrite app_nil_r|]. intros t post e t' ->. done.
  - rewrite Ht. cbn. destruct (IH (acc ++ ev)) as [IH1 IH2]. split.
    + rewrite IH1. cbn. by rewrite <- app_assoc.
    + intros t1 post e t1' He. rewrite Ht. cbn. by rewrite (IH2 t1 post e t1' He).
Qed.

(** A poll hands over the events of all the transports in order when every one
    answers; when one fails, the answer is its error and the events already taken from the
    transports before it are dropped: those transports have moved on. *)
Theorem failed_poll_drops_events pre evs pre' :
  Forall3 hands_over pre evs pre' ->
  multi_poll_events pre = Ret (Ok (concat evs), pre') /\
  forall t post e t', pt_poll_events t = Ret (Err e, t') ->
    multi_poll_events (pre ++ t :: post) = Ret (Err e, pre' ++ t' :: post).
Proof. intros H. exact (poll_loop_spec [] pre evs pre' H). Qed.
End MultiTransport.

(** ** Witnesses *)
Module MultiTransportWitness.

(** A transport with a list of clients it knows and polls still to come. *)
Definition mini : Type := list Z * list (result (list NetworkEvent) TransportError).

#[local] Instance mini_transport : PlatformTransport mini := {|
  pt_poll_events t := Ret (match t.2 with
                           | [] => (Ok [], t)
                           | r :: rs => (r, (t.1, rs))
                           end);
  pt_send_unreliable t c _ :=
    (if bool_decide (cid_val c ∈ t.1) then Ok () else Err (ClientNotConnected c), t);
  pt_send_reliable t c _ :=
    (if bool_decide (cid_val c ∈ t.1) then Ok () else Err (ClientNotConnected c), t);
  pt_broadcast_unreliable t _ := (Ok (), t);
  pt_disconnect t c := (Ok (), t);
  pt_connected_client_count t := Ret (Z.of_nat (length t.1)) |}.

Definition renet : mini := ([1], [Ok [ClientConnected (mkCid 1)]]).
Definition webtransport : mini := ([2], [Err (TransportIo "closed")]).

Lemma send_routes_witness :
  (multi_send_reliable [renet; webtransport] (mkCid 2) []).1 = Ok ().
Proof.
  destruct (send_routes (fun t : mini => pt_send_reliable t (mkCid 2) []) (mkCid 2) [renet])
    as [_ H].
  - repeat constructor. exists (mkCid 2). reflexivity.
  - unfold multi_send_reliable. change [renet; webtransport] with ([renet] ++ webtransport :: []).
    rewrite H; [reflexivity|]. intros [c Hc]. discriminate Hc.
Defined.

Lemma failed_poll_drops_events_witness :
  multi_poll_events [renet; webtransport] = Ret (Err (TransportIo "closed"), [([1], []); ([2], [])]).
Proof.
  destruct (failed_poll_drops_events [renet] [[ClientConnected (mkCid 1)]] [([1], [])]) as [_ H].
  - repeat constructor.
  - exact (H webtransport [] (TransportIo "closed") ([2], []) eq_refl).
Defined.

End MultiTransportWitness.
