(* ===== verification/Renet.v ===== *)
(** * The UDP transport ([aetheris-transport-renet/src/lib.rs])

    [RenetTransport] wraps the renet server and its netcode transport: it limits new connections
    per address with token buckets, hides the connections it rejects from the scheduler, and
    enforces payload limits in both directions.

    The renet and netcode libraries and the socket are classes; the laws the theorems need of renet
    are in [RenetLaws].  A [Mutex] is its data and whether a thread has panicked while holding it
    (then [lock] fails).  [Instant::now()] reads a clock that is part of the environment: an
    [Instant] is a number of nanoseconds.  The two draining loops of [poll_events] take fuel;
    [poll_events_spec] shows how much they need.  Metrics and logging are left out. *)

From stdpp Require Import gmap strings list.
From Stdlib Require Import ZArith Lia SpecFloat.
From S2P Require Import Prelude F64 Text Protocol Tick.

Open Scope Z_scope.

(** ** Time *)
Definition SECOND : Z := 1000000000.

(** [Instant::duration_since]: zero when the other instant is later. *)
Definition duration_since (now earlier : Z) : Z := sat_sub now earlier.

(** The instants successive calls of [Instant::now()] return, and how many were made. *)
Record Clock := mkClock { ck_at : nat -> Z; ck_reads : nat }.
Definition clock_now (c : Clock) : Z * Clock := (ck_at c (ck_reads c), mkClock (ck_at c) (S (ck_reads c))).

(** ** [std::sync::Mutex] *)
Record Mutex (A : Type) := mkMutex { mx_poisoned : bool; mx_data : A }.
Arguments mkMutex {A}.
Arguments mx_poisoned {A}.
Arguments mx_data {A}.

Definition mutex_new {A} (a : A) : Mutex A := mkMutex false a.
Definition mx_set {A} (m : Mutex A) (a : A) : Mutex A := mkMutex (mx_poisoned m) a.

(** [PoisonError], as the transport reports it. *)
Definition poison_error : TransportError := TransportIo "poisoned lock: another task failed inside".
Definition lock {A} (m : Mutex A) : result A TransportError :=
  if mx_poisoned m then Err poison_error else Ok (mx_data m).

(** ** The connection limiter *)
Record TokenBucket := mkBucket { bk_tokens : f64; bk_last_refill : Z }.
Record IpRateLimiter := mkIpLimiter { il_limits : gmap IpAddr TokenBucket; il_max_rate : f64 }.

(** [IpRateLimiter::new]. *)
Definition ip_limiter_new (max_rate : f64) : IpRateLimiter := mkIpLimiter ∅ max_rate.

(** The tokens of a bucket at an instant: refilled for the time passed, at most [max_rate]. *)
Definition refilled (max_rate : f64) (bucket : TokenBucket) (now : Z) : f64 :=
  let elapsed := as_secs_f64 (duration_since now (bk_last_refill bucket)) in
  d_min (bk_tokens bucket + elapsed * max_rate)%d max_rate.

(** [IpRateLimiter::check]. *)
Definition ip_check (l : IpRateLimiter) (ip : IpAddr) (now : Z) : bool * IpRateLimiter :=
  let bucket := default (mkBucket (il_max_rate l) now) (il_limits l !! ip) in
  let tokens := refilled (il_max_rate l) bucket now in
  if (d1 <=? tokens)%d
  then (true, mkIpLimiter (<[ip := mkBucket (tokens - d1)%d now]> (il_limits l)) (il_max_rate l))
  else (false, mkIpLimiter (<[ip := mkBucket tokens now]> (il_limits l)) (il_max_rate l)).

(** A bucket [prune] removes: full up to a tenth of a token, and idle for ten minutes. *)
Definition stale_bucket (max_rate : f64) (now : Z) (bucket : TokenBucket) : bool :=
  let full := (max_rate - d_lit 1 1 <=? bk_tokens bucket)%d in
  let idle := 10 * 60 * SECOND <? duration_since now (bk_last_refill bucket) in
  full && idle.

(** [IpRateLimiter::prune]. *)
Definition ip_prune (l : IpRateLimiter) (now : Z) : IpRateLimiter :=
  mkIpLimiter (filter (fun '(_, bucket) => stale_bucket (il_max_rate l) now bucket = false)
                 (il_limits l)) (il_max_rate l).

(** ** The libraries *)
Inductive SendType := Unreliable | ReliableOrdered (resend_time : Z).
Record ChannelConfig := mkChannel {
  ch_channel_id : Z; ch_max_memory_usage_bytes : Z; ch_send_type : SendType }.

(** The server side of [renet::ConnectionConfig]; the rest is its default. *)
Record ConnectionConfig := mkConnectionConfig { cc_server_channels : list ChannelConfig }.

Inductive ServerEvent :=
| EvConnected (client_id : Z)
| EvDisconnected (client_id : Z).

(** [renet::RenetServer]. *)
Class RenetServer (S : Type) : Type := {
  rn_new : ConnectionConfig -> S;
  rn_update : S -> Z -> S;
  rn_get_event : S -> option ServerEvent * S;
  rn_is_connected : S -> Z -> bool;
  rn_send_message : S -> Z -> Z -> bytes -> S;
  rn_broadcast_message : S -> Z -> bytes -> S;
  rn_clients_id : S -> list Z;
  rn_receive_message : S -> Z -> Z -> option bytes * S;
  rn_connected_clients : S -> Z;
  rn_disconnect : S -> Z -> S;
}.

(** [renet_netcode::ServerConfig]; [current_time] is zero. *)
Inductive ServerAuthentication := Unsecure | Secure (private_key : list Z).
Record NetcodeConfig := mkNetcodeConfig {
  nc_current_time : Z; nc_max_clients : Z; nc_protocol_id : Z; nc_public_addresses : list SocketAddr;
  nc_authentication : ServerAuthentication }.

(** [renet_netcode::NetcodeServerTransport] and the socket of [socket2]: each socket call returns
    the socket it configured or the error's text. *)
Class NetcodeTransport (S N : Type) : Type := {
  Socket : Type;
  sk_new : bool -> result Socket string;
  sk_set_reuse_address : Socket -> bool -> result Socket string;
  sk_set_recv_buffer_size : Socket -> Z -> result Socket string;
  sk_set_send_buffer_size : Socket -> Z -> result Socket string;
  sk_set_nonblocking : Socket -> bool -> result Socket string;
  sk_bind : Socket -> SocketAddr -> result Socket string;
  sk_local_addr : Socket -> result SocketAddr string;
  nc_new : NetcodeConfig -> Socket -> result N string;
  nc_update : N -> Z -> S -> result unit string * N * S;
  nc_send_packets : N -> S -> N * S;
  nc_client_addr : N -> Z -> option SocketAddr;
}.

(** ** The transport *)
Definition CHANNEL_UNRELIABLE : Z := 0.
Definition CHANNEL_RELIABLE : Z := 1.

Record RenetServerConfig := mkRenetConfig {
  rc_protocol_id : Z; rc_max_clients : Z; rc_authentication : ServerAuthentication;
  rc_max_new_connections_per_second : Z; rc_max_payload_size : Z;
  rc_max_unreliable_channel_memory_bytes : Z }.

(** [Default for RenetServerConfig]. *)
Definition renet_config_default `{!WireProtocol} : RenetServerConfig :=
  mkRenetConfig 0 1000 Unsecure 5 MAX_SAFE_PAYLOAD_SIZE (1024 * 1024).

Record RenetTransport (S N : Type) := mkRenet {
  rt_server : Mutex S;
  rt_transport : Mutex N;
  rt_last_update : Mutex Z;
  rt_local_addr : SocketAddr;
  rt_rate_limiter : Mutex IpRateLimiter;
  rt_max_payload_size : Z;
  rt_last_prune : Mutex Z;
  rt_suppressed_disconnects : Mutex (gset Z);
  rt_clock : Clock }.
Arguments mkRenet {S N}.
Arguments rt_server {S N}.
Arguments rt_transport {S N}.
Arguments rt_last_update {S N}.
Arguments rt_local_addr {S N}.
Arguments rt_rate_limiter {S N}.
Arguments rt_max_payload_size {S N}.
Arguments rt_last_prune {S N}.
Arguments rt_suppressed_disconnects {S N}.
Arguments rt_clock {S N}.

Section Renet.
Context {S N : Type} `{!WireProtocol, !RenetServer S, NC : !NetcodeTransport S N}.
Abbreviation renet := (RenetTransport S N).
Implicit Types t : renet.

Definition set_server t s : renet :=
  mkRenet (mx_set (rt_server t) s) (rt_transport t) (rt_last_update t) (rt_local_addr t)
    (rt_rate_limiter t) (rt_max_payload_size t) (rt_last_prune t) (rt_suppressed_disconnects t)
    (rt_clock t).
Definition set_transport t n : renet :=
  mkRenet (rt_server t) (mx_set (rt_transport t) n) (rt_last_update t) (rt_local_addr t)
    (rt_rate_limiter t) (rt_max_payload_size t) (rt_last_prune t) (rt_suppressed_disconnects t)
    (rt_clock t).
Definition set_last_update t u : renet :=
  mkRenet (rt_server t) (rt_transport t) (mx_set (rt_last_update t) u) (rt_local_addr t)
    (rt_rate_limiter t) (rt_max_payload_size t) (rt_last_prune t) (rt_suppressed_disconnects t)
    (rt_clock t).
Definition set_limiter t l : renet :=
  mkRenet (rt_server t) (rt_transport t) (rt_last_update t) (rt_local_addr t)
    (mx_set (rt_rate_limiter t) l) (rt_max_payload_size t) (rt_last_prune t)
    (rt_suppressed_disconnects t) (rt_clock t).
Definition set_last_prune t u : renet :=
  mkRenet (rt_server t) (rt_transport t) (rt_last_update t) (rt_local_addr t) (rt_rate_limiter t)
    (rt_max_payload_size t) (mx_set (rt_last_prune t) u) (rt_suppressed_disconnects t) (rt_clock t).
Definition set_suppressed t x : renet :=
  mkRenet (rt_server t) (rt_transport t) (rt_last_update t) (rt_local_addr t) (rt_rate_limiter t)
    (rt_max_payload_size t) (rt_last_prune t) (mx_set (rt_suppressed_disconnects t) x) (rt_clock t).
Definition instant_now t : Z * renet :=
  let '(now, c) := clock_now (rt_clock t) in
  (now, mkRenet (rt_server t) (rt_transport t) (rt_last_update t) (rt_local_addr t)
          (rt_rate_limiter t) (rt_max_payload_size t) (rt_last_prune t)
          (rt_suppressed_disconnects t) c).

(** [map_err(TransportError::Io)?]. *)
Definition io {A B} (r : result A string) (k : A -> result B TransportError) :
    result B TransportError :=
  match r with Ok a => k a | Err e => Err (TransportIo e) end.

Definition is_ipv6 (addr : SocketAddr) : bool := match sa_ip addr with V6 _ => true | V4 _ _ _ _ => false end.

(** The two channels of [new_server]. *)
Definition server_channels (config : RenetServerConfig) : ConnectionConfig :=
  mkConnectionConfig
    [mkChannel CHANNEL_UNRELIABLE (rc_max_unreliable_channel_memory_bytes config) Unreliable;
     mkChannel CHANNEL_RELIABLE (1024 * 1024) (ReliableOrdered (300 * 1000000))].

(** [new_server]. *)
Definition new_server (addr : SocketAddr) (config : option RenetServerConfig) (clock : Clock) :
    result renet TransportError :=
  let config := default renet_config_default config in
  let server := rn_new (server_channels config) in
  let server_config := mkNetcodeConfig 0 (rc_max_clients config) (rc_protocol_id config) [addr]
                         (rc_authentication config) in
  io (sk_new (is_ipv6 addr)) (fun raw =>
  io (sk_set_reuse_address raw true) (fun raw =>
  io (sk_set_recv_buffer_size raw (8 * 1024 * 1024)) (fun raw =>
  io (sk_set_send_buffer_size raw (8 * 1024 * 1024)) (fun raw =>
  io (sk_set_nonblocking raw true) (fun raw =>
  io (sk_bind raw addr) (fun socket =>
  io (sk_local_addr socket) (fun local_addr =>
  io (nc_new server_config socket) (fun transport =>
  let '(now1, clock) := clock_now clock in
  let '(now2, clock) := clock_now clock in
  Ok (mkRenet (mutex_new server) (mutex_new transport) (mutex_new now1) local_addr
        (mutex_new (ip_limiter_new (d_of_Z (rc_max_new_connections_per_second config))))
        (rc_max_payload_size config) (mutex_new now2) (mutex_new ∅) clock))))))))).

(** [addr]. *)
Definition renet_addr t : SocketAddr := rt_local_addr t.

(** ** Sending *)

(** [send_unreliable] and [send_reliable], which differ in the channel. *)
Definition renet_send (channel : Z) t (client_id : ClientId) (data : bytes) :
    result unit TransportError * renet :=
  let len := Z.of_nat (length data) in
  if MAX_SAFE_PAYLOAD_SIZE <? len then (Err (PayloadTooLarge len MAX_SAFE_PAYLOAD_SIZE), t)
  else
    match lock (rt_server t) with
    | Err e => (Err e, t)
    | Ok server =>
        if negb (rn_is_connected server (cid_val client_id))
        then (Err (ClientNotConnected client_id), t)
        else (Ok (), set_server t (rn_send_message server (cid_val client_id) channel data))
    end.

Definition renet_send_unreliable := renet_send CHANNEL_UNRELIABLE.
Definition renet_send_reliable := renet_send CHANNEL_RELIABLE.

(** [broadcast_unreliable]. *)
Definition renet_broadcast_unreliable t (data : bytes) : result unit TransportError * renet :=
  let len := Z.of_nat (length data) in
  if MAX_SAFE_PAYLOAD_SIZE <? len then (Err (PayloadTooLarge len MAX_SAFE_PAYLOAD_SIZE), t)
  else
    match lock (rt_server t) with
    | Err e => (Err e, t)
    | Ok server => (Ok (), set_server t (rn_broadcast_message server CHANNEL_UNRELIABLE data))
    end.

(** [disconnect]. *)
Definition renet_disconnect t (client_id : ClientId) : result unit TransportError * renet :=
  match lock (rt_server t) with
  | Err e => (Err e, t)
  | Ok server => (Ok (), set_server t (rn_disconnect server (cid_val client_id)))
  end.

(** [connected_client_count]: zero when the lock fails. *)
Definition renet_connected_client_count t : exec Z :=
  match lock (rt_server t) with
  | Err _ => Ret 0
  | Ok server => Ret (rn_connected_clients server)
  end.

(** ** Polling *)

(** The second block of [poll_events]: once a minute the limiter is pruned. *)
Definition prune_stage (now : Z) t : result unit TransportError * renet :=
  match lock (rt_last_prune t) with
  | Err e => (Err e, t)
  | Ok last_prune =>
      if 60 * SECOND <? duration_since now last_prune then
        match lock (rt_rate_limiter t) with
        | Err e => (Err e, t)
        | Ok limiter =>
            let '(now_prune, t) := instant_now t in
            (Ok (), set_last_prune (set_limiter t (ip_prune limiter now_prune)) now)
        end
      else (Ok (), t)
  end.

(** Whether a new connection is let in: connections without an address are. *)
Definition admit_connection t (client_id : Z) : result bool TransportError * renet :=
  match nc_client_addr (mx_data (rt_transport t)) client_id with
  | None => (Ok true, t)
  | Some addr =>
      match lock (rt_rate_limiter t) with
      | Err e => (Err e, t)
      | Ok limiter =>
          let '(now, t) := instant_now t in
          let '(allowed, limiter) := ip_check limiter (sa_ip addr) now in
          (Ok allowed, set_limiter t limiter)
      end
  end.

(** The body of the event loop. *)
Definition handle_server_event t (events : list NetworkEvent) (event : ServerEvent) :
    result (list NetworkEvent) TransportError * renet :=
  match event with
  | EvConnected client_id =>
      match admit_connection t client_id with
      | (Err e, t) => (Err e, t)
      | (Ok true, t) => (Ok (events ++ [ClientConnected (mkCid client_id)]), t)
      | (Ok false, t) =>
          match lock (rt_suppressed_disconnects t) with
          | Err e => (Err e, t)
          | Ok suppressed =>
              let t := set_suppressed t ({[client_id]} ∪ suppressed) in
              (Ok events, set_server t (rn_disconnect (mx_data (rt_server t)) client_id))
          end
      end
  | EvDisconnected client_id =>
      match lock (rt_suppressed_disconnects t) with
      | Err e => (Err e, t)
      | Ok suppressed =>
          if bool_decide (client_id ∈ suppressed)
          then (Ok events, set_suppressed t (suppressed ∖ {[client_id]}))
          else (Ok (events ++ [ClientDisconnected (mkCid client_id)]), t)
      end
  end.

(** [while let Some(event) = server.get_event()]. *)
Fixpoint event_loop (fuel : nat) t (events : list NetworkEvent) :
    exec (result (list NetworkEvent) TransportError * renet) :=
  match fuel with
  | O => Diverge
  | Datatypes.S fuel =>
      match rn_get_event (mx_data (rt_server t)) with
      | (None, server) => Ret (Ok events, set_server t server)
      | (Some event, server) =>
          match handle_server_event (set_server t server) events event with
          | (Err e, t) => Ret (Err e, t)
          | (Ok events, t) => event_loop fuel t events
          end
      end
  end.

(** A message of a channel as an event. *)
Definition message_event (channel : Z) (client_id : Z) (message : bytes) : NetworkEvent :=
  if channel =? CHANNEL_UNRELIABLE then UnreliableMessage (mkCid client_id) message
  else ReliableMessage (mkCid client_id) message.

(** [while let Some(message) = server.receive_message(..)]: oversized messages are dropped. *)
Fixpoint drain_channel (fuel : nat) (max_payload channel client_id : Z) (server : S)
    (events : list NetworkEvent) : exec (list NetworkEvent * S) :=
  match fuel with
  | O => Diverge
  | Datatypes.S fuel =>
      match rn_receive_message server client_id channel with
      | (None, server) => Ret (events, server)
      | (Some message, server) =>
          drain_channel fuel max_payload channel client_id server
            (if max_payload <? Z.of_nat (length message) then events
             else events ++ [message_event channel client_id message])
      end
  end.

(** The body of the loop over the clients. *)
Definition drain_client (fuel : nat) (max_payload : Z) (acc : list NetworkEvent * S)
    (client_id : Z) : exec (list NetworkEvent * S) :=
  '(events, server) ← drain_channel fuel max_payload CHANNEL_UNRELIABLE client_id acc.2 acc.1;
  drain_channel fuel max_payload CHANNEL_RELIABLE client_id server events.

(** [poll_events]. *)
Definition renet_poll_events (fuel : nat) t :
    exec (result (list NetworkEvent) TransportError * renet) :=
  let '(now, t) := instant_now t in
  match lock (rt_last_update t) with
  | Err e => Ret (Err e, t)
  | Ok last_update =>
      let duration := duration_since now last_update in
      let t := set_last_update t now in
      match prune_stage now t with
      | (Err e, t) => Ret (Err e, t)
      | (Ok _, t) =>
          match lock (rt_server t), lock (rt_transport t) with
          | Err e, _ => Ret (Err e, t)
          | Ok _, Err e => Ret (Err e, t)
          | Ok server, Ok transport =>
              let '(_, transport, server) := nc_update transport duration server in
              let server := rn_update server duration in
              let '(transport, server) := nc_send_packets transport server in
              let t := set_transport (set_server t server) transport in
              '(r, t) ← event_loop fuel t [];
              match r with
              | Err e => Ret (Err e, t)
              | Ok events =>
                  let server := mx_data (rt_server t) in
                  '(events, server) ← for_each (drain_client fuel (rt_max_payload_size t))
                                        (events, server) (rn_clients_id server);
                  Ret (Ok events, set_server t server)
              end
          end
      end
  end.

(** [impl PlatformTransport for RenetTransport]. *)
Definition renet_transport (fuel : nat) : PlatformTransport renet := {|
  pt_poll_events := renet_poll_events fuel;
  pt_send_unreliable := renet_send_unreliable;
  pt_send_reliable := renet_send_reliable;
  pt_broadcast_unreliable := renet_broadcast_unreliable;
  pt_disconnect := renet_disconnect;
  pt_connected_client_count := renet_connected_client_count |}.
End Renet.

(** ** What the transport relies on *)

(** [get_event] and [receive_message] take from queues: the view [rn_events] of the pending events
    and [rn_inbox] of the messages of a client's channel.  Taking an event touches neither messages
    nor connections, and taking a message touches no other queue; closing a connection adds no event,
    takes the client out of [clients_id] and leaves the other clients alone. *)
Class RenetLaws (S : Type) `{!RenetServer S} : Type := {
  rn_events : S -> list ServerEvent;
  rn_inbox : S -> Z -> Z -> list bytes;
  get_event_nil s : rn_events s = [] -> rn_get_event s = (None, s);
  get_event_cons s e es : rn_events s = e :: es ->
    exists s', rn_get_event s = (Some e, s') /\ rn_events s' = es /\
      rn_clients_id s' = rn_clients_id s /\ forall c ch, rn_inbox s' c ch = rn_inbox s c ch;
  disconnect_events s c : rn_events (rn_disconnect s c) = rn_events s;
  disconnect_clients s c c' :
    c' ∈ rn_clients_id (rn_disconnect s c) <-> c' ∈ rn_clients_id s /\ c' <> c;
  disconnect_inbox s c c' ch : c' <> c -> rn_inbox (rn_disconnect s c) c' ch = rn_inbox s c' ch;
  receive_nil s c ch : rn_inbox s c ch = [] -> rn_receive_message s c ch = (None, s);
  receive_cons s c ch m ms : rn_inbox s c ch = m :: ms ->
    exists s', rn_receive_message s c ch = (Some m, s') /\ rn_inbox s' c ch = ms /\
      forall c' ch', (c', ch') <> (c, ch) -> rn_inbox s' c' ch' = rn_inbox s c' ch';
  clients_NoDup s : NoDup (rn_clients_id s);
}.
