(* ===== verification/RenetProps.v ===== *)
(** * Properties of the UDP transport

    Polling terminates and hands over exactly what is pending and small enough; the connections
    reported to the scheduler are properly paired, whatever the limiter rejects; a burst of
    connections from one address gets through exactly up to the configured rate; sending respects
    the payload limit and leaves the transport alone when it fails. *)

From stdpp Require Import gmap strings list.
From Stdlib Require Import ZArith Lia SpecFloat.
From S2P Require Import Prelude F32 F64 Text Protocol Tick Renet.

Open Scope Z_scope.

Section Props.
Context {S N : Type} `{!WireProtocol, !RenetServer S, NC : !NetcodeTransport S N, RL : !RenetLaws S}.
Abbreviation renet := (RenetTransport S N).
Implicit Types t : renet.

(** No thread has panicked while holding a lock of the transport. *)
Record unpoisoned t : Prop := {
  up_server : mx_poisoned (rt_server t) = false;
  up_transport : mx_poisoned (rt_transport t) = false;
  up_last_update : mx_poisoned (rt_last_update t) = false;
  up_rate_limiter : mx_poisoned (rt_rate_limiter t) = false;
  up_last_prune : mx_poisoned (rt_last_prune t) = false;
  up_suppressed : mx_poisoned (rt_suppressed_disconnects t) = false }.

Lemma lock_ok {A} (m : Mutex A) : mx_poisoned m = false -> lock m = Ok (mx_data m).
Proof. unfold lock. by intros ->. Qed.

(** ** One event *)
Definition suppressed t : gset Z := mx_data (rt_suppressed_disconnects t).

(** The client an event of the server is about, and whether it connects. *)
Definition raw_change (e : ServerEvent) : Z * bool :=
  match e with EvConnected c => (c, true) | EvDisconnected c => (c, false) end.

(** The same for an event reported to the scheduler; messages change nothing. *)
Definition reported_change (e : NetworkEvent) : option (Z * bool) :=
  match e with
  | ClientConnected c => Some (cid_val c, true)
  | ClientDisconnected c => Some (cid_val c, false)
  | _ => None
  end.

(** What an event of the server adds to the report, the client it has turned away, and the new set
    of hidden connections. *)
Inductive event_effect (sup : gset Z) :
    ServerEvent -> list NetworkEvent -> list Z -> gset Z -> Prop :=
| ee_admitted c : event_effect sup (EvConnected c) [ClientConnected (mkCid c)] [] sup
| ee_rejected c : event_effect sup (EvConnected c) [] [c] ({[c]} ∪ sup)
| ee_hidden c : c ∈ sup -> event_effect sup (EvDisconnected c) [] [] (sup ∖ {[c]})
| ee_left c :
    c ∉ sup -> event_effect sup (EvDisconnected c) [ClientDisconnected (mkCid c)] [] sup.

(** The server when these clients have been turned away: the others and their messages are as
    before. *)
Definition without (rejected : list Z) (s s' : S) : Prop :=
  (forall c, c ∈ rn_clients_id s' <-> c ∈ rn_clients_id s /\ c ∉ rejected) /\
  (forall c ch, c ∉ rejected -> rn_inbox s' c ch = rn_inbox s c ch).

Lemma without_refl s : without [] s s.
Proof. split; set_solver. Qed.

Lemma without_app rej1 rej2 s1 s2 s3 :
  without rej1 s1 s2 -> without rej2 s2 s3 -> without (rej1 ++ rej2) s1 s3.
Proof.
  intros [C1 I1] [C2 I2]. split.
  - intros c. rewrite C2, C1, elem_of_app. tauto.
  - intros c ch Hc. rewrite elem_of_app in Hc. rewrite I2, I1; tauto.
Qed.

Lemma without_disconnect s c : without [c] s (rn_disconnect s c).
Proof.
  split.
  - intros c'. by rewrite disconnect_clients, list_elem_of_singleton.
  - intros c' ch Hc. apply disconnect_inbox. set_solver.
Qed.

(** The fields no event touches. *)
Definition same_frame t t' : Prop :=
  rt_max_payload_size t' = rt_max_payload_size t /\ rt_local_addr t' = rt_local_addr t.

Lemma admit_connection_ok t c :
  unpoisoned t ->
  exists b t', admit_connection t c = (Ok b, t') /\ unpoisoned t' /\ suppressed t' = suppressed t /\
    rt_server t' = rt_server t /\ same_frame t t'.
Proof.
  intros Hp. unfold admit_connection. destruct (nc_client_addr _ c) as [addr|].
  - rewrite lock_ok by apply Hp. cbn.
    destruct (ip_check _ _ _) as [b l]. eexists b, _. split; [done|]. by destruct Hp.
  - by eexists true, t.
Qed.

Lemma handle_server_event_ok t evs e :
  unpoisoned t ->
  exists out rej t', handle_server_event t evs e = (Ok (evs ++ out), t') /\ unpoisoned t' /\
    event_effect (suppressed t) e out rej (suppressed t') /\
    without rej (mx_data (rt_server t)) (mx_data (rt_server t')) /\
    rn_events (mx_data (rt_server t')) = rn_events (mx_data (rt_server t)) /\ same_frame t t'.
Proof.
  intros Hp. destruct e as [c|c]; cbn.
  - destruct (admit_connection_ok t c Hp) as (b & t1 & -> & Hp1 & Hs & Hsrv & Hf). destruct b.
    + eexists _, [], t1. split; [done|].
      split_and!; [done | rewrite Hs; constructor | rewrite Hsrv; apply without_refl | by rewrite Hsrv | done].
    + rewrite lock_ok by apply Hp1. eexists [], [c], _. rewrite app_nil_r. split; [done|].
      split_and!; [by destruct Hp1 | | | | done].
      * change (event_effect (suppressed t) (EvConnected c) [] [c] ({[c]} ∪ suppressed t1)).
        rewrite Hs. constructor.
      * cbn. rewrite Hsrv. apply without_disconnect.
      * cbn. rewrite disconnect_events. by rewrite Hsrv.
  - rewrite lock_ok by apply Hp. fold (suppressed t). case_bool_decide.
    + eexists [], [], _. rewrite app_nil_r. split; [done|].
      split_and!; [by destruct Hp | by constructor | apply without_refl | done | done].
    + eexists _, [], t. split; [done|].
      split_and!; [done | by constructor | apply without_refl | done | done].
Qed.

(** ** The event loop *)
Inductive events_effect :
    gset Z -> list ServerEvent -> list NetworkEvent -> list Z -> gset Z -> Prop :=
| es_nil sup : events_effect sup [] [] [] sup
| es_cons sup e out rej sup' raw out' rej' sup'' :
    event_effect sup e out rej sup' -> events_effect sup' raw out' rej' sup'' ->
    events_effect sup (e :: raw) (out ++ out') (rej ++ rej') sup''.

Lemma event_loop_ok raw : forall t evs fuel,
  unpoisoned t -> rn_events (mx_data (rt_server t)) = raw -> (length raw < fuel)%nat ->
  exists out rej t', event_loop fuel t evs = Ret (Ok (evs ++ out), t') /\ unpoisoned t' /\
    events_effect (suppressed t) raw out rej (suppressed t') /\
    without rej (mx_data (rt_server t)) (mx_data (rt_server t')) /\ same_frame t t'.
Proof.
  induction raw as [|e raw IH]; intros t evs fuel Hp Hr Hf; (destruct fuel as [|fuel]; [cbn in Hf; lia|]); cbn.
  - rewrite (get_event_nil _ Hr). eexists [], [], _. rewrite app_nil_r. split; [done|].
    split_and!; [by destruct Hp | constructor | apply without_refl | done].
  - destruct (get_event_cons _ _ _ Hr) as (s' & -> & Hs' & Hcl & Hin). cbn in Hf.
    assert (unpoisoned (set_server t s')) as Hp1 by (by destruct Hp).
    destruct (handle_server_event_ok _ evs e Hp1) as (out & rej & t1 & -> & Hp2 & He & Hw & Hev & Hfr).
    destruct (IH t1 (evs ++ out) fuel Hp2) as (out' & rej' & t' & -> & Hp' & He' & Hw' & Hfr');
      [by rewrite Hev | lia |].
    eexists (out ++ out'), (rej ++ rej'), t'. rewrite <- app_assoc. split; [done|].
    split_and!; [done | by econstructor | | unfold same_frame in *; naive_solver congruence].
    eapply without_app; [|exact Hw']. destruct Hw as [Hw1 Hw2]. cbn in Hw1, Hw2. split.
    + intros c. by rewrite Hw1, Hcl.
    + intros c ch Hc. by rewrite Hw2, Hin.
Qed.

(** ** The messages *)

(** A message small enough, as an event. *)
Definition small (max_payload : Z) (m : bytes) : Prop := Z.of_nat (length m) <= max_payload.
#[local] Instance small_dec max m : Decision (small max m).
Proof. unfold small. apply _. Defined.

Definition channel_events (max_payload channel c : Z) (server : S) : list NetworkEvent :=
  message_event channel c <$> filter (small max_payload) (rn_inbox server c channel).

Lemma drain_channel_ok max ch c ms : forall server evs fuel,
  rn_inbox server c ch = ms -> (length ms < fuel)%nat ->
  exists server', drain_channel fuel max ch c server evs =
      Ret (evs ++ (message_event ch c <$> filter (small max) ms), server') /\
    rn_inbox server' c ch = [] /\
    forall c' ch', (c', ch') <> (c, ch) -> rn_inbox server' c' ch' = rn_inbox server c' ch'.
Proof.
  induction ms as [|m ms IH]; intros server evs fuel Hi Hf; (destruct fuel as [|fuel]; [cbn in Hf; lia|]);
    cbn [drain_channel].
  - rewrite (receive_nil _ _ _ Hi). exists server. by rewrite app_nil_r.
  - destruct (receive_cons _ _ _ _ _ Hi) as (s' & -> & Hs' & Hfr). cbn in Hf.
    destruct (IH s' (if max <? Z.of_nat (length m) then evs else evs ++ [message_event ch c m]) fuel Hs')
      as (s'' & -> & He & Hfr'); [lia|].
    exists s''. split_and!; [|done | intros; by rewrite Hfr', Hfr]. do 2 f_equal.
    destruct (Z.ltb_spec max (Z.of_nat (length m))).
    + rewrite filter_cons_False by (unfold small; lia). done.
    + rewrite filter_cons_True by (unfold small; lia). cbn. by rewrite <- app_assoc.
Qed.

Definition client_events (max_payload : Z) (server : S) (c : Z) : list NetworkEvent :=
  channel_events max_payload CHANNEL_UNRELIABLE c server ++
  channel_events max_payload CHANNEL_RELIABLE c server.

(** More fuel than any queue of the clients is long. *)
Definition polled_channel (ch : Z) : Prop := ch = CHANNEL_UNRELIABLE \/ ch = CHANNEL_RELIABLE.
#[local] Instance polled_channel_dec ch : Decision (polled_channel ch).
Proof. unfold polled_channel. apply _. Defined.

Definition enough (fuel : nat) (server : S) (ids : list Z) : Prop :=
  forall c ch, c ∈ ids -> polled_channel ch -> (length (rn_inbox server c ch) < fuel)%nat.

Lemma enough_exists server ids : exists n, forall fuel, (n <= fuel)%nat -> enough fuel server ids.
Proof.
  induction ids as [|c ids [n IH]]; [exists 0%nat; intros fuel _ c ch; set_solver|].
  exists (n + length (rn_inbox server c CHANNEL_UNRELIABLE) + length (rn_inbox server c CHANNEL_RELIABLE) + 1)%nat.
  intros fuel Hf c' ch' [->|Hin]%elem_of_cons Hch; [|apply (IH fuel); [lia | done..]].
  destruct Hch as [->| ->]; lia.
Qed.

Lemma drain_client_ok fuel max evs server c :
  enough fuel server [c] ->
  exists server', drain_client fuel max (evs, server) c = Ret (evs ++ client_events max server c, server') /\
    forall c' ch', if decide (c' = c /\ polled_channel ch')
                   then rn_inbox server' c' ch' = [] else rn_inbox server' c' ch' = rn_inbox server c' ch'.
Proof.
  intros He. unfold drain_client. cbn.
  assert (c ∈ [c]) as Hc by set_solver.
  destruct (drain_channel_ok max CHANNEL_UNRELIABLE c _ server evs fuel eq_refl) as (s1 & -> & E1 & F1);
    [apply He; [done | by left]|].
  cbn. destruct (drain_channel_ok max CHANNEL_RELIABLE c _ s1 (evs ++ channel_events max CHANNEL_UNRELIABLE c server)
    fuel eq_refl) as (s2 & E & E2 & F2).
  { rewrite F1 by done. apply He; [done | by right]. }
  unfold channel_events in E. rewrite E. exists s2. split.
  - unfold client_events, channel_events. rewrite F1 by done. by rewrite <- app_assoc.
  - intros c' ch'. unfold polled_channel. case_decide as Hd.
    + destruct Hd as [-> [->| ->]]; [|done]. by rewrite F2.
    + rewrite F2 by naive_solver. by rewrite F1 by naive_solver.
Qed.

Lemma drain_clients_ok fuel max ids : forall evs server,
  enough fuel server ids -> NoDup ids ->
  exists server', for_each (drain_client fuel max) (evs, server) ids =
      Ret (evs ++ (ids ≫= client_events max server), server') /\
    forall c ch, if decide (c ∈ ids /\ polled_channel ch)
                 then rn_inbox server' c ch = [] else rn_inbox server' c ch = rn_inbox server c ch.
Proof.
  induction ids as [|c ids IH]; intros evs server He Hnd.
  - exists server. cbn. rewrite app_nil_r. split; [done|]. intros. case_decide; [set_solver | done].
  - apply NoDup_cons in Hnd as [Hc Hnd]. rewrite for_each_cons.
    destruct (drain_client_ok fuel max evs server c) as (s1 & -> & F1).
    { intros c' ch' ->%list_elem_of_singleton. apply He. set_solver. }
    cbn [mbind exec_bind]. assert (enough fuel s1 ids) as He1.
    { intros c' ch' Hc' Hch. specialize (F1 c' ch'). specialize (He c' ch' ltac:(set_solver) Hch).
      case_decide; rewrite F1; cbn; lia. }
    destruct (IH (evs ++ client_events max server c) s1 He1 Hnd) as (s2 & -> & F2).
    exists s2. rewrite <- app_assoc. split.
    + do 3 f_equal. cbn. f_equal. apply bind_ext_in. intros c' Hc'. unfold client_events, channel_events.
      assert (forall ch, rn_inbox s1 c' ch = rn_inbox server c' ch) as Fr; [|by rewrite !Fr].
      intros ch. specialize (F1 c' ch). case_decide; [naive_solver | done].
    + intros c' ch'. specialize (F1 c' ch'). specialize (F2 c' ch').
      repeat case_decide; rewrite ?elem_of_cons in *; naive_solver congruence.
Qed.

(** ** The poll *)
Lemma event_loop_mono fuel : forall t evs r fuel',
  event_loop fuel t evs = Ret r -> (fuel <= fuel')%nat -> event_loop fuel' t evs = Ret r.
Proof.
  induction fuel as [|fuel IH]; intros t evs r fuel' Hr Hle; [done|]. destruct fuel' as [|fuel']; [lia|].
  cbn in *. destruct (rn_get_event _) as [[e|] s']; [|done].
  destruct (handle_server_event _ _ _) as [[evs'|] t']; [|done]. apply (IH _ _ _ fuel' Hr). lia.
Qed.

(** The server when its events are read: after the library's updates. *)
Definition polled_server t : S :=
  let duration := duration_since (instant_now t).1 (mx_data (rt_last_update t)) in
  let '(_, transport, server) := nc_update (mx_data (rt_transport t)) duration (mx_data (rt_server t)) in
  (nc_send_packets transport (rn_update server duration)).2.

Lemma prune_stage_ok now t :
  unpoisoned t ->
  exists t', prune_stage now t = (Ok (), t') /\ unpoisoned t' /\ suppressed t' = suppressed t /\
    rt_server t' = rt_server t /\ rt_transport t' = rt_transport t /\ same_frame t t'.
Proof.
  intros Hp. unfold prune_stage. rewrite !lock_ok by apply Hp. case_match.
  - eexists. split; [done|]. by destruct Hp.
  - by exists t.
Qed.

(** Up to the event loop. *)
Lemma poll_prefix t :
  unpoisoned t ->
  exists t1, unpoisoned t1 /\ suppressed t1 = suppressed t /\ same_frame t t1 /\
    mx_data (rt_server t1) = polled_server t /\
    forall fuel, renet_poll_events fuel t = (
      '(r, t) ← event_loop fuel t1 [];
      match r with
      | Err e => Ret (Err e, t)
      | Ok events =>
          let server := mx_data (rt_server t) in
          '(events, server) ← for_each (drain_client fuel (rt_max_payload_size t))
                                (events, server) (rn_clients_id server);
          Ret (Ok events, set_server t server)
      end).
Proof.
  intros Hp. unfold polled_server, renet_poll_events.
  destruct (instant_now t) as [now t0] eqn:E. unfold instant_now, clock_now in E. injection E as <- <-.
  cbn [fst rt_last_update]. rewrite lock_ok by apply Hp.
  match goal with |- context [prune_stage ?now ?t0] => destruct (prune_stage_ok now t0) as
    (t1 & Et & Hp1 & Hs1 & Hsrv1 & Htr1 & Hf1); [by destruct Hp|]; rewrite Et end.
  rewrite !lock_ok by apply Hp1. cbn in Hsrv1, Htr1. rewrite Hsrv1, Htr1.
  destruct (nc_update _ _ _) as [[? n] s]. destruct (nc_send_packets _ _) as [n' s']. cbn [snd].
  eexists. split; [|split; [|split; [|split; [|intros fuel; reflexivity]]]].
  - by destruct Hp1.
  - done.
  - done.
  - done.
Qed.

Lemma drain_channel_mono max ch c fuel : forall server evs r fuel',
  drain_channel fuel max ch c server evs = Ret r -> (fuel <= fuel')%nat ->
  drain_channel fuel' max ch c server evs = Ret r.
Proof.
  induction fuel as [|fuel IH]; intros server evs r fuel' Hr Hle; [done|]. destruct fuel' as [|fuel']; [lia|].
  cbn in *. destruct (rn_receive_message server c ch) as [[m|] s']; [|done]. apply (IH _ _ _ fuel' Hr). lia.
Qed.

Lemma drain_clients_mono fuel max ids acc r fuel' :
  for_each (drain_client fuel max) acc ids = Ret r -> (fuel <= fuel')%nat ->
  for_each (drain_client fuel' max) acc ids = Ret r.
Proof.
  intros Hr Hle. revert acc Hr. induction ids as [|c ids IH]; intros acc Hr; [done|]. cbn in *.
  apply bind_Ret_inv in Hr as (acc1 & H1 & Hr). unfold drain_client in *.
  apply bind_Ret_inv in H1 as ([evs s1] & H1 & H2).
  rewrite (drain_channel_mono _ _ _ _ _ _ _ fuel' H1 Hle). cbn.
  rewrite (drain_channel_mono _ _ _ _ _ _ _ fuel' H2 Hle). cbn. by apply IH.
Qed.


(** ** Runs *)

(** The operations of the transport, with the server events each consumes and the events it
    reports. *)
Inductive renet_step : renet -> list ServerEvent -> list NetworkEvent -> renet -> Prop :=
| rs_poll fuel t evs t' :
    renet_poll_events fuel t = Ret (Ok evs, t') ->
    renet_step t (rn_events (polled_server t)) evs t'
| rs_send ch t c data : renet_step t [] [] (renet_send ch t c data).2
| rs_broadcast t data : renet_step t [] [] (renet_broadcast_unreliable t data).2
| rs_disconnect t c : renet_step t [] [] (renet_disconnect t c).2.

Inductive renet_run : renet -> list ServerEvent -> list NetworkEvent -> renet -> Prop :=
| rr_nil t : renet_run t [] [] t
| rr_snoc t raw evs t1 raw' evs' t2 :
    renet_run t raw evs t1 -> renet_step t1 raw' evs' t2 ->
    renet_run t (raw ++ raw') (evs ++ evs') t2.

(** Messages are no connection events. *)
Lemma drain_channel_messages max ch c fuel : forall server evs r,
  drain_channel fuel max ch c server evs = Ret r ->
  exists ms, r.1 = evs ++ ms /\ Forall (fun e => reported_change e = None) ms.
Proof.
  induction fuel as [|fuel IH]; intros server evs r Hr; [done|]. cbn in Hr.
  destruct (rn_receive_message server c ch) as [[m|] s'].
  - destruct (IH _ _ _ Hr) as (ms & E & Hms). case_match.
    + eauto.
    + exists (message_event ch c m :: ms). rewrite E, <- app_assoc. split; [done|]. constructor; [|done].
      unfold message_event. by case_match.
  - injection Hr as <-. exists []. by rewrite app_nil_r.
Qed.

Lemma drain_clients_messages fuel max ids : forall acc r,
  for_each (drain_client fuel max) acc ids = Ret r ->
  exists ms, r.1 = acc.1 ++ ms /\ Forall (fun e => reported_change e = None) ms.
Proof.
  induction ids as [|c ids IH]; intros acc r Hr; cbn in Hr.
  - injection Hr as <-. exists []. by rewrite app_nil_r.
  - apply bind_Ret_inv in Hr as (acc2 & H2 & Hr). unfold drain_client in H2.
    apply bind_Ret_inv in H2 as ([evs s1] & H1 & H2).
    apply drain_channel_messages in H1 as (m1 & E1 & F1). apply drain_channel_messages in H2 as (m2 & E2 & F2).
    destruct (IH _ _ Hr) as (m3 & E3 & F3). cbn in *. subst. rewrite E3, E2, <- !app_assoc.
    eexists. split; [done|]. by rewrite !Forall_app.
Qed.

Lemma poll_effect fuel t evs t' :
  unpoisoned t -> renet_poll_events fuel t = Ret (Ok evs, t') ->
  unpoisoned t' /\ exists conns rej ms, evs = conns ++ ms /\
    Forall (fun e => reported_change e = None) ms /\
    events_effect (suppressed t) (rn_events (polled_server t)) conns rej (suppressed t').
Proof.
  intros Hp Hr. destruct (poll_prefix t Hp) as (t1 & Hp1 & Hs1 & Hf1 & Hsrv1 & Hpoll).
  rewrite Hpoll in Hr. apply bind_Ret_inv in Hr as ([r t2] & Hloop & Hr).
  destruct (event_loop_ok (rn_events (polled_server t)) t1 []
    (fuel + Datatypes.S (length (rn_events (polled_server t))))) as (conns & rej & t2' & Hloop' & Hp2 & He & _ & Hf2);
    [done | by rewrite Hsrv1 | lia |].
  rewrite (event_loop_mono _ _ _ _ _ Hloop) in Hloop' by lia. injection Hloop' as -> <-.
  apply bind_Ret_inv in Hr as ([evs' s'] & Hdrain & Hr). injection Hr as -> <-.
  apply drain_clients_messages in Hdrain as (ms & E & Hms). cbn in E.
  split; [by destruct Hp2|]. exists conns, rej, ms. by rewrite <- Hs1.
Qed.

Lemma other_step t t' : 
  unpoisoned t -> (t' = t \/ exists s, t' = set_server t s) -> unpoisoned t' /\ suppressed t' = suppressed t.
Proof. intros Hp [->|[s ->]]; [done|]. by destruct Hp. Qed.

Lemma step_effect t raw evs t' :
  unpoisoned t -> renet_step t raw evs t' ->
  unpoisoned t' /\ exists conns rej ms, evs = conns ++ ms /\
    Forall (fun e => reported_change e = None) ms /\
    events_effect (suppressed t) raw conns rej (suppressed t').
Proof.
  intros Hp Hs. destruct Hs as [fuel t evs t' Hr|ch t c data|t data|t c]; [by eapply poll_effect|..].
  - destruct (other_step t (renet_send ch t c data).2 Hp) as [Hp' Hs'].
    { unfold renet_send. rewrite lock_ok by apply Hp. repeat case_match; eauto. }
    split; [done|]. exists [], [], []. rewrite Hs'. by repeat constructor.
  - destruct (other_step t (renet_broadcast_unreliable t data).2 Hp) as [Hp' Hs'].
    { unfold renet_broadcast_unreliable. rewrite lock_ok by apply Hp. repeat case_match; eauto. }
    split; [done|]. exists [], [], []. rewrite Hs'. by repeat constructor.
  - destruct (other_step t (renet_disconnect t c).2 Hp) as [Hp' Hs'].
    { unfold renet_disconnect. rewrite lock_ok by apply Hp. eauto. }
    split; [done|]. exists [], [], []. rewrite Hs'. by repeat constructor.
Qed.
End Props.

(** ** Pairing of connections *)

(** The connects ([true]) and disconnects ([false]) of one client. *)
Definition raw_of (c : Z) (l : list ServerEvent) : list bool :=
  omap (fun e => if decide ((raw_change e).1 = c) then Some (raw_change e).2 else None) l.
Definition reported_of (c : Z) (l : list NetworkEvent) : list bool :=
  omap (fun e => ch ← reported_change e; if decide (ch.1 = c) then Some ch.2 else None) l.

(** Connects and disconnects alternate, the next one expected being [b]. *)
Fixpoint paired (b : bool) (l : list bool) : Prop :=
  match l with [] => True | x :: l => x = b /\ paired (negb b) l end.

(** What is expected after a sequence. *)
Definition next_after (b : bool) (l : list bool) : bool := foldl (fun _ x => negb x) b l.

Lemma paired_app b l l' : paired b (l ++ l') <-> paired b l /\ paired (next_after b l) l'.
Proof.
  revert b. induction l as [|x l IH]; intros b; cbn; [naive_solver|]. rewrite IH. unfold next_after. cbn.
  destruct x, b; naive_solver.
Qed.

(** A hidden client is connected for the server and not for the scheduler; any other client is
    in the same state for both. *)
Definition agree (c : Z) (sup : gset Z) (raw_next rep_next : bool) : Prop :=
  if decide (c ∈ sup) then raw_next = false /\ rep_next = true else raw_next = rep_next.

Lemma event_effect_paired c sup e out rej sup' rn pn :
  event_effect sup e out rej sup' -> agree c sup rn pn -> paired rn (raw_of c [e]) ->
  paired pn (reported_of c out) /\
  agree c sup' (next_after rn (raw_of c [e])) (next_after pn (reported_of c out)).
Proof.
  intros He Ha Hr. destruct (decide ((raw_change e).1 = c)) as [Hc|Hc].
  - assert (raw_of c [e] = [(raw_change e).2]) as Er by (unfold raw_of; cbn; by rewrite decide_True).
    rewrite Er in *. cbn in Hr. destruct Hr as [Hr _]. unfold agree in *.
    destruct He as [c'|c'|c' Hin|c' Hni]; cbn in *; subst; unfold reported_of; cbn;
      repeat case_decide; cbn in *; try done; set_solver.
  - assert (raw_of c [e] = []) as Er by (unfold raw_of; cbn; by rewrite decide_False).
    rewrite Er. cbn. assert (reported_of c out = []) as Eo.
    { destruct He; unfold reported_of; cbn in *; try done; by rewrite decide_False. }
    rewrite Eo. cbn. split; [done|]. unfold agree in *.
    destruct He as [c'|c'|c' Hin|c' Hni]; cbn in *; repeat case_decide; try done; set_solver.
Qed.

Lemma events_effect_paired c sup raw out rej sup' rn pn :
  events_effect sup raw out rej sup' -> agree c sup rn pn -> paired rn (raw_of c raw) ->
  paired pn (reported_of c out) /\
  agree c sup' (next_after rn (raw_of c raw)) (next_after pn (reported_of c out)).
Proof.
  intros He. revert rn pn. induction He as [sup|sup e out rej sup1 raw out' rej' sup2 He Hes IH]; intros rn pn Ha Hr.
  - done.
  - change (e :: raw) with ([e] ++ raw) in *. unfold raw_of, reported_of in *. rewrite !omap_app in *.
    apply paired_app in Hr as [Hr1 Hr2].
    destruct (event_effect_paired c _ _ _ _ _ rn pn He Ha Hr1) as [Hp1 Ha1].
    destruct (IH _ _ Ha1 Hr2) as [Hp2 Ha2]. rewrite paired_app. unfold next_after in *. by rewrite !foldl_app.
Qed.

Lemma reported_messages c ms :
  Forall (fun e => reported_change e = None) ms -> reported_of c ms = [].
Proof. induction 1 as [|e ms He _ IH]; [done|]. unfold reported_of in *. cbn. by rewrite He. Qed.


(** ** Bursts of connections *)

(** [k] connections from one address at one instant. *)
Fixpoint burst (k : nat) (l : IpRateLimiter) (ip : IpAddr) (now : Z) : list bool * IpRateLimiter :=
  match k with
  | O => ([], l)
  | Datatypes.S k =>
      let '(b, l) := ip_check l ip now in
      let '(bs, l) := burst k l ip now in (b :: bs, l)
  end.

(** The arithmetic of whole numbers of tokens at the rates in use is exact. *)
Definition whole_tokens_exact (rate j : Z) : bool :=
  bool_decide (refilled (d_of_Z rate) (mkBucket (d_of_Z j) 0) 0 = d_of_Z j) &&
  Bool.eqb (d1 <=? d_of_Z j)%d (1 <=? j) &&
  ((j =? 0) || bool_decide ((d_of_Z j - d1)%d = d_of_Z (j - 1))).

Lemma whole_tokens_table :
  forallb (fun rate => forallb (whole_tokens_exact rate) (seqZ 0 (rate + 1))) (seqZ 0 101) = true.
Proof. vm_compute. reflexivity. Qed.

Lemma whole_tokens rate j now :
  0 <= j <= rate -> rate <= 100 ->
  refilled (d_of_Z rate) (mkBucket (d_of_Z j) now) now = d_of_Z j /\
  (d1 <=? d_of_Z j)%d = (1 <=? j) /\ (1 <= j -> (d_of_Z j - d1)%d = d_of_Z (j - 1)).
Proof.
  intros Hj Hr. pose proof whole_tokens_table as H. rewrite forallb_forall in H.
  specialize (H rate). rewrite <- list_elem_of_In, elem_of_seqZ in H. specialize (H ltac:(lia)).
  rewrite forallb_forall in H. specialize (H j). rewrite <- list_elem_of_In, elem_of_seqZ in H.
  specialize (H ltac:(lia)). unfold whole_tokens_exact in H.
  rewrite !andb_true_iff, orb_true_iff, !bool_decide_eq_true, Z.eqb_eq in H. destruct H as [[H1 H2] H3].
  split_and!.
  - unfold refilled, duration_since in *. cbn [bk_tokens bk_last_refill] in *.
    assert (forall x, sat_sub x x = 0) as Hz by (intros; unfold sat_sub; lia). by rewrite !Hz in *.
  - by apply eqb_prop.
  - destruct H3; [lia | done].
Qed.

(** A bucket with [j] tokens at the instant it was last used. *)
Definition holds (l : IpRateLimiter) (ip : IpAddr) (now : Z) (rate j : Z) : Prop :=
  il_max_rate l = d_of_Z rate /\
  default (mkBucket (d_of_Z rate) now) (il_limits l !! ip) = mkBucket (d_of_Z j) now.

Lemma ip_check_whole l ip now rate j :
  0 <= j <= rate -> rate <= 100 -> holds l ip now rate j ->
  (ip_check l ip now).1 = (1 <=? j) /\ holds (ip_check l ip now).2 ip now rate (Z.max 0 (j - 1)) /\
  forall ip', ip' <> ip -> il_limits (ip_check l ip now).2 !! ip' = il_limits l !! ip'.
Proof.
  intros Hj Hr [Hm Hb]. destruct (whole_tokens rate j now Hj Hr) as (H1 & H2 & H3).
  unfold ip_check. rewrite Hm, Hb, H1, H2.
  destruct (Z.leb_spec 1 j); cbn [fst snd]; unfold holds; cbn [il_max_rate il_limits];
    rewrite lookup_insert_eq; cbn [default]; split_and!; try done;
    try (intros; by rewrite lookup_insert_ne).
  - unfold id. rewrite H3 by done. do 2 f_equal. lia.
  - unfold id. do 2 f_equal. lia.
Qed.

(** At every whole rate up to 100 connections per second (the transport is configured
    with 5, or 100 when authentication is bypassed), of any number of connections that arrive from
    one unseen address at one instant exactly the first [rate] are let in, the buckets of other
    addresses stay as they are, and rounding never adds or loses one. *)
Theorem connection_burst rate l ip now k :
  0 <= rate <= 100 -> il_max_rate l = d_of_Z rate -> il_limits l !! ip = None ->
  (burst k l ip now).1 =
    replicate (Nat.min k (Z.to_nat rate)) true ++ replicate (k - Z.to_nat rate) false /\
  forall ip', ip' <> ip -> il_limits (burst k l ip now).2 !! ip' = il_limits l !! ip'.
Proof.
  intros Hr Hm Hn.
  assert (forall j, 0 <= j <= rate -> holds l ip now rate j ->
    (burst k l ip now).1 = replicate (Nat.min k (Z.to_nat j)) true ++ replicate (k - Z.to_nat j) false /\
    forall ip', ip' <> ip -> il_limits (burst k l ip now).2 !! ip' = il_limits l !! ip') as Hgen.
  { clear Hm Hn. revert l. induction k as [|k IH]; intros l j Hj Hh; [done|]. cbn [burst].
    destruct (ip_check_whole l ip now rate j Hj ltac:(lia) Hh) as (Hb & Hh' & Hf).
    destruct (ip_check l ip now) as [b l1]. cbn in Hb, Hh', Hf.
    destruct (IH l1 (Z.max 0 (j - 1)) ltac:(lia) Hh') as [IH1 IH2].
    destruct (burst k l1 ip now) as [bs l2]. cbn in *. split; [|intros; by rewrite IH2, Hf].
    rewrite IH1, Hb. destruct (Z.leb_spec 1 j).
    - replace (Z.to_nat j) with (Datatypes.S (Z.to_nat (Z.max 0 (j - 1)))) by lia. done.
    - replace (Z.to_nat j) with 0%nat by lia. replace (Z.to_nat (Z.max 0 (j - 1))) with 0%nat by lia.
      rewrite !Nat.sub_0_r, !Nat.min_0_r. done. }
  apply Hgen; [lia|]. split; [done|]. by rewrite Hn.
Qed.

(** ** Sending *)

(** A send goes out on its channel exactly when the payload is within the protocol's
    limit and the client is connected; otherwise it fails, too large a payload before an unknown
    client, and the transport is as it was. *)
Theorem renet_send_spec {S N} `{!WireProtocol, !RenetServer S, !NetcodeTransport S N} ch
    (t : RenetTransport S N) c data :
  mx_poisoned (rt_server t) = false ->
  let server := mx_data (rt_server t) in
  let len := Z.of_nat (length data) in
  (MAX_SAFE_PAYLOAD_SIZE < len -> renet_send ch t c data = (Err (PayloadTooLarge len MAX_SAFE_PAYLOAD_SIZE), t)) /\
  (len <= MAX_SAFE_PAYLOAD_SIZE -> rn_is_connected server (cid_val c) = false ->
   renet_send ch t c data = (Err (ClientNotConnected c), t)) /\
  (len <= MAX_SAFE_PAYLOAD_SIZE -> rn_is_connected server (cid_val c) = true ->
   renet_send ch t c data = (Ok (), set_server t (rn_send_message server (cid_val c) ch data))).
Proof.
  intros Hp server len. unfold renet_send. fold len. rewrite lock_ok by done. fold server.
  split_and!; intros Hl; destruct (Z.ltb_spec MAX_SAFE_PAYLOAD_SIZE len); try lia; [done|..];
    by intros ->.
Qed.

(** ** A model of the libraries, and witnesses *)
Module RenetWitness.

(** A server as its queues. *)
Record mini_server := mkMini {
  ms_events : list ServerEvent; ms_inbox : gmap (Z * Z) (list bytes); ms_clients : gset Z;
  ms_sent : list (Z * Z * bytes) }.

Definition mini_inbox (s : mini_server) (c ch : Z) : list bytes := default [] (ms_inbox s !! (c, ch)).

#[export] Instance mini_renet : RenetServer mini_server := {|
  rn_new _ := mkMini [] ∅ ∅ [];
  rn_update s _ := s;
  rn_get_event s := match ms_events s with
                    | [] => (None, s)
                    | e :: es => (Some e, mkMini es (ms_inbox s) (ms_clients s) (ms_sent s))
                    end;
  rn_is_connected s c := bool_decide (c ∈ ms_clients s);
  rn_send_message s c ch d := mkMini (ms_events s) (ms_inbox s) (ms_clients s) (ms_sent s ++ [(c, ch, d)]);
  rn_broadcast_message s ch d := s;
  rn_clients_id s := elements (ms_clients s);
  rn_receive_message s c ch :=
    match mini_inbox s c ch with
    | [] => (None, s)
    | m :: ms => (Some m, mkMini (ms_events s) (<[(c, ch) := ms]> (ms_inbox s)) (ms_clients s) (ms_sent s))
    end;
  rn_connected_clients s := Z.of_nat (size (ms_clients s));
  rn_disconnect s c := mkMini (ms_events s) (ms_inbox s) (ms_clients s ∖ {[c]}) (ms_sent s) |}.

#[export] Instance mini_laws : RenetLaws mini_server.
Proof.
  refine {| rn_events := ms_events; rn_inbox := mini_inbox |}.
  - intros s H. cbn. by rewrite H.
  - intros s e es H. cbn. rewrite H. by eexists.
  - done.
  - intros s c c'. cbn. rewrite !elem_of_elements. set_solver.
  - done.
  - intros s c ch H. cbn. by rewrite H.
  - intros s c ch m ms H. cbn. rewrite H. eexists. split; [done|]. unfold mini_inbox. cbn. split.
    + by rewrite lookup_insert_eq.
    + intros c' ch' Hne. by rewrite lookup_insert_ne by congruence.
  - intros s. exact (NoDup_elements (ms_clients s)).
Defined.

(** The network as the arrivals of successive updates: events and messages. *)
Definition mini_net : Type := list (list ServerEvent * list (Z * Z * bytes)).

Definition deliver (s : mini_server) (m : Z * Z * bytes) : mini_server :=
  let '(c, ch, d) := m in
  mkMini (ms_events s) (<[(c, ch) := mini_inbox s c ch ++ [d]]> (ms_inbox s)) (ms_clients s) (ms_sent s).
Definition arrive (s : mini_server) (a : list ServerEvent * list (Z * Z * bytes)) : mini_server :=
  let clients := foldl (fun cs e => match e with EvConnected c => {[c]} ∪ cs | EvDisconnected c => cs ∖ {[c]} end)
                   (ms_clients s) a.1 in
  foldl deliver (mkMini (ms_events s ++ a.1) (ms_inbox s) clients (ms_sent s)) a.2.

#[export] Instance mini_netcode : NetcodeTransport mini_server mini_net := {|
  Socket := mini_net;
  sk_new _ := Ok []; sk_set_reuse_address s _ := Ok s; sk_set_recv_buffer_size s _ := Ok s;
  sk_set_send_buffer_size s _ := Ok s; sk_set_nonblocking s _ := Ok s; sk_bind s _ := Ok s;
  sk_local_addr s := Ok (mkSocketAddr (V4 127 0 0 1) 5000);
  nc_new _ s := Ok s;
  nc_update n _ s := match n with [] => (Ok (), [], s) | a :: n => (Ok (), n, arrive s a) end;
  nc_send_packets n s := (n, s);
  nc_client_addr _ c := Some (mkSocketAddr (V4 10 0 0 1) (1000 + c)) |}.

#[export] Instance mini_wire : WireProtocol := {|
  MAX_SAFE_PAYLOAD_SIZE := 4; MAX_FRAGMENT_PAYLOAD_SIZE := 2; PROTOCOL_VERSION := "1";
  CARGO_PKG_VERSION := "1"; into_network_event e c := Disconnected c |}.

(** One connection per second; the clock stands still. *)
Definition one_per_second : RenetServerConfig := mkRenetConfig 0 10 Unsecure 1 4 1024.
Definition fresh : RenetTransport mini_server mini_net :=
  match new_server (mkSocketAddr (V4 0 0 0 0) 5000) (Some one_per_second) (mkClock (fun _ => 0) 0) with
  | Ok t => set_transport t
      [([EvConnected 1; EvConnected 2], [(1, 0, [Byte.x01]); (1, 1, repeat Byte.x00 5); (1, 1, [Byte.x02])]);
       ([EvDisconnected 2], [])]
  | Err _ => mkRenet (mutex_new (rn_new (mkConnectionConfig []))) (mutex_new []) (mutex_new 0)
      (mkSocketAddr (V4 0 0 0 0) 0) (mutex_new (ip_limiter_new d1)) 0 (mutex_new 0) (mutex_new ∅)
      (mkClock (fun _ => 0) 0)
  end.

Lemma fresh_ok : unpoisoned fresh.
Proof. split; reflexivity. Qed.

(** The events a poll reports and the transport it leaves. *)
Abbreviation polled := (exec (result (list NetworkEvent) TransportError * RenetTransport mini_server mini_net)).
Definition reported (r : polled) : list NetworkEvent := default [] (ok_of (get_ret (Ok [], fresh) r).1).
Definition left_by (r : polled) : RenetTransport mini_server mini_net := (get_ret (Ok [], fresh) r).2.

(** Two polls: the second client is over the rate, so neither its connect nor its disconnect is
    reported, and the message of five bytes is dropped. *)
Definition evs1 := reported (renet_poll_events 10 fresh).
Definition t1 := left_by (renet_poll_events 10 fresh).
Definition evs2 := reported (renet_poll_events 10 t1).
Definition t2 := left_by (renet_poll_events 10 t1).

Example first_poll_reports :
  evs1 = [ClientConnected (mkCid 1); UnreliableMessage (mkCid 1) [Byte.x01]; ReliableMessage (mkCid 1) [Byte.x02]].
Proof. vm_compute. reflexivity. Qed.

Lemma poll_step fuel t raw :
  is_ret (renet_poll_events fuel t) = true -> is_ok (get_ret (Ok [], fresh) (renet_poll_events fuel t)).1 = true ->
  rn_events (polled_server t) = raw ->
  renet_step t raw (reported (renet_poll_events fuel t)) (left_by (renet_poll_events fuel t)).
Proof.
  intros Hr Hok <-. apply (rs_poll fuel). rewrite (get_ret_eq (Ok [], fresh) _ Hr) at 1. unfold reported, left_by.
  destruct (get_ret (Ok [], fresh) (renet_poll_events fuel t)) as [[e|] t']; done.
Qed.

Lemma first_step : renet_step fresh [EvConnected 1; EvConnected 2] evs1 t1.
Proof. apply poll_step; vm_compute; reflexivity. Qed.
Lemma second_step : renet_step t1 [EvDisconnected 2] evs2 t2.
Proof. apply poll_step; vm_compute; reflexivity. Qed.



Lemma connection_burst_witness :
  (burst 7 (ip_limiter_new (d_of_Z 5)) (V4 10 0 0 1) 3).1 = [true; true; true; true; true; false; false].
Proof.
  destruct (connection_burst 5 (ip_limiter_new (d_of_Z 5)) (V4 10 0 0 1) 3 7) as [H _].
  - lia.
  - reflexivity.
  - reflexivity.
  - exact H.
Defined.

Lemma renet_send_spec_witness :
  renet_send CHANNEL_RELIABLE fresh (mkCid 1) (repeat Byte.x00 5) = (Err (PayloadTooLarge 5 4), fresh).
Proof.
  destruct (renet_send_spec CHANNEL_RELIABLE fresh (mkCid 1) (repeat Byte.x00 5) eq_refl) as [H _].
  apply H. reflexivity.
Defined.

End RenetWitness.
