(* ===== verification/Stress.v ===== *)
(** * The load generator ([aetheris-stress/src/main.rs])

    A number of bots log in, connect over Renet, start a session and send a movement in every turn
    of a loop of 60 turns a second, until the time is up; their statistics are collected into a
    summary.  The clients of the libraries (gRPC, renet, netcode) and the encoding of messages are
    classes; a bot also keeps the history of what it has handed to the renet client, which the
    theorems are about. *)

From stdpp Require Import gmap strings list pretty.
From Stdlib Require Import ZArith Lia.
From S2P Require Import Prelude F32 F64 Text Protocol Components Tick Renet.

Open Scope Z_scope.

(** ** Statistics *)
Record BotStats := mkStats {
  bs_id : Z; bs_authenticated : bool; bs_connected : bool; bs_possessed : bool;
  bs_time_to_auth : option Z; bs_time_to_possession : option Z; bs_inputs_sent : Z;
  bs_rtt_samples : list f64; bs_packet_loss_samples : list f64; bs_error : option string }.

(** [BotStats { _id: id, ..Default::default() }]. *)
Definition stats_new (id : Z) : BotStats := mkStats id false false false None None 0 [] [] None.

Definition set_authenticated (s : BotStats) (t : Z) : BotStats :=
  mkStats (bs_id s) true (bs_connected s) (bs_possessed s) (Some t) (bs_time_to_possession s)
    (bs_inputs_sent s) (bs_rtt_samples s) (bs_packet_loss_samples s) (bs_error s).
Definition set_connected (s : BotStats) : BotStats :=
  mkStats (bs_id s) (bs_authenticated s) true (bs_possessed s) (bs_time_to_auth s)
    (bs_time_to_possession s) (bs_inputs_sent s) (bs_rtt_samples s) (bs_packet_loss_samples s) (bs_error s).
Definition set_possessed (s : BotStats) (t : Z) : BotStats :=
  mkStats (bs_id s) (bs_authenticated s) (bs_connected s) true (bs_time_to_auth s) (Some t)
    (bs_inputs_sent s) (bs_rtt_samples s) (bs_packet_loss_samples s) (bs_error s).
Definition set_inputs_sent (s : BotStats) (n : Z) : BotStats :=
  mkStats (bs_id s) (bs_authenticated s) (bs_connected s) (bs_possessed s) (bs_time_to_auth s)
    (bs_time_to_possession s) n (bs_rtt_samples s) (bs_packet_loss_samples s) (bs_error s).
Definition push_samples (s : BotStats) (rtt loss : f64) : BotStats :=
  mkStats (bs_id s) (bs_authenticated s) (bs_connected s) (bs_possessed s) (bs_time_to_auth s)
    (bs_time_to_possession s) (bs_inputs_sent s) (bs_rtt_samples s ++ [rtt])
    (bs_packet_loss_samples s ++ [loss]) (bs_error s).
Definition set_error (s : BotStats) (e : string) : BotStats :=
  mkStats (bs_id s) (bs_authenticated s) (bs_connected s) (bs_possessed s) (bs_time_to_auth s)
    (bs_time_to_possession s) (bs_inputs_sent s) (bs_rtt_samples s) (bs_packet_loss_samples s) (Some e).

(** ** The summary *)

(** A stable sort by a test of order. *)
Fixpoint insert_by {A} (le : A -> A -> bool) (a : A) (l : list A) : list A :=
  match l with
  | [] => [a]
  | b :: l' => if le a b then a :: l else b :: insert_by le a l'
  end.
Definition sort_by {A} (le : A -> A -> bool) (l : list A) : list A := foldr (insert_by le) [] l.

(** [sorted.sort_by(|a, b| a.partial_cmp(b).unwrap())]: sorting two or more elements compares each
    of them, and a comparison with a NaN panics. *)
Definition sort_samples (samples : list f64) : exec (list f64) :=
  if (2 <=? length samples)%nat && existsb d_is_nan samples then Panic
  else Ret (sort_by d_le samples).

(** [(sorted.len() as f64 * 0.99) as usize]. *)
Definition p99_index (n : nat) : Z := d_as_u64 (d_of_Z (Z.of_nat n) * d_lit 99 2)%d.

(** [calculate_p99]. *)
Definition calculate_p99 (samples : list f64) : exec f64 :=
  match samples with
  | [] => Ret d0
  | _ =>
      sorted ← sort_samples samples;
      let index := p99_index (length sorted) in
      unwrap (sorted !! Z.to_nat (Z.min index (Z.of_nat (length sorted) - 1)))
  end.

(** [calculate_avg]; [Iterator::sum] starts from negative zero. *)
Definition calculate_avg (samples : list f64) : f64 :=
  match samples with
  | [] => d0
  | _ => (foldl d_add (SpecFloat.S754_zero true) samples / d_of_Z (Z.of_nat (length samples)))%d
  end.

(** The numbers of the printed summary. *)
Record Summary := mkSummary {
  su_total : Z; su_authenticated : Z; su_connected : Z; su_possessed : Z;
  su_total_inputs : Z; su_avg_inputs : Z; su_inputs_per_sec : f64;
  su_auth_rate : f64; su_connect_rate : f64; su_possess_rate : f64;
  su_auth_time : f64 * f64; su_possess_time : f64 * f64; su_rtt : f64 * f64; su_loss : f64 * f64;
  su_errors : list (string * Z) }.

(** The iteration of a [HashMap] of counts. *)
Class CountOrder : Type := { cm_iter : gmap string Z -> list (string * Z) }.

(** [d.as_secs_f64() * 1000.0] of the durations that were measured. *)
Definition millis (t : option Z) : option f64 := (fun d => (as_secs_f64 d * d_of_Z 1000)%d) <$> t.

(** [(n as f64 / total.max(1) as f64) * 100.0]. *)
Definition rate (n total : Z) : f64 := (d_of_Z n / d_of_Z (Z.max total 1) * d_of_Z 100)%d.

(** The average and the 99th percentile. *)
Definition avg_p99 (samples : list f64) : exec (f64 * f64) :=
  p ← calculate_p99 samples; Ret (calculate_avg samples, p).

(** [*error_counts.entry(err).or_insert(0) += 1]. *)
Definition count_error (m : gmap string Z) (e : string) : gmap string Z :=
  <[e := default 0 (m !! e) + 1]> m.

(** The five most frequent errors. *)
Definition top_errors `{!CountOrder} (errors : list string) : list (string * Z) :=
  take 5 (sort_by (fun a b => b.2 <=? a.2) (cm_iter (foldl count_error ∅ errors))).

(** [print_summary], without the layout. *)
Definition print_summary `{!CountOrder} (stats : list BotStats) (duration : Z) : exec Summary :=
  let total := Z.of_nat (length stats) in
  let authenticated := count_if bs_authenticated stats in
  let connected := count_if bs_connected stats in
  let possessed := count_if bs_possessed stats in
  total_inputs ← for_each (fun sum s => chk_add 64 sum (bs_inputs_sent s)) 0 stats;
  let avg_inputs := if 0 <? total then total_inputs / total else 0 in
  let inputs_per_sec := if 0 <? duration then (d_of_Z total_inputs / d_of_Z duration)%d else d0 in
  let auth_times := omap (fun s => millis (bs_time_to_auth s)) stats in
  let possession_times := omap (fun s => millis (bs_time_to_possession s)) stats in
  let all_rtt := stats ≫= bs_rtt_samples in
  let all_loss := stats ≫= bs_packet_loss_samples in
  auth ← avg_p99 auth_times;
  possess ← avg_p99 possession_times;
  rtt ← avg_p99 all_rtt;
  loss ← avg_p99 all_loss;
  let errors := omap bs_error stats in
  Ret (mkSummary total authenticated connected possessed total_inputs avg_inputs inputs_per_sec
         (rate authenticated total) (rate connected total) (rate possessed total) auth possess rtt
         ((loss.1 * d_of_Z 100)%d, (loss.2 * d_of_Z 100)%d) (top_errors errors)).

(** ** A bot *)

(** The client side of renet and netcode; [nt_new] binds a socket and starts the handshake. *)
Class RenetClient (Cl : Type) : Type := {
  cl_new : list ChannelConfig -> Cl;
  cl_update : Cl -> Z -> Cl;
  cl_is_connected : Cl -> bool;
  cl_send_message : Cl -> Z -> bytes -> Cl;
  cl_receive_message : Cl -> Z -> option bytes * Cl;
  cl_network_info : Cl -> f64 * f64;
}.
Class NetcodeClient (Cl Nt : Type) : Type := {
  nt_new : Z -> Z -> SocketAddr -> result Nt string;
  nt_update : Nt -> Z -> Cl -> result unit string * Nt * Cl;
  nt_send_packets : Nt -> Cl -> result unit string * Nt * Cl;
}.

(** The gRPC client of the authentication service.  Its calls are awaited without a timeout: one
    that is never answered is [Diverge]. *)
Class AuthClient (G : Type) : Type := {
  ac_connect : string -> exec (result G string);
  ac_request_otp : G -> string -> exec (result string string * G);
  ac_login : G -> string -> string -> string -> string -> exec (result string string * G);
}.

(** [rmp_serde::to_vec] of a command, [Encoder::encode] of its event into a buffer of the given
    length, and the text of an encoding error. *)
Class BotWire : Type := {
  rmp_input : InputCommand -> result bytes string;
  encode_replication : ReplicationEvent -> Z -> result bytes string;
  show_encode_error : EncodeError -> string;
}.

Record Bot (Cl Nt : Type) := mkBot {
  b_client : Cl; b_transport : Nt; b_clock : Clock; b_draws : nat;
  b_last_log : Z; b_inputs_sent : Z; b_current_tick : Z; b_possessed_id : option NetworkId;
  b_auth_sent : bool; b_last_stats_sample : Z; b_stats : BotStats;
  b_sent : list (Z * bytes) }.
Arguments mkBot {Cl Nt}.
Arguments b_client {Cl Nt}.
Arguments b_transport {Cl Nt}.
Arguments b_clock {Cl Nt}.
Arguments b_draws {Cl Nt}.
Arguments b_last_log {Cl Nt}.
Arguments b_inputs_sent {Cl Nt}.
Arguments b_current_tick {Cl Nt}.
Arguments b_possessed_id {Cl Nt}.
Arguments b_auth_sent {Cl Nt}.
Arguments b_last_stats_sample {Cl Nt}.
Arguments b_stats {Cl Nt}.
Arguments b_sent {Cl Nt}.

Section Bot.
Context {Cl Nt G : Type} `{RC : !RenetClient Cl, NT : !NetcodeClient Cl Nt, AC : !AuthClient G}.
Context `{PC : !ProtocolConsts, EN : !Encoder, BW : !BotWire}.
(** The numbers [rand::random_range(-1.0..1.0)] yields. *)
Context (random : nat -> f32).

Abbreviation bot := (Bot Cl Nt).
Implicit Types b : bot.

Definition set_client b c : bot :=
  mkBot c (b_transport b) (b_clock b) (b_draws b) (b_last_log b) (b_inputs_sent b) (b_current_tick b)
    (b_possessed_id b) (b_auth_sent b) (b_last_stats_sample b) (b_stats b) (b_sent b).
Definition set_link b c t : bot :=
  mkBot c t (b_clock b) (b_draws b) (b_last_log b) (b_inputs_sent b) (b_current_tick b)
    (b_possessed_id b) (b_auth_sent b) (b_last_stats_sample b) (b_stats b) (b_sent b).
Definition set_stats b s : bot :=
  mkBot (b_client b) (b_transport b) (b_clock b) (b_draws b) (b_last_log b) (b_inputs_sent b)
    (b_current_tick b) (b_possessed_id b) (b_auth_sent b) (b_last_stats_sample b) s (b_sent b).
Definition bot_now b : Z * bot :=
  let '(now, c) := clock_now (b_clock b) in
  (now, mkBot (b_client b) (b_transport b) c (b_draws b) (b_last_log b) (b_inputs_sent b)
          (b_current_tick b) (b_possessed_id b) (b_auth_sent b) (b_last_stats_sample b) (b_stats b) (b_sent b)).
Definition set_possession b nid t : bot :=
  mkBot (b_client b) (b_transport b) (b_clock b) (b_draws b) (b_last_log b) (b_inputs_sent b)
    (b_current_tick b) (Some nid) (b_auth_sent b) (b_last_stats_sample b) (set_possessed (b_stats b) t) (b_sent b).
(** [client.send_message]. *)
Definition bot_send b ch data : bot :=
  mkBot (cl_send_message (b_client b) ch data) (b_transport b) (b_clock b) (b_draws b) (b_last_log b)
    (b_inputs_sent b) (b_current_tick b) (b_possessed_id b) (b_auth_sent b) (b_last_stats_sample b)
    (b_stats b) (b_sent b ++ [(ch, data)]).
Definition set_auth_sent b : bot :=
  mkBot (b_client b) (b_transport b) (b_clock b) (b_draws b) (b_last_log b) (b_inputs_sent b)
    (b_current_tick b) (b_possessed_id b) true (b_last_stats_sample b) (b_stats b) (b_sent b).
Definition draw b : f32 * bot :=
  (random (b_draws b),
   mkBot (b_client b) (b_transport b) (b_clock b) (S (b_draws b)) (b_last_log b) (b_inputs_sent b)
     (b_current_tick b) (b_possessed_id b) (b_auth_sent b) (b_last_stats_sample b) (b_stats b) (b_sent b)).
Definition set_log b now n : bot :=
  mkBot (b_client b) (b_transport b) (b_clock b) (b_draws b) now n (b_current_tick b)
    (b_possessed_id b) (b_auth_sent b) (b_last_stats_sample b) (b_stats b) (b_sent b).
Definition set_sample b now s : bot :=
  mkBot (b_client b) (b_transport b) (b_clock b) (b_draws b) (b_last_log b) (b_inputs_sent b)
    (b_current_tick b) (b_possessed_id b) (b_auth_sent b) now s (b_sent b).
Definition bot_set_tick b t : bot :=
  mkBot (b_client b) (b_transport b) (b_clock b) (b_draws b) (b_last_log b) (b_inputs_sent b) t
    (b_possessed_id b) (b_auth_sent b) (b_last_stats_sample b) (b_stats b) (b_sent b).

(** [Duration::from_secs_f64(1.0 / 60.0)], to the nanosecond. *)
Definition LOOP_DURATION : Z := 16666667.

(** What a step of the loop returns: [?] ends the bot with an error. *)
Abbreviation outcome := (result unit string * bot)%type.

(** [?] in a step. *)
Definition and_then (r : outcome) (k : bot -> outcome) : outcome :=
  match r with (Ok _, b) => k b | (Err e, b) => (Err e, b) end.

(** [encoder.encode_event(&event)?] and [client.send_message(CHANNEL_RELIABLE, data)]. *)
Definition send_event b (e : NetworkEvent) : outcome :=
  match encode_event e with
  | Ok data => (Ok (), bot_send b CHANNEL_RELIABLE data)
  | Err err => (Err (show_encode_error err), b)
  end.

(** The first turn with a connection: [Auth] and [StartSession]. *)
Definition greet (session_token : string) b : outcome :=
  if b_auth_sent b then (Ok (), b)
  else and_then (send_event b (Auth session_token)) (fun b =>
       and_then (send_event b (StartSession (mkCid 0))) (fun b => (Ok (), set_auth_sent b))).

(** [while let Some(data) = client.receive_message(CHANNEL_RELIABLE)]. *)
Fixpoint receive_loop (fuel : nat) (start_time : Z) b : exec bot :=
  match fuel with
  | O => Diverge
  | S fuel =>
      match cl_receive_message (b_client b) CHANNEL_RELIABLE with
      | (None, c) => Ret (set_client b c)
      | (Some data, c) =>
          let b := set_client b c in
          receive_loop fuel start_time
            (match decode_event data with
             | Ok (NPlatformEvent _ (Possession network_id)) =>
                 let '(now, b) := bot_now b in
                 set_possession b network_id (duration_since now start_time)
             | _ => b
             end)
      end
  end.

(** The command of a turn. *)
Definition bot_input (tick : Z) (move_x move_y : f32) : InputCommand :=
  mkInputCommand tick [Move move_x move_y] 0 None.

(** The movement of a bot that possesses an entity. *)
Definition send_input b : exec outcome :=
  match b_possessed_id b with
  | None => Ret (Ok (), b)
  | Some nid =>
      let '(move_x, b) := draw b in
      let '(move_y, b) := draw b in
      match rmp_input (bot_input (b_current_tick b) move_x move_y) with
      | Err e => Ret (Err e, b)
      | Ok payload =>
          match encode_replication (mkReplicationEvent nid INPUT_COMMAND_KIND payload (b_current_tick b)) max_encoded_size with
          | Err e => Ret (Err e, b)
          | Ok data =>
              let b := bot_send b CHANNEL_UNRELIABLE data in
              n ← chk_add 31 (b_inputs_sent b) 1;
              m ← chk_add 64 (bs_inputs_sent (b_stats b)) 1;
              Ret (Ok (), set_stats (set_log b (b_last_log b) n) (set_inputs_sent (b_stats b) m))
          end
      end
  end.

(** What a connected bot does. *)
Definition connected_turn (fuel : nat) (start_time : Z) (session_token : string) b : exec outcome :=
  let b := set_stats b (set_connected (b_stats b)) in
  match greet session_token b with
  | (Err e, b) => Ret (Err e, b)
  | (Ok _, b) => b ← receive_loop fuel start_time b; send_input b
  end.

(** The samples of a second and the log of ten. *)
Definition sample b (now : Z) : bot :=
  if SECOND <=? duration_since now (b_last_stats_sample b) then
    let '(rtt, loss) := cl_network_info (b_client b) in
    set_sample b now (push_samples (b_stats b) rtt loss)
  else b.
Definition log_turn b (now : Z) : bot :=
  if 10 * SECOND <=? duration_since now (b_last_log b) then set_log b now 0 else b.

(** One turn of the loop, after the time has been checked. *)
Definition turn (fuel : nat) (start_time : Z) (session_token : string) b : exec outcome :=
  let '(now, b) := bot_now b in
  match nt_update (b_transport b) LOOP_DURATION (b_client b) with
  | (Err _, t, c) => Ret (Err "Transport update failed", set_link b c t)
  | (Ok _, t, c) =>
      let b := set_link b (cl_update c LOOP_DURATION) t in
      '(r, b) ← (if cl_is_connected (b_client b)
                 then connected_turn fuel start_time session_token b else Ret (Ok (), b));
      match r with
      | Err e => Ret (Err e, b)
      | Ok _ =>
          match nt_send_packets (b_transport b) (b_client b) with
          | (Err _, t, c) => Ret (Err "Transport send failed", set_link b c t)
          | (Ok _, t, c) =>
              let b := log_turn (sample (set_link b c t) now) now in
              tick ← chk_add 64 (b_current_tick b) 1;
              Ret (Ok (), bot_set_tick b tick)
          end
      end
  end.

(** The loop; [duration_secs] of zero means forever. *)
Fixpoint bot_loop (fuel : nat) (duration_secs test_start_time start_time : Z) (session_token : string) b :
    exec outcome :=
  match fuel with
  | O => Diverge
  | S fuel' =>
      let '(stop, b) :=
        if 0 <? duration_secs then
          let '(now, b) := bot_now b in
          (duration_secs <=? duration_since now test_start_time / SECOND, b)
        else (false, b) in
      if stop : bool then Ret (Ok (), b)
      else
        '(r, b) ← turn fuel start_time session_token b;
        match r with
        | Err e => Ret (Err e, b)
        | Ok _ => bot_loop fuel' duration_secs test_start_time start_time session_token b
        end
  end.

(** [format!("bot_{:02}@aetheris.dev", id)]. *)
Definition username (id : Z) : string :=
  "bot_" +:+ (if id <? 10 then "0" else "") +:+ pretty (Z.to_N id) +:+ "@aetheris.dev".

(** The channels of the bot's connection. *)
Definition client_channels : list ChannelConfig :=
  [mkChannel CHANNEL_UNRELIABLE (1024 * 1024) Unreliable;
   mkChannel CHANNEL_RELIABLE (1024 * 1024) (ReliableOrdered (300 * 1000000))].

(** The login: the address of the account, then the code the server's bypass accepts. *)
Definition bot_login (id : Z) (auth_host : string) : exec (result string string) :=
  connected ← ac_connect auth_host;
  match connected with
  | Err e => Ret (Err e)
  | Ok g =>
      '(otp, g) ← ac_request_otp g (username id);
      match otp with
      | Err e => Ret (Err e)
      | Ok request_id =>
          '(r, _) ← ac_login g request_id "000001" "stress-test" "linux-bot";
          Ret r
      end
  end.

(** The bot before its first turn; its four instants are read in this order. *)
Definition bot_new (transport : Nt) (clock : Clock) (stats : BotStats) : Z * bot :=
  let '(last_log, clock) := clock_now clock in
  let '(last_stats_sample, clock) := clock_now clock in
  let '(test_start_time, clock) := clock_now clock in
  (test_start_time,
   mkBot (cl_new client_channels) transport clock 0 last_log 0 0 None false last_stats_sample stats []).

(** [run_bot_inner], with the statistics it leaves. *)
Definition run_bot_inner (fuel : nat) (id : Z) (auth_host game_host : string) (protocol_id duration_secs : Z)
    (clock : Clock) (stats : BotStats) : exec (result unit string * BotStats) :=
  let '(start_time, clock) := clock_now clock in
  login ← bot_login id auth_host;
  match login with
  | Err e => Ret (Err e, stats)
  | Ok session_token =>
      let '(now, clock) := clock_now clock in
      let stats := set_authenticated stats (duration_since now start_time) in
      match parse_socket_addr (lit game_host) with
      | None => Ret (Err "invalid socket address syntax", stats)
      | Some server_addr =>
          match nt_new protocol_id id server_addr with
          | Err e => Ret (Err e, stats)
          | Ok transport =>
              let '(test_start_time, b) := bot_new transport clock stats in
              '(r, b) ← bot_loop fuel duration_secs test_start_time start_time session_token b;
              Ret (r, b_stats b)
          end
      end
  end.

(** [run_bot]. *)
Definition run_bot (fuel : nat) (id : Z) (auth_host game_host : string) (protocol_id duration_secs : Z)
    (clock : Clock) : exec BotStats :=
  '(r, stats) ← run_bot_inner fuel id auth_host game_host protocol_id duration_secs clock (stats_new id);
  Ret (match r with Ok _ => stats | Err e => set_error stats e end).

End Bot.

(** [handle.await]: a bot that panicked is left out, and one that never ends is waited for. *)
Definition await_bot (all_stats : list BotStats) (bot : exec BotStats) : exec (list BotStats) :=
  match bot with
  | Ret stats => Ret (all_stats ++ [stats])
  | Panic => Ret all_stats
  | Diverge => Diverge
  end.

(** [main]: the bots run beside each other and are awaited one after the other. *)
Definition stress_main `{!CountOrder} (bots : list (exec BotStats)) (duration : Z) : exec Summary :=
  all_stats ← for_each await_bot [] bots;
  print_summary all_stats duration.
