(* ===== verification/StressProps.v ===== *)
(** * What the load generator guarantees

    The percentile of the summary is a sample of the right rank, a bot speaks the protocol the
    server expects, and a bot with a time limit comes to an end with statistics. *)

From stdpp Require Import gmap strings list pretty sorting.
From Stdlib Require Import ZArith Lia.
From S2P Require Import Prelude F32 F64 Text Protocol Components Tick Renet Stress.

Open Scope Z_scope.

#[local] Arguments count_if : simpl never.

(** ** Sorting *)
Section Sorting.
Context {A : Type} (le : A -> A -> bool) (P : A -> Prop).
Hypothesis le_total : forall a b, P a -> P b -> le a b = true \/ le b a = true.
Hypothesis le_trans : forall a b c, P a -> P b -> P c -> le a b = true -> le b c = true -> le a c = true.

Lemma insert_by_perm a l : insert_by le a l ≡ₚ a :: l.
Proof.
  induction l as [|b l IH]; [done|]. cbn. destruct (le a b); [done|]. rewrite IH. apply perm_swap.
Qed.

Lemma sort_by_perm l : sort_by le l ≡ₚ l.
Proof. induction l as [|a l IH]; [done|]. cbn. by rewrite insert_by_perm, IH. Qed.

Lemma insert_by_sorted a l :
  P a -> Forall P l -> StronglySorted (fun x y => le x y = true) l ->
  StronglySorted (fun x y => le x y = true) (insert_by le a l).
Proof.
  intros Ha Hl Hs. induction Hs as [|b l Hs IH Hb]; cbn; [by repeat constructor|].
  apply Forall_cons in Hl as [Pb Hl]. destruct (le a b) eqn:E.
  - constructor; [by constructor|]. constructor; [done|].
    rewrite Forall_forall in Hb, Hl |- *. intros c Hc. by apply (le_trans a b c); auto.
  - constructor; [by apply IH|]. rewrite (insert_by_perm a l). constructor; [|done].
    destruct (le_total a b) as [H|H]; [done|done| |done]. by rewrite E in H.
Qed.

Lemma sort_by_sorted l : Forall P l -> StronglySorted (fun x y => le x y = true) (sort_by le l).
Proof.
  induction 1 as [|a l Ha Hl IH]; [constructor|].
  change (sort_by le (a :: l)) with (insert_by le a (sort_by le l)). apply insert_by_sorted; [done| |done].
  by rewrite sort_by_perm.
Qed.
End Sorting.

Lemma sorted_split {A} (R : A -> A -> Prop) l1 x l2 :
  StronglySorted R (l1 ++ x :: l2) -> Forall (fun y => R y x) l1 /\ Forall (R x) l2.
Proof.
  induction l1 as [|a l1 IH]; cbn; intros H; inversion H as [|? ? Hs Ha]; subst.
  - done.
  - destruct (IH Hs) as [H1 H2]. split; [|done]. constructor; [|done].
    rewrite Forall_app, Forall_cons in Ha. apply Ha.
Qed.

Lemma count_if_all {A} (f : A -> bool) l : Forall (fun a => f a = true) l -> count_if f l = Z.of_nat (length l).
Proof.
  unfold count_if. induction 1 as [|a l Ha _ IH]; [done|]. rewrite sum_over_cons, IH, Ha. cbn [length]. lia.
Qed.

Lemma count_if_perm {A} (f : A -> bool) l l' : l ≡ₚ l' -> count_if f l = count_if f l'.
Proof. apply sum_over_perm. Qed.

(** ** The percentile *)
Definition no_nan (x : f64) : Prop := d_is_nan x = false.

(** Up to a hundred samples the index is the last. *)
Lemma p99_index_small n : (1 <= n <= 100)%nat -> Z.of_nat n - 1 <= p99_index n.
Proof.
  intros H. assert (forallb (fun n => Z.of_nat n - 1 <=? p99_index n) (seq 1 100) = true) as E
    by (vm_compute; reflexivity).
  rewrite forallb_forall in E. apply Z.leb_le, E, in_seq. lia.
Qed.

Lemma sort_samples_ok samples :
  Forall no_nan samples -> sort_samples samples = Ret (sort_by d_le samples).
Proof.
  intros H. unfold sort_samples. replace (existsb d_is_nan samples) with false; [by rewrite andb_false_r|].
  symmetry. apply not_true_iff_false. intros (x & Hx & Hn)%existsb_exists. rewrite Forall_forall in H.
  apply list_elem_of_In in Hx. specialize (H x Hx). unfold no_nan in H. congruence.
Qed.

(** Of samples without NaN the 99th percentile is a sample; if it is the one of index
    [k] in order, at least [k + 1] samples are at most as large and all but [k] at least as large;
    up to a hundred samples it is the maximum.  A NaN among two or more samples is a panic. *)
Theorem p99_spec samples :
  samples <> [] ->
  (Forall no_nan samples ->
   exists x, calculate_p99 samples = Ret x /\ x ∈ samples /\
     let n := Z.of_nat (length samples) in
     let k := Z.min (p99_index (length samples)) (n - 1) in
     k + 1 <= count_if (fun s => d_le s x) samples /\ n - k <= count_if (fun s => d_le x s) samples /\
     (n <= 100 -> forall s, s ∈ samples -> d_le s x = true)) /\
  ((2 <= length samples)%nat -> ~ Forall no_nan samples -> calculate_p99 samples = Panic).
Proof.
  intros Hne. split.
  - intros Hn. set (n := Z.of_nat (length samples)). set (k := Z.min (p99_index (length samples)) (n - 1)).
    assert (Hn0 : 0 < n) by (destruct samples; cbn in *; [done|lia]).
    assert (Hi : 0 <= p99_index (length samples)) by apply d_as_u64_range.
    assert (Hk : 0 <= k < n) by (unfold k; lia).
    pose proof (sort_by_perm d_le samples) as Hp. pose proof (Permutation_length Hp) as Hlen.
    pose proof (sort_by_sorted d_le no_nan d_le_total d_le_trans samples Hn) as Hs.
    destruct (lookup_lt_is_Some_2 (sort_by d_le samples) (Z.to_nat k)) as [x Hx]; [lia|].
    assert (Hin : x ∈ samples) by (rewrite <- Hp; by eapply list_elem_of_lookup_2).
    assert (Hrefl : d_le x x = true).
    { rewrite Forall_forall in Hn. by destruct (d_le_total x x (Hn x Hin) (Hn x Hin)). }
    pose proof (take_drop_middle _ _ _ Hx) as E. rewrite <- E in Hs. apply sorted_split in Hs as [H1 H2].
    exists x. split; [|split; [done|]].
    + unfold calculate_p99. destruct samples as [|s samples']; [done|]. rewrite sort_samples_ok by done. cbn [mbind exec_bind].
      rewrite Hlen. fold n k. by rewrite Hx.
    + cbv zeta. fold n k. rewrite <- !(count_if_perm _ _ _ Hp), <- E, !count_if_app. unfold count_if at 2 4.
      rewrite !sum_over_cons. cbv beta. rewrite Hrefl.
      change (sum_over (fun a => if d_le a x then 1 else 0)) with (count_if (fun s => d_le s x)).
      change (sum_over (fun a => if d_le x a then 1 else 0)) with (count_if (fun s => d_le x s)).
      pose proof (count_if_all (fun s => d_le s x) _ H1) as C1. pose proof (count_if_all (fun s => d_le x s) _ H2) as C2.
      rewrite length_take in C1. rewrite length_drop in C2.
      pose proof (count_if_nonneg (fun s => d_le s x) (drop (S (Z.to_nat k)) (sort_by d_le samples))).
      pose proof (count_if_nonneg (fun s => d_le x s) (take (Z.to_nat k) (sort_by d_le samples))).
      split; [lia|]. split; [lia|]. intros Hsmall s Hs.
      assert (k = n - 1) as Ek by (pose proof (p99_index_small (length samples)); unfold k; lia).
      rewrite <- Hp, <- E in Hs. apply elem_of_app in Hs as [Hs|Hs]; [rewrite Forall_forall in H1; by apply H1|].
      rewrite drop_ge in Hs by lia. apply list_elem_of_singleton in Hs as ->. done.
  - intros Hl Hnan. unfold calculate_p99. destruct samples as [|s l]; [done|]. unfold sort_samples.
    rewrite (proj2 (Nat.leb_le 2 _) Hl). replace (existsb d_is_nan (s :: l)) with true; [done|]. symmetry.
    apply not_Forall_Exists in Hnan; [|intros x; unfold no_nan; apply _].
    apply Exists_exists in Hnan as (x & Hx & Hn). apply existsb_exists. exists x.
    split; [by apply list_elem_of_In|]. by apply not_false_is_true.
Qed.

(** ** What a bot says *)
Section Bot.
Context {Cl Nt G : Type} `{RC : !RenetClient Cl, NT : !NetcodeClient Cl Nt, AC : !AuthClient G}.
Context `{PC : !ProtocolConsts, EN : !Encoder, BW : !BotWire}.
Context (random : nat -> f32).
Abbreviation bot := (Bot Cl Nt).
Implicit Types b : bot.

(** A message that carries the command of a turn. *)
Definition input_message (tick : Z) (m : Z * bytes) : Prop :=
  m.1 = CHANNEL_UNRELIABLE /\ exists nid x y payload, rmp_input (bot_input tick x y) = Ok payload /\
    encode_replication (mkReplicationEvent nid INPUT_COMMAND_KIND payload tick) max_encoded_size = Ok m.2.

(** The opening: the authentication, then the start of the session, reliably. *)
Definition opening (token : string) (l : list (Z * bytes)) : Prop :=
  exists d1 d2, encode_event (Auth token) = Ok d1 /\ encode_event (StartSession (mkCid 0)) = Ok d2 /\
    l = [(CHANNEL_RELIABLE, d1); (CHANNEL_RELIABLE, d2)].

(** What has been said in the turns before [tick]. *)
Record said (token : string) (tick : Z) b (greeting : list (Z * bytes)) (ticks : list Z) (inputs : list (Z * bytes)) : Prop := {
  said_all : b_sent b = greeting ++ inputs;
  said_opening : if b_auth_sent b then opening token greeting else greeting = [];
  said_inputs : Forall2 input_message ticks inputs;
  said_order : StronglySorted Z.lt ticks;
  said_ticks : Forall (fun t => t < tick) ticks;
  said_count : bs_inputs_sent (b_stats b) = Z.of_nat (length inputs);
  said_possessed : b_possessed_id b = None -> inputs = [] }.
Definition spoken (token : string) (tick : Z) b : Prop :=
  exists greeting ticks inputs, said token tick b greeting ticks inputs /\ (b_auth_sent b = false -> inputs = []).

(** The parts of a bot the history is about. *)
Lemma spoken_ext token tick tick' b b' :
  spoken token tick b -> tick <= tick' -> b_sent b' = b_sent b -> b_auth_sent b' = b_auth_sent b ->
  bs_inputs_sent (b_stats b') = bs_inputs_sent (b_stats b) ->
  (b_possessed_id b' = None -> b_possessed_id b = None) -> spoken token tick' b'.
Proof.
  intros (g & ts & ms & [H1 H2 H3 H4 H5 H6 H7] & H8) Ht E1 E2 E3 E4. exists g, ts, ms.
  split; [|by rewrite E2]. split; try done; rewrite ?E1, ?E2, ?E3; auto.
  eapply Forall_impl; [exact H5|]. cbn. lia.
Qed.

Lemma greet_spoken token tick b u b' :
  greet token b = (Ok u, b') -> spoken token tick b ->
  spoken token tick b' /\ b_auth_sent b' = true /\ b_current_tick b' = b_current_tick b.
Proof.
  unfold greet, send_event. destruct (b_auth_sent b) eqn:E; [intros [= _ <-]; auto|].
  destruct (encode_event (Auth token)) as [d1|] eqn:E1; [|done].
  cbn. destruct (encode_event (StartSession _)) as [d2|] eqn:E2; [|done]. intros [= _ <-] Hs.
  split; [|done]. destruct Hs as (g & ts & ms & [H1 H2 H3 H4 H5 H6 H7] & H8). rewrite E in H2. subst g. cbn in H1.
  specialize (H8 E). rewrite H8 in H1, H3, H6. exists [(CHANNEL_RELIABLE, d1); (CHANNEL_RELIABLE, d2)], ts, []. cbn in H6.
  split; [|done]. split; cbn; try done.
  - by rewrite H1.
  - by exists d1, d2.
Qed.

Lemma receive_spoken fuel start_time token tick b b' :
  receive_loop fuel start_time b = Ret b' -> spoken token tick b -> b_auth_sent b = true ->
  spoken token tick b' /\ b_auth_sent b' = true /\ b_current_tick b' = b_current_tick b.
Proof.
  revert b. induction fuel as [|fuel IH]; intros b; [done|]. cbn.
  destruct (cl_receive_message (b_client b) CHANNEL_RELIABLE) as [[data|] c].
  - intros H Hs Ha. destruct (decode_event data) as [[]|]; try destruct event;
      apply IH in H; try done; by eapply spoken_ext.
  - intros [= <-] Hs Ha. split; [by eapply spoken_ext|done].
Qed.

Lemma send_input_spoken token b u b' :
  send_input random b = Ret (Ok u, b') -> spoken token (b_current_tick b) b -> b_auth_sent b = true ->
  spoken token (b_current_tick b + 1) b' /\ b_current_tick b' = b_current_tick b.
Proof.
  unfold send_input. destruct (b_possessed_id b) as [nid|] eqn:Ep.
  2: { intros [= _ <-] Hs _. split; [|done]. eapply spoken_ext; eauto. lia. }
  cbn. destruct (rmp_input _) as [payload|] eqn:E1; [|done].
  destruct (encode_replication _ _) as [data|] eqn:E2; [|done].
  intros H Hs Ha. apply bind_Ret_inv in H as (n & _ & H). apply bind_Ret_inv in H as (m & Hm & H).
  injection H as _ <-. split; [|done]. unfold chk_add in Hm. case_match; [|done]. injection Hm as <-.
  destruct Hs as (g & ts & ms & [H1 H2 H3 H4 H5 H6 H7] & H8). rewrite Ha in H2.
  exists g, (ts ++ [b_current_tick b]), (ms ++ [(CHANNEL_UNRELIABLE, data)]).
  split; [|cbn; by rewrite Ha]. split; cbn.
  - by rewrite H1, app_assoc.
  - by rewrite Ha.
  - apply Forall2_app; [done|]. constructor; [|done]. split; [done|]. eauto 10.
  - apply StronglySorted_app. split; [|split; [done | by repeat constructor]].
    intros x y Hx ->%list_elem_of_singleton. rewrite Forall_forall in H5. by apply H5.
  - apply Forall_app. split; [|constructor; [lia|done]]. eapply Forall_impl; [exact H5|]. cbn. lia.
  - rewrite H6, length_app. cbn. lia.
  - by rewrite Ep.
Qed.

Lemma connected_spoken fuel start_time token b u b' :
  connected_turn random fuel start_time token b = Ret (Ok u, b') -> spoken token (b_current_tick b) b ->
  spoken token (b_current_tick b + 1) b' /\ b_current_tick b' = b_current_tick b.
Proof.
  unfold connected_turn. destruct (greet token _) as [[?|?] b1] eqn:Eg; [|done]. intros H Hs.
  apply bind_Ret_inv in H as (b2 & Hr & H).
  apply (greet_spoken _ (b_current_tick b)) in Eg as (S1 & A1 & T1); [|by eapply spoken_ext].
  apply (receive_spoken _ _ token (b_current_tick b)) in Hr as (S2 & A2 & T2); [|done..].
  cbn in T1. assert (Et : b_current_tick b2 = b_current_tick b) by congruence.
  apply (send_input_spoken token) in H as [S3 T3]; [|by rewrite Et|done]. rewrite Et in S3, T3. done.
Qed.

Lemma turn_spoken fuel start_time token b u b' :
  turn random fuel start_time token b = Ret (Ok u, b') -> spoken token (b_current_tick b) b ->
  spoken token (b_current_tick b') b' /\ b_current_tick b' = b_current_tick b + 1.
Proof.
  unfold turn. cbn. destruct (nt_update _ _ _) as [[[?|?] t] c]; [|done]. intros H Hs.
  apply bind_Ret_inv in H as ([r b1] & Hc & H). destruct r as [?|?]; [|done].
  destruct (nt_send_packets _ _) as [[[?|?] t1] c1]; [|done]. apply bind_Ret_inv in H as (tick & Ht & H).
  injection H as _ <-.
  assert (spoken token (b_current_tick b + 1) b1 /\ b_current_tick b1 = b_current_tick b) as [S1 T1].
  { destruct (cl_is_connected _).
    - apply (connected_spoken _ _ token) in Hc; [done|]. by eapply spoken_ext.
    - injection Hc as _ <-. split; [|done]. eapply spoken_ext; eauto. lia. }
  assert (E : forall now, let b2 := log_turn (sample (set_link b1 c1 t1) now) now in
    b_current_tick b2 = b_current_tick b1 /\ b_sent b2 = b_sent b1 /\ b_auth_sent b2 = b_auth_sent b1 /\
    bs_inputs_sent (b_stats b2) = bs_inputs_sent (b_stats b1) /\ b_possessed_id b2 = b_possessed_id b1).
  { intros now. unfold log_turn, sample. cbn. by repeat case_match. }
  destruct (E (ck_at (b_clock b) (ck_reads (b_clock b)))) as (Q1 & Q2 & Q3 & Q4 & Q5). clear E.
  unfold chk_add in Ht. case_match; [|done]. injection Ht as <-. cbn. split; [|congruence].
  eapply spoken_ext; [exact S1| | | | |]; cbn; [lia|done|done|done|by rewrite Q5].
Qed.

Lemma loop_spoken fuel d t0 start_time token b u b' :
  bot_loop random fuel d t0 start_time token b = Ret (Ok u, b') -> spoken token (b_current_tick b) b ->
  spoken token (b_current_tick b') b'.
Proof.
  revert b. induction fuel as [|fuel IH]; intros b; [done|]. cbn. intros H Hs.
  assert (exists stop b1, (let '(stop, b0) := if 0 <? d then
      let '(now, b0) := bot_now b in (d <=? duration_since now t0 / SECOND, b0) else (false, b) in (stop, b0)) = (stop, b1) /\
      spoken token (b_current_tick b1) b1) as (stop & b1 & E & S1).
  { destruct (0 <? d); cbn; eexists _, _; split; try done. by eapply spoken_ext. }
  destruct (if 0 <? d then _ else _) as [stop' b2]. injection E as -> ->. destruct stop; [by injection H as _ <-|].
  apply bind_Ret_inv in H as ([[?|?] b3] & Ht & H); [|done]. apply IH in H; [done|]. by eapply turn_spoken in Ht as [? _].
Qed.

(** A bot that runs to its end says, reliably and once, [Auth] with its token and
    then [StartSession], both before anything else; all else it says are the movements of turns in
    which it possesses an entity, one per turn with the number of the turn, in order; and the
    number of movements in its statistics is the number it has sent. *)
Theorem bot_speaks_protocol fuel d start_time token transport clock stats u b :
  bs_inputs_sent stats = 0 ->
  bot_loop random fuel d (bot_new (Cl := Cl) transport clock stats).1 start_time token (bot_new transport clock stats).2
    = Ret (Ok u, b) ->
  exists greeting ticks inputs,
    b_sent b = greeting ++ inputs /\
    (if b_auth_sent b then opening token greeting else greeting = [] /\ inputs = []) /\
    Forall2 input_message ticks inputs /\ StronglySorted Z.lt ticks /\ Forall (fun t => t < b_current_tick b) ticks /\
    bs_inputs_sent (b_stats b) = Z.of_nat (length inputs) /\ (b_possessed_id b = None -> inputs = []).
Proof.
  intros H0 H. apply loop_spoken in H as (g & ts & ms & [H1 H2 H3 H4 H5 H6 H7] & H8).
  - exists g, ts, ms. split; [done|]. split; [destruct (b_auth_sent b); auto|]. auto 10.
  - exists [], [], []. split; [|done]. split; cbn; try done. constructor.
Qed.

(** ** A bot comes to an end *)

(** [receive_message] takes from a queue. *)
Class ClientLaws : Type := {
  cl_inbox : Cl -> list bytes;
  receive_nil c : cl_inbox c = [] -> cl_receive_message c CHANNEL_RELIABLE = (None, c);
  receive_cons c m ms : cl_inbox c = m :: ms ->
    exists c', cl_receive_message c CHANNEL_RELIABLE = (Some m, c') /\ cl_inbox c' = ms;
}.
Context {CLAWS : ClientLaws}.

(** The clock has only been read. *)
Definition read_on b b' : Prop :=
  ck_at (b_clock b') = ck_at (b_clock b) /\ (ck_reads (b_clock b) <= ck_reads (b_clock b'))%nat.

(** The counters are within the number of turns, which is within that of the readings. *)
Record counters (extra : Z) b : Prop := {
  co_inputs : 0 <= b_inputs_sent b <= b_current_tick b + extra;
  co_total : 0 <= bs_inputs_sent (b_stats b) <= b_current_tick b + extra;
  co_tick : b_current_tick b <= Z.of_nat (ck_reads (b_clock b)) }.

(** A step that reads the clock at most and leaves the number of the turn. *)
Ltac keeps := split; [split; cbn; [done | lia]|]; split; [split; cbn; lia | done].

Lemma receive_returns start_time extra ms b :
  cl_inbox (b_client b) = ms -> counters extra b ->
  exists b', (forall fuel, (length ms < fuel)%nat -> receive_loop fuel start_time b = Ret b') /\
    read_on b b' /\ counters extra b' /\ b_current_tick b' = b_current_tick b.
Proof.
  revert b. induction ms as [|m ms IH]; intros b Hi [C1 C2 C3].
  - exists b. split; [|keeps]. intros [|fuel] Hf; [cbn in Hf; lia|]. cbn. rewrite receive_nil by done.
    by destruct b.
  - destruct (receive_cons _ _ _ Hi) as (c & Hr & Hc).
    set (b1 := match decode_event m with
               | Ok (NPlatformEvent _ (Possession network_id)) =>
                   let '(now, b) := bot_now (set_client b c) in
                   set_possession b network_id (duration_since now start_time)
               | _ => set_client b c
               end).
    assert (cl_inbox (b_client b1) = ms /\ read_on b b1 /\ counters extra b1 /\ b_current_tick b1 = b_current_tick b)
      as (I1 & R1 & K1 & T1).
    { unfold b1. repeat case_match; cbn in *; simplify_eq; (split; [done|]); keeps. }
    destruct (IH b1 I1 K1) as (b' & Hf & R2 & K2 & T2). exists b'. split.
    + intros [|fuel] Hl; [cbn in Hl; lia|]. cbn. rewrite Hr. apply Hf. cbn in Hl. lia.
    + split; [|split; [done|congruence]]. destruct R1 as [A1 B1], R2 as [A2 B2]. split; [congruence|lia].
Qed.

Lemma send_input_returns b :
  counters 0 b -> b_current_tick b < umax 31 ->
  exists r b', send_input random b = Ret (r, b') /\ read_on b b' /\ counters 1 b' /\ b_current_tick b' = b_current_tick b.
Proof.
  intros [C1 C2 C3] Ht. unfold send_input.
  assert (umax 31 <= umax 64) by (unfold umax; lia).
  destruct (b_possessed_id b) as [nid|]; [|eexists _, b; split; [done|keeps]].
  cbn. destruct (rmp_input _) as [payload|]; [|eexists _, _; split; [done|keeps]].
  destruct (encode_replication _ _) as [data|]; [|eexists _, _; split; [done|keeps]].
  rewrite !chk_add_Ret by lia. cbn. eexists _, _. split; [done|keeps].
Qed.

Lemma greet_returns token extra b :
  counters extra b -> let '(_, b') := greet token b in
  read_on b b' /\ counters extra b' /\ b_current_tick b' = b_current_tick b.
Proof.
  intros [C1 C2 C3]. unfold greet, send_event. by repeat case_match; cbn in *; simplify_eq; keeps.
Qed.

Lemma read_on_trans b1 b2 b3 : read_on b1 b2 -> read_on b2 b3 -> read_on b1 b3.
Proof. intros [A1 B1] [A2 B2]. split; [congruence|lia]. Qed.

Lemma counters_weaken b : counters 0 b -> counters 1 b.
Proof. intros [? ? ?]. split; lia. Qed.

Lemma connected_returns start_time token b :
  counters 0 b -> b_current_tick b < umax 31 ->
  exists n r b', (forall fuel, (n <= fuel)%nat -> connected_turn random fuel start_time token b = Ret (r, b')) /\
    read_on b b' /\ counters 1 b' /\ b_current_tick b' = b_current_tick b.
Proof.
  intros C Ht. unfold connected_turn. set (b0 := set_stats b _).
  assert (C0 : counters 0 b0) by (destruct C; split; cbn; lia).
  pose proof (greet_returns token 0 b0 C0) as Hg. destruct (greet token b0) as [[u|e] b1].
  - destruct Hg as (R1 & C1 & T1).
    destruct (receive_returns start_time 0 _ b1 eq_refl C1) as (b2 & Hr & R2 & C2 & T2).
    destruct (send_input_returns b2 C2) as (r & b3 & Hs & R3 & C3 & T3); [rewrite T2, T1; cbn; lia|].
    exists (S (length (cl_inbox (b_client b1)))), r, b3. split.
    + intros fuel Hf. rewrite Hr by lia. done.
    + split; [by do 2 (eapply read_on_trans; [done|])|]. split; [done|]. rewrite T3, T2, T1. done.
  - destruct Hg as (R1 & C1 & T1). exists O, (Err e), b1.
    split; [done|]. split; [done|]. split; [by apply counters_weaken|done].
Qed.

Lemma turn_returns start_time token b :
  counters 0 b -> b_current_tick b < umax 31 ->
  exists n r b', (forall fuel, (n <= fuel)%nat -> turn random fuel start_time token b = Ret (r, b')) /\
    ck_at (b_clock b') = ck_at (b_clock b) /\ (ck_reads (b_clock b) < ck_reads (b_clock b'))%nat /\
    (is_ok r = true -> counters 0 b').
Proof.
  intros [C1 C2 C3] Ht. unfold turn. cbn. assert (umax 31 < umax 64) by (unfold umax; lia).
  destruct (nt_update _ _ _) as [[[?|?] t] c]; [|exists O; eexists _, _; split; [done|]; cbn; split; [done|split; [lia|done]]].
  set (b0 := set_link _ _ _).
  assert (exists n r b1, (forall fuel, (n <= fuel)%nat -> (if cl_is_connected (cl_update c LOOP_DURATION)
      then connected_turn random fuel start_time token b0 else Ret (Ok (), b0)) = Ret (r, b1)) /\
      read_on b0 b1 /\ counters 1 b1 /\ b_current_tick b1 = b_current_tick b) as (n & r & b1 & Hc & [A1 B1] & [D1 D2 D3] & T1).
  { destruct (cl_is_connected _).
    - apply (connected_returns start_time token b0); [split; cbn; lia|done].
    - exists O, (Ok ()), b0. split; [done|]. keeps. }
  destruct r as [u|e].
  2: { exists n, (Err e), b1. split; [intros fuel Hf; by rewrite Hc|]. cbn in *. split; [done|]. split; [lia|done]. }
  destruct (nt_send_packets (b_transport b1) (b_client b1)) as [[[?|?] t1] c1] eqn:Es.
  2: { exists n; eexists _, _. split; [intros fuel Hf; rewrite Hc by done; cbn; by rewrite Es|]. cbn in *.
       split; [done|]. split; [lia|done]. }
  set (now := ck_at (b_clock b) (ck_reads (b_clock b))).
  set (b2 := log_turn (sample (set_link b1 c1 t1) now) now).
  assert (b_clock b2 = b_clock b1 /\ b_current_tick b2 = b_current_tick b1 /\ 0 <= b_inputs_sent b2 <= b_inputs_sent b1 /\
    bs_inputs_sent (b_stats b2) = bs_inputs_sent (b_stats b1)) as (Q1 & Q2 & Q3 & Q4).
  { unfold b2, log_turn, sample. cbn. repeat case_match; cbn; (split; [done|]); (split; [done|]); split; try done; lia. }
  exists n, (Ok ()), (bot_set_tick b2 (b_current_tick b2 + 1)). split; [|cbn; rewrite Q1, Q2, ?T1].
  - intros fuel Hf. rewrite Hc by done. cbn. rewrite Es. fold now b2. rewrite chk_add_Ret by (rewrite Q2, T1; lia). done.
  - cbn in *. split; [done|]. split; [lia|]. intros _. split; cbn; rewrite ?Q1; lia.
Qed.

(** The run of all bots waits for each of them. *)
Lemma await_diverges bots : Diverge ∈ bots -> forall acc, for_each await_bot acc bots = Diverge.
Proof.
  intros Hin. induction bots as [|bot bots IH]; intros acc; [by apply not_elem_of_nil in Hin|].
  rewrite for_each_cons. apply elem_of_cons in Hin as [<-|Hin]; [done|].
  destruct bot; [apply IH, Hin..|done].
Qed.

Lemma stress_main_waits `{!CountOrder} bots d : Diverge ∈ bots -> stress_main bots d = Diverge.
Proof. intros Hin. unfold stress_main. by rewrite await_diverges. Qed.

(** The loop ends once the readings of the clock are past the deadline. *)
Lemma loop_returns d t0 start_time token (f : nat -> Z) N k b :
  0 < d -> Z.of_nat N <= umax 31 -> (forall m, (N <= m)%nat -> t0 + d * SECOND <= f m) ->
  ck_at (b_clock b) = f -> (N - ck_reads (b_clock b) <= k)%nat -> counters 0 b ->
  exists n r b', forall fuel, (n <= fuel)%nat -> bot_loop random fuel d t0 start_time token b = Ret (r, b').
Proof.
  intros Hd HN Hf. revert b. induction k as [k IH] using lt_wf_ind. intros b Ef Hk C.
  set (now := f (ck_reads (b_clock b))). set (b0 := (bot_now b).2).
  assert (Eb : bot_now b = (now, b0)) by (unfold b0, now; rewrite <- Ef; done).
  destruct (d <=? duration_since now t0 / SECOND) eqn:Es.
  - exists 1%nat, (Ok ()), b0. intros [|fuel] Hl; [lia|]. cbn [bot_loop].
    rewrite (proj2 (Z.ltb_lt 0 d) Hd), Eb. cbn. by rewrite Es.
  - assert (Hlt : (ck_reads (b_clock b) < N)%nat).
    { destruct (decide (N <= ck_reads (b_clock b))%nat) as [Hle|]; [|lia]. exfalso. apply Z.leb_gt in Es.
      specialize (Hf _ Hle). fold now in Hf. unfold duration_since, sat_sub, SECOND in *.
      assert (d <= Z.max 0 (now - t0) / 1000000000) by (apply Z.div_le_lower_bound; lia). lia. }
    destruct C as [C1 C2 C3]. assert (C0 : counters 0 b0) by (split; cbn; lia).
    destruct (turn_returns start_time token b0 C0) as (n1 & r & b1 & Ht & A1 & R1 & K1); [cbn; lia|].
    assert (Hl : forall fuel, (n1 <= S fuel)%nat -> bot_loop random (S fuel) d t0 start_time token b =
      match r with Err e => Ret (Err e, b1) | Ok _ => bot_loop random fuel d t0 start_time token b1 end).
    { intros fuel Hl. cbn [bot_loop]. rewrite (proj2 (Z.ltb_lt 0 d) Hd), Eb. cbn -[turn]. rewrite Es, Ht by done. done. }
    destruct r as [u|e]; [|exists (S n1), (Err e), b1; intros [|fuel] Hn; [lia|]; apply Hl; lia].
    destruct (IH (N - ck_reads (b_clock b1))%nat) with (b := b1) as (n2 & r & b2 & H2);
      [cbn in R1; lia | by rewrite A1, <- Ef | done | by apply K1|].
    exists (S (n1 + n2)), r, b2. intros [|fuel] Hn; [lia|]. rewrite Hl by lia. apply H2. lia.
Qed.

(** C39 (termination): once the authentication server has answered its login, with a token or with
    an error, a bot with a time limit ends with statistics, whatever the game server and the network
    do: if the clock is past the limit after fewer than 2^31 readings, there are statistics that every
    amount of fuel beyond some bound yields.  The limit does not cover the login: when one of its
    calls is never answered, the bot never ends, and neither does the run of all bots. *)
Theorem run_bot_ends id auth_host game_host protocol_id d clock N :
  0 < d -> Z.of_nat N <= umax 31 ->
  (forall m, (N <= m)%nat -> ck_at clock (4 + ck_reads clock) + d * SECOND <= ck_at clock m) ->
  (forall login, bot_login (G := G) id auth_host = Ret login ->
     exists n stats, forall fuel, (n <= fuel)%nat ->
       run_bot (Cl := Cl) (Nt := Nt) (G := G) random fuel id auth_host game_host protocol_id d clock = Ret stats) /\
  (bot_login (G := G) id auth_host = Diverge -> forall fuel,
     let bot := run_bot (Cl := Cl) (Nt := Nt) (G := G) random fuel id auth_host game_host protocol_id d clock in
     bot = Diverge /\ forall `{!CountOrder} bots, bot ∈ bots -> stress_main bots d = Diverge).
Proof.
  intros Hd HN Hc. unfold run_bot, run_bot_inner. cbn. split.
  - intros login ->. cbn. destruct login as [token|e]; [|by exists O; eexists].
    destruct (parse_socket_addr _) as [addr|]; [|by exists O; eexists].
    destruct (nt_new protocol_id id addr) as [transport|e]; [|by exists O; eexists]. cbn.
    match goal with |- context [bot_loop _ _ _ _ ?st ?tok ?b0] =>
      destruct (loop_returns d (ck_at clock (4 + ck_reads clock)) st tok (ck_at clock) N N b0) as (n & r & b' & H)
    end; [done|done|done|done|cbn; lia|split; cbn; lia|].
    exists n; eexists. intros fuel Hf. cbn in H. rewrite H by done. done.
  - intros -> fuel. split; [done|]. intros CO bots Hin. by apply stress_main_waits.
Qed.
End Bot.

(** ** A bot against a server that grants possession at once *)
Module StressWitness.

(** A client is its queue of messages; the first update delivers a possession. *)
#[local] Instance mini_client : RenetClient (list bytes) := {|
  cl_new _ := []; cl_update c _ := c; cl_is_connected _ := true; cl_send_message c _ _ := c;
  cl_receive_message c _ := match c with [] => (None, []) | m :: ms => (Some m, ms) end;
  cl_network_info _ := (d1, d0) |}.
#[local] Instance mini_netcode_client : NetcodeClient (list bytes) bool := {|
  nt_new _ _ _ := Ok true;
  nt_update first _ c := (Ok (), false, if first then c ++ [[Byte.x05]] else c);
  nt_send_packets t c := (Ok (), t, c) |}.
#[local] Instance mini_auth_client : AuthClient unit := {|
  ac_connect _ := Ret (Ok tt); ac_request_otp g _ := Ret (Ok "r", g);
  ac_login g _ _ _ _ := Ret (Ok "token", g) |}.
#[local] Instance mini_encoder : Encoder := {|
  encode_event e := match e with Auth _ => Ok [Byte.x01] | _ => Ok [Byte.x02] end;
  encode_event_into _ _ := Ok [];
  decode_event data := match data with
                       | [Byte.x05] => Ok (NPlatformEvent (mkCid 0) (Possession (mkNid 3)))
                       | _ => Err BufferOverflow
                       end;
  decode _ := Err BufferOverflow; max_encoded_size := 1200 |}.
#[local] Instance mini_bot_wire : BotWire := {|
  rmp_input _ := Ok [Byte.x07]; encode_replication e _ := Ok (re_payload e); show_encode_error _ := "encode" |}.
#[local] Existing Instance documented_consts.
#[local] Instance mini_client_laws : ClientLaws (Cl := list bytes).
Proof.
  refine {| cl_inbox c := c |}.
  - by intros c ->.
  - intros c m ms ->. by exists ms.
Defined.

(** A reading every tenth of a second. *)
Definition tenths : Clock := mkClock (fun n => Z.of_nat n * 100000000) 0.
Definition still (_ : nat) : f32 := f0.

Abbreviation played := (bot_loop (Cl := list bytes) still 20 1 (bot_new (Cl := list bytes) true tenths (stats_new 1)).1
  0 "token" (bot_new true tenths (stats_new 1)).2).

Lemma p99_spec_witness :
  exists x, calculate_p99 [d1; d0; d_of_Z 3] = Ret x /\ forall s, s ∈ [d1; d0; d_of_Z 3] -> d_le s x = true.
Proof.
  destruct (p99_spec [d1; d0; d_of_Z 3]) as [H _]; [discriminate|].
  destruct H as (x & Hx & _ & _ & _ & Hm); [repeat constructor|].
  exists x. split; [exact Hx|]. apply Hm. vm_compute. discriminate.
Defined.

Lemma played_ok : exists b, played = Ret (Ok (), b).
Proof.
  assert (match played with Ret (Ok _, _) => true | _ => false end = true) as H by (vm_compute; reflexivity).
  destruct (bot_loop _ _ _ _ _ _ _) as [[[[]|] b]| |]; try discriminate H. by exists b.
Qed.

Lemma bot_speaks_protocol_witness :
  exists b greeting ticks inputs, played = Ret (Ok (), b) /\ b_sent b = greeting ++ inputs /\
    Forall2 input_message ticks inputs /\ StronglySorted Z.lt ticks.
Proof.
  destruct played_ok as (b & H). exists b.
  destruct (bot_speaks_protocol still 20 1 0 "token" true tenths (stats_new 1) () b eq_refl H)
    as (g & ts & ms & H1 & _ & H2 & H3 & _).
  exists g, ts, ms. split; [exact H|]. split; [exact H1|]. split; [exact H2 | exact H3].
Defined.

Lemma run_bot_ends_witness :
  exists n stats, forall fuel, (n <= fuel)%nat ->
    run_bot (Cl := list bytes) (Nt := bool) (G := unit) still fuel 1 "http://auth" "127.0.0.1:5000" 0 1 tenths = Ret stats.
Proof.
  refine (proj1 (run_bot_ends still 1 "http://auth" "127.0.0.1:5000" 0 1 tenths 14 _ _ _) (Ok "token") _).
  - lia.
  - vm_compute. discriminate.
  - intros m Hm. unfold tenths, SECOND. cbn [ck_at ck_reads]. lia.
  - reflexivity.
Defined.

(** A server that accepts the connection and never answers. *)
Definition silent_auth : AuthClient unit := {|
  ac_connect _ := Ret (Ok tt); ac_request_otp _ _ := Diverge; ac_login _ _ _ _ _ := Diverge |}.

Example silent_server_hangs_bot fuel :
  run_bot (Cl := list bytes) (Nt := bool) (G := unit) (AC := silent_auth) still fuel 1 "http://auth"
    "127.0.0.1:5000" 0 1 tenths = Diverge.
Proof. reflexivity. Qed.

(** The bot sends its opening and four movements in the second. *)
Example played_messages :
  match played with Ret (_, b) => Some (b_sent b) | _ => None end =
  Some ([(1, [Byte.x01]); (1, [Byte.x02])] ++ repeat (0, [Byte.x07]) 4).
Proof. vm_compute. reflexivity. Qed.
End StressWitness.
