(* ===== verification/Certificate.v ===== *)
(** * The certificate of the WebTransport bridge ([generate_self_signed_identity])

    The bridge presents a self-signed certificate that it keeps in files between starts, and
    publishes its hash.  The file system, rcgen, the hash functions and the loading of PEM files are
    classes of operations with the laws the code relies on: what was written is read back, files of
    different names are different, and Base64 text has no white space. *)

From stdpp Require Import strings list sets gmap.
From Stdlib Require Import ZArith Lia.
From S2P Require Import Prelude Text.

Open Scope Z_scope.
Open Scope string_scope.

(** ** The files *)
Definition cert_dir : string := "target/dev-certs".
Definition cert_path : string := "target/dev-certs/cert.pem".
Definition key_path : string := "target/dev-certs/key.pem".
Definition hash_path : string := "target/dev-certs/cert.sha256".
Definition version_path : string := "target/dev-certs/cert.version".
Definition cert_files : list string := [cert_path; key_path; hash_path; version_path].

Definition CERT_VERSION : str := lit "v3".

(** The part of [std::path] and [tokio::fs] the code uses; contents are bytes. *)
Class FileSystem (FS : Type) : Type := {
  fs_exists : FS -> string -> bool;
  fs_read : FS -> string -> result (list Z) string;
  fs_write : FS -> string -> list Z -> result unit string * FS;
  fs_create_dir_all : FS -> string -> result unit string * FS;
}.

Class FileSystemLaws (FS : Type) `{!FileSystem FS} : Prop := {
  fs_write_read fs p d fs' : fs_write fs p d = (Ok (), fs') -> fs_read fs' p = Ok d;
  fs_write_exists fs p d fs' : fs_write fs p d = (Ok (), fs') -> fs_exists fs' p = true;
  fs_write_other fs p d fs' q :
    fs_write fs p d = (Ok (), fs') -> p ∈ cert_files -> q ∈ cert_files -> p <> q ->
    fs_read fs' q = fs_read fs q /\ fs_exists fs' q = fs_exists fs q;
}.

(** [tokio::fs::read_to_string]: fails on contents that are not UTF-8. *)
Definition read_to_string {FS} `{!FileSystem FS} (fs : FS) (p : string) : option str :=
  match fs_read fs p with Ok d => decode_utf8 d | Err _ => None end.

(** ** Certificates *)
Inductive SanType := SanDnsName (name : str) | SanIpAddress (ip : IpAddr).

(** Times are nanoseconds since the epoch. *)
Record CertificateParams := mkCertParams {
  subject_alt_names : list SanType; not_before : Z; not_after : Z }.

(** rcgen: creating parameters, keys and certificates and their serialised forms; [Entropy] is
    the randomness of one start. *)
Class Rcgen : Type := {
  Entropy : Type;
  KeyPair : Type;
  Certificate : Type;
  params_new : list str -> result CertificateParams string;
  key_generate : Entropy -> result KeyPair string;
  self_signed : Entropy -> CertificateParams -> KeyPair -> result Certificate string;
  cert_pem : Certificate -> str;
  cert_der : Certificate -> list Z;
  serialize_pem : KeyPair -> str;
}.

(** SHA-256 and standard Base64, whose text is printable ASCII. *)
Class CertHash : Type := {
  sha256 : list Z -> list Z;
  base64_encode : list Z -> str;
  base64_printable : forall d, Forall (fun c => 33 <= c <= 126) (base64_encode d);
}.

(** [Identity::load_pemfiles]: what it yields is a matter of the two files. *)
Class PemLoader (FS : Type) `{!FileSystem FS} : Type := {
  WtIdentity : Type;
  load_pemfiles : FS -> string -> string -> result WtIdentity string;
  load_pemfiles_ext : forall fs fs' c k,
    fs_read fs c = fs_read fs' c -> fs_read fs k = fs_read fs' k -> load_pemfiles fs c k = load_pemfiles fs' c k;
}.

Section Identity.
Context {FS : Type} `{!FileSystem FS} {RG : Rcgen} {CH : CertHash} `{!PemLoader FS}.

Definition expect_write (fs : FS) (p : string) (d : str) : exec FS :=
  match fs_write fs p (encode_utf8 d) with (Ok _, fs) => Ret fs | (Err _, _) => Panic end.

(** The cached certificate, if the files exist, have the current version and load. *)
Definition cached_identity (fs : FS) : option (WtIdentity * str) :=
  if fs_exists fs cert_path && fs_exists fs key_path && fs_exists fs hash_path then
    let version_ok := match read_to_string fs version_path with
                      | Some v => bool_decide (trim v = CERT_VERSION)
                      | None => false
                      end in
    if version_ok then
      match read_to_string fs hash_path, load_pemfiles fs cert_path key_path with
      | Some hash_b64, Ok identity => Some (identity, trim hash_b64)
      | _, _ => None
      end
    else None
  else None.

Definition DAY : Z := 86400 * 1000000000.

(** The parameters: the clock is read once for each end of the validity. *)
Definition cert_params (now_before now_after : Z) : exec CertificateParams :=
  params ← unwrap (ok_of (params_new [lit "localhost"]));
  Ret (mkCertParams
    (subject_alt_names params ++ [SanIpAddress (V4 127 0 0 1); SanIpAddress (V6 [0; 0; 0; 0; 0; 0; 0; 1])])
    (now_before - 1 * DAY) (now_after + 10 * DAY)).

(** A new certificate, kept in the files. *)
Definition regenerate (now_before now_after : Z) (rng : Entropy) (fs : FS) : exec (WtIdentity * str * FS) :=
  params ← cert_params now_before now_after;
  key_pair ← unwrap (ok_of (key_generate rng));
  cert ← unwrap (ok_of (self_signed rng params key_pair));
  let hash_b64 := base64_encode (sha256 (cert_der cert)) in
  fs ← match fs_create_dir_all fs cert_dir with (Ok _, fs) => Ret fs | (Err _, _) => Panic end;
  fs ← expect_write fs cert_path (cert_pem cert);
  fs ← expect_write fs key_path (serialize_pem key_pair);
  fs ← expect_write fs hash_path hash_b64;
  fs ← expect_write fs version_path CERT_VERSION;
  identity ← unwrap (ok_of (load_pemfiles fs cert_path key_path));
  Ret (identity, hash_b64, fs).

(** [generate_self_signed_identity]. *)
Definition generate_self_signed_identity (now_before now_after : Z) (rng : Entropy) (fs : FS) :
    exec (WtIdentity * str * FS) :=
  match cached_identity fs with
  | Some (identity, hash) => Ret (identity, hash, fs)
  | None => regenerate now_before now_after rng fs
  end.

(** ** Properties *)
Context `{!FileSystemLaws FS}.

Lemma printable_str (s : str) :
  Forall (fun c => 33 <= c <= 126) s -> trim s = s /\ decode_utf8 (encode_utf8 s) = Some s.
Proof.
  intros H.
  assert (skip : forall l, Forall (fun c => 33 <= c <= 126) l -> skip_while is_whitespace l = l).
  { intros l Hl. destruct Hl as [|c l Hc _]; [done|]. cbn.
    replace (is_whitespace c) with false; [done|]. symmetry. unfold is_whitespace.
    rewrite !orb_false_iff, !andb_false_iff, !Z.leb_gt, !Z.eqb_neq. lia. }
  split.
  - unfold trim, trim_end_by, trim_start_by. rewrite (skip s) by done.
    rewrite skip by (by apply Forall_rev). apply rev_involutive.
  - apply decode_encode_utf8. eapply Forall_impl; [exact H|]. intros c Hc. cbn in Hc. unfold is_scalar.
    rewrite !andb_true_iff, negb_true_iff, andb_false_iff, !Z.leb_le, !Z.leb_gt. lia.
Qed.

(** Writing one of the files shows in it and in no other. *)
Lemma expect_write_Ret fs p d fs' :
  p ∈ cert_files -> expect_write fs p d = Ret fs' ->
  fs_read fs' p = Ok (encode_utf8 d) /\ fs_exists fs' p = true /\
  forall q, q ∈ cert_files -> p <> q -> fs_read fs' q = fs_read fs q /\ fs_exists fs' q = fs_exists fs q.
Proof.
  intros Hp. unfold expect_write. destruct (fs_write fs p _) as [[[]|e] fs1] eqn:E; [|done]. intros [= <-].
  split; [by eapply fs_write_read|]. split; [by eapply fs_write_exists|]. intros q Hq N. by eapply fs_write_other.
Qed.

(** What the files hold after a certificate was made. *)
Lemma regenerate_files now_before now_after rng fs identity hash fs' :
  regenerate now_before now_after rng fs = Ret (identity, hash, fs') ->
  exists params key_pair cert,
    cert_params now_before now_after = Ret params /\ key_generate rng = Ok key_pair /\
    self_signed rng params key_pair = Ok cert /\
    hash = base64_encode (sha256 (cert_der cert)) /\
    fs_read fs' cert_path = Ok (encode_utf8 (cert_pem cert)) /\
    fs_read fs' key_path = Ok (encode_utf8 (serialize_pem key_pair)) /\
    fs_read fs' hash_path = Ok (encode_utf8 hash) /\
    fs_read fs' version_path = Ok (encode_utf8 CERT_VERSION) /\
    fs_exists fs' cert_path = true /\ fs_exists fs' key_path = true /\ fs_exists fs' hash_path = true /\
    load_pemfiles fs' cert_path key_path = Ok identity.
Proof.
  unfold regenerate. intros H.
  apply bind_Ret_inv in H as (params & Ep & H). apply bind_Ret_inv in H as (key & Ek & H).
  apply bind_Ret_inv in H as (cert & Ec & H). apply bind_Ret_inv in H as (fs0 & _ & H).
  apply bind_Ret_inv in H as (fs1 & E1 & H). apply bind_Ret_inv in H as (fs2 & E2 & H).
  apply bind_Ret_inv in H as (fs3 & E3 & H). apply bind_Ret_inv in H as (fs4 & E4 & H).
  apply bind_Ret_inv in H as (i & Ei & H). injection H as -> <- <-.
  apply expect_write_Ret in E1 as (R1 & X1 & _); [|by unfold cert_files; set_solver].
  apply expect_write_Ret in E2 as (R2 & X2 & O2); [|by unfold cert_files; set_solver].
  apply expect_write_Ret in E3 as (R3 & X3 & O3); [|by unfold cert_files; set_solver].
  apply expect_write_Ret in E4 as (R4 & X4 & O4); [|by unfold cert_files; set_solver].
  assert (Hin : forall q, q ∈ cert_files <-> q = cert_path \/ q = key_path \/ q = hash_path \/ q = version_path)
    by (unfold cert_files; set_solver).
  setoid_rewrite Hin in O2. setoid_rewrite Hin in O3. setoid_rewrite Hin in O4.
  destruct (O2 cert_path) as [A1 B1]; [by auto|done|]. destruct (O3 cert_path) as [A2 B2]; [by auto|done|].
  destruct (O3 key_path) as [A3 B3]; [by auto|done|]. destruct (O4 cert_path) as [A4 B4]; [by auto|done|].
  destruct (O4 key_path) as [A5 B5]; [by auto|done|]. destruct (O4 hash_path) as [A6 B6]; [by auto|done|].
  exists params, key, cert.
  destruct (key_generate rng) as [k|] eqn:?; [|done]. destruct (self_signed rng params key) as [c|] eqn:?; [|done].
  destruct (load_pemfiles fs4 cert_path key_path) eqn:?; [|done]. simplify_eq/=.
  repeat split; congruence.
Qed.

(** A start that finds the files of an earlier one. *)
Lemma cached_after_regenerate now_before now_after rng fs identity hash fs' :
  regenerate now_before now_after rng fs = Ret (identity, hash, fs') -> cached_identity fs' = Some (identity, hash).
Proof.
  intros (p & k & c & _ & _ & _ & Eh & _ & _ & R3 & R4 & X1 & X2 & X3 & L)%regenerate_files.
  destruct (printable_str hash) as [T1 D1]; [subst; apply base64_printable|].
  destruct (printable_str CERT_VERSION) as [T2 D2]; [change CERT_VERSION with [118; 51]; do 2 (apply Forall_cons; split; [lia|]); by apply Forall_nil|].
  unfold cached_identity. rewrite X1, X2, X3. cbn [andb]. unfold read_to_string. rewrite R4, D2, R3, D1, L, T1, T2.
  by rewrite bool_decide_true.
Qed.

(** C35 (roundtrip): a later start presents the certificate of the start before it with the same
    published hash and writes nothing, whatever the time and the randomness: the files are loaded
    as they were saved, and a certificate that has run out is loaded like any other. *)
Theorem identity_persists now_before now_after rng fs identity hash fs' :
  generate_self_signed_identity now_before now_after rng fs = Ret (identity, hash, fs') ->
  forall now_before' now_after' rng',
    generate_self_signed_identity now_before' now_after' rng' fs' = Ret (identity, hash, fs').
Proof.
  unfold generate_self_signed_identity. intros H ? ? ?.
  destruct (cached_identity fs) as [[i h]|] eqn:E.
  - injection H as -> -> ->. by rewrite E.
  - by rewrite (cached_after_regenerate _ _ _ _ _ _ _ H).
Qed.

(** A certificate that is made covers the day before and the ten days after the
    start, eleven days and the time between the two clock readings, within the fourteen days
    browsers accept if that time is at most three days; the published hash is the Base64 of the
    SHA-256 of its DER form, and the saved PEM files are the ones it is loaded from. *)
Theorem fresh_certificate now_before now_after rng fs identity hash fs' :
  cached_identity fs = None ->
  generate_self_signed_identity now_before now_after rng fs = Ret (identity, hash, fs') ->
  exists params key_pair cert,
    self_signed rng params key_pair = Ok cert /\
    not_before params = now_before - DAY /\ not_after params = now_after + 10 * DAY /\
    (now_before <= now_after <= now_before + 3 * DAY ->
       11 * DAY <= not_after params - not_before params <= 14 * DAY) /\
    hash = base64_encode (sha256 (cert_der cert)) /\
    fs_read fs' cert_path = Ok (encode_utf8 (cert_pem cert)) /\
    fs_read fs' key_path = Ok (encode_utf8 (serialize_pem key_pair)) /\
    load_pemfiles fs' cert_path key_path = Ok identity.
Proof.
  unfold generate_self_signed_identity. intros -> (p & k & c & Ep & _ & Es & Eh & R1 & R2 & _ & _ & _ & _ & _ & L)%regenerate_files.
  exists p, k, c. unfold cert_params in Ep. apply bind_Ret_inv in Ep as (p0 & _ & Ep). injection Ep as <-.
  split; [exact Es|]. cbn [not_before not_after].
  split; [lia|]. split; [lia|]. split; [unfold DAY; lia|]. auto.
Qed.

(** The identity is the one of the two files. *)
Lemma identity_loaded now_before now_after rng fs identity hash fs' :
  generate_self_signed_identity now_before now_after rng fs = Ret (identity, hash, fs') ->
  load_pemfiles fs' cert_path key_path = Ok identity.
Proof.
  unfold generate_self_signed_identity. destruct (cached_identity fs) as [[i h]|] eqn:E.
  - intros [= -> -> ->]. unfold cached_identity in E. repeat case_match; by simplify_eq.
  - by intros (p & k & c & _ & _ & _ & _ & _ & _ & _ & _ & _ & _ & _ & L)%regenerate_files.
Qed.
End Identity.

(** ** A file system as a map, and certificates as their parameters and keys *)
Module CertWitness.

#[export] Instance mini_fs : FileSystem (gmap string (list Z)) := {|
  fs_exists fs p := bool_decide (is_Some (fs !! p));
  fs_read fs p := match fs !! p with Some d => Ok d | None => Err "not found" end;
  fs_write fs p d := (Ok (), <[p := d]> fs);
  fs_create_dir_all fs _ := (Ok (), fs) |}.

#[export] Instance mini_fs_laws : FileSystemLaws (gmap string (list Z)).
Proof.
  split; cbn.
  - intros fs p d fs' [= <-]. by rewrite lookup_insert_eq.
  - intros fs p d fs' [= <-]. rewrite lookup_insert_eq. by rewrite bool_decide_true by eauto.
  - intros fs p d fs' q [= <-] _ _ N. by rewrite lookup_insert_ne by done.
Qed.

#[export] Instance mini_rcgen : Rcgen := {|
  Entropy := Z; KeyPair := Z; Certificate := CertificateParams * Z;
  params_new names := Ok (mkCertParams (SanDnsName <$> names) 0 0);
  key_generate rng := Ok rng; self_signed _ params key := Ok (params, key);
  cert_pem c := lit "cert"; cert_der c := [not_before c.1 mod 256; c.2]; serialize_pem k := lit "key" |}.

Lemma letters_printable d : Forall (fun c => 33 <= c <= 126) ((fun b => 65 + b mod 26) <$> d).
Proof.
  apply Forall_fmap, Forall_true. intros b. cbn. pose proof (Z.mod_pos_bound b 26). lia.
Qed.

#[export] Instance mini_hash : CertHash := {|
  sha256 d := d; base64_encode d := (fun b => 65 + b mod 26) <$> d; base64_printable := letters_printable |}.

#[export] Instance mini_pem : PemLoader (gmap string (list Z)).
Proof.
  refine {| WtIdentity := (list Z * list Z);
    load_pemfiles fs c k := match fs_read fs c, fs_read fs k with Ok x, Ok y => Ok (x, y) | _, _ => Err "no file" end |}.
  intros fs fs' c k E1 E2. by rewrite E1, E2.
Defined.

Definition first_start : exec (WtIdentity * str * gmap string (list Z)) :=
  generate_self_signed_identity (20 * DAY) (20 * DAY + 5) 7 ∅.
Definition d0 : WtIdentity * str * gmap string (list Z) := (([], []), [], ∅).

Lemma first_start_ok : first_start = Ret (get_ret d0 first_start).
Proof. apply get_ret_eq. vm_compute. reflexivity. Qed.

(** A year later, with other randomness. *)
Lemma identity_persists_witness :
  generate_self_signed_identity (400 * DAY) (400 * DAY) 8 (get_ret d0 first_start).2 = Ret (get_ret d0 first_start).
Proof.
  assert (H := first_start_ok). destruct (get_ret d0 first_start) as [[i h] fs'].
  exact (identity_persists _ _ _ _ _ _ _ H _ _ _).
Defined.

Lemma fresh_certificate_witness :
  exists params key_pair cert, self_signed 7 params key_pair = Ok cert /\ not_after params = 30 * DAY + 5.
Proof.
  assert (H := first_start_ok). destruct (get_ret d0 first_start) as [[i h] fs'].
  destruct (fresh_certificate (RG := mini_rcgen) (20 * DAY) (20 * DAY + 5) 7 ∅ i h fs') as (p & k & c & Hs & _ & Ha & _).
  - vm_compute. reflexivity.
  - exact H.
  - exists p, k, c. split; [exact Hs|]. rewrite Ha. vm_compute. reflexivity.
Defined.
End CertWitness.
