(* ===== verification/WebTransport.v ===== *)
(** * The WebTransport bridge ([aetheris-transport-webtransport/src/lib.rs])

    [WebTransportBridge] shares three things between the scheduler and the tasks of its
    connections: the map of connections, the queue of events and an atomic counter.  Each incoming
    session is handled by a task that authenticates it, enters it, counts it, announces it and
    spawns a reader; the reader spawns a task per reliable stream and, when the connection ends,
    uncounts, removes and announces the end.  The scheduler sends, polls and disconnects meanwhile.

    The file models the methods of the bridge and, as a step relation, the interleaving of all
    tasks: a step is what one task does between two points where others can run (a lock held, an
    atomic operation).  The wtransport library is the class [Wtransport]; what arrives on a
    connection, and the random client id, are chosen by the environment.  The certificate the
    bridge presents is that of [Certificate]. *)

From stdpp Require Import gmap strings list.
From Stdlib Require Import ZArith Lia.
From S2P Require Import Prelude Text Protocol Tick Certificate.

Open Scope Z_scope.

(** ** The library *)
Class Wtransport (C Net : Type) : Type := {
  Opening : Type;
  SendStream : Type;
  wt_send_datagram : Net -> C -> bytes -> result unit string * Net;
  wt_open_bi : Net -> C -> result Opening string * Net;
  wt_opening : Net -> Opening -> result SendStream string * Net;
  wt_write_all : Net -> SendStream -> bytes -> result unit string * Net;
  wt_finish : Net -> SendStream -> result unit string * Net;
  wt_close : Net -> C -> Z -> string -> Net;
}.

(** ** The bridge *)
Record WebTransportBridge (C Net : Type) := mkBridge {
  wb_events : list NetworkEvent;
  wb_connections : gmap ClientId C;
  wb_connected_client_count : Z;
  wb_cert_hash : str;
  wb_auth_validator : option (str -> bool);
  wb_net : Net }.
Arguments mkBridge {C Net}.
Arguments wb_events {C Net}.
Arguments wb_connections {C Net}.
Arguments wb_connected_client_count {C Net}.
Arguments wb_cert_hash {C Net}.
Arguments wb_auth_validator {C Net}.
Arguments wb_net {C Net}.

Section Bridge.
Context {C Net : Type} `{WT : !Wtransport C Net} {HO : HashOrder}.
Abbreviation bridge := (WebTransportBridge C Net).
Implicit Types b : bridge.

Definition set_events b e : bridge :=
  mkBridge e (wb_connections b) (wb_connected_client_count b) (wb_cert_hash b) (wb_auth_validator b) (wb_net b).
Definition set_connections b c : bridge :=
  mkBridge (wb_events b) c (wb_connected_client_count b) (wb_cert_hash b) (wb_auth_validator b) (wb_net b).
Definition set_count b n : bridge :=
  mkBridge (wb_events b) (wb_connections b) n (wb_cert_hash b) (wb_auth_validator b) (wb_net b).
Definition set_net b n : bridge :=
  mkBridge (wb_events b) (wb_connections b) (wb_connected_client_count b) (wb_cert_hash b) (wb_auth_validator b) n.

(** The bridge [new] creates, with the identity's hash; the listener is the step relation below. *)
Definition bridge_new (cert_hash : str) (auth_validator : option (str -> bool)) (net : Net) : bridge :=
  mkBridge [] ∅ 0 cert_hash auth_validator net.

Definition push_back b (e : NetworkEvent) : bridge := set_events b (wb_events b ++ [e]).

(** [fetch_add(1)], [fetch_sub(1)]: atomic operations wrap around. *)
Definition fetch_add b : bridge := set_count b ((wb_connected_client_count b + 1) mod 2 ^ 64).
Definition fetch_sub b : bridge := set_count b ((wb_connected_client_count b - 1) mod 2 ^ 64).

(** [send_unreliable]. *)
Definition bridge_send_unreliable b (client_id : ClientId) (data : bytes) :
    result unit TransportError * bridge :=
  match wb_connections b !! client_id with
  | Some conn =>
      match wt_send_datagram (wb_net b) conn data with
      | (Err e, net) => (Err (TransportIo e), set_net b net)
      | (Ok _, net) => (Ok (), set_net b net)
      end
  | None => (Err (ClientNotConnected client_id), b)
  end.

(** [send_reliable]: a stream of its own per message. *)
Definition bridge_send_reliable b (client_id : ClientId) (data : bytes) :
    result unit TransportError * bridge :=
  match wb_connections b !! client_id with
  | Some conn =>
      match wt_open_bi (wb_net b) conn with
      | (Err e, net) =>
          (Err (TransportIo ("Failed to initiate bidirectional stream: " +:+ e)), set_net b net)
      | (Ok opening, net) =>
          match wt_opening net opening with
          | (Err e, net) =>
              (Err (TransportIo ("Failed to establish bidirectional stream: " +:+ e)), set_net b net)
          | (Ok send_stream, net) =>
              match wt_write_all net send_stream data with
              | (Err e, net) => (Err (TransportIo ("Failed to send reliable data: " +:+ e)), set_net b net)
              | (Ok _, net) =>
                  match wt_finish net send_stream with
                  | (Err e, net) =>
                      (Err (TransportIo ("Failed to finish reliable stream: " +:+ e)), set_net b net)
                  | (Ok _, net) => (Ok (), set_net b net)
                  end
              end
          end
      end
  | None => (Err (ClientNotConnected client_id), b)
  end.

(** [broadcast_unreliable]: failures are logged. *)
Definition bridge_broadcast_unreliable b (data : bytes) : result unit TransportError * bridge :=
  (Ok (), set_net b (foldl (fun net e => (wt_send_datagram net e.2 data).2) (wb_net b)
                       (hm_iter (wb_connections b)))).

(** [poll_events]: [drain(..)]. *)
Definition bridge_poll_events b : exec (result (list NetworkEvent) TransportError * bridge) :=
  Ret (Ok (wb_events b), set_events b []).

(** [connected_client_count]. *)
Definition bridge_connected_client_count b : exec Z := Ret (wb_connected_client_count b).

(** [disconnect]: the lock is held until the counter has been changed. *)
Definition bridge_disconnect b (client_id : ClientId) : result unit TransportError * bridge :=
  match wb_connections b !! client_id with
  | Some conn =>
      let b := set_connections b (delete client_id (wb_connections b)) in
      let b := set_net b (wt_close (wb_net b) conn 4001 "Session Replaced") in
      (Ok (), fetch_sub b)
  | None => (Err (ClientNotConnected client_id), b)
  end.

(** [cert_hash]. *)
Definition bridge_cert_hash b : str := wb_cert_hash b.

(** [impl PlatformTransport for WebTransportBridge]. *)
Definition bridge_transport : PlatformTransport bridge := {|
  pt_poll_events := bridge_poll_events;
  pt_send_unreliable := bridge_send_unreliable;
  pt_send_reliable := bridge_send_reliable;
  pt_broadcast_unreliable := bridge_broadcast_unreliable;
  pt_disconnect := bridge_disconnect;
  pt_connected_client_count := bridge_connected_client_count |}.

(** ** The tasks of a connection *)

(** What the wait for the first stream yields: nothing in five seconds, an error, a stream that
    cannot be read in two seconds or fails, or the bytes of a stream. *)
Inductive FirstMessage :=
| FmTimeout
| FmAcceptError
| FmReadTimeout
| FmReadError
| FmRead (data : bytes).

(** The value of a byte. *)
Definition byte_val (x : Byte.byte) : Z := Z.of_N (Byte.to_N x).

(** First-message authentication: at most 1024 bytes, which must be UTF-8. *)
Definition first_message_auth (validator : str -> bool) (m : FirstMessage) : bool :=
  match m with
  | FmRead data =>
      match decode_utf8 (byte_val <$> take 1024 data) with
      | Some buffer => validator (trim buffer)
      | None => false
      end
  | FmTimeout | FmAcceptError | FmReadTimeout | FmReadError => false
  end.

(** The check of [handle_incoming_connection]: without a validator everyone is let in. *)
Definition session_accepted b (m : FirstMessage) : bool :=
  match wb_auth_validator b with
  | Some validator => first_message_auth validator m
  | None => true
  end.

Definition MAX_RELIABLE_PAYLOAD_SIZE : Z := 1024 * 1024.

(** The event of a reliable stream: [None] is a read error; [Some] are the bytes the peer sent, of
    which one more than the limit is read at most. *)
Definition stream_event (client_id : ClientId) (read : option bytes) : option NetworkEvent :=
  match read with
  | None => Some (StreamReset client_id)
  | Some sent =>
      let buffer := take (Z.to_nat (MAX_RELIABLE_PAYLOAD_SIZE + 1)) sent in
      if MAX_RELIABLE_PAYLOAD_SIZE <? Z.of_nat (length buffer) then None
      else Some (ReliableMessage client_id buffer)
  end.

(** Where the tasks of an accepted session are: entered in the map; counted; announced, the reader
    in its loop; the loop left; uncounted; removed from the map; the end announced. *)
Inductive Phase := PEntered | PCounted | PReading | PEnded | PUncounted | PRemoved | PDone.

Record Session := mkSession { se_client : ClientId; se_phase : Phase }.

(** The bridge, the sessions accepted so far, and the streams being read. *)
Record WtState := mkWt { ws_bridge : bridge; ws_sessions : list Session; ws_streams : list ClientId }.

(** What happens. *)
Inductive WtLabel :=
| LAccept (client_id : ClientId) (conn : C) (m : FirstMessage)
| LTask (client_id : ClientId)
| LDatagram (client_id : ClientId) (data : bytes)
| LDatagramError (client_id : ClientId)
| LStream (client_id : ClientId)
| LStreamError (client_id : ClientId)
| LStreamRead (client_id : ClientId) (read : option bytes)
| LPoll (events : list NetworkEvent)
| LSend
| LDisconnect (client_id : ClientId) (r : result unit TransportError).

(** The next atomic action of a session's own tasks, outside the read loop. *)
Definition task_step (b : bridge) (s : Session) : option (bridge * Phase) :=
  let c := se_client s in
  match se_phase s with
  | PEntered => Some (fetch_add b, PCounted)
  | PCounted => Some (push_back b (ClientConnected c), PReading)
  | PReading => None
  | PEnded => Some (fetch_sub b, PUncounted)
  | PUncounted => Some (set_connections b (delete c (wb_connections b)), PRemoved)
  | PRemoved => Some (push_back b (ClientDisconnected c), PDone)
  | PDone => None
  end.

Definition set_phase (i : nat) (s : Session) (p : Phase) (l : list Session) : list Session :=
  <[i := mkSession (se_client s) p]> l.

Inductive wt_step : WtState -> WtLabel -> WtState -> Prop :=
(** An accepted session is entered under a random id. *)
| ws_accept b ss sts c conn m :
    session_accepted b m = true ->
    wt_step (mkWt b ss sts) (LAccept c conn m)
      (mkWt (set_connections b (<[c := conn]> (wb_connections b))) (ss ++ [mkSession c PEntered]) sts)
| ws_task b ss sts i s b' p :
    ss !! i = Some s -> task_step b s = Some (b', p) ->
    wt_step (mkWt b ss sts) (LTask (se_client s)) (mkWt b' (set_phase i s p ss) sts)
(** [receive_datagram]: a datagram, or the error that ends the loop. *)
| ws_datagram b ss sts i s data :
    ss !! i = Some s -> se_phase s = PReading ->
    wt_step (mkWt b ss sts) (LDatagram (se_client s) data)
      (mkWt (push_back b (UnreliableMessage (se_client s) data)) ss sts)
| ws_datagram_error b ss sts i s :
    ss !! i = Some s -> se_phase s = PReading ->
    wt_step (mkWt b ss sts) (LDatagramError (se_client s))
      (mkWt (push_back b (SessionClosed (se_client s))) (set_phase i s PEnded ss) sts)
(** [accept_bi]: a stream, read by a task of its own, or the error that ends the loop. *)
| ws_stream b ss sts i s :
    ss !! i = Some s -> se_phase s = PReading ->
    wt_step (mkWt b ss sts) (LStream (se_client s)) (mkWt b ss (sts ++ [se_client s]))
| ws_stream_error b ss sts i s :
    ss !! i = Some s -> se_phase s = PReading ->
    wt_step (mkWt b ss sts) (LStreamError (se_client s)) (mkWt b (set_phase i s PEnded ss) sts)
| ws_stream_read b ss sts j c read :
    sts !! j = Some c ->
    wt_step (mkWt b ss sts) (LStreamRead c read)
      (mkWt (match stream_event c read with Some e => push_back b e | None => b end) ss (delete j sts))
(** The scheduler. *)
| ws_poll b ss sts :
    wt_step (mkWt b ss sts) (LPoll (wb_events b)) (mkWt (set_events b []) ss sts)
| ws_send b ss sts net : wt_step (mkWt b ss sts) LSend (mkWt (set_net b net) ss sts)
| ws_disconnect b ss sts c :
    wt_step (mkWt b ss sts) (LDisconnect c (bridge_disconnect b c).1) (mkWt (bridge_disconnect b c).2 ss sts).

Inductive wt_run (st0 : WtState) : list WtLabel -> WtState -> Prop :=
| wr_nil : wt_run st0 [] st0
| wr_snoc tr st l st' : wt_run st0 tr st -> wt_step st l st' -> wt_run st0 (tr ++ [l]) st'.
End Bridge.
Arguments LTask {C}.
Arguments LDatagram {C}.
Arguments LDatagramError {C}.
Arguments LStream {C}.
Arguments LStreamError {C}.
Arguments LStreamRead {C}.
Arguments LPoll {C}.
Arguments LSend {C}.
Arguments LDisconnect {C}.

(** ** Starting *)

(** [Endpoint::server] with an address, an identity, the idle timeout and the keep-alive interval
    in seconds. *)
Class WtEndpoint (FS Net : Type) `{!FileSystem FS, !PemLoader FS} : Type := {
  endpoint_server : SocketAddr -> WtIdentity -> Z -> Z -> result Net string;
}.

(** [new]: the identity, then the endpoint, which must come up. *)
Definition bridge_start {FS C Net} `{!FileSystem FS, !PemLoader FS, !WtEndpoint FS Net, !Rcgen, !CertHash}
    (addr : SocketAddr) (auth_validator : option (str -> bool)) (now_before now_after : Z) (rng : Entropy)
    (fs : FS) : exec (WebTransportBridge C Net * FS) :=
  '(identity, cert_hash, fs) ← generate_self_signed_identity now_before now_after rng fs;
  net ← unwrap (ok_of (endpoint_server addr identity 30 10));
  Ret (bridge_new cert_hash auth_validator net, fs).
