(* ===== verification/WebTransportProps.v ===== *)
(** * What the WebTransport bridge guarantees

    The theorems are about every interleaving of the tasks of [WebTransport.wt_step], by induction
    on the run: the counter of clients, the life cycle of a client's events, first-message
    authentication and what a disconnect leaves behind. *)

From stdpp Require Import gmap strings list.
From Stdlib Require Import ZArith Lia.
From S2P Require Import Prelude Text Protocol Tick WebTransport.

Open Scope Z_scope.

#[local] Arguments count_if : simpl never.

(** ** What is observed of a run *)

(** The client an event of the bridge is about. *)
Definition event_client (e : NetworkEvent) : option ClientId :=
  match e with
  | ClientConnected c | ClientDisconnected c | SessionClosed c | StreamReset c
  | UnreliableMessage c _ | ReliableMessage c _ => Some c
  | _ => None
  end.

Section Observed.
Context {C : Type}.

(** What the scheduler has drained so far. *)
Definition drained (tr : list (WtLabel (C := C))) : list NetworkEvent :=
  tr ≫= fun l => match l with LPoll events => events | _ => [] end.

(** How many disconnects have succeeded. *)
Definition kicks (tr : list (WtLabel (C := C))) : Z :=
  count_if (fun l => match l with LDisconnect _ (Ok _) => true | _ => false end) tr.
End Observed.

(** A session is counted from the addition of its first task to the subtraction of its reader. *)
Definition phase_counted (p : Phase) : bool :=
  match p with PCounted | PReading | PEnded => true | _ => false end.
Definition counted (s : Session) : bool := phase_counted (se_phase s).

(** The phase of a client's session. *)
Fixpoint phase_of (ss : list Session) (c : ClientId) : option Phase :=
  match ss with
  | [] => None
  | s :: ss => if decide (se_client s = c) then Some (se_phase s) else phase_of ss c
  end.

(** The life of a client as its events tell it: connected once and first; then messages; perhaps
    the close of the session; gone once.  Only what its streams still yield comes later. *)
Inductive Life := LifeNew | LifeOpen | LifeClosed | LifeGone.

Definition life_next (q : Life) (e : NetworkEvent) : option Life :=
  match q, e with
  | LifeNew, ClientConnected _ => Some LifeOpen
  | LifeOpen, UnreliableMessage _ _ => Some LifeOpen
  | (LifeOpen | LifeClosed | LifeGone), (ReliableMessage _ _ | StreamReset _) => Some q
  | LifeOpen, SessionClosed _ => Some LifeClosed
  | (LifeOpen | LifeClosed), ClientDisconnected _ => Some LifeGone
  | _, _ => None
  end.

Definition life_step (c : ClientId) (q : option Life) (e : NetworkEvent) : option Life :=
  if decide (event_client e = Some c) then q ≫= fun q => life_next q e else q.
Definition life_of (c : ClientId) (h : list NetworkEvent) : option Life := foldl (life_step c) (Some LifeNew) h.

(** How far the life of a client is in each phase of its session. *)
Definition phase_life (p : option Phase) (q : Life) : bool :=
  match p, q with
  | (None | Some PEntered | Some PCounted), LifeNew => true
  | Some PReading, LifeOpen => true
  | Some (PEnded | PUncounted | PRemoved), (LifeOpen | LifeClosed) => true
  | Some PDone, LifeGone => true
  | _, _ => false
  end.

(** A stream can be open once the reader runs. *)
Definition may_stream (p : option Phase) : bool :=
  match p with None | Some PEntered | Some PCounted => false | _ => true end.

(** ** Lists of sessions and histories *)
Lemma phase_of_None ss c : c ∉ (se_client <$> ss) -> phase_of ss c = None.
Proof.
  induction ss as [|s ss IH]; intros H; [done|]. cbn. rewrite decide_False by set_solver. apply IH. set_solver.
Qed.

Lemma phase_of_lookup ss i s :
  NoDup (se_client <$> ss) -> ss !! i = Some s -> phase_of ss (se_client s) = Some (se_phase s).
Proof.
  revert i. induction ss as [|s' ss IH]; intros i Hnd Hi; [done|]. cbn in Hnd. apply NoDup_cons in Hnd as [Hn Hnd].
  destruct i as [|i]; cbn in Hi |- *; [simplify_eq; by rewrite decide_True|].
  rewrite decide_False; [by eapply IH|]. intros E. apply Hn. rewrite E.
  apply list_elem_of_fmap. exists s. split; [done | by eapply list_elem_of_lookup_2].
Qed.

Lemma clients_set_phase ss i s p : ss !! i = Some s -> se_client <$> set_phase i s p ss = se_client <$> ss.
Proof.
  intros H. unfold set_phase. rewrite list_fmap_insert. apply list_insert_id. rewrite list_lookup_fmap, H. done.
Qed.

Lemma phase_of_set_phase ss i s p c :
  NoDup (se_client <$> ss) -> ss !! i = Some s ->
  phase_of (set_phase i s p ss) c = if decide (se_client s = c) then Some p else phase_of ss c.
Proof.
  revert i. induction ss as [|s' ss IH]; intros i Hnd Hi; [done|]. cbn in Hnd. apply NoDup_cons in Hnd as [Hn Hnd].
  destruct i as [|i]; cbn in Hi |- *; [simplify_eq; by repeat case_decide|].
  destruct (decide (se_client s' = c)) as [<-|_]; [|exact (IH i Hnd Hi)].
  rewrite decide_False; [done|]. intros E. apply Hn. rewrite <- E.
  apply list_elem_of_fmap. exists s. split; [done | by eapply list_elem_of_lookup_2].
Qed.

Lemma phase_of_snoc ss s c :
  se_client s ∉ (se_client <$> ss) ->
  phase_of (ss ++ [s]) c = if decide (se_client s = c) then Some (se_phase s) else phase_of ss c.
Proof.
  induction ss as [|s' ss IH]; intros H; [done|]. cbn. rewrite IH by set_solver.
  repeat case_decide; try done. set_solver.
Qed.

Lemma count_set_phase (f : Session -> bool) ss i s p :
  ss !! i = Some s ->
  count_if f (set_phase i s p ss) = count_if f ss - Z.b2z (f s) + Z.b2z (f (mkSession (se_client s) p)).
Proof.
  intros H. pose proof (lookup_lt_Some _ _ _ H) as Hl. unfold set_phase.
  rewrite insert_take_drop by done. rewrite <- (take_drop_middle ss i s H) at 3.
  rewrite !count_if_app. unfold count_if. rewrite !sum_over_cons.
  destruct (f s), (f (mkSession _ _)); cbn [Z.b2z]; lia.
Qed.

Lemma life_of_snoc c h e : life_of c (h ++ [e]) = life_step c (life_of c h) e.
Proof. unfold life_of. by rewrite foldl_app. Qed.

Lemma drained_snoc {C} (tr : list (WtLabel (C := C))) l :
  drained (tr ++ [l]) = drained tr ++ match l with LPoll events => events | _ => [] end.
Proof. unfold drained. rewrite bind_app. cbn. by rewrite app_nil_r. Qed.

Section Props.
Context {C Net : Type} `{WT : !Wtransport C Net}.
Implicit Types st : WtState (C := C) (Net := Net).
Implicit Types tr : list (WtLabel (C := C)).

(** A bridge that has just been created. *)
Definition wt_init cert_hash validator (net : Net) : WtState (C := C) :=
  mkWt (bridge_new cert_hash validator net) [] [].

(** Everything reported so far: what was drained and what waits. *)
Definition history tr st : list NetworkEvent := drained tr ++ wb_events (ws_bridge st).

Lemma disconnect_events (b : WebTransportBridge C Net) c : wb_events (bridge_disconnect b c).2 = wb_events b.
Proof. unfold bridge_disconnect. by destruct (wb_connections b !! c). Qed.

Lemma disconnect_validator (b : WebTransportBridge C Net) c :
  wb_auth_validator (bridge_disconnect b c).2 = wb_auth_validator b.
Proof. unfold bridge_disconnect. by destruct (wb_connections b !! c). Qed.

Ltac task_cases H := unfold task_step in H; destruct (se_phase _) eqn:?; simplify_eq.


(** ** The counter of clients *)
Lemma disconnect_count (b : WebTransportBridge C Net) c :
  wb_connected_client_count (bridge_disconnect b c).2 =
  if is_ok (bridge_disconnect b c).1 then (wb_connected_client_count b - 1) mod 2 ^ 64 else wb_connected_client_count b.
Proof. unfold bridge_disconnect. by destruct (wb_connections b !! c). Qed.

Lemma kicks_snoc tr l :
  kicks (tr ++ [l]) = kicks tr + match l with LDisconnect _ r => Z.b2z (is_ok r) | _ => 0 end.
Proof. unfold kicks. rewrite count_if_snoc. by destruct l as [| | | | | | | | | ? []]. Qed.

Lemma counter_step st l st' (n : Z) :
  wt_step st l st' ->
  wb_connected_client_count (ws_bridge st) = (count_if counted (ws_sessions st) - n) mod 2 ^ 64 ->
  wb_connected_client_count (ws_bridge st') =
    (count_if counted (ws_sessions st') -
     (n + match l with LDisconnect _ r => Z.b2z (is_ok r) | _ => 0 end)) mod 2 ^ 64.
Proof.
  intros Hs E. destruct Hs; cbn in *; rewrite ?Z.add_0_r; try done.
  - rewrite count_if_snoc. cbn. by rewrite Z.add_0_r.
  - rewrite (count_set_phase _ _ _ _ _ H). task_cases H0; cbn;
      change (counted s) with (phase_counted (se_phase s)); rewrite Heqp0; cbn; rewrite E;
      rewrite ?Zplus_mod_idemp_l, ?Zminus_mod_idemp_l; f_equal; lia.
  - rewrite (count_set_phase _ _ _ _ _ H), E. change (counted s) with (phase_counted (se_phase s)). rewrite H0. cbn. f_equal. lia.
  - rewrite (count_set_phase _ _ _ _ _ H), E. change (counted s) with (phase_counted (se_phase s)). rewrite H0. cbn. f_equal. lia.
  - by destruct (stream_event c read).
  - rewrite disconnect_count. destruct (is_ok _); cbn [Z.b2z]; rewrite E; [rewrite Zminus_mod_idemp_l|]; f_equal; lia.
Qed.

Lemma counter_value cert_hash validator net tr st :
  wt_run (wt_init cert_hash validator net) tr st ->
  wb_connected_client_count (ws_bridge st) = (count_if counted (ws_sessions st) - kicks tr) mod 2 ^ 64.
Proof.
  intros Hr. induction Hr as [|tr st l st' Hr IH Hs]; [done|]. rewrite kicks_snoc. by apply (counter_step st).
Qed.

(** C31 (invariant): in every interleaving the counter of connected clients is the number of
    sessions counted and not yet finished less the number of clients the scheduler has
    disconnected, modulo 2^64: a disconnect is counted a second time when the reader of the
    connection it closed finishes.  When every session has ended the counter is 0 only if nobody
    was disconnected; it wraps around below 0 otherwise. *)
Theorem client_counter cert_hash validator net tr st :
  wt_run (wt_init cert_hash validator net) tr st ->
  wb_connected_client_count (ws_bridge st) = (count_if counted (ws_sessions st) - kicks tr) mod 2 ^ 64 /\
  (Forall (fun s => se_phase s = PDone) (ws_sessions st) ->
   wb_connected_client_count (ws_bridge st) = (- kicks tr) mod 2 ^ 64).
Proof.
  intros Hr. pose proof (counter_value _ _ _ _ _ Hr) as E.
  split; [exact E|]. intros Hd. rewrite E, count_if_none; [done|]. intros s Hin.
  unfold counted. rewrite Forall_forall in Hd. by rewrite (Hd s Hin).
Qed.

(** ** The life of a client *)
Definition life_inv tr st : Prop :=
  forall c, (exists q, life_of c (history tr st) = Some q /\ phase_life (phase_of (ws_sessions st) c) q = true) /\
    (c ∈ ws_streams st -> may_stream (phase_of (ws_sessions st) c) = true).

(** The events of one client move on, the others stay. *)
Lemma life_push c0 c h e q p p' :
  event_client e = Some c0 ->
  life_of c h = Some q -> phase_life p q = true ->
  (c0 <> c -> p' = p) ->
  (c0 = c -> exists q', life_next q e = Some q' /\ phase_life p' q' = true) ->
  exists q', life_of c (h ++ [e]) = Some q' /\ phase_life p' q' = true.
Proof.
  intros He Hq Hp Hne Heq. rewrite life_of_snoc, Hq. unfold life_step. rewrite He.
  destruct (decide (c0 = c)) as [->|N].
  - rewrite decide_True by done. cbn. by apply Heq.
  - rewrite decide_False by congruence. exists q. by rewrite Hne.
Qed.

Lemma clients_step st l st' :
  wt_step st l st' -> NoDup (se_client <$> ws_sessions st') -> NoDup (se_client <$> ws_sessions st).
Proof.
  destruct 1; cbn; try done; try (by rewrite (clients_set_phase _ _ _ _ H)).
  rewrite fmap_app. intros Hn. by apply NoDup_app in Hn as [? _].
Qed.

Lemma history_push tr l b ss sts ss' sts' e :
  match l with LPoll _ => False | _ => True end ->
  history (tr ++ [l]) (mkWt (push_back b e) ss' sts') = history tr (mkWt b ss sts) ++ [e].
Proof. intros H. unfold history. rewrite drained_snoc. destruct l; cbn; rewrite ?app_nil_r, ?app_assoc; done. Qed.

(** A step that reports nothing. *)
Lemma life_silent tr l b ss sts b' ss' sts' :
  life_inv tr (mkWt b ss sts) ->
  history (tr ++ [l]) (mkWt b' ss' sts') = history tr (mkWt b ss sts) ->
  (forall c q, phase_life (phase_of ss c) q = true -> phase_life (phase_of ss' c) q = true) ->
  (forall c, c ∈ sts' -> may_stream (phase_of ss c) = true \/ c ∈ sts) ->
  (forall c, may_stream (phase_of ss c) = true -> may_stream (phase_of ss' c) = true) ->
  life_inv (tr ++ [l]) (mkWt b' ss' sts').
Proof.
  intros Hi Hh Hp Hst Hm c. destruct (Hi c) as [(q & Hq & Hf) Hs]. cbn in *. split.
  - exists q. rewrite Hh. auto.
  - intros Hin. apply Hm. destruct (Hst c Hin); auto.
Qed.

(** A step that reports one event. *)
Lemma life_event tr l b ss sts ss' sts' c0 e :
  match l with LPoll _ => False | _ => True end ->
  life_inv tr (mkWt b ss sts) ->
  event_client e = Some c0 ->
  (forall c, c0 <> c -> phase_of ss' c = phase_of ss c) ->
  (forall q, phase_life (phase_of ss c0) q = true ->
     exists q', life_next q e = Some q' /\ phase_life (phase_of ss' c0) q' = true) ->
  (forall c, c ∈ sts' -> c ∈ sts) ->
  (may_stream (phase_of ss c0) = true -> may_stream (phase_of ss' c0) = true) ->
  life_inv (tr ++ [l]) (mkWt (push_back b e) ss' sts').
Proof.
  intros Hl Hi He Hne Heq Hst Hm c. destruct (Hi c) as [(q & Hq & Hf) Hs]. cbn in *. split.
  - rewrite (history_push _ _ b ss sts) by done. eapply (life_push c0); eauto.
    intros <-. eauto.
  - intros Hin. destruct (decide (c0 = c)) as [->|N]; [by auto|]. rewrite Hne by done. auto.
Qed.

Lemma fresh_client ss s :
  NoDup (se_client <$> (ss ++ [s])) -> se_client s ∉ se_client <$> ss.
Proof.
  rewrite fmap_app. intros (_ & Hd & _)%NoDup_app Hin. by apply (Hd _ Hin), list_elem_of_here.
Qed.

(** The phase of a session and of the others after it has moved. *)
Ltac at_phase :=
  repeat match goal with
  | Hn : NoDup (se_client <$> ?ss), H : ?ss !! _ = Some ?s |- context [phase_of (set_phase _ ?s _ ?ss) _] =>
      rewrite (phase_of_set_phase _ _ _ _ _ Hn H)
  | |- context [decide (se_client ?s = se_client ?s)] => rewrite (decide_True (P := se_client s = se_client s)) by done
  | Hn : NoDup (se_client <$> ?ss), H : ?ss !! _ = Some ?s |- context [phase_of ?ss (se_client ?s)] =>
      rewrite (phase_of_lookup _ _ _ Hn H)
  | H : se_phase ?s = _ |- context [se_phase ?s] => rewrite H
  end.

Ltac quiet := unfold history; rewrite drained_snoc; cbn; by rewrite ?app_nil_r, ?disconnect_events.

Lemma life_task tr b ss sts i s b' p :
  NoDup (se_client <$> ss) -> ss !! i = Some s -> task_step b s = Some (b', p) ->
  life_inv tr (mkWt b ss sts) -> life_inv (tr ++ [LTask (se_client s)]) (mkWt b' (set_phase i s p ss) sts).
Proof.
  intros Hn Hi Ht Hl.
  assert (Ho : forall c, se_client s <> c -> phase_of (set_phase i s p ss) c = phase_of ss c).
  { intros c N. at_phase. by rewrite decide_False. }
  task_cases Ht.
  all: try (eapply life_event; eauto; [|by at_phase]; at_phase; intros []; cbn; eauto; done).
  all: eapply life_silent; eauto; try quiet.
  all: intros c; at_phase; destruct (decide (se_client s = c)) as [<-|_]; at_phase; try done.
  all: by intros [].
Qed.

Lemma life_inv_step tr st l st' :
  NoDup (se_client <$> ws_sessions st') -> wt_step st l st' -> life_inv tr st -> life_inv (tr ++ [l]) st'.
Proof.
  intros Hn Hs Hl. pose proof (clients_step _ _ _ Hs Hn) as Hn0.
  destruct Hs; cbn in Hn, Hn0; [| by eapply life_task | ..].
  - pose proof (fresh_client _ _ Hn) as Hf. eapply life_silent; eauto; try quiet.
    all: intros c'; rewrite phase_of_snoc by done; cbn; case_decide; [subst; by rewrite phase_of_None|done].
  - eapply life_event; eauto. at_phase. intros []; cbn; try done; eauto.
  - eapply life_event; eauto; [..|by at_phase].
    + intros c N. at_phase. by rewrite decide_False.
    + at_phase. intros []; cbn; eauto; done.
  - eapply life_silent; eauto; try quiet.
    intros c. rewrite elem_of_app, list_elem_of_singleton. intros [? | ->]; [by right|]. left. by at_phase.
  - eapply life_silent; eauto; try quiet.
    all: intros c; at_phase; destruct (decide (se_client s = c)) as [<-|_]; at_phase; try done. by intros [].
  - assert (Hsub : forall c', c' ∈ delete j sts -> c' ∈ sts) by (intros c'; apply list_elem_of_delete_inv).
    destruct (stream_event c read) as [e|] eqn:E; [|by eapply life_silent; eauto; quiet].
    destruct (Hl c) as [_ Hm]. specialize (Hm (list_elem_of_lookup_2 _ _ _ H)). cbn in Hm.
    destruct read as [sent|]; cbn in E; [case_match|]; simplify_eq.
    all: eapply life_event; eauto; destruct (phase_of ss c) as [[]|]; try done; intros []; cbn; try done; eauto.
  - eapply life_silent; eauto; quiet.
  - eapply life_silent; eauto; quiet.
  - eapply life_silent; eauto; quiet.
Qed.

(** C16 (refinement): in every interleaving whose random ids differ, what has been reported of each
    client follows the automaton [life_next] and is as far as the client's session: the client is
    announced once and first, then come messages, at most one close of the session and exactly one
    end once its session is done; after the end only what its streams still yield. *)
Theorem client_lifecycle cert_hash validator net tr st c :
  wt_run (wt_init cert_hash validator net) tr st ->
  NoDup (se_client <$> ws_sessions st) ->
  exists q, life_of c (history tr st) = Some q /\ phase_life (phase_of (ws_sessions st) c) q = true.
Proof.
  intros Hr Hn. cut (life_inv tr st); [intros Hi; apply Hi|].
  induction Hr as [|tr st l st' Hr IH Hs].
  - intros c'. split; [by exists LifeNew | intros []%not_elem_of_nil].
  - eapply life_inv_step; eauto using clients_step.
Qed.

(** ** First-message authentication *)

(** The client was accepted on a first message that passes. *)
Definition authenticated (v : option (str -> bool)) tr (c : ClientId) : Prop :=
  exists conn m, LAccept c conn m ∈ tr /\ match v with Some f => first_message_auth f m = true | None => True end.

(** Everyone the bridge knows has authenticated. *)
Definition auth_inv v tr st : Prop :=
  wb_auth_validator (ws_bridge st) = v /\
  (forall s, s ∈ ws_sessions st -> authenticated v tr (se_client s)) /\
  (forall c, c ∈ ws_streams st -> authenticated v tr c) /\
  (forall c conn, wb_connections (ws_bridge st) !! c = Some conn -> authenticated v tr c) /\
  (forall e, e ∈ history tr st -> exists c, event_client e = Some c /\ authenticated v tr c).

Lemma authenticated_snoc v tr l c : authenticated v tr c -> authenticated v (tr ++ [l]) c.
Proof. intros (conn & m & Hin & H). exists conn, m. split; [set_solver|done]. Qed.

Lemma disconnect_connections (b : WebTransportBridge C Net) c :
  wb_connections (bridge_disconnect b c).2 = delete c (wb_connections b).
Proof.
  unfold bridge_disconnect. destruct (wb_connections b !! c) eqn:E; [done|]. cbn. by rewrite delete_id.
Qed.

Lemma stream_event_client c read e : stream_event c read = Some e -> event_client e = Some c.
Proof. destruct read; cbn; [case_match|]; intros; by simplify_eq. Qed.

(** What a step adds concerns the session it is about. *)
Lemma step_events tr st l st' e :
  wt_step st l st' -> e ∈ history (tr ++ [l]) st' ->
  e ∈ history tr st \/
  exists c, event_client e = Some c /\ ((exists s, s ∈ ws_sessions st /\ se_client s = c) \/ c ∈ ws_streams st).
Proof.
  intros Hs. unfold history. rewrite drained_snoc.
  destruct Hs; cbn; rewrite ?app_nil_r, ?disconnect_events; auto;
    try (apply list_elem_of_lookup_2 in H).
  - task_cases H0; cbn; rewrite ?(app_assoc (drained tr)), ?(elem_of_app _ [_]), ?list_elem_of_singleton; auto;
      intros [? | ->]; eauto 8.
  - rewrite app_assoc, (elem_of_app _ [_]), list_elem_of_singleton. intros [? | ->]; eauto 8.
  - rewrite app_assoc, (elem_of_app _ [_]), list_elem_of_singleton. intros [? | ->]; eauto 8.
  - destruct (stream_event c read) eqn:E; cbn; auto. apply stream_event_client in E.
    rewrite app_assoc, (elem_of_app _ [_]), list_elem_of_singleton. intros [? | ->]; eauto 8.
Qed.

Lemma auth_inv_step v tr st l st' : wt_step st l st' -> auth_inv v tr st -> auth_inv v (tr ++ [l]) st'.
Proof.
  intros Hs (Hv & Hss & Hst & Hco & Hev).
  assert (Hhist : forall e, e ∈ history (tr ++ [l]) st' ->
    exists c, event_client e = Some c /\ authenticated v (tr ++ [l]) c).
  { intros e [Hin|(c & Hc & Hin)]%(step_events _ _ _ _ _ Hs).
    - destruct (Hev e Hin) as (c & ? & ?). exists c. auto using authenticated_snoc.
    - exists c. split; [done|]. apply authenticated_snoc. destruct Hin as [(s & ? & <-)|]; auto. }
  assert (Hmove : forall b ss sts i s p, ss !! i = Some s -> st = mkWt b ss sts ->
    forall s', s' ∈ set_phase i s p ss -> authenticated v (tr ++ [l]) (se_client s')).
  { intros b ss sts i s p Hi -> s' Hin. apply authenticated_snoc.
    apply (list_elem_of_fmap_2 se_client) in Hin. rewrite (clients_set_phase _ _ _ _ Hi) in Hin.
    apply list_elem_of_fmap in Hin as (s0 & -> & Hin). by apply Hss. }
  split; [|split; [|split; [|split; [|exact Hhist]]]].
  - destruct Hs; cbn in *; rewrite ?disconnect_validator; try done.
    + task_cases H0; done.
    + by destruct (stream_event c read).
  - destruct Hs; cbn in *; eauto using authenticated_snoc.
    intros s. rewrite elem_of_app, list_elem_of_singleton. intros [? | ->]; eauto using authenticated_snoc.
    exists conn, m. split; [set_solver|]. unfold session_accepted in H. rewrite Hv in H. by destruct v.
  - destruct Hs; cbn in *; eauto using authenticated_snoc, list_elem_of_delete_inv.
    intros c. rewrite elem_of_app, list_elem_of_singleton. intros [? | ->]; eauto using authenticated_snoc, list_elem_of_lookup_2.
  - destruct Hs; cbn in *; eauto using authenticated_snoc.
    + intros c' conn' [(-> & ->)|(? & ?)]%lookup_insert_Some; [|eauto using authenticated_snoc].
      exists conn', m. split; [set_solver|]. unfold session_accepted in H. rewrite Hv in H. by destruct v.
    + task_cases H0; cbn; eauto using authenticated_snoc. intros c conn [_ ?]%lookup_delete_Some. eauto using authenticated_snoc.
    + destruct (stream_event c read); eauto using authenticated_snoc.
    + rewrite disconnect_connections. intros c' conn [_ ?]%lookup_delete_Some. eauto using authenticated_snoc.
Qed.

(** C17 (safety): with a validator, in every interleaving every client an event is about, and every
    client that can be sent to, was accepted with a first message read in time whose first 1024
    bytes are UTF-8 and whose trimmed text the validator accepts; the bridge reports nothing else. *)
Theorem only_authenticated_clients cert_hash validator net tr st :
  wt_run (wt_init cert_hash (Some validator) net) tr st ->
  let let_in c := exists conn data buffer, LAccept c conn (FmRead data) ∈ tr /\
    decode_utf8 (byte_val <$> take 1024 data) = Some buffer /\ validator (trim buffer) = true in
  (forall e, e ∈ history tr st -> exists c, event_client e = Some c /\ let_in c) /\
  (forall c conn, wb_connections (ws_bridge st) !! c = Some conn -> let_in c).
Proof.
  intros Hr let_in.
  assert (Hi : auth_inv (Some validator) tr st).
  { induction Hr as [|tr st l st' Hr IH Hs]; [|by eapply auth_inv_step].
    split; [done|]. repeat split; intros x; set_solver. }
  assert (Ha : forall c, authenticated (Some validator) tr c -> let_in c).
  { intros c (conn & m & Hin & Hm). destruct m as [| | | |data]; try done. cbn in Hm.
    destruct (decode_utf8 _) as [buffer|] eqn:E; [|done]. by exists conn, data, buffer. }
  destruct Hi as (_ & _ & _ & Hco & Hev). split; [|eauto].
  intros e He. destruct (Hev e He) as (c & ? & ?). eauto.
Qed.

(** ** Disconnects *)
Lemma wt_run_split st0 tr1 tr2 st :
  wt_run st0 (tr1 ++ tr2) st -> exists mid, wt_run st0 tr1 mid /\ wt_run mid tr2 st.
Proof.
  revert st. induction tr2 as [|l tr2 IH] using rev_ind; intros st H.
  - rewrite app_nil_r in H. exists st. split; [done|constructor].
  - rewrite app_assoc in H. inversion H as [E|tr mid l' st' Hr Hs E]; [by destruct (tr1 ++ tr2)|].
    apply app_inj_tail in E as [-> ->]. destruct (IH _ Hr) as (m & ? & ?). exists m. split; [done|]. by econstructor.
Qed.

Lemma absent_step st l st' c :
  wt_step st l st' -> (forall conn m, l <> LAccept c conn m) ->
  wb_connections (ws_bridge st) !! c = None -> wb_connections (ws_bridge st') !! c = None.
Proof.
  intros Hs Hl Hc. destruct Hs; cbn in *; try done.
  - rewrite lookup_insert_ne; [done|]. intros ->. by eapply Hl.
  - task_cases H0; cbn; try done. by rewrite lookup_delete_None; right.
  - by destruct (stream_event _ read).
  - rewrite disconnect_connections, lookup_delete_None. by right.
Qed.

(** C32 (safety): once the scheduler has disconnected a client, whatever the tasks do afterwards,
    every send to it fails with [ClientNotConnected] and changes nothing, and so does a second
    disconnect, unless the same random id is drawn again. *)
Theorem disconnected_stays_out cert_hash validator net tr1 c r tr2 st :
  wt_run (wt_init cert_hash validator net) (tr1 ++ LDisconnect c r :: tr2) st ->
  (forall conn m, LAccept c conn m ∉ tr2) ->
  forall data, bridge_send_unreliable (ws_bridge st) c data = (Err (ClientNotConnected c), ws_bridge st) /\
    bridge_send_reliable (ws_bridge st) c data = (Err (ClientNotConnected c), ws_bridge st) /\
    bridge_disconnect (ws_bridge st) c = (Err (ClientNotConnected c), ws_bridge st).
Proof.
  intros Hr Hn. cut (wb_connections (ws_bridge st) !! c = None).
  { intros E data. unfold bridge_send_unreliable, bridge_send_reliable, bridge_disconnect. by rewrite E. }
  apply wt_run_split in Hr as (mid & _ & Hr). change (LDisconnect c r :: tr2) with ([LDisconnect c r] ++ tr2) in Hr.
  apply wt_run_split in Hr as (mid' & H1 & Hr).
  assert (Hc : wb_connections (ws_bridge mid') !! c = None).
  { inversion H1 as [|tr m l m' _ Hs E]; subst. apply (app_inj_tail tr []) in E as [_ ->]. inversion Hs; subst. cbn.
    rewrite disconnect_connections. by rewrite lookup_delete_eq. }
  clear H1 mid. induction Hr as [|tr st l st' Hr IH Hs]; [done|].
  eapply absent_step; [exact Hs | |apply IH; set_solver]. intros conn m ->. apply (Hn conn m). set_solver.
Qed.
End Props.

(** ** Runs by evaluation: a schedule names the task that acts next *)
Section Schedule.
Context {C Net : Type} `{WT : !Wtransport C Net}.

Inductive Action :=
| AAccept (client_id : ClientId) (conn : C) (m : FirstMessage)
| ATask (i : nat)
| ADatagram (i : nat) (data : bytes)
| ADatagramError (i : nat)
| AStream (i : nat)
| AStreamError (i : nat)
| AStreamRead (j : nat) (read : option bytes)
| APoll
| ADisconnect (client_id : ClientId).

Definition reading (ss : list Session) (i : nat) : option Session :=
  s ← ss !! i; match se_phase s with PReading => Some s | _ => None end.

Definition act (st : WtState (C := C) (Net := Net)) (a : Action) : option (WtLabel (C := C) * WtState (C := C) (Net := Net)) :=
  let '(mkWt b ss sts) := st in
  match a with
  | AAccept c conn m =>
      if session_accepted b m
      then Some (LAccept c conn m,
                 mkWt (set_connections b (<[c := conn]> (wb_connections b))) (ss ++ [mkSession c PEntered]) sts)
      else None
  | ATask i => s ← ss !! i; x ← task_step b s; Some (LTask (se_client s), mkWt x.1 (set_phase i s x.2 ss) sts)
  | ADatagram i data =>
      s ← reading ss i; Some (LDatagram (se_client s) data, mkWt (push_back b (UnreliableMessage (se_client s) data)) ss sts)
  | ADatagramError i =>
      s ← reading ss i;
      Some (LDatagramError (se_client s), mkWt (push_back b (SessionClosed (se_client s))) (set_phase i s PEnded ss) sts)
  | AStream i => s ← reading ss i; Some (LStream (se_client s), mkWt b ss (sts ++ [se_client s]))
  | AStreamError i => s ← reading ss i; Some (LStreamError (se_client s), mkWt b (set_phase i s PEnded ss) sts)
  | AStreamRead j read =>
      c ← sts !! j;
      Some (LStreamRead c read,
            mkWt (match stream_event c read with Some e => push_back b e | None => b end) ss (delete j sts))
  | APoll => Some (LPoll (wb_events b), mkWt (set_events b []) ss sts)
  | ADisconnect c =>
      Some (LDisconnect c (bridge_disconnect b c).1, mkWt (bridge_disconnect b c).2 ss sts)
  end.

Lemma reading_Some ss i s : reading ss i = Some s -> ss !! i = Some s /\ se_phase s = PReading.
Proof.
  unfold reading. destruct (ss !! i) as [s'|]; [|done]. cbn. destruct (se_phase s') eqn:E; intros; by simplify_eq.
Qed.

Lemma act_step st a l st' : act st a = Some (l, st') -> wt_step st l st'.
Proof.
  destruct st as [b ss sts], a; cbn; intros H;
    repeat match goal with
    | H : _ ≫= _ = Some _ |- _ => apply bind_Some in H as (? & ? & H)
    | H : reading _ _ = Some _ |- _ => apply reading_Some in H as [? ?]
    end; simplify_eq; try by econstructor.
  - destruct (session_accepted b m) eqn:E; simplify_eq. by constructor.
  - destruct x0. by econstructor.
Qed.

Fixpoint acts st (l : list Action) : option (list (WtLabel (C := C)) * WtState (C := C) (Net := Net)) :=
  match l with
  | [] => Some ([], st)
  | a :: l => x ← act st a; y ← acts x.2 l; Some (x.1 :: y.1, y.2)
  end.

Lemma wt_run_cons st l st' tr st'' : wt_step st l st' -> wt_run st' tr st'' -> wt_run st (l :: tr) st''.
Proof.
  intros Hs Hr. induction Hr as [|tr m l' m' _ IH Hm].
  - exact (wr_snoc _ [] _ _ _ (wr_nil _) Hs).
  - exact (wr_snoc _ (l :: tr) _ _ _ IH Hm).
Qed.

Lemma acts_run st l tr st' : acts st l = Some (tr, st') -> wt_run st tr st'.
Proof.
  revert st tr. induction l as [|a l IH]; intros st tr H; cbn in H; [simplify_eq; constructor|].
  apply bind_Some in H as ([lb mid] & Ha & H). apply bind_Some in H as ([tr' st''] & Hl & H). simplify_eq. cbn in *.
  eapply wt_run_cons; [by eapply act_step | by apply IH].
Qed.
End Schedule.
Arguments ATask {C}.
Arguments ADatagram {C}.
Arguments ADatagramError {C}.
Arguments AStream {C}.
Arguments AStreamError {C}.
Arguments AStreamRead {C}.
Arguments APoll {C}.
Arguments ADisconnect {C}.

(** ** A run: a client authenticates, opens a stream, is disconnected, and the message on the stream
    is read after its end was announced *)
Module WtWitness.

#[export] Instance mini_wt : Wtransport Z unit := {|
  Opening := Z; SendStream := Z;
  wt_send_datagram n _ _ := (Ok (), n); wt_open_bi n c := (Ok c, n); wt_opening n o := (Ok o, n);
  wt_write_all n _ _ := (Ok (), n); wt_finish n _ := (Ok (), n); wt_close n _ _ _ := n |}.

Definition key_t (s : str) : bool := bool_decide (s = [116]).
Abbreviation one := (mkCid 1).

(** The first message is [" t\n"]. *)
Definition hello : bytes := [Byte.x20; Byte.x74; Byte.x0a].
Definition schedule : list (Action (C := Z)) :=
  [AAccept one 7 (FmRead hello); ATask 0; ATask 0; AStream 0; ADisconnect one; ADatagramError 0;
   ATask 0; ATask 0; ATask 0; APoll; AStreamRead 0 (Some [Byte.x05])].

Definition started : WtState (C := Z) (Net := unit) := wt_init [] (Some key_t) tt.
Definition result_of := default ([], started) (acts started schedule).
Definition trace := Eval vm_compute in result_of.1.
Definition final := Eval vm_compute in result_of.2.

Lemma trace_run : wt_run started trace final.
Proof. apply (acts_run started schedule). vm_compute. reflexivity. Qed.

Example reported_so_far : history trace final =
  [ClientConnected one; SessionClosed one; ClientDisconnected one; ReliableMessage one [Byte.x05]].
Proof. vm_compute. reflexivity. Qed.

Lemma client_counter_witness : wb_connected_client_count (ws_bridge final) = 2 ^ 64 - 1.
Proof.
  rewrite (proj2 (client_counter [] (Some key_t) tt trace final trace_run)); [vm_compute; reflexivity|].
  repeat constructor.
Defined.

Lemma client_lifecycle_witness : exists q, life_of one (history trace final) = Some q /\ phase_life (Some PDone) q = true.
Proof.
  refine (client_lifecycle [] (Some key_t) tt trace final one trace_run _).
  apply NoDup_singleton.
Defined.

Lemma only_authenticated_clients_witness :
  exists conn data buffer, LAccept one conn (FmRead data) ∈ trace /\
    decode_utf8 (byte_val <$> take 1024 data) = Some buffer /\ key_t (trim buffer) = true.
Proof.
  destruct (only_authenticated_clients [] key_t tt trace final trace_run) as [H _].
  destruct (H (ReliableMessage one [Byte.x05])) as (c & [= <-] & Ha); [|exact Ha].
  rewrite reported_so_far. set_solver.
Defined.

Lemma disconnected_stays_out_witness :
  bridge_send_reliable (ws_bridge final) one [] = (Err (ClientNotConnected one), ws_bridge final).
Proof.
  refine (proj1 (proj2 (disconnected_stays_out [] (Some key_t) tt (take 4 trace) one (Ok ()) (drop 5 trace) final _ _ []))).
  - exact trace_run.
  - intros conn m. vm_compute. intros H. repeat (apply elem_of_cons in H as [H|H]; [discriminate H|]).
    by apply not_elem_of_nil in H.
Defined.
End WtWitness.
