(* ===== verification/Transports.v ===== *)
(** * The transports together ([main.rs] boxes them into one [MultiTransport])

    The server adds the Renet transport and then the WebTransport bridge to a [MultiTransport].
    The file defines the boxed transport and proves what the composition does that neither part
    does alone: which sends reach a WebTransport client, what the number of clients is, and what
    the scheduler makes of the events of a session that has ended. *)

From stdpp Require Import gmap strings list.
From Stdlib Require Import ZArith Lia.
From S2P Require Import Prelude Text Protocol Tick MultiTransport Renet WebTransport WebTransportProps.

Open Scope Z_scope.

Section Boxed.
Context {S N C Net : Type} `{WP : !WireProtocol, RS : !RenetServer S, NC : !NetcodeTransport S N}.
Context `{WT : !Wtransport C Net, HO : !HashOrder}.
(** The fuel of the loops of the Renet transport. *)
Context (fuel : nat).

(** [Box<dyn PlatformTransport>], of the two types the server uses. *)
Inductive BoxedTransport := BoxRenet (t : RenetTransport S N) | BoxBridge (b : WebTransportBridge C Net).

#[local] Instance renet_pt : PlatformTransport (RenetTransport S N) := renet_transport fuel.
#[local] Instance bridge_pt : PlatformTransport (WebTransportBridge C Net) := bridge_transport.

(** Dynamic dispatch. *)
Definition in_box {X} (f : RenetTransport S N -> X * RenetTransport S N)
    (g : WebTransportBridge C Net -> X * WebTransportBridge C Net) (x : BoxedTransport) : X * BoxedTransport :=
  match x with
  | BoxRenet t => let '(r, t) := f t in (r, BoxRenet t)
  | BoxBridge b => let '(r, b) := g b in (r, BoxBridge b)
  end.

#[local] Instance boxed_transport : PlatformTransport BoxedTransport := {|
  pt_poll_events x :=
    match x with
    | BoxRenet t => '(r, t) ← pt_poll_events t; Ret (r, BoxRenet t)
    | BoxBridge b => '(r, b) ← pt_poll_events b; Ret (r, BoxBridge b)
    end;
  pt_send_unreliable x c d := in_box (fun t => pt_send_unreliable t c d) (fun b => pt_send_unreliable b c d) x;
  pt_send_reliable x c d := in_box (fun t => pt_send_reliable t c d) (fun b => pt_send_reliable b c d) x;
  pt_broadcast_unreliable x d := in_box (fun t => pt_broadcast_unreliable t d) (fun b => pt_broadcast_unreliable b d) x;
  pt_disconnect x c := in_box (fun t => pt_disconnect t c) (fun b => pt_disconnect b c) x;
  pt_connected_client_count x :=
    match x with BoxRenet t => pt_connected_client_count t | BoxBridge b => pt_connected_client_count b end |}.

(** The aggregator of the server. *)
Definition server_transports (t : RenetTransport S N) (b : WebTransportBridge C Net) : list BoxedTransport :=
  add_transport (add_transport multi_new (BoxRenet t)) (BoxBridge b).

(** ** Sending to a WebTransport client *)
Lemma reliable_unknown (b : WebTransportBridge C Net) c data x b' :
  bridge_send_reliable b c data = (Err (ClientNotConnected x), b') -> x = c.
Proof. unfold bridge_send_reliable. intros. repeat case_match; congruence. Qed.

Lemma unreliable_unknown (b : WebTransportBridge C Net) c data x b' :
  bridge_send_unreliable b c data = (Err (ClientNotConnected x), b') -> x = c.
Proof. unfold bridge_send_unreliable. intros. repeat case_match; congruence. Qed.

(** A message to a client that only the WebTransport bridge knows reaches the bridge
    exactly when it fits the datagram limit of the Renet transport, which is asked first: a larger
    one fails with [PayloadTooLarge] although the bridge, which has no such limit, is never asked. *)
Theorem large_message_never_reaches_bridge t b c data :
  mx_poisoned (rt_server t) = false ->
  rn_is_connected (mx_data (rt_server t)) (cid_val c) = false ->
  let len := Z.of_nat (length data) in
  let m := server_transports t b in
  if MAX_SAFE_PAYLOAD_SIZE <? len
  then pt_send_reliable m c data = (Err (PayloadTooLarge len MAX_SAFE_PAYLOAD_SIZE), m) /\
       pt_send_unreliable m c data = (Err (PayloadTooLarge len MAX_SAFE_PAYLOAD_SIZE), m)
  else (let '(r, b') := bridge_send_reliable b c data in
        pt_send_reliable m c data = (r, server_transports t b')) /\
       (let '(r, b') := bridge_send_unreliable b c data in
        pt_send_unreliable m c data = (r, server_transports t b')).
Proof.
  intros Hp Hc len m. unfold m, server_transports, add_transport, multi_new. cbn [app].
  cbn -[Z.ltb]. unfold multi_send_reliable, multi_send_unreliable. cbn -[Z.ltb].
  unfold renet_send_reliable, renet_send_unreliable, renet_send. fold len.
  destruct (Z.ltb_spec MAX_SAFE_PAYLOAD_SIZE len) as [Hl|Hl]; [done|].
  unfold lock. rewrite Hp, Hc. cbn. split.
  - destruct (bridge_send_reliable b c data) as [[[]|[]] b'] eqn:E; try done. by apply reliable_unknown in E as ->.
  - destruct (bridge_send_unreliable b c data) as [[[]|[]] b'] eqn:E; try done. by apply unreliable_unknown in E as ->.
Qed.

(** ** The number of clients *)

(** The number of clients of the whole server is the number of Renet clients and of
    WebTransport sessions less the WebTransport clients the scheduler has disconnected; once more
    of these have been disconnected than there are sessions, the addition overflows as soon as
    there are Renet clients to make up for them. *)
Theorem server_client_count cert_hash validator net tr st t :
  wt_run (wt_init cert_hash validator net) tr st ->
  mx_poisoned (rt_server t) = false ->
  let renet := rn_connected_clients (mx_data (rt_server t)) in
  let live := count_if counted (ws_sessions st) in
  let count := pt_connected_client_count (server_transports t (ws_bridge st)) in
  0 <= renet <= umax 64 -> live <= umax 64 ->
  (kicks tr <= live -> renet + (live - kicks tr) <= umax 64 -> count = Ret (renet + (live - kicks tr))) /\
  (live < kicks tr <= live + renet -> count = Panic).
Proof.
  intros Hr Hp renet live count Hn Hl. pose proof (counter_value _ _ _ _ _ Hr) as E. fold live in E.
  pose proof (count_if_nonneg counted (ws_sessions st)) as H0. fold live in H0.
  assert (Hk : 0 <= kicks tr) by apply count_if_nonneg.
  assert (Ec : count = chk_add 64 renet ((live - kicks tr) mod 2 ^ 64)).
  { unfold count, server_transports, add_transport, multi_new. cbn -[chk_add]. unfold multi_connected_client_count.
    cbn -[chk_add]. unfold renet_connected_client_count, lock. rewrite Hp. cbn -[chk_add]. fold renet.
    rewrite (chk_add_Ret 64 0 renet) by lia. cbn -[chk_add]. rewrite E. by destruct (chk_add _ _ _). }
  rewrite Ec. unfold umax in *. split.
  - intros ? ?. rewrite Z.mod_small by lia. apply chk_add_Ret. unfold umax. lia.
  - intros Hlt. unfold chk_add, umax. replace ((live - kicks tr) mod 2 ^ 64) with (live - kicks tr + 2 ^ 64).
    + rewrite (proj2 (Z.leb_gt _ _)) by lia. done.
    + rewrite <- (Z.mod_add _ 1) by lia. rewrite Z.mod_small by lia. lia.
Qed.
End Boxed.

(** ** The scheduler and sessions that have ended *)
Section Late.
Context {C Net : Type} `{WT : !Wtransport C Net}.
Context {W : Type} `{!WorldState W} {A : Type} `{!AuthSessionVerifier A} {R : Type} `{!Reassembler R}.
Context {EN : Encoder} {WP : WireProtocol} {HO : HashOrder} (env : string -> option string).

(** The client opens a stream, and its connection ends before the stream has been read. *)
Definition late_schedule (c : ClientId) (conn : C) (m : FirstMessage) (data : bytes) : list (Action (C := C)) :=
  [AAccept c conn m; ATask 0; ATask 0; AStream 0; AStreamError 0; ATask 0; ATask 0; ATask 0; AStreamRead 0 (Some data)].

Definition late_history (c : ClientId) (data : bytes) : list NetworkEvent :=
  [ClientConnected c; ClientDisconnected c; ReliableMessage c data].

Lemma stream_event_small c data :
  Z.of_nat (length data) <= MAX_RELIABLE_PAYLOAD_SIZE -> stream_event c (Some data) = Some (ReliableMessage c data).
Proof.
  intros H. unfold stream_event. rewrite take_ge by lia. by rewrite (proj2 (Z.ltb_ge _ _)) by lia.
Qed.

Lemma late_run cert_hash validator (net : Net) c (conn : C) m data :
  session_accepted (bridge_new (C := C) cert_hash validator net) m = true ->
  Z.of_nat (length data) <= MAX_RELIABLE_PAYLOAD_SIZE ->
  exists tr (st : WtState (C := C) (Net := Net)), wt_run (wt_init cert_hash validator net) tr st /\
    history tr st = late_history c data /\
    phase_of (ws_sessions st) c = Some PDone /\ wb_connections (ws_bridge st) !! c = None.
Proof.
  intros Hm Hd.
  destruct (acts (wt_init (C := C) cert_hash validator net) (late_schedule c conn m data)) as [[tr st]|] eqn:E.
  - exists tr, st. split; [by apply acts_run in E|]. revert E.
    unfold late_schedule, wt_init. cbn -[stream_event Z.pow]. rewrite Hm. cbn -[stream_event Z.pow].
    rewrite stream_event_small by done. cbn -[Z.pow]. intros [= <- <-]. cbn -[Z.pow].
    split; [done|]. rewrite decide_True by done. split; [done|]. by rewrite lookup_delete_eq.
  - exfalso. revert E. unfold late_schedule, wt_init. cbn -[stream_event Z.pow]. rewrite Hm. done.
Qed.

(** C38 (error): a client whose connection has ended can still authenticate.  The stream with its
    authentication message is read by a task of its own, so the bridge can report the message after
    the end of the session; the scheduler, which has forgotten the client by then, enters it again
    with the session of the token.  The client is authenticated although its session is over and it
    has no connection to send to. *)
Theorem late_auth_reenters_client cert_hash validator (net : Net) c (conn : C) m data token session tick :
  session_accepted (bridge_new (C := C) cert_hash validator net) m = true ->
  Z.of_nat (length data) <= MAX_RELIABLE_PAYLOAD_SIZE ->
  decode_event data = Ok (Auth token) ->
  exists tr (st : WtState (C := C) (Net := Net)), wt_run (wt_init cert_hash validator net) tr st /\
    phase_of (ws_sessions st) c = Some PDone /\ wb_connections (ws_bridge st) !! c = None /\
    forall (cx : Ctx A R W) auth,
      av_verify_session (ts_auth_service (cx_sched cx)) token (Some tick) = (Ok session, auth) ->
      exists cx', for_each (process_event env tick) cx (history tr st) = Ret cx' /\
        ts_authenticated_clients (cx_sched cx') !! c = Some (session, None).
Proof.
  intros Hm Hd Ha. destruct (late_run cert_hash validator net c conn m data Hm Hd) as (tr & st & Hr & Hh & Hp & Hc).
  exists tr, st. split; [done|]. split; [done|]. split; [done|]. intros cx auth Hv. rewrite Hh.
  unfold late_history. cbn. unfold process_event at 1. cbn. rewrite Ha. unfold authenticate. cbn.
  rewrite lookup_delete_eq, Ha, Hv. cbn. eexists. split; [reflexivity|]. cbn. by rewrite lookup_insert_eq.
Qed.
End Late.
