(* ===== verification/TickProps.v ===== *)
(** * Properties of the tick scheduler

    Proved for every world, session verifier, transport, encoder, reassembler and iteration
    order: who is in the client table and how a message gets past it, which commands need the
    administrator session, who receives which change, and how large messages are split. *)

From stdpp Require Import gmap strings list pretty.
From Stdlib Require Import ZArith Lia.
From S2P Require Import Prelude F32 Protocol Auth Config Tick.

Open Scope Z_scope.

Section TickProps.
Context {W : Type} `{WS : !WorldState W} {A : Type} `{AV : !AuthSessionVerifier A}.
Context {R : Type} `{RE : !Reassembler R} {T : Type} `{PT : !PlatformTransport T}.
Context {EN : Encoder} {WP : WireProtocol} {HO : HashOrder}.
Context (env : string -> option string) (golden_write : list Z -> bool).

Abbreviation scheduler := (TickScheduler A R).
Abbreviation ctx := (Ctx A R W).
Abbreviation clients cx := (ts_authenticated_clients (cx_sched cx)).
Implicit Types (s : scheduler) (cx : ctx) (w : W).

(** ** Iteration *)
Lemma hm_iter_in {V} (m : gmap ClientId V) c v : (c, v) ∈ hm_iter m <-> m !! c = Some v.
Proof. by rewrite (hm_iter_perm m), elem_of_map_to_list. Qed.

Lemma hm_iter_NoDup {V} (m : gmap ClientId V) : NoDup (hm_iter m).*1.
Proof. rewrite (hm_iter_perm m). apply NoDup_fst_map_to_list. Qed.

Lemma hm_keys_in {V} (m : gmap ClientId V) c : c ∈ (hm_iter m).*1 <-> is_Some (m !! c).
Proof.
  rewrite list_elem_of_fmap. split.
  - intros ([c' v] & -> & H%hm_iter_in). by eexists.
  - intros [v H%hm_iter_in]. by exists (c, v).
Qed.

(** ** The client table *)

(** No two clients share a player, and every session satisfies [good]. *)
Record table_ok (good : VerifiedSession -> Prop) (tbl : ClientTable) : Prop := {
  to_unique : forall c1 c2 v1 v2 a1 a2, tbl !! c1 = Some (v1, a1) -> tbl !! c2 = Some (v2, a2) ->
    vs_player_id v1 = vs_player_id v2 -> c1 = c2;
  to_good : forall c v a, tbl !! c = Some (v, a) -> good v }.

Section Table.
Context (good : VerifiedSession -> Prop).
Abbreviation ok cx := (table_ok good (clients cx)).

Lemma table_ok_empty : table_ok good ∅.
Proof. split; intros until 0; rewrite lookup_empty; done. Qed.

Lemma table_ok_delete tbl c : table_ok good tbl -> table_ok good (delete c tbl).
Proof.
  intros [Hu Hg]. split; [intros until 0 | intros until 0]; rewrite !lookup_delete_Some;
    naive_solver.
Qed.

Lemma table_ok_agent tbl c a :
  table_ok good tbl -> table_ok good (alter (fun e => (e.1, a)) c tbl).
Proof.
  intros [Hu Hg]. assert (forall c' v' a', alter (fun e => (e.1, a)) c tbl !! c' = Some (v', a') ->
    exists a'', tbl !! c' = Some (v', a'')) as H.
  { intros c' v' a'. rewrite lookup_alter. case_decide; [|eauto].
    subst. destruct (tbl !! c') as [[s1 a1]|]; cbn; [|done]. intros [= <- <-]. eauto. }
  split.
  - intros c1 c2 v1 v2 a1 a2 [? H1]%H [? H2]%H. by eapply Hu.
  - intros c1 v1 a1 [? H1]%H. by eapply Hg.
Qed.

Lemma drop_client_table cx c : clients (drop_client cx c) = delete c (clients cx).
Proof. done. Qed.

Lemma drop_all_table (f : ctx -> ClientId -> ctx) l cx c :
  (forall cx c, clients (f cx c) = delete c (clients cx)) ->
  clients (foldl f cx l) !! c = if decide (c ∈ l) then None else clients cx !! c.
Proof.
  intros Hf. revert cx. induction l as [|c' l IH]; intros cx; cbn; [done|].
  rewrite IH, Hf, lookup_delete. repeat case_decide; set_solver.
Qed.

Lemma table_ok_drop_all (f : ctx -> ClientId -> ctx) l cx :
  (forall cx c, clients (f cx c) = delete c (clients cx)) -> ok cx -> ok (foldl f cx l).
Proof.
  intros Hf. revert cx. induction l as [|c l IH]; intros cx H; cbn; [done|].
  apply IH. rewrite Hf. by apply table_ok_delete.
Qed.

Lemma validate_sessions_ok tick cx : ok cx -> ok (validate_sessions tick cx).
Proof.
  intros H. unfold validate_sessions. destruct (is_multiple_of tick 60); [|done].
  destruct (foldl _ _ _) as [auth l]. by apply table_ok_drop_all.
Qed.

Lemma normalize_ok cx ev : ok cx -> ok (normalize cx ev).2.
Proof.
  intros H. assert (forall c fr, ok (ingest cx c fr).2) as Hi.
  { intros. unfold ingest. by destruct (re_ingest _ _ _). }
  destruct ev; cbn; try done; try (by apply table_ok_delete); repeat case_match; try done; apply Hi.
Qed.

(** A verified session takes the place of the player's other sessions. *)
Lemma table_ok_login cx c session :
  good session -> ok cx ->
  table_ok good (<[c := (session, None)]>
    (clients (foldl (fun cx old => push_disconnect (drop_client cx old) old) cx
                (ghosts cx c (vs_player_id session))))).
Proof.
  intros Hgood [Hu Hg].
  set (tbl := clients (foldl _ _ _)).
  assert (Htbl : forall c', tbl !! c' =
    if decide (c' ∈ ghosts cx c (vs_player_id session)) then None else clients cx !! c').
  { intros c'. by apply drop_all_table. }
  assert (Hne : forall c' v' a', c' <> c -> tbl !! c' = Some (v', a') ->
    clients cx !! c' = Some (v', a') /\ vs_player_id v' <> vs_player_id session).
  { intros c' v' a' Hc. rewrite Htbl. case_decide as Hgh; [done|]. intros H. split; [done|].
    intros Hp. apply Hgh. unfold ghosts. apply list_elem_of_fmap. exists (c', (v', a')).
    split; [done|]. apply list_elem_of_filter. split; [done|]. by apply hm_iter_in. }
  split.
  - intros c1 c2 v1 v2 a1 a2. rewrite !lookup_insert. repeat case_decide; subst; try done.
    + intros [= <- <-] [H1 H2]%Hne; [|done]. congruence.
    + intros [H1 H2]%Hne [= <- <-]; [|done]. congruence.
    + intros [H1 _]%Hne [H2 _]%Hne; [|done..]. by eapply Hu.
  - intros c' v' a'. rewrite lookup_insert. case_decide; [by intros [= <- <-]|].
    intros [Hc' _]%Hne; [|done]. by eapply Hg.
Qed.

(** ** The table over a tick, for a verifier with an invariant *)
Context (IA : A -> Prop).

(** What the verifier promises: it keeps its invariant, and verifies only good sessions. *)
Record verifier_ok : Prop := {
  vo_verify : forall a token tick r a', IA a -> av_verify_session a token tick = (r, a') ->
    IA a' /\ forall v, r = Ok v -> good v;
  vo_authorized : forall a jti tick b a', IA a -> av_is_session_authorized a jti tick = (b, a') ->
    IA a' }.

(** The recording flag is fixed. *)
Context (zero : bool).

Record sched_ok s : Prop := {
  so_auth : IA (ts_auth_service s);
  so_table : table_ok good (ts_authenticated_clients s);
  so_zero : ts_spawn_at_zero s = zero }.
Abbreviation cok cx := (sched_ok (cx_sched cx)).

Context (HV : verifier_ok).

Lemma drop_client_ok cx c : cok cx -> cok (drop_client cx c).
Proof. intros [Ha Ht Hz]. split; cbn; [done | by apply table_ok_delete | done]. Qed.

Lemma kick_all_ok l cx :
  cok cx -> cok (foldl (fun cx old => push_disconnect (drop_client cx old) old) cx l).
Proof. intros H. apply foldl_inv; [done|]. intros cx' c _ H'. by apply drop_client_ok. Qed.

Lemma validate_ok tick cx : cok cx -> cok (validate_sessions tick cx).
Proof.
  intros [Ha Ht Hz]. unfold validate_sessions. destruct (is_multiple_of tick 60); [|done].
  assert (IA (foldl (validate_client tick) (ts_auth_service (cx_sched cx), [])
                (hm_iter (clients cx))).1) as Ha'.
  { apply (foldl_inv (fun acc => IA acc.1)); [done|]. intros [auth l] [c [v a]] _ H. cbn in *.
    destruct (av_is_session_authorized auth _ _) as [b auth'] eqn:E.
    by apply (vo_authorized HV) in E. }
  destruct (foldl _ _ _) as [auth l]. by apply kick_all_ok.
Qed.

Lemma normalize_cok cx ev : cok cx -> cok (normalize cx ev).2.
Proof.
  intros [Ha Ht Hz].
  assert (forall c fr, IA (ts_auth_service (cx_sched (ingest cx c fr).2)) /\
    ts_spawn_at_zero (cx_sched (ingest cx c fr).2) = zero) as Hi.
  { intros. unfold ingest. by destruct (re_ingest _ _ _). }
  split; [|by apply normalize_ok|]; destruct ev; cbn; repeat case_match; try done; apply Hi.
Qed.

Lemma authenticate_ok tick cx c raw : cok cx -> cok (authenticate tick cx c raw).2.
Proof.
  intros Hok. pose proof Hok as [Ha Ht Hz]. unfold authenticate.
  destruct (clients cx !! c) as [[v a]|] eqn:Ec.
  - destruct (av_is_session_authorized _ _ _) as [b auth] eqn:E.
    apply (vo_authorized HV) in E; [|done]. destruct b; cbn [snd]; [by split|].
    by apply drop_client_ok.
  - destruct (decode_event raw) as [[]|]; try done.
    destruct (av_verify_session _ _ _) as [r auth] eqn:E.
    apply (vo_verify HV) in E as [Ha' Hg]; [|done]. destruct r as [v|]; cbn [snd]; [|by split].
    assert (cok (upd_sched cx (set_auth_service (cx_sched cx) auth))) as Hok' by (by split).
    apply (kick_all_ok (ghosts (upd_sched cx (set_auth_service (cx_sched cx) auth)) c
                          (vs_player_id v))) in Hok'.
    split; cbn; [apply Hok' | apply table_ok_login; auto | apply Hok'].
Qed.

(** Handling an event changes the table at most in the client's agent. *)
Lemma handle_event_table cx c v ev cx' :
  handle_event env cx c v ev = Ret cx' ->
  ts_auth_service (cx_sched cx') = ts_auth_service (cx_sched cx) /\
  ts_spawn_at_zero (cx_sched cx') = ts_spawn_at_zero (cx_sched cx) /\
  (clients cx' = clients cx \/
   exists a, clients cx' = alter (fun e => (e.1, a)) c (clients cx)).
Proof.
  destruct ev; cbn; try (intros [= <-]; by eauto).
  - case_match; intros [= <-]; cbn; eauto.
  - unfold start_session. destruct (clients cx !! c) as [[v' [n|]]|] eqn:E; [| |by intros [= <-]; eauto].
    + intros [= <-]. cbn. eauto.
    + intros H. exec_inv. destruct a as [nid cx1]. exec_inv. destruct a0 as [nid' w].
      injection Ha as <- <-. cbn. eauto.
  - case_match eqn:Hc; [|intros [= <-]; eauto]. intros HE. exec_inv. cbn. eauto.
  - case_match eqn:Hc; [|intros [= <-]; eauto]. intros HE. exec_inv. destruct a. exec_inv. cbn. eauto.
Qed.

Lemma process_event_ok tick cx ev cx' :
  cok cx -> process_event env tick cx ev = Ret cx' -> cok cx'.
Proof.
  intros Hok. unfold process_event. apply (normalize_cok _ ev) in Hok.
  destruct (normalize cx ev) as [[[c raw]|] cx1]; cbn in Hok; [|by intros [= <-]].
  apply (authenticate_ok tick _ c raw) in Hok.
  destruct (authenticate tick cx1 c raw) as [[v|] cx2]; cbn in Hok; [|by intros [= <-]].
  destruct (decode_event raw) as [pe|].
  - intros (Ha & Hz & Ht)%handle_event_table. destruct Hok as [Hok1 Hok2 Hok3].
    split; [by rewrite Ha | | congruence]. destruct Ht as [->|[a ->]]; [done | by apply table_ok_agent].
  - destruct (decode raw); intros [= <-]; done.
Qed.

Lemma apply_events_ok tick cx evs cx' :
  cok cx -> apply_events env tick cx evs = Ret cx' -> cok cx'.
Proof.
  intros Hok. unfold apply_events. destruct evs as [|ev evs]; [by intros [= <-]|].
  intros H. apply bind_Ret_inv in H as (cx1 & H & [= <-]).
  assert (cok cx1) as [Ha Ht Hz]; [|by split].
  eapply (for_each_pres (fun cx => cok cx)); [exact H | done |]. intros. by eapply process_event_ok.
Qed.

(** Sending does not touch the table or the verifier. *)
Lemma send_outbound_frame s m :
  ts_auth_service (send_outbound s m) = ts_auth_service s /\
  ts_authenticated_clients (send_outbound s m) = ts_authenticated_clients s /\
  ts_spawn_at_zero (send_outbound s m) = ts_spawn_at_zero s.
Proof. unfold send_outbound. by destruct (ts_outbound_tx s). Qed.

Lemma send_outbound_ok s m : sched_ok s -> sched_ok (send_outbound s m).
Proof. intros [Ha Ht Hz]. destruct (send_outbound_frame s m) as (H1 & H2 & H3). split; congruence. Qed.

Lemma send_reliable_ok s ev : sched_ok s -> sched_ok (send_reliable_event s ev).
Proof.
  intros H. unfold send_reliable_event. apply (foldl_inv sched_ok); [done|]. intros s' c _ H'. unfold send_reliable_to.
  destruct (encode_event _); [by apply send_outbound_ok | done].
Qed.

Lemma send_fragments_ok m n tg i cs s k : sched_ok s -> sched_ok (send_fragments m n tg i cs s k).1.
Proof.
  revert i s k. induction cs as [|c cs IH]; intros i s k H; cbn; [done|].
  destruct (u16_try_from i); [|done]. destruct (encode_event _); [|by apply IH].
  destruct tg; apply IH; [by apply send_outbound_ok | | done].
  apply foldl_inv; [done|]. intros. by apply send_outbound_ok.
Qed.

Lemma send_batch_ok s b s' : sched_ok s -> send_batch s b = Ret s' -> sched_ok s'.
Proof.
  intros H. unfold send_batch. destruct b.2; [|by intros [= <-]].
  case_match; [|intros [= <-]; by apply send_outbound_ok].
  intros HE. apply bind_Ret_inv in HE as ([r s1] & HE & [= <-]). revert HE.
  unfold fragment_and_send. destruct (ts_outbound_tx s); [|by intros [= _ <-]].
  intros HE. exec_inv. revert HE. destruct (u16_try_from _); [|intros [= _ <-]; by destruct H].
  match goal with |- context [send_fragments ?m ?n ?tg ?i ?cs ?s0 ?k] =>
    pose proof (send_fragments_ok m n tg i cs s0 k) as Hf;
    destruct (send_fragments m n tg i cs s0 k) end.
  intros [= _ <-]. apply Hf. by destruct H.
Qed.

Lemma send_deltas_ok s w ds s' : sched_ok s -> send_deltas s w ds = Ret s' -> sched_ok s'.
Proof.
  intros H. unfold send_deltas. destruct ds; [by intros [= <-]|]. intros HE.
  eapply (for_each_pres sched_ok); [exact HE | done |]. intros. by eapply send_batch_ok.
Qed.

Lemma tick_step_ok s w (t : T) s' w' t' :
  sched_ok s -> tick_step env golden_write s w t = Ret (TickDone s' w' t') -> sched_ok s'.
Proof.
  intros Hok H. unfold tick_step in H. apply bind_Ret_inv in H as ([[tick s1] w1] & Hb & H).
  assert (sched_ok s1) as Hok1.
  { clear H. unfold begin_tick in Hb. exec_inv. by destruct Hok. }
  apply bind_Ret_inv in H as ([[evs|] t1] & _ & H); [|by injection H as <- _ _].
  apply bind_Ret_inv in H as (cx & Hev & H).
  assert (cok cx) as [Ha Ht Hz].
  { eapply apply_events_ok; [|exact Hev]. apply validate_ok. by destruct Hok1. }
  apply bind_Ret_inv in H as (w2 & _ & H). unfold extract_stage in H.
  destruct (ws_extract_deltas w2) as [ds w3]. case_match eqn:Ex; [|done].
  apply bind_Ret_inv in H as (s3 & Hs & H). injection H as <- _ _.
  eapply send_deltas_ok; [|exact Hs]. apply foldl_inv; [|intros; by apply send_reliable_ok].
  revert Ex. case_match; [done|]. destruct (ws_extract_reliable_events w3).
  intros [= <- _ _ _]. destruct (ts_recording_ticks _); [case_match|]; by split.
Qed.
End Table.

(** ** What a tick does to the world *)

(** The calls of the [WorldState] trait; the playground commands only where they are allowed. *)
Inductive world_call (playground : bool) (w : W) : W -> Prop :=
| wc_advance : world_call playground w (ws_advance_tick w)
| wc_despawn n : world_call playground w (ws_despawn_networked w n).2
| wc_session_agent k x y r c n w' :
    ws_spawn_session_agent w k x y r c = Ret (n, w') -> world_call playground w w'
| wc_queue c e : world_call playground w (ws_queue_reliable_event w c e)
| wc_updates us : world_call playground w (ws_apply_updates w us)
| wc_simulate w' : ws_simulate w = Ret w' -> world_call playground w w'
| wc_deltas : world_call playground w (ws_extract_deltas w).2
| wc_reliable : world_call playground w (ws_extract_reliable_events w).2
| wc_post_extract : world_call playground w (ws_post_extract w)
| wc_stress n b w' : playground = true -> ws_stress_test w n b = Ret w' -> world_call playground w w'
| wc_spawn k x y r c n w' : playground = true ->
    ws_spawn_kind_for w k x y r c = Ret (n, w') -> world_call playground w w'
| wc_clear : playground = true -> world_call playground w (ws_clear_world w).

Section World.
(** [playground] is set where some client of the table, or a session the verifier can still
    verify, may run playground commands. *)
Context (playground : bool) (IA : A -> Prop).
Definition may_play (v : VerifiedSession) : Prop :=
  can_run_playground_command env (vs_jti v) = true -> playground = true.
Context (HV : verifier_ok may_play IA) (zero : bool) (HZ : zero = true -> playground = true).
Abbreviation calls := (rtc (world_call playground)).

Lemma drop_client_world cx c : calls (cx_world cx) (cx_world (drop_client cx c)).
Proof.
  unfold drop_client. cbn. destruct (clients cx !! c) as [[? [n|]]|]; try done.
  apply rtc_once. constructor.
Qed.

Lemma kick_all_world l cx :
  calls (cx_world cx)
    (cx_world (foldl (fun cx old => push_disconnect (drop_client cx old) old) cx l)).
Proof.
  revert cx. induction l as [|c l IH]; intros cx; cbn; [done|].
  etrans; [apply (drop_client_world cx c) | apply (IH (push_disconnect (drop_client cx c) c))].
Qed.

Lemma validate_world tick cx : calls (cx_world cx) (cx_world (validate_sessions tick cx)).
Proof.
  unfold validate_sessions. destruct (is_multiple_of tick 60); [|done].
  destruct (foldl _ _ _) as [auth l].
  apply (kick_all_world l (upd_sched cx (set_auth_service (cx_sched cx) auth))).
Qed.

Lemma normalize_world cx ev : calls (cx_world cx) (cx_world (normalize cx ev).2).
Proof.
  assert (forall c fr, cx_world (ingest cx c fr).2 = cx_world cx) as Hi.
  { intros. unfold ingest. by destruct (re_ingest _ _ _). }
  destruct ev; cbn; try done; try apply drop_client_world; repeat case_match; rewrite ?Hi; done.
Qed.

Lemma authenticate_world tick cx c raw :
  calls (cx_world cx) (cx_world (authenticate tick cx c raw).2).
Proof.
  unfold authenticate. destruct (clients cx !! c) as [[v a]|] eqn:Ec.
  - destruct (av_is_session_authorized _ _ _) as [b auth].
    destruct b; cbn [snd]; [done|]. apply (drop_client_world (upd_sched cx _)).
  - destruct (decode_event raw) as [[]|]; try done.
    destruct (av_verify_session _ _ _) as [[v|] auth]; cbn [snd]; [|done].
    apply (kick_all_world _ (upd_sched cx (set_auth_service (cx_sched cx) auth))).
Qed.

Lemma authenticate_session tick cx c raw v cx' :
  authenticate tick cx c raw = (Some v, cx') ->
  (exists a, clients cx !! c = Some (v, a)) /\ clients cx' = clients cx.
Proof.
  unfold authenticate. destruct (clients cx !! c) as [[v' a]|] eqn:Ec.
  - destruct (av_is_session_authorized _ _ _) as [[] auth]; [|done]. intros [= <- <-]. eauto.
  - repeat case_match; done.
Qed.

Lemma handle_event_world cx c v ev cx' :
  may_play v -> handle_event env cx c v ev = Ret cx' -> calls (cx_world cx) (cx_world cx').
Proof.
  intros Hv. unfold may_play in Hv. destruct ev; cbn; try (by intros [= <-]).
  - case_match; intros [= <-]; [|done]. apply rtc_once, wc_clear. auto.
  - unfold start_session. destruct (clients cx !! c) as [[v' [n|]]|]; [| |by intros [= <-]].
    + intros [= <-]. apply rtc_once. constructor.
    + intros HE. exec_inv. destruct a as [nid cx1]. exec_inv. destruct a0 as [nid' w].
      injection Ha as <- <-. cbn. eapply rtc_l; [by eapply wc_session_agent|].
      apply rtc_once. constructor.
  - intros [= <-]. apply rtc_once. constructor.
  - case_match; [|by intros [= <-]]. intros HE. exec_inv. apply rtc_once.
    eapply wc_stress; [auto | exact Ha].
  - case_match; [|by intros [= <-]]. intros HE. exec_inv. destruct a as [n w]. exec_inv.
    apply rtc_once. eapply wc_spawn; [auto | exact Ha].
Qed.

Lemma process_event_world tick cx ev cx' :
  sched_ok may_play IA zero (cx_sched cx) -> process_event env tick cx ev = Ret cx' ->
  calls (cx_world cx) (cx_world cx').
Proof.
  intros Hok. unfold process_event. pose proof (normalize_world cx ev) as Hw1.
  apply (normalize_cok _ _ _ _ ev) in Hok.
  destruct (normalize cx ev) as [[[c raw]|] cx1]; cbn in *; [|by intros [= <-]].
  pose proof (authenticate_world tick cx1 c raw) as Hw2.
  destruct (authenticate tick cx1 c raw) as [[v|] cx2] eqn:Ea; cbn in *;
    [|intros [= <-]; by etrans].
  apply authenticate_session in Ea as [[a Hc] _]. apply (to_good _ _ (so_table _ _ _ _ Hok)) in Hc.
  destruct (decode_event raw) as [pe|].
  - intros HE%handle_event_world; [|done]. etrans; [exact Hw1|]. by etrans.
  - destruct (decode raw); intros [= <-]; by etrans.
Qed.

Lemma apply_events_world tick cx evs cx' :
  sched_ok may_play IA zero (cx_sched cx) -> apply_events env tick cx evs = Ret cx' ->
  calls (cx_world cx) (cx_world cx').
Proof.
  intros Hok. unfold apply_events. destruct evs as [|ev evs]; [by intros [= <-]|].
  intros H. apply bind_Ret_inv in H as (cx1 & H & [= <-]). cbn.
  eapply rtc_r; [|apply wc_updates].
  assert (sched_ok may_play IA zero (cx_sched cx1) /\ calls (cx_world cx) (cx_world cx1)) as [_ Hc]; [|done].
  eapply (for_each_pres (fun cx' => sched_ok may_play IA zero (cx_sched cx') /\
            calls (cx_world cx) (cx_world cx'))); [exact H | by split |].
  intros cx2 ev' cx3 _ [H2 Hw] HE. split; [by eapply process_event_ok|].
  etrans; [exact Hw | by eapply process_event_world].
Qed.

(** The world a tick leaves is reached by calls of the trait alone. *)
Lemma tick_step_world s w (t : T) s' w' t' :
  sched_ok may_play IA zero s ->
  tick_step env golden_write s w t = Ret (TickDone s' w' t') -> calls w w'.
Proof.
  intros Hok H. unfold tick_step in H. apply bind_Ret_inv in H as ([[tick s1] w1] & Hb & H).
  assert (sched_ok may_play IA zero s1 /\ calls w w1) as [Hok1 Hw1].
  { clear H. unfold begin_tick in Hb. exec_inv. split; [by destruct Hok|]. eapply rtc_l; [apply wc_advance|].
    destruct ((ts_current_tick s =? 0) && ts_spawn_at_zero s) eqn:E; [|by injection Ha0 as <-].
    apply andb_true_iff in E as [_ E]. apply rtc_once. eapply wc_stress; [|exact Ha0].
    apply HZ. rewrite <- E. symmetry. apply Hok. }
  apply bind_Ret_inv in H as ([[evs|] t1] & _ & H); [|by injection H as _ <- _].
  apply bind_Ret_inv in H as (cx & Hev & H).
  assert (calls w1 (cx_world cx)) as Hw2.
  { etrans; [apply (validate_world tick (mkCtx s1 w1 [] [] [] []))|].
    eapply apply_events_world; [|exact Hev]. by apply validate_ok. }
  apply bind_Ret_inv in H as (w2 & Hsim & H). unfold extract_stage in H.
  pose proof (wc_deltas playground w2) as Hw3. destruct (ws_extract_deltas w2) as [ds w3].
  pose proof (wc_reliable playground w3) as Hw4.
  destruct (ws_extract_reliable_events w3) as [rs w4]. cbn in *.
  case_match eqn:Ex; [|done]. apply bind_Ret_inv in H as (s3 & _ & H). injection H as _ <- _.
  revert Ex. case_match; [done|]. intros [= _ <- _ _].
  etrans; [exact Hw1|]. etrans; [exact Hw2|]. eapply rtc_l; [by apply wc_simulate|].
  eapply rtc_l; [exact Hw3|]. eapply rtc_l; [exact Hw4|]. apply rtc_once, wc_post_extract.
Qed.
End World.

(** ** Chunks *)
Lemma chunks_fuel_concat {X} fuel n (l : list X) :
  (0 < n)%nat -> (length l <= fuel)%nat -> mjoin (chunks_fuel fuel n l) = l.
Proof.
  intros Hn. revert l. induction fuel as [|fuel IH]; intros l Hl.
  - destruct l; [done | cbn in Hl; lia].
  - destruct l as [|x l]; [done|]. cbn [chunks_fuel mjoin list_join].
    change (take n (x :: l) ++ mjoin (chunks_fuel fuel n (drop n (x :: l))) = x :: l).
    rewrite IH; [apply take_drop|]. rewrite length_drop. cbn in *. lia.
Qed.

Lemma chunks_concat {X} n (l : list X) : (0 < n)%nat -> mjoin (chunks n l) = l.
Proof. intros. by apply chunks_fuel_concat. Qed.

Lemma chunks_fuel_length {X} fuel n (l : list X) :
  Forall (fun c => length c <= n)%nat (chunks_fuel fuel n l).
Proof.
  revert l. induction fuel as [|fuel IH]; intros [|x l]; cbn; constructor; [|apply IH].
  change (length (take n (x :: l)) <= n)%nat. rewrite length_take. lia.
Qed.

(** ** Batches *)
Lemma push_batch_lookup d l b c :
  NoDup l ->
  foldl (push_batch d) b l !! c =
  if decide (c ∈ l) then Some (default [] (b !! c) ++ [d]) else b !! c.
Proof.
  intros Hnd. revert b. induction Hnd as [|c' l Hni Hnd IH]; intros b; cbn; [done|].
  rewrite IH. unfold push_batch. rewrite lookup_insert.
  destruct (decide (c' = c)) as [->|Hne].
  - rewrite decide_False by done. rewrite decide_True by set_solver. done.
  - destruct (decide (c ∈ l)); [rewrite decide_True by set_solver | rewrite decide_False by set_solver];
      done.
Qed.

(** Whether client [c] sees the changes of the entity of [d]: the entity is in no workspace, or
    in the client's. *)
Definition visible w (c : ClientId) (d : ReplicationEvent) : Prop :=
  forall ws, ws_get_entity_workspace w (re_network_id d) = Some ws ->
    ws_get_client_workspace w c = Some ws.
#[local] Instance visible_dec w c d : Decision (visible w c d).
Proof.
  unfold visible. destruct (ws_get_entity_workspace w (re_network_id d)) as [ws|].
  - destruct (decide (ws_get_client_workspace w c = Some ws)); [left | right]; naive_solver.
  - left. done.
Defined.

Lemma target_clients_in w cls d c :
  c ∈ target_clients cls (get_delta_targets w cls (re_network_id d)) <->
  is_Some (cls !! c) /\ visible w c d.
Proof.
  unfold get_delta_targets, visible.
  destruct (ws_get_entity_workspace w (re_network_id d)) as [ws|]; cbn.
  - rewrite <- hm_keys_in. transitivity (c ∈ filter (fun c => ws_get_client_workspace w c = Some ws) (hm_iter cls).*1).
    + by destruct (filter _ _).
    + rewrite list_elem_of_filter. naive_solver.
  - rewrite hm_keys_in. naive_solver.
Qed.

Lemma target_clients_NoDup w cls n : NoDup (target_clients cls (get_delta_targets w cls n)).
Proof.
  unfold get_delta_targets. destruct (ws_get_entity_workspace w n) as [ws|]; [|apply hm_iter_NoDup].
  assert (NoDup (filter (fun c => ws_get_client_workspace w c = Some ws) (hm_iter cls).*1)) as H
    by apply NoDup_filter, hm_iter_NoDup.
  cbn. by destruct (filter _ _).
Qed.

Lemma batches_lookup w cls ds b c :
  foldl (add_delta w cls) b ds !! c =
  if decide (is_Some (cls !! c) /\ filter (visible w c) ds <> [])
  then Some (default [] (b !! c) ++ filter (visible w c) ds) else b !! c.
Proof.
  revert b. induction ds as [|d ds IH]; intros b; cbn [foldl].
  - rewrite decide_False by naive_solver. done.
  - rewrite IH. unfold add_delta at 1 2.
    rewrite push_batch_lookup by apply target_clients_NoDup.
    destruct (decide (visible w c d)) as [Hv|Hv];
      [rewrite filter_cons_True by done | rewrite filter_cons_False by done].
    + destruct (decide (is_Some (cls !! c))) as [Hc|Hc].
      * rewrite !(decide_True (P := c ∈ _)) by (by apply target_clients_in).
        rewrite (decide_True (P := _ /\ _ :: _ <> [])) by done. cbn [from_option id].
        destruct (decide (is_Some (cls !! c) /\ filter (visible w c) ds <> [])) as [|Hn].
        -- by rewrite <- app_assoc.
        -- destruct (filter (visible w c) ds); [done|]. destruct Hn. done.
      * rewrite !(decide_False (P := c ∈ _)) by (rewrite target_clients_in; naive_solver).
        rewrite !decide_False by naive_solver. done.
    + rewrite !(decide_False (P := c ∈ _)) by (rewrite target_clients_in; naive_solver). done.
Qed.

(** ** Fragments *)

(** The fragments of a message. *)
Definition fragments (message_id : Z) (data : bytes) : list FragmentedEvent :=
  let cs := chunks (Z.to_nat MAX_FRAGMENT_PAYLOAD_SIZE) data in
  imap (fun i c => mkFragmentedEvent message_id (Z.of_nat i) (Z.of_nat (length cs)) c) cs.

Lemma send_fragments_out m n c enc cs i s sent out :
  (forall f, encode_event (Fragment (mkCid 0) f) = Ok (enc f)) ->
  ts_outbound_tx s = Some out -> Z.of_nat (i + length cs) <= umax 16 + 1 ->
  exists s', send_fragments m n (Recipients [c]) (Z.of_nat i) cs s sent =
      (s', sent + Z.of_nat (length cs)) /\
    ts_next_message_id s' = ts_next_message_id s /\
    ts_outbound_tx s' = Some (out ++ imap (fun k ch =>
      OUnreliable c (enc (mkFragmentedEvent m (Z.of_nat (i + k)) n ch))) cs).
Proof.
  intros Henc. revert i s sent out. induction cs as [|ch cs IH]; intros i s sent out Hout Hlen;
    cbn [send_fragments].
  - exists s. cbn. rewrite Z.add_0_r, app_nil_r. done.
  - rewrite (proj2 (u16_try_from_Some (Z.of_nat i) (Z.of_nat i))) by (cbn in Hlen; split; [done | ulia]).
    rewrite Henc. cbn [foldl]. change (Z.of_nat (length [c])) with 1.
    destruct (IH (S i) (send_outbound s (OUnreliable c (enc (mkFragmentedEvent m (Z.of_nat i) n ch))))
                (sent + 1) (out ++ [OUnreliable c (enc (mkFragmentedEvent m (Z.of_nat i) n ch))]))
      as (s' & H1 & H2 & H3).
    + unfold send_outbound. by rewrite Hout.
    + cbn in Hlen. lia.
    + exists s'. replace (Z.of_nat i + 1) with (Z.of_nat (S i)) by lia. rewrite H1.
      split_and!; [f_equal; cbn [length]; lia | rewrite H2; unfold send_outbound; by rewrite Hout |].
      rewrite H3, <- app_assoc. cbn [imap app]. unfold compose. rewrite Nat.add_0_r. do 3 f_equal.
      apply imap_ext. intros. cbn. do 4 f_equal. lia.
Qed.

(** ** Frames of the steps of stage 2 *)

(** The client a polled event carries a message of. *)
Definition message_client (ev : NetworkEvent) : option ClientId :=
  match ev with
  | Fragment c _ | UnreliableMessage c _ | ReliableMessage c _ => Some c
  | _ => None
  end.

Lemma normalize_frame cx ev :
  let '(r, cx') := normalize cx ev in
  cx_updates cx' = cx_updates cx /\ cx_clear_acks cx' = cx_clear_acks cx /\
  forall c raw, r = Some (c, raw) ->
    message_client ev = Some c /\ clients cx' = clients cx /\
    ts_auth_service (cx_sched cx') = ts_auth_service (cx_sched cx).
Proof.
  assert (forall c0 fr, let '(r, cx') := ingest cx c0 fr in
    cx_updates cx' = cx_updates cx /\ cx_clear_acks cx' = cx_clear_acks cx /\
    forall c raw, r = Some (c, raw) -> c = c0 /\ clients cx' = clients cx /\
      ts_auth_service (cx_sched cx') = ts_auth_service (cx_sched cx)) as Hi.
  { intros c0 fr. unfold ingest. destruct (re_ingest _ _ _) as [[d|] r]; cbn; split_and!; try done.
    by intros c raw [= <- _]. }
  assert (Hmsg : forall c0 data, let '(r, cx') := match decode_event data with
        | Ok (Fragment _ fragment) => ingest cx c0 fragment
        | _ => (Some (c0, data), cx) end in
    cx_updates cx' = cx_updates cx /\ cx_clear_acks cx' = cx_clear_acks cx /\
    forall c raw, r = Some (c, raw) -> Some c0 = Some c /\ clients cx' = clients cx /\
      ts_auth_service (cx_sched cx') = ts_auth_service (cx_sched cx)).
  { intros c0 data. pose proof (Hi c0) as H0.
    destruct (decode_event data) as [[]|]; try (split_and!; try done; by intros c raw [= <- _]).
    specialize (H0 fragment). destruct (ingest cx c0 fragment). naive_solver. }
  destruct ev; cbn; try done; try apply Hmsg.
  - specialize (Hi client_id fragment). destruct (ingest _ _ _). naive_solver.
  - by destruct (clients cx !! client_id).
Qed.

Lemma kick_all_frame l cx :
  let cx' := foldl (fun cx old => push_disconnect (drop_client cx old) old) cx l in
  cx_updates cx' = cx_updates cx /\ cx_clear_acks cx' = cx_clear_acks cx.
Proof.
  revert cx. induction l as [|c l IH]; intros cx; cbn; [done|].
  apply (IH (push_disconnect (drop_client cx c) c)).
Qed.

Lemma kick_all_disconnects l cx :
  cx_to_disconnect (foldl (fun cx old => push_disconnect (drop_client cx old) old) cx l) =
  cx_to_disconnect cx ++ l.
Proof.
  revert cx. induction l as [|c l IH]; intros cx; cbn [foldl]; [by rewrite app_nil_r|].
  rewrite IH. cbn. by rewrite <- app_assoc.
Qed.

Lemma authenticate_frame tick cx c raw :
  let '(r, cx') := authenticate tick cx c raw in
  cx_updates cx' = cx_updates cx /\ cx_clear_acks cx' = cx_clear_acks cx /\
  forall v, r = Some v -> exists a, clients cx !! c = Some (v, a) /\
    (av_is_session_authorized (ts_auth_service (cx_sched cx)) (vs_jti v) (Some tick)).1 = true.
Proof.
  unfold authenticate. destruct (clients cx !! c) as [[v a]|] eqn:Ec.
  - destruct (av_is_session_authorized _ _ _) as [[] auth] eqn:E; split_and!; try done.
    intros v' [= <-]. exists a. by rewrite E.
  - destruct (decode_event raw) as [[]|]; try done.
    destruct (av_verify_session _ _ _) as [[v|] auth]; try done.
    pose proof (kick_all_frame (ghosts (upd_sched cx (set_auth_service (cx_sched cx) auth)) c
      (vs_player_id v)) (upd_sched cx (set_auth_service (cx_sched cx) auth))) as [H1 H2].
    cbn in *. done.
Qed.

Lemma handle_event_frame cx c v ev cx' :
  handle_event env cx c v ev = Ret cx' ->
  exists us acks, cx_updates cx' = cx_updates cx ++ us /\
    cx_clear_acks cx' = cx_clear_acks cx ++ acks /\
    Forall (fun u => u.1 = c) us /\ Forall (eq c) acks.
Proof.
  assert (forall cx', cx_updates cx' = cx_updates cx -> cx_clear_acks cx' = cx_clear_acks cx ->
    exists us acks, cx_updates cx' = cx_updates cx ++ us /\
      cx_clear_acks cx' = cx_clear_acks cx ++ acks /\
      Forall (fun u : ClientId * ComponentUpdate => u.1 = c) us /\ Forall (eq c) acks) as Hsame.
  { intros cx1 H1 H2. exists [], []. rewrite !app_nil_r. done. }
  destruct ev; cbn; try (intros [= <-]; by apply Hsame).
  - destruct (can_run_playground_command _ _); intros [= <-]; [|by apply Hsame].
    exists [], [c]. cbn. rewrite app_nil_r. split_and!; try done. by repeat constructor.
  - unfold start_session. destruct (clients cx !! c) as [[v' [n|]]|]; [| |intros [= <-]; by apply Hsame].
    + intros [= <-]. by apply Hsame.
    + intros HE. exec_inv. destruct a as [nid cx1]. exec_inv. destruct a0 as [nid' w].
      injection Ha as <- <-. by apply Hsame.
  - destruct (can_run_playground_command _ _); [|intros [= <-]; by apply Hsame].
    intros HE. exec_inv. by apply Hsame.
  - intros [= <-]. exists (to_update c <$> events), []. cbn. rewrite app_nil_r.
    split_and!; try done. apply Forall_fmap, Forall_true. done.
  - destruct (can_run_playground_command _ _); [|intros [= <-]; by apply Hsame].
    intros HE. exec_inv. destruct a. exec_inv. by apply Hsame.
Qed.

(** Every client the periodic check keeps was confirmed by the verifier. *)
Lemma validate_fold tick l auth acc :
  forall e, e ∈ l -> e.1 ∈ (foldl (validate_client tick) (auth, acc) l).2 \/
    exists auth', (av_is_session_authorized auth' (vs_jti e.2.1) (Some tick)).1 = true.
Proof.
  assert (forall l auth acc c, c ∈ acc -> c ∈ (foldl (validate_client tick) (auth, acc) l).2) as Hacc.
  { clear. induction l as [|[c' [v a]] l IH]; intros auth acc c Hc; cbn; [done|].
    destruct (av_is_session_authorized auth _ _) as [[] auth']; apply IH; set_solver. }
  revert auth acc. induction l as [|[c [v a]] l IH]; intros auth acc e He; [by apply not_elem_of_nil in He|].
  cbn. destruct (av_is_session_authorized auth (vs_jti v) (Some tick)) as [b auth'] eqn:E.
  apply elem_of_cons in He as [->|He].
  - destruct b; [right; exists auth; cbn; by rewrite E|]. left. apply Hacc. set_solver.
  - by apply IH.
Qed.

(** ** Properties *)

(** The scheduler's states: ticks, and whatever other threads do in between to the session
    verifier, the world and the transport. *)
Inductive server_step : scheduler * W * T -> scheduler * W * T -> Prop :=
| ss_tick s w t s' w' t' :
    tick_step env golden_write s w t = Ret (TickDone s' w' t') -> server_step (s, w, t) (s', w', t')
| ss_outbound s w t : server_step (s, w, t) (set_outbound_tx s, w, t)
| ss_between s w t a w' t' : server_step (s, w, t) (set_auth_service s a, w', t').

(** C5 (invariant): at every point of every run of the server, whatever the clients send and
    whatever other threads do between ticks, a player is in the table of authenticated clients
    at most once: a second login of the same player takes the place of the first. *)
Theorem one_session_per_player tick_rate auth w0 (t0 : T) s w t c1 c2 v1 v2 a1 a2 :
  rtc server_step (scheduler_new env tick_rate auth, w0, t0) (s, w, t) ->
  ts_authenticated_clients s !! c1 = Some (v1, a1) ->
  ts_authenticated_clients s !! c2 = Some (v2, a2) ->
  vs_player_id v1 = vs_player_id v2 -> c1 = c2.
Proof.
  intros Hrun.
  assert (sched_ok (fun _ => True) (fun _ => True) (ts_spawn_at_zero (scheduler_new env tick_rate auth)) s)
    as [_ Ht _]; [|by eapply to_unique].
  change s with ((s, w, t).1.1). eapply (rtc_ind_r (fun x => sched_ok _ _ _ x.1.1)); [| |exact Hrun].
  - split; cbn; [done | apply table_ok_empty | done].
  - intros y z _ [s1 w1 t1 s2 w2 t2 H|s1 w1 t1|s1 w1 t1 a w2 t2] IH; cbn in *.
    + eapply tick_step_ok; [|exact IH|exact H]. done.
    + by destruct IH.
    + by destruct IH.
Qed.

(** C14 (safety): what a polled event adds to the updates of the tick, and to its [ClearWorld]
    acknowledgements, comes from the client that sent it, and only when that client was in the
    table of authenticated clients and the verifier had just confirmed its session. *)
Theorem message_gate tick cx ev cx' :
  process_event env tick cx ev = Ret cx' ->
  exists us acks, cx_updates cx' = cx_updates cx ++ us /\
    cx_clear_acks cx' = cx_clear_acks cx ++ acks /\
    (us <> [] \/ acks <> [] ->
     exists c v a, message_client ev = Some c /\
       Forall (fun u => u.1 = c) us /\ Forall (eq c) acks /\
       ts_authenticated_clients (cx_sched cx) !! c = Some (v, a) /\
       (av_is_session_authorized (ts_auth_service (cx_sched cx)) (vs_jti v) (Some tick)).1 = true).
Proof.
  intros H. unfold process_event in H. pose proof (normalize_frame cx ev) as Hn.
  destruct (normalize cx ev) as [[[c raw]|] cx1]; destruct Hn as (Hu & Hk & Hm); cbn in *;
    [|injection H as <-; exists [], []; rewrite !app_nil_r; naive_solver].
  destruct (Hm c raw eq_refl) as (Hc & Ht & Ha).
  pose proof (authenticate_frame tick cx1 c raw) as Hn.
  destruct (authenticate tick cx1 c raw) as [[v|] cx2]; destruct Hn as (Hu2 & Hk2 & Hok); cbn in *;
    [|injection H as <-; exists [], []; rewrite !app_nil_r; split_and!; [congruence.. | naive_solver]].
  destruct (Hok v eq_refl) as (a & Hin & Hauth). rewrite Ht, Ha in *.
  assert (exists us acks, cx_updates cx' = cx_updates cx2 ++ us /\
    cx_clear_acks cx' = cx_clear_acks cx2 ++ acks /\
    Forall (fun u => u.1 = c) us /\ Forall (eq c) acks) as (us & acks & H1 & H2 & H3 & H4).
  { destruct (decode_event raw) as [pe|].
    - by eapply handle_event_frame.
    - destruct (decode raw) as [u|]; injection H as <-; [exists [(c, u)], [] | exists [], []];
        cbn; rewrite ?app_nil_r; split_and!; try done; by repeat constructor. }
  exists us, acks. split_and!; [congruence.. |]. intros _. exists c, v, a. done.
Qed.

(** The periodic check (every 60 ticks) leaves in the table only clients whose
    session the verifier confirmed during the check, and disconnects every client it removes. *)
Theorem periodic_check_purges tick cx :
  is_multiple_of tick 60 = true ->
  let cx' := validate_sessions tick cx in
  (forall c v a, clients cx' !! c = Some (v, a) -> clients cx !! c = Some (v, a) /\
     exists auth, (av_is_session_authorized auth (vs_jti v) (Some tick)).1 = true) /\
  (forall c, is_Some (clients cx !! c) -> clients cx' !! c = None ->
     c ∈ cx_to_disconnect cx').
Proof.
  intros Htick. unfold validate_sessions. rewrite Htick.
  pose proof (validate_fold tick (hm_iter (clients cx)) (ts_auth_service (cx_sched cx)) []) as Hf.
  destruct (foldl _ _ _) as [auth l]. cbn in *. split.
  - intros c v a. rewrite drop_all_table by done. case_decide as Hl; [done|]. cbn. intros H.
    split; [done|]. apply hm_iter_in in H. destruct (Hf _ H) as [|]; [done | eauto].
  - intros c [va Hc] Hn. rewrite drop_all_table in Hn by done. cbn in Hn.
    case_decide as Hl; [|congruence]. rewrite kick_all_disconnects. set_solver.
Qed.

(** Starting a session is idempotent: the first [StartSession] of a client
    gives it an agent, and a repeated one spawns nothing, keeps the table and only queues the
    [Possession] event of the same agent again. *)
Theorem start_session_idempotent cx c cx1 cx2 :
  is_Some (clients cx !! c) -> start_session cx c = Ret cx1 -> start_session cx1 c = Ret cx2 ->
  exists v n, clients cx1 !! c = Some (v, Some n) /\ clients cx2 = clients cx1 /\
    cx_world cx2 = ws_queue_reliable_event (cx_world cx1) (Some c) (Possession n).
Proof.
  intros [[v a] Hc] H1 H2. assert (exists n, clients cx1 !! c = Some (v, Some n)) as [n Hn].
  { unfold start_session in H1. rewrite Hc in H1. destruct a as [n|].
    - injection H1 as <-. cbn. eauto.
    - exec_inv. destruct a as [n cx3]. exec_inv. destruct a0 as [n' w']. injection Ha as <- <-.
      exists n'. cbn. by rewrite lookup_alter_eq, Hc. }
  exists v, n. split; [done|]. unfold start_session in H2. rewrite Hn in H2. injection H2 as <-.
  done.
Qed.

(** C13 (functional): the batch of a client holds, in order, exactly the changes it may see:
    those of entities that are in no workspace or in the client's own; a client that is not
    authenticated, or sees no change, has no batch.  No change leaks across workspaces. *)
Theorem workspace_isolation w cls deltas c :
  client_batches w cls deltas !! c =
  if decide (is_Some (cls !! c) /\ filter (visible w c) deltas <> [])
  then Some (filter (visible w c) deltas) else None.
Proof. unfold client_batches. rewrite batches_lookup, lookup_empty. done. Qed.

(** C23 (roundtrip): a message that is too large for a datagram is sent as fragments whose
    payloads, in order, are the message; each fragment fits, carries its index, the number of
    fragments and the message's own identifier, and the next message gets the next identifier
    (modulo 2^32).  A message of more than 65535 fragments is refused and nothing is sent. *)
Theorem fragment_roundtrip s data c enc out :
  ts_outbound_tx s = Some out -> 0 < MAX_FRAGMENT_PAYLOAD_SIZE ->
  (forall f, encode_event (Fragment (mkCid 0) f) = Ok (enc f)) ->
  let fs := fragments (ts_next_message_id s) data in
  exists r s', fragment_and_send s data (Z.of_nat (length data)) (Recipients [c]) = Ret (r, s') /\
    ts_next_message_id s' = wrapping_add 32 (ts_next_message_id s) 1 /\
    mjoin (fe_payload <$> fs) = data /\
    Forall (fun f => Z.of_nat (length (fe_payload f)) <= MAX_FRAGMENT_PAYLOAD_SIZE /\
      0 <= fe_fragment_index f < fe_total_fragments f /\
      fe_total_fragments f = Z.of_nat (length fs) /\
      fe_message_id f = ts_next_message_id s) fs /\
    if Z.of_nat (length fs) <=? umax 16
    then r = Ok (Z.of_nat (length fs)) /\
         ts_outbound_tx s' = Some (out ++ ((fun f => OUnreliable c (enc f)) <$> fs))
    else is_ok r = false /\ ts_outbound_tx s' = Some out.
Proof.
  intros Hout Hmax Henc fs. unfold fragment_and_send. rewrite Hout.
  rewrite Z.leb_refl, (proj2 (Z.ltb_lt _ _) Hmax). cbn [assert_].
  change (Ret () ≫= ?f) with (f ()). cbv beta. rewrite Nat2Z.id, firstn_all.
  set (cs := chunks (Z.to_nat MAX_FRAGMENT_PAYLOAD_SIZE) data).
  assert (Hlen : length fs = length cs) by (unfold fs, fragments; by rewrite length_imap).
  assert (Hpay : mjoin (fe_payload <$> fs) = data).
  { unfold fs, fragments. rewrite fmap_imap. change (mjoin (imap (fun _ c => c) cs) = data).
    replace (imap (fun _ c => c) cs) with cs by (symmetry; apply list_eq; intros; rewrite list_lookup_imap; by destruct (cs !! i)).
    apply chunks_concat. lia. }
  assert (Hall : Forall (fun f => Z.of_nat (length (fe_payload f)) <= MAX_FRAGMENT_PAYLOAD_SIZE /\
      0 <= fe_fragment_index f < fe_total_fragments f /\
      fe_total_fragments f = Z.of_nat (length fs) /\ fe_message_id f = ts_next_message_id s) fs).
  { rewrite Hlen. apply Forall_lookup. intros i f. unfold fs, fragments. fold cs.
    rewrite list_lookup_imap. destruct (cs !! i) as [ch|] eqn:E; [|done]. cbn. intros [= <-]. cbn.
    pose proof (lookup_lt_Some _ _ _ E).
    pose proof (chunks_fuel_length (length data) (Z.to_nat MAX_FRAGMENT_PAYLOAD_SIZE) data) as Hc.
    rewrite Forall_lookup in Hc. specialize (Hc _ _ E). cbn in Hc. split_and!; lia || done. }
  rewrite Hlen. destruct (Z.leb_spec (Z.of_nat (length cs)) (umax 16)) as [Hle|Hgt].
  - rewrite (proj2 (u16_try_from_Some _ _)) by (split; [done | unfold in_u; lia]).
    edestruct (send_fragments_out (ts_next_message_id s) (Z.of_nat (length cs)) c enc cs 0) as (s' & H1 & H2 & H3);
      [done | | |]. 3: { rewrite H1. eexists _, _. split; [done|]. split_and!; [by rewrite H2 | done | by rewrite <- Hlen | done |].
      rewrite H3. do 2 f_equal. unfold fs, fragments. fold cs. rewrite fmap_imap. by apply imap_ext. }
    + reflexivity.
    + cbn. lia.
  - assert (u16_try_from (Z.of_nat (length cs)) = None) as ->.
    { unfold u16_try_from. rewrite (proj2 (Z.leb_gt _ _) Hgt). by rewrite andb_false_r. }
    eexists _, _. split; [done|]. rewrite <- Hlen. done.
Qed.
End TickProps.
