(* ===== verification/Server.v ===== *)
(** * The assembled server ([aetheris-server/src/lib.rs])

    The tick scheduler running on the ECS adapter and on the authentication service: the two are
    instances of the traits the scheduler is written against.  The theorems are about every run
    of the whole: ticks, gRPC calls to the authentication service between them, and any
    behaviour of the transport. *)

From stdpp Require Import gmap strings list.
From Stdlib Require Import ZArith Lia.
From S2P Require Import Prelude F32 Protocol Components Ecs.
From S2P Require Import EcsModel Registry Extraction Interaction Adapter.
From S2P Require Import AdapterProps Simulate RateLimit Auth AuthProps.
From S2P Require Import Config Tick TickProps.

Open Scope Z_scope.

(** ** The adapter as a world *)
Section adapter_world.
Context {W : Type} `{!EcsWorld W} {B : Type} `{!BiMap B} {Al : Type} `{!Allocator Al}.
Context {Wi : Wire} {PC : ProtocolConsts} {LM : Libm} {RR : RandomRange} {SH : StdHasher}.
Abbreviation adapter := (Adapter W B Al).
Abbreviation registry := (gmap ComponentKind (ComponentDescriptor W)).

(** [impl WorldState for BevyWorldAdapter]; [fuel] bounds the rotation loops of [simulate]. *)
Definition adapter_world (fuel : nat) : WorldState adapter := {|
  ws_advance_tick := advance_tick;
  ws_stress_test := stress_test;
  ws_despawn_networked := despawn_networked;
  ws_spawn_kind_for := spawn_kind_for;
  ws_spawn_session_agent := spawn_session_agent;
  ws_queue_reliable_event := queue_reliable_event;
  ws_clear_world := clear_world;
  ws_apply_updates := apply_updates;
  ws_simulate := simulate fuel;
  ws_extract_deltas := extract_deltas;
  ws_extract_reliable_events := extract_reliable_events;
  ws_state_hash := state_hash;
  ws_post_extract := post_extract;
  ws_get_entity_workspace := get_entity_workspace;
  ws_get_client_workspace := get_client_workspace |}.

(** [bootstrap_phase1_world]; [values] is the iteration of [registry.components.values()]. *)
Definition bootstrap_phase1_world (tick_rate : Z)
    (extra_registry : registry -> exec registry)
    (values : registry -> list (ComponentDescriptor W)) : exec adapter :=
  a ← new w_new tick_rate;
  reg ← register_platform_components ∅;
  reg ← extra_registry reg;
  Ret (foldl (fun a d => register_replicator a (cd_replicator d)) a (values reg)).

(** Every call of the trait is an operation of the adapter. *)
Lemma world_call_step fuel b (a a' : adapter) :
  world_call (WS := adapter_world fuel) b a a' -> step a a'.
Proof.
  destruct 1; cbn in *;
    eauto using step_advance_tick, step_despawn, step_spawn_session_agent, step_queue_reliable_event,
      step_apply_updates, step_simulate, step_extract_deltas, step_extract_reliable_events,
      step_post_extract, step_stress_test, step_spawn_kind_for, step_clear_world.
Qed.
End adapter_world.

(** ** The authentication service as a session verifier *)
Section auth_verifier.
Context `{LIB : !AuthLib, STR : !RustStr}.

(** The service with the readings of the clock still to come. *)
Record ClockedAuth := mkClockedAuth {
  ca_auth : AuthServiceImpl; ca_clock : nat -> Z; ca_reads : nat }.

#[global] Instance clocked_verifier : AuthSessionVerifier ClockedAuth := {|
  av_verify_session a token tick :=
    let '(r, s) := verify_session (ca_auth a) token tick (ca_clock a (ca_reads a))
                     (ca_clock a (S (ca_reads a))) in
    (r, mkClockedAuth s (ca_clock a) (S (S (ca_reads a))));
  av_is_session_authorized a jti tick :=
    let '(b, s) := is_session_authorized_with_tick (ca_auth a) jti tick
                     (ca_clock a (ca_reads a)) in
    (b, mkClockedAuth s (ca_clock a) (S (ca_reads a))) |}.

(** No administrator session exists and none can be opened. *)
Record no_admin (s : AuthServiceImpl) : Prop := {
  na_inv : auth_inv s;
  na_bypass : bypass_enabled s = false;
  na_closed : session_activity s !! "admin" = None }.

Lemma no_admin_evolves id s s' : no_admin s -> evolves id "admin" s s' -> no_admin s'.
Proof.
  intros [Hi Hb Hc] [E1 _ E2 _ E3]. split; [done | congruence |]. apply E3; [by right | done].
Qed.

Lemma verify_evolves id j s token tick n1 n2 r s' :
  auth_inv s -> verify_session s token tick n1 n2 = (r, s') -> evolves id j s s'.
Proof.
  intros Hs. unfold verify_session. repeat case_match; intros [= _ <-];
    try (by apply evolves_refl); by eapply evolves_authorized.
Qed.

(** Where there is no administrator session, the verifier verifies no session that may run
    playground commands. *)
Lemma no_admin_verifier env :
  env "AETHERIS_ENV" <> Some "dev" ->
  verifier_ok (may_play env false) (fun a => no_admin (ca_auth a)).
Proof.
  intros Henv. split.
  - intros a token tick r a' Ha. cbn.
    destruct (verify_session _ _ _ _ _) as [r' s] eqn:E. intros [= <- <-]. split.
    + eapply (no_admin_evolves ""); [done|]. eapply verify_evolves; [apply Ha | exact E].
    + intros v -> Hp. apply verify_session_Ok in E. unfold can_run_playground_command in Hp.
      rewrite (bool_decide_eq_false_2 _ Henv), orb_false_r in Hp. apply String.eqb_eq in Hp.
      rewrite Hp in E. by apply authorized_closed in E; [|apply Ha].
  - intros a jti tick b a' Ha. cbn.
    destruct (is_session_authorized_with_tick _ _ _ _) as [b' s] eqn:E. intros [= <- <-]. cbn.
    eapply (no_admin_evolves ""); [done|]. eapply evolves_authorized; [apply Ha | exact E].
Qed.
End auth_verifier.

(** ** Runs of the server *)
Section server.
Context {W : Type} `{!EcsWorld W, !EcsLaws W} {B : Type} `{!BiMap B, !BiMapLaws B}.
Context {Al : Type} `{!Allocator Al} {issued : Al -> NetworkId -> Prop} `{!AllocatorLaws Al issued}.
Context {Wi : Wire} {PC : ProtocolConsts} {LM : Libm} {RR : RandomRange} {SH : StdHasher}.
Context `{LIB : !AuthLib, LAWS : !AuthLibLaws, STR : !RustStr}.
Context {R : Type} `{!Reassembler R} {T : Type} `{!PlatformTransport T}.
Context {EN : Encoder} {WP : WireProtocol} {HO : HashOrder}.
Context (env : string -> option string) (golden_write : list Z -> bool) (fuel : nat).

Abbreviation adapter := (Adapter W B Al).
Abbreviation registry := (gmap ComponentKind (ComponentDescriptor W)).
Abbreviation scheduler := (TickScheduler ClockedAuth R).
#[local] Instance aw : WorldState adapter := adapter_world fuel.

(** Identifiers drawn by [Ulid::new()] have 26 characters. *)
Definition ulid_call (c : auth_call) : Prop :=
  forall u, call_mints c = Some u -> String.length u = 26%nat.

(** A tick; a gRPC call answered by the authentication service; anything the transport does; a
    new outbound channel. *)
Inductive run_step : scheduler * adapter * T -> scheduler * adapter * T -> Prop :=
| rs_tick s a t s' a' t' :
    tick_step env golden_write s a t = Ret (TickDone s' a' t') -> run_step (s, a, t) (s', a', t')
| rs_call s a t c r au :
    ulid_call c -> auth_step c (ca_auth (ts_auth_service s)) = Ret (r, au) ->
    run_step (s, a, t)
      (set_auth_service s (mkClockedAuth au (ca_clock (ts_auth_service s))
                             (ca_reads (ts_auth_service s))), a, t)
| rs_transport s a t t' : run_step (s, a, t) (s, a, t')
| rs_channel s a t : run_step (s, a, t) (set_outbound_tx s, a, t).

(** The registry after the platform's registration holds the platform's descriptors. *)
Lemma platform_registry_in (reg : registry) k d :
  register_platform_components ∅ = Ret reg -> reg !! k = Some d ->
  d ∈ canonical_descriptors ++ platform_descriptors ++ workspace_descriptors.
Proof.
  intros H. revert k d. unfold register_platform_components in H.
  eapply (for_each_pres (fun reg : registry => forall k d, reg !! k = Some d -> d ∈ _));
    [exact H | intros k d; by rewrite lookup_empty |].
  intros reg1 d1 reg2 Hin IH HE k d. unfold register in HE. exec_inv.
  rewrite lookup_insert. case_decide; [by intros [= <-] | apply IH].
Qed.

(** A world from [bootstrap_phase1_world] has sound tables. *)
Lemma bootstrap_ok rate extra values a :
  bootstrap_phase1_world rate extra values = Ret a ->
  (forall reg reg' d, extra reg = Ret reg' -> d ∈ values reg' ->
     (exists k, reg !! k = Some d) \/ rep_local (cd_replicator d)) ->
  adapter_ok (issued := issued) a.
Proof.
  intros H Hx. unfold bootstrap_phase1_world in H. exec_inv.
  apply foldl_inv; [by eapply new_ok|]. intros ad d Hd Hok. apply register_ok; [done|].
  destruct (Hx _ _ _ Ha1 Hd) as [[k Hk]|]; [|done].
  pose proof platform_rep_local as Hall. rewrite Forall_forall in Hall. apply Hall.
  by eapply platform_registry_in.
Qed.

Lemma calls_ok b a a' :
  rtc (world_call b) a a' -> adapter_ok (issued := issued) a -> adapter_ok (issued := issued) a'.
Proof.
  induction 1 as [|a1 a2 a3 H _ IH]; [done|]. intros Hok. apply IH.
  eapply step_ok; [done|]. by eapply world_call_step.
Qed.

Lemma other_id (o : option string) : exists id, o <> Some id.
Proof.
  destruct o as [u|]; [|by exists ""]. exists (fresh [u]). intros [= E].
  apply (infinite_is_fresh [u]). rewrite <- E. constructor.
Qed.

(** Runs keep the adapter's invariant. *)
Lemma run_keeps_ok rate auth t0 a0 s a t :
  adapter_ok (issued := issued) a0 -> rtc run_step (scheduler_new env rate auth, a0, t0) (s, a, t) ->
  adapter_ok (issued := issued) a.
Proof.
  intros Hok0 Hrun.
  set (z := ts_spawn_at_zero (scheduler_new (R := R) env rate auth)).
  assert (sched_ok (may_play env true) (fun _ => True) z s /\ adapter_ok (issued := issued) a)
    as [_ Hok]; [|exact Hok].
  change s with (s, a, t).1.1. change a with (s, a, t).1.2 at 2.
  eapply (rtc_ind_r (fun x => sched_ok _ _ _ x.1.1 /\ adapter_ok (issued := issued) x.1.2));
    [| |exact Hrun].
  - split; [|done]. split; [done | apply table_ok_empty | done].
  - assert (verifier_ok (A := ClockedAuth) (may_play env true) (fun _ => True)) as HV by done.
    intros y u _ [s1 a1 t1 s2 a2 t2 H|s1 a1 t1 c r au _ _|s1 a1 t1 t2|s1 a1 t1] [IHs IHa]; cbn in *.
    + split; [by eapply tick_step_ok|]. eapply calls_ok; [|exact IHa].
      by eapply (tick_step_world env golden_write true (fun _ => True) HV z).
    + split; [|done]. by destruct IHs.
    + done.
    + split; [|done]. by destruct IHs.
Qed.

(** The server started on a bootstrapped world keeps the world's tables sound
    through every run: any messages, any clients, any sequence of ticks and gRPC calls, any
    behaviour of the transport.  Every network id in use names a live entity that carries it,
    ownership and workspaces agree with the world. *)
Theorem server_keeps_world_sound rate extra values auth t0 a0 s a t :
  bootstrap_phase1_world rate extra values = Ret a0 ->
  (forall reg reg' d, extra reg = Ret reg' -> d ∈ values reg' ->
     (exists k, reg !! k = Some d) \/ rep_local (cd_replicator d)) ->
  rtc run_step (scheduler_new env rate auth, a0, t0) (s, a, t) ->
  wf issued a.
Proof.
  intros Hboot Hx Hrun. apply (run_keeps_ok rate auth t0 a0 s a t); [|done]. by eapply bootstrap_ok.
Qed.

(** C4 (safety): a server started with [AETHERIS_ENV=production] and without golden recording
    never runs a playground command: over every run, the world changes only by the other calls
    of its trait; no [StressTest], [Spawn] or [ClearWorld] of any client reaches it. *)
Theorem production_runs_no_playground_command rate google au clock t0 a0 s a t :
  env "AETHERIS_ENV" = Some "production" -> env "AETHERIS_RECORD_GOLDEN" = None ->
  custom_claims_ok -> auth_new env google = Ret au ->
  rtc run_step (scheduler_new env rate (mkClockedAuth au clock 0), a0, t0) (s, a, t) ->
  rtc (world_call false) a0 a.
Proof.
  intros Henv Hgold Hcc Hnew Hrun. apply auth_new_fresh in Hnew as (Hi & Hact & Hby).
  assert (verifier_ok (may_play env false) (fun a => no_admin (ca_auth a))) as HV.
  { apply no_admin_verifier. by rewrite Henv. }
  assert (sched_ok (may_play env false) (fun a => no_admin (ca_auth a)) false s /\
          rtc (world_call false) a0 a) as [_ H]; [|done].
  change s with (s, a, t).1.1. change a with (s, a, t).1.2 at 2.
  eapply (rtc_ind_r (fun x => sched_ok _ _ _ x.1.1 /\ rtc (world_call false) a0 x.1.2));
    [| |exact Hrun].
  - split; [|done]. split; cbn; [|apply table_ok_empty | by rewrite Hgold].
    split; [done | auto | by rewrite Hact].
  - intros y u _ [s1 a1 t1 s2 a2 t2 H|s1 a1 t1 c r au1 Hu H|s1 a1 t1 t2|s1 a1 t1] [IHs IHa]; cbn in *.
    + split; [by eapply tick_step_ok|]. etrans; [exact IHa|].
      by eapply (tick_step_world env golden_write false _ HV false).
    + split; [|done]. destruct IHs as [Ha Ht Hz]. split; [|done|done]. cbn.
      destruct (other_id (call_creates c)) as [id Hid].
      destruct (auth_step_evolves id "admin" c (ca_auth (ts_auth_service s1)))
        as (r' & s' & E & Hev & _); [done | apply Ha | done | |].
      * intros E. by specialize (Hu _ E).
      * rewrite H in E. injection E as <- <-. by eapply no_admin_evolves.
    + done.
    + split; [|done]. by destruct IHs.
Qed.

(** [ClearWorld] resets the session agent of the client that sent it only: another
    client keeps the identifier of an entity that no longer exists, and its next [StartSession]
    spawns nothing and hands it that identifier again. *)
Theorem clear_world_strands_other_agents (cx cx1 cx2 : Ctx ClockedAuth R adapter) c1 c2 v1 v2 n2 :
  wf issued (cx_world cx) -> c1 <> c2 -> can_run_playground_command env (vs_jti v1) = true ->
  ts_authenticated_clients (cx_sched cx) !! c2 = Some (v2, Some n2) ->
  handle_event env cx c1 v1 (ClearWorld c1) = Ret cx1 -> start_session cx1 c2 = Ret cx2 ->
  ts_authenticated_clients (cx_sched cx2) !! c2 = Some (v2, Some n2) /\
  bi_left (ad_bimap (cx_world cx2)) n2 = None /\
  cx_world cx2 = queue_reliable_event (cx_world cx1) (Some c2) (Possession n2).
Proof.
  intros Hwf Hne Hp H2 H1 Hs. cbn in H1. rewrite Hp in H1. injection H1 as <-.
  unfold start_session in Hs. cbn in Hs. rewrite lookup_alter_ne, H2 in Hs by done.
  injection Hs as <-. cbn. rewrite lookup_alter_ne by done. split_and!; [done | | done].
  by apply (clear_world_bimap (issued := issued)).
Qed.
End server.
