(* ===== verification/TypedUpdates.v ===== *)
(** * What clients can write, by type

    An update of a client carries a component kind and bytes; the replicator of the kind turns them
    into a value of one Rust type.  On the world the server starts with, each type has at most one
    kind ([kind_of]), and the types of the server alone (owners, session markers, physics bodies,
    respawn and regeneration timers) have none.  [updates_are_typed] says that this is all an update
    can do: whatever a batch changes, it changes to the value its owner sent, of the type that the
    kind stands for. *)

From stdpp Require Import gmap strings list.
From Stdlib Require Import ZArith Lia.
From S2P Require Import Prelude F32 Protocol Components Ecs.
From S2P Require Import EcsModel Registry Extraction Interaction Adapter.
From S2P Require Import AdapterProps Simulate RateLimit Auth AuthProps.
From S2P Require Import Config Tick TickProps Server.

Open Scope Z_scope.

Section typed.
Context {W : Type} `{!EcsWorld W, !EcsLaws W} {B : Type} `{!BiMap B, !BiMapLaws B}.
Context {Al : Type} `{!Allocator Al} {issued : Al -> NetworkId -> Prop}.
Context `{!AllocatorLaws Al issued} {Wi : Wire} {PC : ProtocolConsts} {LM : Libm} {RR : RandomRange}.
Abbreviation adapter := (Adapter W B Al).
Implicit Types (a : adapter) (w : W).

(** The kind under which a type travels. *)
Definition kind_of (k : ckind) : option ComponentKind :=
  match k with
  | CTransform => Some (mkKind 1) | CVelocity => Some (mkKind 2)
  | CAgentProperties => Some (mkKind 3) | CAgentConfiguration => Some (mkKind 4)
  | CAgentKind => Some (mkKind 5) | CPlayerName => Some (mkKind 6)
  | CFactionTag => Some (mkKind 7) | CResourceIntegrity => Some (mkKind 8)
  | CResourceYield => Some (mkKind 9) | CDataDrop => Some (mkKind 10)
  | CStation => Some (mkKind 11) | CZoneGate => Some (mkKind 12)
  | CBeamMarker => Some BEAM_MARKER_KIND | CDockedState => Some (mkKind 14)
  | CExtractionBeam => Some EXTRACTION_BEAM_KIND | CDataStore => Some DATA_STORE_KIND
  | CResource => Some RESOURCE_KIND | CTool => Some TOOL_KIND
  | CPriorityPool => Some PRIORITY_POOL_KIND | CIntegrityPool => Some INTEGRITY_POOL_KIND
  | CDataDropComponent => Some DATA_DROP_KIND
  | CWorkspaceDefinition => Some WORKSPACE_DEFINITION_KIND
  | CWorkspaceBounds => Some WORKSPACE_BOUNDS_KIND
  | CWorkspaceMembership => Some WORKSPACE_MEMBERSHIP_KIND
  | CLatestInput => Some INPUT_COMMAND_KIND
  | CPhysicsBody | CResourceRespawn | CPriorityRegenTimer | CRespawnTimer | CNetworkOwner
  | CSessionAgent | CTrainingTarget | CAiControlled | CNetworked => None
  end.

(** The value a payload stands for, at each type, for an entity of the world [w] in which a batch
    begins: what it decodes to; a valid command, stored with its tick, or with its tick capped when
    the entity had none. *)
Definition payload_value (w : W) (e : Entity) (k : ckind) (payload : bytes) : ctype k -> Prop :=
  match k with
  | CLatestInput => fun v =>
      exists command, deserialize_command payload = Some command /\
        (v = mkLatestInput command (ic_tick command) \/
         w_get w e CLatestInput = None /\
         let t := Z.min (ic_tick command) (sat_add 64 (server_tick w) MAX_FORWARD_TICK_JUMP) in
         v = mkLatestInput (set_tick command t) t)
  | k => fun v => decode_component k payload = Some v
  end.

(** The same value in a world that is further on in the batch. *)
Lemma payload_value_before w w' e k payload v :
  server_tick w' = server_tick w ->
  (w_get w' e CLatestInput = None -> w_get w e CLatestInput = None) ->
  payload_value w' e k payload v -> payload_value w e k payload v.
Proof.
  intros Ht Hn Hp. destruct k; try done. destruct Hp as (command & Hd & Hv). exists command.
  split; [done|]. rewrite <- Ht. naive_solver.
Qed.

(** A replicator that writes values of type [k], of the entity it is given, and nothing else. *)
Definition typed_rep (r : ComponentReplicator W) (k : ckind) : Prop := forall w e u,
  rep_apply r w e u = w \/
  exists v, w_alive w e = true /\ rep_apply r w e u = w_put w e k v /\
            payload_value w e k (cu_payload u) v.

Lemma default_typed k kind : k <> CLatestInput -> typed_rep (DefaultReplicator k kind) k.
Proof.
  intros Hk w e u. cbn. unfold default_apply.
  destruct (decode_component k (cu_payload u)) as [v|] eqn:Hd; [|by left].
  destruct (w_alive w e) eqn:Ha; [|by left]. right. exists v. split_and!; [done..|].
  by destruct k.
Qed.

Lemma input_typed : typed_rep InputCommandReplicator CLatestInput.
Proof.
  intros w e u. cbn. unfold input_apply. destruct (negb _); [by left|].
  destruct (deserialize_command _) as [command|] eqn:Hd; [|by left].
  unfold apply_command_update. destruct (w_alive w e) eqn:Ha; [|by left].
  destruct (w_get w e CLatestInput) as [latest|] eqn:Hl.
  - destruct (accepts _ _ _); [|by left]. right. eexists. split_and!; [done..|].
    exists command. by eauto.
  - right. eexists. split_and!; [done..|]. exists command. by eauto.
Qed.

(** Every replicator of the platform is typed, under the kind of its type. *)
Lemma platform_typed :
  Forall (fun d => exists k, kind_of k = Some (rep_kind (cd_replicator d)) /\
                             typed_rep (cd_replicator d) k)
    (canonical_descriptors ++ platform_descriptors ++ workspace_descriptors
       : list (ComponentDescriptor W)).
Proof.
  repeat (apply Forall_cons; split;
    [first [exists CLatestInput; split; [reflexivity | apply input_typed]
           | eexists; split; [|apply default_typed; discriminate]; reflexivity]|]).
  constructor.
Qed.

(** The replicators of an adapter are typed. *)
Definition typed_reps a : Prop := forall kind r,
  btree_get kind (ad_replicators a) = Some r -> exists k, kind_of k = Some kind /\ typed_rep r k.

Lemma register_typed a r k :
  typed_reps a -> kind_of k = Some (rep_kind r) -> typed_rep r k ->
  typed_reps (register_replicator a r).
Proof.
  intros Ha Hk Hr kind r'. cbn. rewrite btree_get_insert. case_decide; [|apply Ha].
  intros [= <-]. subst. eauto.
Qed.

Lemma bootstrap_typed rate values a0 :
  bootstrap_phase1_world rate (fun reg => Ret reg) values = Ret a0 ->
  (forall reg d, d ∈ values reg -> exists kind, reg !! kind = Some d) -> typed_reps a0.
Proof.
  intros H Hv. unfold bootstrap_phase1_world in H. exec_inv.
  apply foldl_inv.
  - unfold new in Ha. exec_inv. intros kind r. done.
  - intros ad d Hd Hok. destruct (Hv _ _ Hd) as [kind Hkind].
    pose proof platform_typed as Hall. rewrite Forall_forall in Hall.
    destruct (Hall d) as (k & Hk & Ht); [by eapply platform_registry_in|].
    by eapply register_typed.
Qed.

(** *** One update, and a batch *)
Definition written a c u e k (v : ctype k) : Prop :=
  kind_of k = Some (cu_component_kind u) /\ w_get (ad_world a) e CNetworkOwner = Some c /\
  bi_left (ad_bimap a) (cu_network_id u) = Some e /\
  payload_value (ad_world a) e k (cu_payload u) v.

Lemma update_typed a c u e k :
  typed_reps a ->
  w_get (ad_world (apply_update_ref a (c, u))) e k = w_get (ad_world a) e k \/
  exists v, w_get (ad_world (apply_update_ref a (c, u))) e k = Some v /\ written a c u e k v.
Proof.
  intros Ht. unfold apply_update_ref.
  destruct (bi_left (ad_bimap a) (cu_network_id u)) as [x|] eqn:Hx; [|by left].
  case_decide as Ho; [|by left]. destruct (btree_get _ _) as [r|] eqn:Hr; [|by left].
  destruct (Ht _ _ Hr) as (k' & Hk' & Hty). cbn.
  destruct (Hty (ad_world a) x u) as [-> | (v & Ha & -> & Hv)]; [by left|].
  destruct (decide (x = e)) as [->|Hne]; [|left; apply put_get_ne; by left].
  destruct (decide (k' = k)) as [->|Hne]; [|left; apply put_get_ne; by right].
  right. exists v. split; [by apply put_get_eq|]. by split_and!.
Qed.

Lemma updates_typed us a e k :
  typed_reps a -> reps_ok a ->
  w_get (ad_world (foldl apply_update_ref a us)) e k = w_get (ad_world a) e k \/
  exists c u v, (c, u) ∈ us /\ w_get (ad_world (foldl apply_update_ref a us)) e k = Some v /\
                written a c u e k v.
Proof.
  revert a. induction us as [|[c u] us IH]; intros a Ht Hr; [by left|]. cbn [foldl].
  destruct (apply_update_ref_owner a (c, u) e Hr) as (Ho & Hreps & Hb).
  destruct (IH (apply_update_ref a (c, u))) as [-> | (c' & u' & v & Hin & Hv & Hw)].
  - intros kind r. rewrite Hreps. apply Ht.
  - unfold reps_ok. by rewrite Hreps.
  - destruct (update_typed a c u e k Ht) as [|(v & Hv & Hw)]; [by left|].
    right. exists c, u, v. split_and!; [constructor | done..].
  - right. exists c', u', v. split_and!; [by constructor | done |].
    unfold written in *. rewrite Ho, Hb in Hw. destruct Hw as (? & ? & ? & Hw). split_and!; [done..|].
    revert Hw. apply payload_value_before.
    + unfold server_tick. by rewrite apply_update_ref_res.
    + destruct (update_typed a c u e CLatestInput Ht) as [->|(v' & -> & _)]; done.
Qed.

(** C10 (type): at every point of every run of the server's world, whatever a batch of updates
    from clients changes is the component of an entity whose owner sent, under the one kind of that
    component's type, a payload that stands for the new value at that type: what it decodes to, or a
    valid command with its tick, which is capped at 600 ticks ahead of the server when the entity had
    no command before.  Components of a type
    that has no kind - owners, session markers, physics bodies, timers - are never changed by
    clients. *)
Theorem updates_are_typed rate values a0 a us e k :
  bootstrap_phase1_world rate (fun reg => Ret reg) values = Ret a0 ->
  (forall reg d, d ∈ values reg -> exists kind, reg !! kind = Some d) -> rtc step a0 a ->
  w_get (ad_world (apply_updates a us)) e k = w_get (ad_world a) e k \/
  exists c u v, (c, u) ∈ us /\ kind_of k = Some (cu_component_kind u) /\
    bi_left (ad_bimap a) (cu_network_id u) = Some e /\
    w_get (ad_world a) e CNetworkOwner = Some c /\
    w_get (ad_world (apply_updates a us)) e k = Some v /\
    payload_value (ad_world a) e k (cu_payload u) v.
Proof.
  intros Hboot Hv Hrun.
  assert (adapter_ok (issued := issued) a0) as Hok0.
  { eapply bootstrap_ok; [exact Hboot|]. intros reg reg' d [= <-] Hd. left. by apply Hv. }
  destruct (steps_config _ _ Hok0 Hrun) as [(Hwf & Hr & _) Hc]. injection Hc as Hreps _ _.
  assert (typed_reps a) as Ht.
  { intros kind r. rewrite Hreps. by apply (bootstrap_typed _ _ _ Hboot Hv). }
  destruct (apply_updates_spec a us Hwf Hr) as (_ & _ & -> & _).
  destruct (updates_typed us a e k Ht Hr) as [|(c & u & v & Hin & Hg & Hk & Ho & Hb & Hp)];
    [by left|]. right. by exists c, u, v.
Qed.
End typed.
