(* ===== verification/BotServer.v ===== *)
(** * A bot on the server

    The load generator and the server, end to end: what a bot sends in its turns ([Stress.v]) goes
    through the reception, authentication and decoding of a tick ([Tick.v]), the ownership check of
    the adapter ([Adapter.v]) and the window of the input replicator ([Registry.v]), with the
    sessions of the authentication service ([Auth.v]).  Between the two ends is the protocol
    crate's codec, of which the round trips are assumed ([CodecLaws]). *)

From stdpp Require Import gmap strings list.
From Stdlib Require Import ZArith Lia.
From S2P Require Import Prelude F32 F64 Text Protocol Components Ecs.
From S2P Require Import EcsModel Registry Extraction Interaction Adapter.
From S2P Require Import AdapterProps Simulate RateLimit Auth AuthProps.
From S2P Require Import Config Tick TickProps Renet Stress Server.

Open Scope Z_scope.

(** What the bot writes, the server reads: a command comes back from its MessagePack form, an
    encoded replication event comes back as an update and is not taken for a protocol event. *)
Class CodecLaws `{!Wire, !Encoder, !BotWire} : Prop := {
  input_survives command payload :
    rmp_input command = Ok payload -> decode_input payload = Some command;
  update_survives event n data :
    encode_replication event n = Ok data ->
    decode data = Ok (mkComponentUpdate (re_network_id event) (re_component_kind event)
                        (re_payload event) (re_tick event));
  update_is_no_event event n data :
    encode_replication event n = Ok data -> exists err, decode_event data = Err err;
}.

(** ** What a turn sends *)
Section Sending.
Context {Cl Nt : Type} `{RC : !RenetClient Cl}.
Context `{PC : !ProtocolConsts, WI : !Wire, EN : !Encoder, BW : !BotWire, CL : !CodecLaws}.
Context (random : nat -> f32).
Implicit Types b : Bot Cl Nt.

(** The command of the turn a bot is in. *)
Definition bot_command b : InputCommand :=
  bot_input (b_current_tick b) (random (b_draws b)) (random (S (b_draws b))).

(** In its turn the bot, which possesses [nid], sends the message [m]. *)
Definition says (nid : NetworkId) b (m : bytes) : Prop :=
  b_possessed_id b = Some nid /\
  exists u b', send_input random b = Ret (Ok u, b') /\
               b_sent b' = b_sent b ++ [(CHANNEL_UNRELIABLE, m)].

(** The server reads the message as an update of the bot's agent with the command of the turn. *)
Lemma says_update nid b m :
  says nid b m ->
  (exists err, decode_event m = Err err) /\
  exists u, decode m = Ok u /\ cu_network_id u = nid /\ cu_component_kind u = INPUT_COMMAND_KIND /\
            decode_input (cu_payload u) = Some (bot_command b).
Proof.
  intros (Hp & u & b' & Hs & Hm). unfold send_input in Hs. rewrite Hp in Hs. cbn in Hs.
  destruct (rmp_input _) as [payload|] eqn:Hr; [|done].
  destruct (encode_replication _ _) as [data|] eqn:He; [|done].
  apply bind_Ret_inv in Hs as (n & _ & Hs). apply bind_Ret_inv in Hs as (k & _ & Hs).
  injection Hs as _ <-. cbn in Hm. apply app_inv_head in Hm as [= <-].
  split; [by eapply update_is_no_event|]. eexists. split; [by eapply update_survives|].
  cbn. split_and!; [done..|]. by apply input_survives.
Qed.
End Sending.

(** ** What the world does with a batch of commands *)
Section Batch.
Context {W : Type} `{!EcsWorld W, !EcsLaws W} {B : Type} `{!BiMap B, !BiMapLaws B}.
Context {Al : Type} `{!Allocator Al} {issued : Al -> NetworkId -> Prop} `{!AllocatorLaws Al issued}.
Context {Wi : Wire} {PC : ProtocolConsts}.
Abbreviation adapter := (Adapter W B Al).
Implicit Types (a : adapter) (w : W).

(** Client [c] steers the entity [e] under the id [nid]. *)
Record steers a (c : ClientId) (nid : NetworkId) (e : Entity) : Prop := {
  st_id : bi_left (ad_bimap a) nid = Some e;
  st_owner : w_get (ad_world a) e CNetworkOwner = Some c;
  st_session : is_Some (w_get (ad_world a) e CSessionAgent);
  st_replicator : btree_get INPUT_COMMAND_KIND (ad_replicators a) = Some InputCommandReplicator }.

(** The tick of the last command of an entity. *)
Definition last_tick w e : option Z := li_last_client_tick <$> w_get w e CLatestInput.

(** Ticks that go on from [last] without a gap of more than 600; the first command of all is at
    most 600 ahead of the server. *)
Fixpoint follows (s : Z) (last : option Z) (ts : list Z) : Prop :=
  match ts with
  | [] => True
  | t :: ts =>
      match last with
      | Some l => l < t <= sat_add 64 l MAX_FORWARD_TICK_JUMP
      | None => t <= sat_add 64 s MAX_FORWARD_TICK_JUMP
      end /\ follows s (Some t) ts
  end.

Lemma apply_update_ref_reps a cu : reps_ok a -> reps_ok (apply_update_ref a cu).
Proof. intros Hr. unfold reps_ok. by rewrite (proj1 (proj2 (apply_update_ref_owner a cu (mkEntity 0) Hr))). Qed.

(** One command. *)
Lemma one_command a c nid e u command :
  steers a c nid e -> cu_network_id u = nid -> cu_component_kind u = INPUT_COMMAND_KIND ->
  deserialize_command (cu_payload u) = Some command ->
  follows (server_tick (ad_world a)) (last_tick (ad_world a) e) [ic_tick command] ->
  let a' := apply_update_ref a (c, u) in
  w_get (ad_world a') e CLatestInput = Some (mkLatestInput command (ic_tick command)) /\
  steers a' c nid e /\ server_tick (ad_world a') = server_tick (ad_world a).
Proof.
  intros [H1 H2 H3 H4] <- Hk Hd [Hf _]. cbn zeta. unfold apply_update_ref.
  rewrite H1, decide_True, Hk, H4 by done.
  pose proof (get_alive (ad_world a) e CNetworkOwner c H2) as Ha.
  assert (rep_apply InputCommandReplicator (ad_world a) e u =
            w_put (ad_world a) e CLatestInput (mkLatestInput command (ic_tick command))) as E.
  { cbn. unfold input_apply, validate_access_gate, has. rewrite H2. destruct H3 as [v ->]. cbn.
    rewrite Hd. unfold last_tick in Hf.
    destruct (w_get (ad_world a) e CLatestInput) as [l|] eqn:Hl; cbn in Hf.
    - apply (apply_command_accept _ _ l); [done|]. unfold accepts, is_valid_jump.
      by rewrite (proj2 (Z.ltb_lt _ _)), (proj2 (Z.leb_le _ _)) by lia.
    - rewrite apply_command_first, Z.min_l by (done || lia). by destruct command. }
  cbn [set_world ad_world] in *. rewrite E. split; [by apply put_get_eq|]. split.
  - split; cbn; [done | | | done]; rewrite put_get_ne by (by right); done.
  - unfold server_tick. by rewrite put_res_frame.
Qed.

(** An update of another client. *)
Lemma bystander_command a c nid e c' u :
  reps_ok a -> steers a c nid e -> c' <> c ->
  let a' := apply_update_ref a (c', u) in
  reps_ok a' /\ steers a' c nid e /\ last_tick (ad_world a') e = last_tick (ad_world a) e /\
  w_get (ad_world a') e CLatestInput = w_get (ad_world a) e CLatestInput /\
  server_tick (ad_world a') = server_tick (ad_world a).
Proof.
  intros Hr [H1 H2 H3 H4] Hne. cbn zeta.
  destruct (apply_update_ref_owner a (c', u) e Hr) as (Ho & Hreps & Hb).
  assert (forall k, w_get (ad_world (apply_update_ref a (c', u))) e k = w_get (ad_world a) e k) as Hg.
  { intros k. apply apply_update_ref_frame; [done|]. rewrite H2. congruence. }
  split; [by unfold reps_ok; rewrite Hreps|]. split; [|split; [by unfold last_tick; rewrite Hg|]].
  - split; [by rewrite Hb | by rewrite Hg | by rewrite Hg | by rewrite Hreps].
  - split; [apply Hg|]. unfold server_tick. by rewrite apply_update_ref_res.
Qed.

(** A batch in which the updates of [c] are these commands, in order. *)
Lemma commands us : forall a c nid e cs,
  reps_ok a -> steers a c nid e ->
  Forall2 (fun cu command => cu_network_id cu.2 = nid /\ cu_component_kind cu.2 = INPUT_COMMAND_KIND /\
             deserialize_command (cu_payload cu.2) = Some command)
    (filter (fun cu => cu.1 = c) us) cs ->
  follows (server_tick (ad_world a)) (last_tick (ad_world a) e) (ic_tick <$> cs) ->
  w_get (ad_world (foldl apply_update_ref a us)) e CLatestInput =
    match last cs with
    | Some command => Some (mkLatestInput command (ic_tick command))
    | None => w_get (ad_world a) e CLatestInput
    end.
Proof.
  induction us as [|[c' u] us IH]; intros a c nid e cs Hr Hs Hall Hf.
  { inversion Hall. by subst. }
  cbn [foldl]. rewrite filter_cons in Hall. destruct (decide _) as [Heq|Hne]; cbn [fst] in *.
  - subst c'. inversion Hall as [|? x ? cs' (Hn & Hk & Hd) Hall']. subst cs. destruct Hf as [Hf1 Hf].
    destruct (one_command a c nid e u x) as (Hg & Hs' & Ht); [done..|].
    pose proof (apply_update_ref_reps a (c, u) Hr) as Hr'.
    rewrite (IH _ c nid e cs' Hr' Hs' Hall').
    + rewrite last_cons. by destruct (last cs').
    + rewrite Ht. unfold last_tick. by rewrite Hg.
  - destruct (bystander_command a c nid e c' u Hr Hs Hne) as (Hr' & Hs' & Hl & Hg & Ht).
    rewrite (IH _ c nid e cs Hr' Hs' Hall); [by rewrite Hg|]. by rewrite Ht, Hl.
Qed.
End Batch.

(** ** The tick *)
Section Serving.
Context {W : Type} `{!EcsWorld W, !EcsLaws W} {B : Type} `{!BiMap B, !BiMapLaws B}.
Context {Al : Type} `{!Allocator Al} {issued : Al -> NetworkId -> Prop} `{!AllocatorLaws Al issued}.
Context {Wi : Wire} {PC : ProtocolConsts} {LM : Libm} {RR : RandomRange} {SH : StdHasher}.
Context `{LIB : !AuthLib, STR : !RustStr} {R : Type} `{!Reassembler R}.
Context {EN : Encoder} {WP : WireProtocol} {HO : HashOrder}.
Context {Cl Nt : Type} `{RC : !RenetClient Cl} `{BW : !BotWire, CL : !CodecLaws}.
Context (random : nat -> f32) (env : string -> option string) (fuel : nat).
#[local] Instance bot_world : WorldState (Adapter W B Al) := adapter_world fuel.
Abbreviation ctx := (Ctx ClockedAuth R (Adapter W B Al)).
Implicit Types (cx : ctx) (b : Bot Cl Nt).

(** The session is open, and stays so: it was active at the second [t0] or later, and the clock
    reads at most an hour more than that. *)
Definition open_for_an_hour (t0 : Z) (jti : string) (a : ClockedAuth) : Prop :=
  (exists activity, session_activity (ca_auth a) !! jti = Some activity /\ t0 <= activity) /\
  forall n, t0 <= timestamp (ca_clock a n) <= t0 + 3600.

Lemma open_confirmed t0 jti tick a :
  open_for_an_hour t0 jti a ->
  exists a', av_is_session_authorized a jti tick = (true, a') /\ open_for_an_hour t0 jti a'.
Proof.
  intros [(act & Ha & Hle) Hc]. cbn. unfold is_session_authorized_with_tick. rewrite Ha.
  pose proof (Hc (ca_reads a)) as Hnow.
  rewrite (proj2 (Z.ltb_ge _ _)) by lia.
  destruct (match tick with Some _ => _ | None => _ end); eexists; (split; [done|]); split; cbn; eauto.
  rewrite lookup_alter, Ha, decide_True by done. cbn. eexists. split; [done|]. lia.
Qed.

Lemma open_kept t0 j jti tick a :
  open_for_an_hour t0 j a -> open_for_an_hour t0 j (av_is_session_authorized a jti tick).2.
Proof.
  intros [(act & Ha & Hle) Hc]. pose proof (Hc (ca_reads a)) as Hnow. cbn.
  unfold is_session_authorized_with_tick.
  destruct (session_activity (ca_auth a) !! jti) as [act'|]; [|split; cbn; eauto].
  destruct (3600 <? _); [split; cbn; eauto|].
  destruct (match tick with Some _ => _ | None => _ end); split; cbn; eauto.
  rewrite lookup_alter. case_decide; subst; rewrite Ha; eexists; (split; [done|]); cbn; lia.
Qed.

(** Every session that was open is. *)
Definition still_open (t0 : Z) cx cx' : Prop := forall j,
  open_for_an_hour t0 j (ts_auth_service (cx_sched cx)) ->
  open_for_an_hour t0 j (ts_auth_service (cx_sched cx')).

(** Data of a client that only plays: an update, a batch of updates or a ping. *)
Definition plays (data : bytes) : Prop :=
  match decode_event data with
  | Err _ | Ok (ReplicationBatch _ _) | Ok (Ping _ _) => True
  | _ => False
  end.

(** It becomes updates of this client, and nothing else changes. *)
Lemma play_message tick cx c session agent t0 data ev :
  ts_authenticated_clients (cx_sched cx) !! c = Some (session, agent) ->
  open_for_an_hour t0 (vs_jti session) (ts_auth_service (cx_sched cx)) -> plays data ->
  ev = UnreliableMessage c data \/ ev = ReliableMessage c data ->
  exists cx' us, process_event env tick cx ev = Ret cx' /\
    cx_updates cx' = cx_updates cx ++ (pair c <$> us) /\ cx_world cx' = cx_world cx /\
    ts_authenticated_clients (cx_sched cx') = ts_authenticated_clients (cx_sched cx) /\
    still_open t0 cx cx' /\
    (forall err u, decode_event data = Err err -> decode data = Ok u -> us = [u]).
Proof.
  intros Hc Ho Hp Hev.
  destruct (open_confirmed t0 (vs_jti session) (Some tick) _ Ho) as (a' & Ha & _).
  assert (normalize cx ev = (Some (c, data), cx)) as Hn.
  { unfold plays in Hp. destruct Hev as [-> | ->]; cbn; by repeat case_match. }
  assert (still_open t0 cx (upd_sched cx (set_auth_service (cx_sched cx) a'))) as Hk.
  { intros j Hj. cbn. apply (open_kept _ _ (vs_jti session) (Some tick)) in Hj. by rewrite Ha in Hj. }
  unfold process_event. rewrite Hn. unfold authenticate. rewrite Hc, Ha. unfold plays in Hp.
  destruct (decode_event data) as [[]|err] eqn:He; try done.
  - eexists _, []. split; [reflexivity|]. cbn. rewrite app_nil_r. by split_and!.
  - eexists _, (to_update c <$> events).*2. split; [reflexivity|]. cbn.
    rewrite <- !list_fmap_compose. by split_and!.
  - destruct (decode data) as [u|] eqn:Hd.
    + eexists _, [u]. split; [reflexivity|]. cbn. split_and!; try done. by intros ? ? _ [= <-].
    + eexists _, []. split; [reflexivity|]. cbn. rewrite app_nil_r. by split_and!.
Qed.

(** The events of a tick: messages of the bot, [ms], among those of other clients, all with open
    sessions. *)
Inductive traffic (t0 : Z) cx (c : ClientId) : list NetworkEvent -> list bytes -> Prop :=
| tr_nil : traffic t0 cx c [] []
| tr_bot m evs ms :
    traffic t0 cx c evs ms -> traffic t0 cx c (UnreliableMessage c m :: evs) (m :: ms)
| tr_other ev c' session agent data evs ms :
    ev = UnreliableMessage c' data \/ ev = ReliableMessage c' data -> c' <> c ->
    ts_authenticated_clients (cx_sched cx) !! c' = Some (session, agent) ->
    open_for_an_hour t0 (vs_jti session) (ts_auth_service (cx_sched cx)) -> plays data ->
    traffic t0 cx c evs ms -> traffic t0 cx c (ev :: evs) ms.

Lemma filter_other c c' (us : list ComponentUpdate) :
  c' <> c -> filter (fun cu : ClientId * ComponentUpdate => cu.1 = c) (pair c' <$> us) = [].
Proof. intros Hne. induction us as [|u us IH]; [done|]. by rewrite fmap_cons, filter_cons_False. Qed.

Lemma bot_messages tick t0 cx0 c session agent nid evs ms :
  ts_authenticated_clients (cx_sched cx0) !! c = Some (session, agent) ->
  open_for_an_hour t0 (vs_jti session) (ts_auth_service (cx_sched cx0)) ->
  traffic t0 cx0 c evs ms ->
  forall bs cx, Forall2 (says random nid) bs ms ->
  ts_authenticated_clients (cx_sched cx) = ts_authenticated_clients (cx_sched cx0) ->
  still_open t0 cx0 cx ->
  exists cx' us, for_each (process_event env tick) cx evs = Ret cx' /\
    cx_updates cx' = cx_updates cx ++ us /\ cx_world cx' = cx_world cx /\
    ts_authenticated_clients (cx_sched cx') = ts_authenticated_clients (cx_sched cx0) /\
    Forall2 (fun cu b => cu_network_id cu.2 = nid /\ cu_component_kind cu.2 = INPUT_COMMAND_KIND /\
               decode_input (cu_payload cu.2) = Some (bot_command random b))
      (filter (fun cu => cu.1 = c) us) bs.
Proof.
  intros Hc Ho Htr. induction Htr as [|m evs ms _ IH|ev c' session' agent' data evs ms Hev Hne Hc' Ho' Hp _ IH];
    intros bs cx Hs Hcl Hop.
  - inversion Hs. subst. exists cx, []. split_and!; try done. by rewrite app_nil_r.
  - inversion Hs as [|b ? bs' ? Hb Hs']. subst.
    destruct (says_update _ _ _ _ Hb) as ([err He] & u & Hu & Hn & Hk & Hd).
    destruct (play_message tick cx c session agent t0 m (UnreliableMessage c m))
      as (cx1 & us1 & H1 & Hus1 & Hw1 & Hcl1 & Hop1 & Huu);
      [by rewrite Hcl | by apply Hop | unfold plays; by rewrite He | by left |].
    destruct (IH bs' cx1) as (cx2 & us & H2 & Hus & Hw2 & Hcl2 & Hall);
      [done | congruence | intros j Hj; by apply Hop1, Hop |].
    exists cx2, ((c, u) :: us). cbn [for_each]. rewrite H1. rewrite (Huu err u He Hu) in Hus1.
    split_and!; [done | | congruence | done |].
    + by rewrite Hus, Hus1, <- app_assoc.
    + rewrite filter_cons_True by done. by constructor.
  - destruct (play_message tick cx c' session' agent' t0 data ev)
      as (cx1 & us1 & H1 & Hus1 & Hw1 & Hcl1 & Hop1 & _);
      [by rewrite Hcl | by apply Hop | done..|].
    destruct (IH bs cx1) as (cx2 & us & H2 & Hus & Hw2 & Hcl2 & Hall);
      [done | congruence | intros j Hj; by apply Hop1, Hop |].
    exists cx2, ((pair c' <$> us1) ++ us). cbn [for_each]. rewrite H1.
    split_and!; [done | | congruence | done |].
    + by rewrite Hus, Hus1, app_assoc.
    + by rewrite filter_app, filter_other.
Qed.

(** C22 (functional): a bot moves its agent.  When the messages of some turns of a bot that possesses
    an agent of client [c] arrive in a tick, in the order of the turns, among any messages other
    players send as they play, the sessions being open; when the protocol's validation passes the
    commands; and when the number of each turn is above the tick last accepted for the agent by at
    most 600 (the first of all: at most 600 ahead of the server), which leaves room for lost messages
    but not for 600 turns lost in a row; then the tick accepts them all: the world's command for the
    agent is the one of the last of these turns, with its number, and the client stays
    authenticated. *)
Theorem bot_moves_its_agent tick cx c session agent nid e t0 evs ms bs b :
  ts_authenticated_clients (cx_sched cx) !! c = Some (session, agent) ->
  open_for_an_hour t0 (vs_jti session) (ts_auth_service (cx_sched cx)) ->
  cx_updates cx = [] -> adapter_ok (issued := issued) (cx_world cx) -> steers (cx_world cx) c nid e ->
  traffic t0 cx c evs ms -> Forall2 (says random nid) bs ms ->
  Forall (fun b => validate_input (bot_command random b) = true) bs ->
  follows (server_tick (ad_world (cx_world cx))) (last_tick (ad_world (cx_world cx)) e)
    (b_current_tick <$> bs) ->
  last bs = Some b ->
  exists cx', apply_events env tick cx evs = Ret cx' /\
    w_get (ad_world (cx_world cx')) e CLatestInput =
      Some (mkLatestInput (bot_command random b) (b_current_tick b)) /\
    ts_authenticated_clients (cx_sched cx') !! c = Some (session, agent).
Proof.
  intros Hc Ho Hu0 (Hwf & Hr & _) Hst Htr Hs Hv Hf Hl.
  destruct (bot_messages tick t0 cx c session agent nid evs ms Hc Ho Htr bs cx Hs)
    as (cx' & us & Hrun & Hus & Hw & Hcl & Hall); [done | by intros j |].
  eexists. split; [unfold apply_events; destruct evs as [|ev evs]; [|by rewrite Hrun]|].
  { inversion Htr. subst. inversion Hs. by subst. }
  cbn. split; [|by rewrite Hcl]. rewrite Hw, Hus, Hu0. cbn [app].
  destruct (apply_updates_spec (issued := issued) (cx_world cx) us Hwf Hr) as (_ & _ & -> & _).
  rewrite (commands us (cx_world cx) c nid e (bot_command random <$> bs)); [| done | done | |].
  - rewrite fmap_last, Hl. done.
  - apply Forall2_fmap_r. clear -Hall Hv.
    induction Hall as [|cu x us' bs (H1 & H2 & H3) _ IH]; constructor; apply Forall_cons in Hv as [Hv1 Hv2].
    + split_and!; [done..|]. unfold deserialize_command. rewrite H3. cbn. by rewrite Hv1.
    + by apply IH.
  - by rewrite <- list_fmap_compose.
Qed.
End Serving.
