(* ===== verification/Outbound.v ===== *)
(** * The outbound channel ([TickScheduler::run])

    [run] creates a bounded channel of 2048 messages and a task that drains it.  The tick takes
    the transport's write lock at its start, sends its messages to the channel in stage 5, waiting
    while the channel is full, and releases the lock at the end; the task takes the read lock for
    each message it has received.  The file models the two as an interleaving of atomic steps and
    shows which ticks finish: those with at most 2048 messages always can, and a tick with more
    than 2049 never does: sender and task then wait for each other.  These are runs without a
    shutdown: the arms of the two [select!]s that wait for it are steps of [Shutdown.v], which
    builds on [out_step]. *)

From stdpp Require Import gmap list relations.
From Stdlib Require Import ZArith Lia.
From S2P Require Import Prelude Protocol Auth Tick TickProps.

(** [mpsc::channel(2048)]. *)
Definition CHANNEL_CAPACITY : nat := 2048.

(** The task: in [rx.recv()], in [transport_clone.read().await] with a message in hand, or
    sending with the read lock held. *)
Inductive task_state := TaskIdle | TaskWaiting | TaskSending.

(** The scheduler: between ticks, or in a tick with the write lock held and messages still to
    send. *)
Inductive ticker_state := BetweenTicks | InTick (to_send : nat).

Record OutboundState := mkOut { ob_ticker : ticker_state; ob_queue : nat; ob_task : task_state }.

Inductive out_step : OutboundState -> OutboundState -> Prop :=
(** [transport_lock.write().await]: no reader is active. *)
| os_begin n q ts : ts <> TaskSending ->
    out_step (mkOut BetweenTicks q ts) (mkOut (InTick n) q ts)
(** [tx.send(..).await] returns when there is room. *)
| os_send n q ts : (q < CHANNEL_CAPACITY)%nat ->
    out_step (mkOut (InTick (S n)) q ts) (mkOut (InTick n) (S q) ts)
(** [drop(transport)]. *)
| os_end q ts : out_step (mkOut (InTick 0) q ts) (mkOut BetweenTicks q ts)
(** [rx.recv()]. *)
| os_recv tk q : out_step (mkOut tk (S q) TaskIdle) (mkOut tk q TaskWaiting)
(** [transport_clone.read().await]: the writer is not active. *)
| os_lock q : out_step (mkOut BetweenTicks q TaskWaiting) (mkOut BetweenTicks q TaskSending)
(** The message is sent and the lock released. *)
| os_sent tk q : out_step (mkOut tk q TaskSending) (mkOut tk q TaskIdle).

(** ** Properties *)
Lemma capacity_pos : (0 < CHANNEL_CAPACITY)%nat.
Proof. apply Nat.ltb_lt. reflexivity. Qed.

Section Outbound.
#[local] Opaque CHANNEL_CAPACITY.

(** The messages of the tick that are on their way: to be sent, in the channel, in hand. *)
Definition in_flight (st : OutboundState) : nat :=
  (match ob_ticker st with InTick n => n | BetweenTicks => 0 end) + ob_queue st +
  match ob_task st with TaskIdle => 0 | _ => 1 end.

(** A tick that will not end: the lock is held, more is on its way than fits. *)
Record stuck_tick (st : OutboundState) : Prop := {
  sk_tick : exists n, ob_ticker st = InTick n;
  sk_queue : (ob_queue st <= CHANNEL_CAPACITY)%nat;
  sk_task : ob_task st <> TaskSending;
  sk_flight : (CHANNEL_CAPACITY + 1 < in_flight st)%nat }.

Lemma stuck_tick_step st st' : stuck_tick st -> out_step st st' -> stuck_tick st'.
Proof.
  intros [[m Hm] Hq Ht Hf] Hs. unfold in_flight in Hf.
  destruct Hs as [n q ts|n q ts Hlt|q ts|tk q|q|tk q]; cbn in *; try done.
  - split; unfold in_flight; cbn; [by eexists | lia | done | lia].
  - destruct ts; done || lia.
  - split; unfold in_flight; cbn; [by eexists | lia | done | lia].
Qed.

(** Sending and receiving use up what is left of the tick. *)
Definition work (st : OutboundState) : nat :=
  match ob_ticker st with InTick n => 2 * n + ob_queue st | BetweenTicks => 0 end.

Lemma stuck_tick_work st st' : stuck_tick st -> out_step st st' -> (work st' < work st)%nat.
Proof.
  intros [[m Hm] Hq Ht Hf] Hs. unfold in_flight, work in *.
  destruct Hs as [n q ts|n q ts Hlt|q ts|tk q|q|tk q]; cbn in *; try done; try lia.
  - destruct ts; done || lia.
  - subst. lia.
Qed.

Lemma stuck_tick_to_send st : stuck_tick st -> exists m, ob_ticker st = InTick (S m).
Proof.
  intros [[m Hm] Hq Ht Hf]. unfold in_flight in Hf. rewrite Hm in *.
  destruct m as [|m]; [destruct (ob_task st); done || lia | by eexists].
Qed.

Lemma stuck_tick_nsteps k st st' :
  stuck_tick st -> nsteps out_step k st st' -> (k + work st' <= work st)%nat.
Proof.
  intros Hst Hn. induction Hn as [|k st1 st2 st3 Hs _ IH]; [done|].
  pose proof (stuck_tick_work _ _ Hst Hs). specialize (IH (stuck_tick_step _ _ Hst Hs)). lia.
Qed.

(** The sender fills the channel up to its capacity. *)
Lemma send_many k n q ts :
  (q + k <= CHANNEL_CAPACITY)%nat ->
  rtc out_step (mkOut (InTick (k + n)) q ts) (mkOut (InTick n) (q + k) ts).
Proof.
  revert q. induction k as [|k IH]; intros q Hk; [by rewrite Nat.add_0_r|].
  eapply rtc_l; [apply os_send; lia|]. replace (q + S k)%nat with (S q + k)%nat by lia.
  apply IH. lia.
Qed.

(** C26 (liveness): a tick that has more than 2049 messages to send, with the channel empty and
    the task idle at its start, never ends: whatever the interleaving, the write lock stays held
    with messages left to send, after at most twice as many steps as messages nothing can move
    any more, and such a dead state is reached. *)
Theorem large_tick_deadlocks n :
  (CHANNEL_CAPACITY + 1 < n)%nat ->
  let st := mkOut (InTick n) 0 TaskIdle in
  (forall st', rtc out_step st st' -> exists m, ob_ticker st' = InTick (S m)) /\
  (forall k st', nsteps out_step k st st' -> (k <= 2 * n)%nat) /\
  (exists st', rtc out_step st st' /\ nf out_step st').
Proof.
  intros Hn st. assert (stuck_tick st) as Hst.
  { split; unfold in_flight; cbn; [by eexists | lia | done | lia]. }
  split_and!.
  - intros st' Hr. apply stuck_tick_to_send.
    induction Hr as [|st1 st2 st3 Hs _ IH]; [done|]. by eapply IH, stuck_tick_step.
  - intros k st' Hk%stuck_tick_nsteps; [|done]. cbn in Hk. lia.
  - exists (mkOut (InTick (n - (CHANNEL_CAPACITY + 1))) CHANNEL_CAPACITY TaskWaiting). split.
    + unfold st. replace n with (1 + (CHANNEL_CAPACITY + (n - (CHANNEL_CAPACITY + 1))))%nat at 1 by lia.
      eapply rtc_l; [apply os_send, capacity_pos|].
      eapply rtc_l; [apply os_recv|]. by apply (send_many _ _ 0).
    + intros [st' Hs]. remember (CHANNEL_CAPACITY) as cap eqn:Hcap. inversion Hs; subst; lia.
Qed.

(** A tick whose messages fit into what is free of the channel can always run to
    its end, at any point of its execution and whatever the task is doing. *)
Theorem small_tick_ends n q ts :
  (n + q <= CHANNEL_CAPACITY)%nat ->
  rtc out_step (mkOut (InTick n) q ts) (mkOut BetweenTicks (q + n) ts).
Proof.
  intros Hn. eapply rtc_r; [|apply os_end].
  pose proof (send_many n 0 q ts) as H. rewrite Nat.add_0_r in H. apply H. lia.
Qed.
End Outbound.

(** ** How many messages a tick sends *)
Section Messages.
Context {A R : Type} {EN : Encoder} {WP : WireProtocol} {HO : HashOrder}.
Implicit Types s : TickScheduler A R.

Lemma send_outbound_Some s m out :
  ts_outbound_tx s = Some out -> ts_outbound_tx (send_outbound s m) = Some (out ++ [m]).
Proof. intros H. unfold send_outbound. by rewrite H. Qed.

Lemma send_reliable_to_all ev l s out :
  (forall e c, is_ok (encode_event (into_network_event e c)) = true) ->
  ts_outbound_tx s = Some out ->
  exists out', ts_outbound_tx (foldl (send_reliable_to ev) s l) = Some out' /\
    length out' = (length out + length l)%nat /\
    ts_authenticated_clients (foldl (send_reliable_to ev) s l) = ts_authenticated_clients s.
Proof.
  intros Henc. revert s out. induction l as [|c l IH]; intros s out Hout; cbn [foldl].
  - exists out. split_and!; [done | cbn; lia | done].
  - assert (exists m, send_reliable_to ev s c = send_outbound s m) as [m Hm].
    { unfold send_reliable_to. specialize (Henc ev c). destruct (encode_event _); [by eexists | done]. }
    rewrite Hm. destruct (IH (send_outbound s m) (out ++ [m])) as (out' & H1 & H2 & H3).
    { by apply send_outbound_Some. }
    exists out'. split_and!; [done | rewrite H2, length_app; cbn; lia |].
    rewrite H3. unfold send_outbound. by rewrite Hout.
Qed.

(** With an encoder that does not fail, [k] reliable events for everyone become
    [k] times as many messages of one tick as there are authenticated clients: 21 such events
    and 100 clients are 2100 messages, more than the channel and the task take in. *)
Theorem broadcast_messages s (evs : list (option ClientId * WireEvent)) out :
  (forall e c, is_ok (encode_event (into_network_event e c)) = true) ->
  Forall (fun ev => ev.1 = None) evs -> ts_outbound_tx s = Some out ->
  exists out', ts_outbound_tx (foldl send_reliable_event s evs) = Some out' /\
    length out' = (length out + length evs * size (ts_authenticated_clients s))%nat.
Proof.
  intros Henc. revert s out. induction evs as [|[tg ev] evs IH]; intros s out Hall Hout; cbn [foldl].
  - exists out. split; [done | cbn; lia].
  - inversion Hall as [|? ? Htg Hall']; subst. cbn in Htg. subst tg. unfold send_reliable_event at 2.
    cbn [fst snd reliable_targets].
    destruct (send_reliable_to_all ev (hm_iter (ts_authenticated_clients s)).*1 s out Henc Hout)
      as (out1 & H1 & H2 & H3).
    destruct (IH _ out1 Hall' H1) as (out2 & H4 & H5). exists out2. split; [done|].
    rewrite H5, H2, H3, length_fmap, (Permutation_length (hm_iter_perm _)), length_map_to_list. cbn. lia.
Qed.
End Messages.
