(* ===== verification/Shutdown.v ===== *)
(** * How the server stops ([main.rs], [TickScheduler::run])

    One message on a broadcast channel stops the server: the signal watcher sends it on the first
    SIGTERM or SIGINT and ends.  Whoever has subscribed by then is told; a subscription made later
    sees nothing, for there is no second message.  The telemetry endpoint, the resource monitor and
    the scheduler subscribe before their tasks are spawned; the outbound task resubscribes when
    [run] starts; the gRPC server subscribes inside the future it waits on, when that is first
    polled.  [main] returns when the gRPC server has drained and the scheduler has ended, or with an
    error, while it sets the gRPC server up or serves.  (A task that panics is not modelled.)

    The processes are interleaved; the tick and the outbound task move as in [Outbound.v], where
    the task leaves its loop only between two messages. *)

From stdpp Require Import gmap list relations.
From Stdlib Require Import ZArith Lia.
From S2P Require Import Prelude Outbound.

#[local] Opaque CHANNEL_CAPACITY.

(** ** State *)

(** A [broadcast::Receiver] and the loop that waits on it: not yet subscribed, waiting, with the
    message there to be received, left. *)
Inductive receiver := Unsubscribed | Listening | Notified | Stopped.

#[global] Instance receiver_eq : EqDecision receiver.
Proof. solve_decision. Defined.

(** [shutdown_tx.send(())], for one receiver. *)
Definition broadcast (r : receiver) : receiver :=
  match r with Listening => Notified | r => r end.

(** The signal watcher: before it has registered its handlers, waiting, finished. *)
Inductive watcher := Unregistered | Watching | Sent.

(** [main]: up to the end of [serve_with_shutdown], in [scheduler_handle.await], returned; returned
    with an error; or killed by a signal whose handler was not registered yet. *)
Inductive main_state := MServing | MJoining | MExited | MFailed | MKilled.

Record Process := mkProcess {
  pr_main : main_state;
  pr_watcher : watcher;
  pr_http : receiver;
  pr_monitor : receiver;
  pr_grpc : receiver;
  pr_scheduler : receiver;
  pr_outbound : receiver;
  pr_lane : OutboundState }.

(** What [main] has set up when it comes to serve. *)
Definition started : Process :=
  mkProcess MServing Unregistered Listening Listening Unsubscribed Listening Unsubscribed
    (mkOut BetweenTicks 0 TaskIdle).

Definition running (r : receiver) : Prop := r = Listening \/ r = Notified.

(** The tick alone, when the receiving end of the channel is gone: every send fails at once. *)
Inductive closed_step : OutboundState -> OutboundState -> Prop :=
| cs_begin n q ts : closed_step (mkOut BetweenTicks q ts) (mkOut (InTick n) q ts)
| cs_send n q ts : closed_step (mkOut (InTick (S n)) q ts) (mkOut (InTick n) q ts)
| cs_end q ts : closed_step (mkOut (InTick 0) q ts) (mkOut BetweenTicks q ts).

(** The process is there until [main] returns or it is killed. *)
Definition alive (ma : main_state) : Prop := ma = MServing \/ ma = MJoining.

(** ** Steps *)
Inductive proc_step : Process -> Process -> Prop :=
(** The watcher registers its handlers; until then a signal kills the process. *)
| ps_register ht mo gr sc ou la :
    proc_step (mkProcess MServing Unregistered ht mo gr sc ou la)
              (mkProcess MServing Watching ht mo gr sc ou la)
| ps_kill ht mo gr sc ou la :
    proc_step (mkProcess MServing Unregistered ht mo gr sc ou la)
              (mkProcess MKilled Unregistered ht mo gr sc ou la)
(** A signal: the watcher sends the message and ends. *)
| ps_signal ma ht mo gr sc ou la : alive ma ->
    proc_step (mkProcess ma Watching ht mo gr sc ou la)
              (mkProcess ma Sent (broadcast ht) (broadcast mo) (broadcast gr) (broadcast sc)
                 (broadcast ou) la)
(** The future of [serve_with_shutdown] is polled for the first time, and receives later. *)
| ps_poll wa ht mo sc ou la :
    proc_step (mkProcess MServing wa ht mo Unsubscribed sc ou la)
              (mkProcess MServing wa ht mo Listening sc ou la)
| ps_drained ma wa ht mo sc ou la : alive ma ->
    proc_step (mkProcess ma wa ht mo Notified sc ou la) (mkProcess ma wa ht mo Stopped sc ou la)
(** The telemetry endpoint and the monitor. *)
| ps_http ma wa mo gr sc ou la : alive ma ->
    proc_step (mkProcess ma wa Notified mo gr sc ou la) (mkProcess ma wa Stopped mo gr sc ou la)
| ps_monitor ma wa ht gr sc ou la : alive ma ->
    proc_step (mkProcess ma wa ht Notified gr sc ou la) (mkProcess ma wa ht Stopped gr sc ou la)
(** [run] starts: the outbound task is spawned with a receiver that starts at the tail. *)
| ps_run ma wa ht mo gr sc la : alive ma -> running sc ->
    proc_step (mkProcess ma wa ht mo gr sc Unsubscribed la)
              (mkProcess ma wa ht mo gr sc Listening la)
(** Ticks and the outbound task, which is there; no tick begins once the scheduler has left. *)
| ps_lane ma wa ht mo gr sc ou la la' : alive ma -> running ou -> out_step la la' ->
    (sc = Stopped -> ob_ticker la' = BetweenTicks) ->
    proc_step (mkProcess ma wa ht mo gr sc ou la) (mkProcess ma wa ht mo gr sc ou la')
(** Ticks when the outbound task has left. *)
| ps_closed ma wa ht mo gr sc la la' : alive ma -> running sc -> closed_step la la' ->
    proc_step (mkProcess ma wa ht mo gr sc Stopped la) (mkProcess ma wa ht mo gr sc Stopped la')
(** The outbound task, in its [select!], takes the message; or it finds the channel empty and all
    senders gone. *)
| ps_outbound ma wa ht mo gr sc tk q : alive ma ->
    proc_step (mkProcess ma wa ht mo gr sc Notified (mkOut tk q TaskIdle))
              (mkProcess ma wa ht mo gr sc Stopped (mkOut tk q TaskIdle))
| ps_no_senders ma wa ht mo gr ou tk : alive ma -> running ou ->
    proc_step (mkProcess ma wa ht mo gr Stopped ou (mkOut tk 0 TaskIdle))
              (mkProcess ma wa ht mo gr Stopped Stopped (mkOut tk 0 TaskIdle))
(** The scheduler, in its [select!] between two ticks, takes the message. *)
| ps_scheduler ma wa ht mo gr ou q ts : alive ma -> ou <> Unsubscribed ->
    proc_step (mkProcess ma wa ht mo gr Notified ou (mkOut BetweenTicks q ts))
              (mkProcess ma wa ht mo gr Stopped ou (mkOut BetweenTicks q ts))
(** [main] returns an error: of [ALLOWED_ORIGINS], of [build_tls_config] and [tls_config], or of
    [serve_with_shutdown]. *)
| ps_fail wa ht mo gr sc ou la :
    proc_step (mkProcess MServing wa ht mo gr sc ou la) (mkProcess MFailed wa ht mo gr sc ou la)
(** [main] goes on. *)
| ps_join wa ht mo sc ou la :
    proc_step (mkProcess MServing wa ht mo Stopped sc ou la)
              (mkProcess MJoining wa ht mo Stopped sc ou la)
| ps_exit wa ht mo gr ou la :
    proc_step (mkProcess MJoining wa ht mo gr Stopped ou la)
              (mkProcess MExited wa ht mo gr Stopped ou la).

Definition reachable (p : Process) : Prop := rtc proc_step started p.
Definition can_exit (p : Process) : Prop := exists p', rtc proc_step p p' /\ pr_main p' = MExited.

(** ** Invariant *)
Record proc_inv (p : Process) : Prop := {
  sd_scheduler : match pr_watcher p with
                 | Sent => pr_scheduler p = Notified \/ pr_scheduler p = Stopped
                 | _ => pr_scheduler p = Listening
                 end;
  sd_unsent : pr_watcher p <> Sent -> pr_grpc p <> Notified /\ pr_grpc p <> Stopped;
  sd_main : pr_main p = MJoining -> pr_grpc p = Stopped;
  sd_lane : pr_outbound p = Unsubscribed -> pr_lane p = mkOut BetweenTicks 0 TaskIdle;
  sd_gone : pr_outbound p = Stopped -> ob_task (pr_lane p) = TaskIdle;
  sd_lock : forall n, ob_ticker (pr_lane p) = InTick n -> ob_task (pr_lane p) <> TaskSending;
  sd_queue : (ob_queue (pr_lane p) <= CHANNEL_CAPACITY)%nat;
  sd_stopped : pr_scheduler p = Stopped -> ob_ticker (pr_lane p) = BetweenTicks }.

Lemma out_step_lock la la' :
  out_step la la' -> (forall n, ob_ticker la = InTick n -> ob_task la <> TaskSending) ->
  (ob_queue la <= CHANNEL_CAPACITY)%nat ->
  (forall n, ob_ticker la' = InTick n -> ob_task la' <> TaskSending) /\
  (ob_queue la' <= CHANNEL_CAPACITY)%nat.
Proof.
  intros Hs Hl Hq. destruct Hs; cbn in *; split; try done; try lia; try (intros; by eapply Hl).
Qed.

Lemma closed_step_lane la la' :
  closed_step la la' -> ob_queue la' = ob_queue la /\ ob_task la' = ob_task la.
Proof. by destruct 1. Qed.

Ltac no_run := match goal with H : running _ |- _ => by destruct H end.

Lemma broadcast_Stopped r : broadcast r = Stopped <-> r = Stopped.
Proof. by destruct r. Qed.

Lemma broadcast_Unsubscribed r : broadcast r = Unsubscribed <-> r = Unsubscribed.
Proof. by destruct r. Qed.

Lemma proc_inv_step p p' : proc_inv p -> proc_step p p' -> proc_inv p'.
Proof.
  intros [H1 H2 H3 H4 Hg H5 H6 H7] Hs. destruct Hs; cbn in *.
  all: split; cbn; try done; try (by intros; eauto; congruence).
  - rewrite H1. by left.
  - intros Hm. rewrite (H3 Hm). done.
  - rewrite broadcast_Unsubscribed. done.
  - rewrite broadcast_Stopped. done.
  - rewrite broadcast_Stopped. done.
  - intros Hw. destruct (H2 Hw). done.
  - intros ->. no_run.
  - intros ->. no_run.
  - by eapply out_step_lock.
  - by eapply out_step_lock.
  - intros _. destruct (closed_step_lane la la' ltac:(done)) as [_ ->]. by apply Hg.
  - intros n _. destruct (closed_step_lane la la' ltac:(done)) as [_ ->]. by rewrite Hg.
  - destruct (closed_step_lane la la' ltac:(done)) as [-> _]. done.
  - intros ->. no_run.
  - by destruct wa; [..|right].
Qed.

Lemma reachable_inv p : reachable p -> proc_inv p.
Proof.
  revert p. apply (rtc_ind_r proc_inv started).
  - split; cbn; try done. apply Nat.le_0_l.
  - intros p q _ Hs Hp. by eapply proc_inv_step.
Qed.

(** ** When the process can still end *)

(** The tick will not end: more is on its way than fits, and the outbound task cannot leave,
    for it has not been told, or holds a message and waits for the lock of the tick. *)
Definition hung (p : Process) : Prop :=
  stuck_tick (pr_lane p) /\ running (pr_outbound p) /\
  (pr_outbound p = Notified -> ob_task (pr_lane p) = TaskWaiting).

(** The message was sent before the gRPC server had subscribed. *)
Definition unheard (p : Process) : Prop := pr_grpc p = Unsubscribed \/ pr_grpc p = Listening.

(** Neither is ever made good. *)
Definition missed (p : Process) : Prop :=
  pr_watcher p = Sent /\ (pr_main p = MServing \/ pr_main p = MFailed) /\ unheard p.

Lemma missed_step p p' : missed p -> proc_step p p' -> missed p'.
Proof.
  intros (Hw & Hm & Hu) Hs. unfold missed, unheard in *.
  destruct Hs; cbn in *; simplify_eq; split_and!; try done; try (by destruct Hu; eauto);
    by destruct Hm; eauto.
Qed.

Definition frozen (p : Process) : Prop :=
  pr_watcher p = Sent /\ pr_main p <> MExited /\ pr_scheduler p = Notified /\ hung p.

Lemma hung_lane ou la la' :
  stuck_tick la -> (ou = Notified -> ob_task la = TaskWaiting) -> out_step la la' ->
  stuck_tick la' /\ (ou = Notified -> ob_task la' = TaskWaiting).
Proof.
  intros Hst Ht Hs. split; [by eapply stuck_tick_step|]. intros Hou. specialize (Ht Hou).
  destruct Hst as [[n Hn] _ _ _]. by destruct Hs; cbn in *; simplify_eq.
Qed.

Lemma frozen_step p p' : frozen p -> proc_step p p' -> frozen p'.
Proof.
  intros (Hw & Ha & Hsc & Hst & Hr & Ht) Hs. pose proof Hst as [[n Hn] _ _ _].
  destruct Hs; cbn in *; simplify_eq; try done; try no_run;
    try (split_and!; cbn; try done; unfold alive; by eauto).
  - destruct (hung_lane _ _ _ Hst Ht ltac:(eassumption)) as [? ?]. by split_and!.
  - by specialize (Ht eq_refl).
Qed.

Lemma stays (I : Process -> Prop) p p' :
  (forall p p', I p -> proc_step p p' -> I p') -> I p -> rtc proc_step p p' -> I p'.
Proof. intros HI Hp Hr. induction Hr as [|p q r Hs _ IH]; [done|]. eauto. Qed.

Section Ending.
Context (ma : main_state) (ht mo gr : receiver) (Ha : alive ma).

Abbreviation at_ ou la := (mkProcess ma Sent ht mo gr Notified ou la).

Lemma lane_steps ou la la' :
  running ou -> rtc out_step la la' -> rtc proc_step (at_ ou la) (at_ ou la').
Proof.
  intros Hr. apply (rtc_congruence (fun la => at_ ou la)). intros. by apply ps_lane.
Qed.

Lemma closed_tick_ends n q ts :
  rtc proc_step (at_ Stopped (mkOut (InTick n) q ts)) (at_ Stopped (mkOut BetweenTicks q ts)).
Proof.
  induction n as [|n IH].
  - apply rtc_once, ps_closed; [done | by right | constructor].
  - eapply rtc_l; [|apply IH]. apply ps_closed; [done | by right | constructor].
Qed.

(** A tick that is not hung can come to its end. *)
Lemma tick_ends ou la :
  (forall n, ob_ticker la = InTick n -> ob_task la <> TaskSending) ->
  (ob_queue la <= CHANNEL_CAPACITY)%nat -> ou <> Unsubscribed -> ~ hung (at_ ou la) ->
  exists ou' q ts, ou' <> Unsubscribed /\
    rtc proc_step (at_ ou la) (at_ ou' (mkOut BetweenTicks q ts)).
Proof.
  destruct la as [[|n] q ts]; cbn; intros Hl Hq Hou Hh; [by exists ou, q, ts|].
  assert (ou = Stopped \/ running ou) as [->|Hr] by (unfold running; destruct ou; naive_solver).
  { exists Stopped, q, ts. split; [done|]. apply closed_tick_ends. }
  specialize (Hl n eq_refl).
  destruct (decide (n + q <= CHANNEL_CAPACITY)%nat) as [Hfit|Hbig].
  { exists ou, (q + n)%nat, ts. split; [done|]. by apply lane_steps, small_tick_ends. }
  assert (forall m k, (m + k = CHANNEL_CAPACITY)%nat ->
            rtc proc_step (at_ ou (mkOut (InTick m) (S k) TaskIdle))
              (at_ ou (mkOut BetweenTicks (k + m) TaskWaiting))) as Hrecv.
  { intros m k Hmk. apply lane_steps; [done|]. eapply rtc_l; [apply os_recv|]. apply small_tick_ends. lia. }
  destruct ts; [| |done].
  - destruct Hr as [-> | ->].
    + assert (n + q = CHANNEL_CAPACITY + 1)%nat as Heq.
      { destruct (decide (CHANNEL_CAPACITY + 1 < n + q)%nat); [|lia]. exfalso. apply Hh.
        split_and!; [|by left|done]. split; cbn; [by eexists | lia | done | unfold in_flight; cbn; lia]. }
      destruct q as [|q].
      * destruct n as [|n]; [lia|]. exists Listening, (0 + n)%nat, TaskWaiting. split; [done|].
        eapply rtc_l; [|apply (Hrecv n 0%nat); lia]. apply ps_lane; [done | by left | | done].
        apply os_send, capacity_pos.
      * exists Listening, (q + n)%nat, TaskWaiting. split; [done|]. apply Hrecv. lia.
    + exists Stopped, q, TaskIdle. split; [done|].
      eapply rtc_l; [by apply ps_outbound|]. apply closed_tick_ends.
  - exfalso. apply Hh. split_and!; [|done|done].
    split; cbn; [by eexists | lia | done | unfold in_flight; cbn; lia].
Qed.
End Ending.

Lemma main_ends ma ht mo gr ou la :
  alive ma -> gr = Notified \/ gr = Stopped -> (ma = MJoining -> gr = Stopped) ->
  can_exit (mkProcess ma Sent ht mo gr Stopped ou la).
Proof.
  intros Ha Hg Hj.
  assert (can_exit (mkProcess MJoining Sent ht mo Stopped Stopped ou la)) as (p & Hp & Hx).
  { eexists. split; [apply rtc_once, ps_exit | done]. }
  assert (can_exit (mkProcess ma Sent ht mo Stopped Stopped ou la)) as (p' & Hp' & Hx').
  { destruct Ha as [-> | ->]; [|by exists p]. exists p. split; [|done].
    eapply rtc_l; [apply ps_join | done]. }
  destruct Hg as [-> | ->]; [|by exists p']. exists p'. split; [|done].
  eapply rtc_l; [by apply ps_drained | done].
Qed.

(** C18 (liveness): after the signal has been handled, and whatever was going on, the process can
    still end regularly if and only if the gRPC server had subscribed before and no tick hangs: a
    signal that comes while the server starts is lost for good, and a tick that waits for its
    outbound task keeps the process alive until it is killed or serving fails. *)
Theorem shutdown_ends_iff p :
  reachable p -> pr_watcher p = Sent -> alive (pr_main p) ->
  can_exit p <-> ~ unheard p /\ ~ (pr_scheduler p = Notified /\ hung p).
Proof.
  intros Hr Hw Ha. pose proof (reachable_inv _ Hr) as [H1 H2 H3 H4 Hg H5 H6 H7].
  rewrite Hw in H1. split.
  - intros (p' & Hp' & Hx). split.
    + intros Hu. assert (missed p) as Hm.
      { split_and!; [done| |done]. left. destruct Ha as [|Hj]; [done|].
        apply H3 in Hj. destruct Hu; congruence. }
      apply (stays _ _ _ missed_step Hm) in Hp' as (_ & [Hp'|Hp'] & _); congruence.
    + intros [Hs Hh]. assert (frozen p) as Hf.
      { split_and!; try done. by destruct Ha as [-> | ->]. }
      by apply (stays _ _ _ frozen_step Hf) in Hp' as (_ & Hp' & _).
  - intros [Hu Hh]. destruct p as [ma wa ht mo gr sc ou la]; cbn in *; subst wa.
    assert (gr = Notified \/ gr = Stopped) as Hgr.
    { destruct gr; [exfalso; apply Hu; by left | exfalso; apply Hu; by right | by left | by right]. }
    destruct H1 as [-> | ->]; [|by apply main_ends].
    assert (exists ou', ou' <> Unsubscribed /\
      rtc proc_step (mkProcess ma Sent ht mo gr Notified ou la)
        (mkProcess ma Sent ht mo gr Notified ou' la) /\ (ou' = ou \/ la = mkOut BetweenTicks 0 TaskIdle))
      as (ou' & Hou & Hrun & Hsame).
    { destruct (decide (ou = Unsubscribed)) as [->|];
        [|exists ou; split; [done|]; split; [apply rtc_refl | by left]].
      exists Listening. split; [done|]. split; [|by right; apply H4].
      apply rtc_once, ps_run; [done | by right]. }
    assert (~ hung (mkProcess ma Sent ht mo gr Notified ou' la)) as Hh'.
    { destruct Hsame as [-> | ->]; [naive_solver|]. intros ([[n Hn] _ _ _] & _). done. }
    destruct (tick_ends ma ht mo gr Ha ou' la H5 H6 Hou Hh') as (ou2 & q & ts & Hou2 & Htick).
    destruct (main_ends ma ht mo gr ou2 (mkOut BetweenTicks q ts) Ha Hgr H3) as (p' & Hp' & Hx).
    exists p'. split; [|done]. etrans; [exact Hrun|]. etrans; [exact Htick|].
    eapply rtc_l; [by apply ps_scheduler | exact Hp'].
Qed.

(** A signal between the registration of the handlers and the first poll of the gRPC server. *)
Definition lost_signal : Process :=
  mkProcess MServing Sent Notified Notified Unsubscribed Notified Unsubscribed
    (mkOut BetweenTicks 0 TaskIdle).

Lemma shutdown_ends_iff_witness : reachable lost_signal /\ ~ can_exit lost_signal.
Proof.
  assert (reachable lost_signal) as Hr.
  { eapply rtc_l; [apply ps_register|]. apply rtc_once. apply ps_signal. left. reflexivity. }
  split; [exact Hr|].
  pose proof (shutdown_ends_iff lost_signal Hr eq_refl (or_introl eq_refl)) as Hiff.
  intros Hx. apply Hiff in Hx as [Hu _]. apply Hu. left. reflexivity.
Defined.
