(* ===== verification/Main.v ===== *)
(** * The server binary ([aetheris-server/src/main.rs])

    [main] reads the environment, refuses configurations that are not allowed in production, starts
    the telemetry endpoint, the transports, the scheduler and its helpers, and serves gRPC.  It is
    modelled up to the point where it serves ([Shutdown.v] goes on from there), as a program that spawns tasks and writes files, fails
    with the text of an error or panics.  The parts it starts are those of the other files; the
    feature [phase1] is a parameter. *)

From stdpp Require Import gmap strings list.
From Stdlib Require Import ZArith Lia.
From S2P Require Import Prelude F32 F64 Text Protocol Components Ecs.
From S2P Require Import EcsModel Registry Extraction Interaction Adapter.
From S2P Require Import AdapterProps Simulate RateLimit Email Certificate Config Tick MultiTransport.
From S2P Require Import Renet WebTransport Transports Auth AuthProps Google Server.

Open Scope Z_scope.
Open Scope list_scope.

(** ** What is configured *)

(** The origins a CORS layer lets in, and its lists. *)
Inductive Origin := AnyOrigin | ExactOrigin (value : string).
Record Cors := mkCors {
  co_allow_origin : Origin; co_allow_methods : list string; co_allow_headers : list string;
  co_expose_headers : list string }.

Inductive GrpcService := AuthGrpc | MatchmakingGrpc | TelemetryGrpc.

(** Process-wide set-up that can fail: the crypto provider, the metrics exporter on its port, the
    pool of encoding threads, the check of a PEM pair by tonic, the parsing of a header value, and
    the text of a transport's error. *)
Class Platform : Type := {
  install_crypto : result unit string;
  install_prometheus : Z -> result unit string;
  build_encode_pool : Z -> result unit string;
  tls_config : list Z -> list Z -> result unit string;
  parse_header_value : string -> result string string;
  show_transport_error : TransportError -> string;
}.

(** The clock and the randomness of the start. *)
Record StartInputs `{!Rcgen} := mkInputs {
  in_clock : Clock; in_auth_clock : nat -> Z; in_now_before : Z; in_now_after : Z; in_rng : Entropy }.

Section Main.
Context {W : Type} `{!EcsWorld W} {B : Type} `{!BiMap B} {Al : Type} `{!Allocator Al}.
Context {Wi : Wire} {PC : ProtocolConsts} {LM : Libm} {RR : RandomRange} {SH : StdHasher}.
Context `{LIB : !AuthLib, STR : !RustStr} {R : Type} `{!Reassembler R}.
Context {Mail : Type} `{!Lettre Mail, !Reqwest Mail}.
Context {S N C Net : Type} `{WP : !WireProtocol, RS : !RenetServer S, NC : !NetcodeTransport S N}.
Context {FS : Type} `{!FileSystem FS, !PemLoader FS, !WtEndpoint FS Net} {RG : Rcgen} {CH : CertHash}.
Context {PF : Platform} {OL : OidcLib}.
Context (env : string -> option string) (phase1 : bool).
(** The authorization check the bridge calls, and the iteration over the registry. *)
Context (wt_validator : str -> bool).
Context (values : gmap ComponentKind (ComponentDescriptor W) -> list (ComponentDescriptor W)).

(** ** What runs *)
Inductive Task :=
| TelemetryHttp (addr : SocketAddr) (cors : Cors)
| SchedulerTask (scheduler : TickScheduler ClockedAuth R) (world : Adapter W B Al)
    (transports : list (BoxedTransport (S := S) (N := N) (C := C) (Net := Net)))
| ResourceMonitor
| ShutdownWatcher.

(** What the gRPC server is started with. *)
Record Serving := mkServing {
  sv_addr : SocketAddr; sv_sender : EmailSender (W := Mail); sv_auth : AuthServiceImpl;
  sv_cors : Cors; sv_tls : option (list Z * list Z); sv_services : list GrpcService }.

(** ** The monad of [main]: the tasks spawned so far, the files, an error that is returned *)
Definition Boot (A : Type) : Type := list Task * FS -> exec (result A string * (list Task * FS)).

#[global] Instance Boot_ret : MRet Boot := fun A a s => Ret (Ok a, s).
#[global] Instance Boot_bind : MBind Boot := fun A B f m s =>
  match m s with
  | Ret (Ok a, s) => f a s
  | Ret (Err e, s) => Ret (Err e, s)
  | Panic => Panic
  | Diverge => Diverge
  end.

(** [?] on a result with the given text of its error. *)
Definition try_ {A E} (show : E -> string) (r : result A E) : Boot A := fun s =>
  Ret (match r with Ok a => Ok a | Err e => Err (show e) end, s).
(** A call that may panic; [expect]. *)
Definition call {A} (m : exec A) : Boot A := fun s => a ← m; Ret (Ok a, s).
Definition expect {A} (r : result A string) : Boot A := call (unwrap (ok_of r)).
Definition spawn (t : Task) : Boot unit := fun '(ts, fs) => Ret (Ok (), (ts ++ [t], fs)).
Definition get_fs : Boot FS := fun s => Ret (Ok s.2, s).
(** A call that may write files. *)
Definition with_fs {A} (m : FS -> exec (A * FS)) : Boot A := fun '(ts, fs) =>
  '(a, fs) ← m fs; Ret (Ok a, (ts, fs)).
Definition fail {A} (e : string) : Boot A := fun s => Ret (Err e, s).

(** ** Reading the environment *)
Definition truthy (v : string) : bool :=
  let v := str_to_lowercase v in
  String.eqb v "1" || String.eqb v "true" || String.eqb v "yes" || String.eqb v "on".
Definition env_flag (name : string) : bool := match env name with Some v => truthy v | None => false end.
Definition env_or (name dflt : string) : string := default dflt (env name).

Definition production : bool := String.eqb (env_or "AETHERIS_ENV" "dev") "production".
Definition use_tls : bool := env_flag "AETHERIS_GRPC_TLS".

(** [s.parse::<SocketAddr>()?]. *)
Definition parse_addr (s : string) : Boot SocketAddr :=
  match parse_socket_addr (lit s) with
  | Some a => mret a
  | None => fail "invalid socket address syntax"
  end.

(** The sender of one-time codes. *)
Definition select_sender : Boot (EmailSender (W := Mail)) :=
  let sender_type := env_or "OTP_EMAIL_SENDER" "log" in
  if String.eqb sender_type "log" then
    if production then fail "OTP_EMAIL_SENDER=log is forbidden in AETHERIS_ENV=production"
    else mret LogEmailSender
  else if String.eqb sender_type "smtp" then
    s ← try_ (fun e => "Failed to initialize SMTP sender: " +:+ e) (smtp_from_env env);
    mret (SmtpSender s)
  else if String.eqb sender_type "resend" then
    s ← try_ (fun e => "Failed to initialize Resend sender: " +:+ e) (resend_from_env env);
    mret (ResendSender s)
  else fail ("Unknown OTP_EMAIL_SENDER: " +:+ sender_type).

(** ** The telemetry endpoint *)
Definition telemetry_addr : SocketAddr :=
  mkSocketAddr (V4 0 0 0 0) (env_uint env "AETHERIS_TELEMETRY_HTTP_PORT" 16 50055).
Definition cors_http : Cors := mkCors AnyOrigin ["POST"; "OPTIONS"] ["content-type"] [].

(** ** The transports *)
Definition renet_config : RenetServerConfig :=
  let c := renet_config_default in
  mkRenetConfig (rc_protocol_id c) (rc_max_clients c) (rc_authentication c)
    (if env_flag "AETHERIS_AUTH_BYPASS" then 100 else rc_max_new_connections_per_second c)
    (rc_max_payload_size c) (5 * 1024 * 1024).

(** The part of [main] under [phase1] up to the gRPC server. *)
Definition start_game (auth_service : AuthServiceImpl) (i : StartInputs) : Boot unit :=
  _ ← expect (build_encode_pool (sc_encode_threads (load env)));
  renet_addr ← parse_addr (env_or "AETHERIS_RENET_ADDR" "0.0.0.0:5000");
  renet ← try_ show_transport_error (new_server renet_addr (Some renet_config) (in_clock i));
  let transport := add_transport multi_new (BoxRenet renet) in
  wt_addr ← parse_addr (env_or "AETHERIS_WT_ADDR" "[::]:4433");
  wt ← with_fs (bridge_start wt_addr (Some wt_validator) (in_now_before i) (in_now_after i) (in_rng i));
  let transport := add_transport transport (BoxBridge wt) in
  let tick_rate := sc_tick_rate (load env) in
  world ← call (bootstrap_phase1_world tick_rate (fun reg => Ret reg) values);
  let scheduler := scheduler_new env tick_rate (mkClockedAuth auth_service (in_auth_clock i) 0) in
  _ ← spawn (SchedulerTask scheduler world transport);
  _ ← spawn ResourceMonitor;
  spawn ShutdownWatcher.

(** ** The gRPC server *)
Definition grpc_cors : Boot Cors :=
  origin ←
    (if production then
       v ← try_ (fun e => "Invalid ALLOWED_ORIGINS: " +:+ e)
             (parse_header_value (env_or "ALLOWED_ORIGINS" "https://aetheris.io"));
       mret (ExactOrigin v)
     else mret AnyOrigin);
  mret (mkCors origin ["POST"; "OPTIONS"] ["content-type"; "user-agent"; "x-grpc-web"; "x-user-agent"]
          ["grpc-status"; "grpc-message"; "grpc-status-details-bin"]).

(** [get_tls_paths]. *)
Definition get_tls_paths : string * string :=
  (env_or "AETHERIS_GRPC_TLS_CERT_PATH" "target/dev-certs/cert.pem",
   env_or "AETHERIS_GRPC_TLS_KEY_PATH" "target/dev-certs/key.pem").

(** [build_tls_config]. *)
Definition build_tls_config (fs : FS) (cert_path key_path : string) : result (list Z * list Z) string :=
  match fs_read fs cert_path with
  | Err e => Err ("Failed to read TLS cert from " +:+ cert_path +:+ ": " +:+ e)
  | Ok cert =>
      match fs_read fs key_path with
      | Err e => Err ("Failed to read TLS key from " +:+ key_path +:+ ": " +:+ e)
      | Ok key => Ok (cert, key)
      end
  end.

(** The TLS of the builder. *)
Definition grpc_tls : Boot (option (list Z * list Z)) :=
  if use_tls then
    let '(cert_path, key_path) := get_tls_paths in
    fs ← get_fs;
    config ← try_ id (build_tls_config fs cert_path key_path);
    _ ← try_ id (tls_config config.1 config.2);
    mret (Some config)
  else mret None.

(** [register_services]. *)
Definition register_services : list GrpcService := [AuthGrpc; MatchmakingGrpc; TelemetryGrpc].

(** The gRPC server as it comes to serve. *)
Definition control_plane (addr : SocketAddr) (email_sender : EmailSender)
    (auth_service : AuthServiceImpl) : Boot Serving :=
  cors ← grpc_cors;
  tls ← grpc_tls;
  mret (mkServing addr email_sender auth_service cors tls register_services).

(** The build without the feature [phase1]: no game, the same control plane. *)
Definition control_plane_only (addr : SocketAddr) (email_sender : EmailSender)
    (auth_service : AuthServiceImpl) : Boot Serving :=
  _ ← spawn ShutdownWatcher;
  control_plane addr email_sender auth_service.

(** ** [main], until it serves *)
Definition main (i : StartInputs) : Boot Serving :=
  _ ← expect install_crypto;
  _ ← expect (install_prometheus (sc_metrics_port (load env)));
  addr ← parse_addr (env_or "AETHERIS_GRPC_ADDR" "0.0.0.0:50051");
  email_sender ← select_sender;
  auth_service ← call (auth_new env (ok_of (google_new env)));
  _ ← spawn (TelemetryHttp telemetry_addr cors_http);
  _ ← (if production && negb use_tls
       then fail "AETHERIS_GRPC_TLS=true is REQUIRED in AETHERIS_ENV=production" else mret ());
  if phase1 then
    _ ← start_game auth_service i;
    control_plane addr email_sender auth_service
  else control_plane_only addr email_sender auth_service.

(** ** Properties *)
Lemma boot_bind_Ok {X Y} (m : Boot X) (f : X -> Boot Y) s b s' :
  (m ≫= f) s = Ret (Ok b, s') -> exists a s1, m s = Ret (Ok a, s1) /\ f a s1 = Ret (Ok b, s').
Proof. unfold mbind, Boot_bind. destruct (m s) as [[[a|e] s1]| |] eqn:E; try done. eauto. Qed.

Lemma try_Ok {X E} (show : E -> string) (r : result X E) s a s' :
  try_ show r s = Ret (Ok a, s') -> r = Ok a /\ s' = s.
Proof. destruct r; cbn; intros [=]; by subst. Qed.

Lemma call_Ok {X} (m : exec X) s a s' : call m s = Ret (Ok a, s') -> m = Ret a /\ s' = s.
Proof. unfold call. destruct m; cbn; intros [=]; by subst. Qed.

Lemma with_fs_Ok {X} (m : FS -> exec (X * FS)) s a s' :
  with_fs m s = Ret (Ok a, s') -> m s.2 = Ret (a, s'.2) /\ s'.1 = s.1.
Proof. destruct s as [ts fs]. unfold with_fs. cbn. destruct (m fs) as [[x fs']| |]; cbn; intros [=]; by subst. Qed.

Lemma parse_addr_Ok x s a s' : parse_addr x s = Ret (Ok a, s') -> parse_socket_addr (lit x) = Some a /\ s' = s.
Proof. unfold parse_addr. destruct (parse_socket_addr (lit x)); cbn; intros [=]; by subst. Qed.

Lemma spawn_Ok t s x s' : spawn t s = Ret (Ok x, s') -> s'.1 = s.1 ++ [t] /\ s'.2 = s.2.
Proof. destruct s as [ts fs], x. cbn. intros [= <-]. done. Qed.

(** Takes a start that succeeded apart into its steps. *)
Ltac boot_inv :=
  repeat match goal with
  | H : (_ ≫= _) _ = Ret (Ok _, _) |- _ => apply boot_bind_Ok in H as (? & ? & ? & H)
  | H : try_ _ _ _ = Ret (Ok _, _) |- _ => apply try_Ok in H as [? ->]
  | H : expect _ _ = Ret (Ok _, _) |- _ => apply call_Ok in H as [_ ->]
  | H : call _ _ = Ret (Ok _, _) |- _ => apply call_Ok in H as [? ->]
  | H : with_fs _ _ = Ret (Ok _, _) |- _ => apply with_fs_Ok in H as [? ?]
  | H : parse_addr _ _ = Ret (Ok _, _) |- _ => apply parse_addr_Ok in H as [? ->]
  | H : mret _ _ = Ret (Ok _, _) |- _ => injection H as <- <-
  | H : fail _ _ = Ret (Ok _, _) |- _ => discriminate H
  | H : get_fs _ = Ret (Ok _, _) |- _ => injection H as <- <-
  | H : spawn _ _ = Ret (Ok _, _) |- _ => apply spawn_Ok in H as (? & ?)
  end.

Lemma select_sender_Ok s e s' :
  select_sender s = Ret (Ok e, s') -> s' = s /\ (production = true -> e <> LogEmailSender).
Proof.
  unfold select_sender. intros H. by repeat case_match; boot_inv.
Qed.

Lemma grpc_cors_Ok s c s' :
  grpc_cors s = Ret (Ok c, s') -> s' = s /\
  (production = true -> exists v, parse_header_value (env_or "ALLOWED_ORIGINS" "https://aetheris.io") = Ok v /\
     co_allow_origin c = ExactOrigin v).
Proof. unfold grpc_cors. intros H. destruct production; boot_inv; split; try done. eauto. Qed.

Lemma build_tls_config_Ok fs cert_path key_path cert key :
  build_tls_config fs cert_path key_path = Ok (cert, key) ->
  fs_read fs cert_path = Ok cert /\ fs_read fs key_path = Ok key.
Proof. unfold build_tls_config. repeat case_match; intros [=]; by subst. Qed.

Lemma grpc_tls_Ok s t s' :
  grpc_tls s = Ret (Ok t, s') -> s' = s /\
  (use_tls = true -> exists cert key, t = Some (cert, key) /\ fs_read s.2 get_tls_paths.1 = Ok cert /\
     fs_read s.2 get_tls_paths.2 = Ok key /\ is_ok (tls_config cert key) = true).
Proof.
  unfold grpc_tls. destruct use_tls; [|intros H; boot_inv; by split].
  destruct get_tls_paths as [cp kp] eqn:E. intros H. boot_inv. destruct x1 as [cert key].
  apply build_tls_config_Ok in H1 as [H1 H3]. split; [done|]. intros _. exists cert, key. cbn in *. by rewrite H2.
Qed.

(** What the game's part of the start leaves running. *)
Lemma start_game_Ok auth_service i s u s' :
  start_game auth_service i s = Ret (Ok u, s') ->
  exists renet wt world wt_addr renet_addr,
    new_server renet_addr (Some renet_config) (in_clock i) = Ok renet /\
    bridge_start wt_addr (Some wt_validator) (in_now_before i) (in_now_after i) (in_rng i) s.2 = Ret (wt, s'.2) /\
    bootstrap_phase1_world (sc_tick_rate (load env)) (fun reg => Ret reg) values = Ret world /\
    s'.1 = s.1 ++ [SchedulerTask (scheduler_new env (sc_tick_rate (load env))
                                   (mkClockedAuth auth_service (in_auth_clock i) 0)) world
                     (server_transports renet wt); ResourceMonitor; ShutdownWatcher].
Proof.
  unfold start_game. intros H. boot_inv.
  exists x3, x7, x9, x5, x1. split; [done|]. split; [by rewrite H8, H9, H10|]. split; [done|].
  rewrite H, H7, H6, H5, <- !app_assoc. done.
Qed.

Lemma control_plane_Ok addr email_sender auth_service s sv s' :
  control_plane addr email_sender auth_service s = Ret (Ok sv, s') ->
  sv_sender sv = email_sender /\ sv_auth sv = auth_service /\ s' = s /\
  grpc_cors s = Ret (Ok (sv_cors sv), s) /\ grpc_tls s = Ret (Ok (sv_tls sv), s).
Proof.
  unfold control_plane. intros H. boot_inv.
  match goal with H : grpc_cors _ = _ |- _ => pose proof (proj1 (grpc_cors_Ok _ _ _ H)); subst end.
  match goal with H : grpc_tls _ = _ |- _ => pose proof (proj1 (grpc_tls_Ok _ _ _ H)); subst end.
  by cbn.
Qed.

(** The steps of a start that serves. *)
Lemma main_Ok i ts fs sv s' :
  main i (ts, fs) = Ret (Ok sv, s') ->
  let s1 := (ts ++ [TelemetryHttp telemetry_addr cors_http], fs) in
  (production = true -> use_tls = true /\ sv_sender sv <> LogEmailSender) /\
  auth_new env (ok_of (google_new env)) = Ret (sv_auth sv) /\
  (if phase1 then exists u, start_game (sv_auth sv) i s1 = Ret (Ok u, s') else s' = (s1.1 ++ [ShutdownWatcher], fs)) /\
  grpc_cors s' = Ret (Ok (sv_cors sv), s') /\ grpc_tls s' = Ret (Ok (sv_tls sv), s').
Proof.
  intros Hm s1. unfold main, control_plane_only in Hm.
  assert (forall (b : bool) (m1 m2 : Boot Serving) s, (if b then m1 else m2) s = (if b then m1 s else m2 s))
    as Hif by (by intros []).
  boot_inv. rewrite Hif in Hm.
  match goal with H : select_sender _ = _ |- _ => apply select_sender_Ok in H as [-> ?] end.
  destruct x10 as [ts1 fs1]. cbn in H1, H3. subst ts1 fs1. fold s1 in H5.
  destruct (production && negb use_tls) eqn:E; [done|]. boot_inv.
  assert (production = true -> use_tls = true) as Htls.
  { intros Ep. rewrite Ep in E. cbn in E. by apply negb_false_iff in E. }
  destruct phase1; boot_inv; apply control_plane_Ok in Hm as (-> & -> & -> & Hc & Ht).
  - split_and!; eauto.
  - split_and!; eauto. apply injective_projections; cbn in *; congruence.
Qed.

(** The keys of a service that starts in production come from the environment. *)
Lemma auth_new_production_keys google s :
  auth_new env google = Ret s -> production = true ->
  bypass_enabled s = false /\
  exists k1 k2, env "SESSION_PASETO_KEY" = Some k1 /\ env "TRANSPORT_PASETO_KEY" = Some k2 /\
    session_key s = key_from k1 /\ transport_key s = key_from k2.
Proof.
  unfold auth_new, production, env_or. intros H E. cbv zeta in H. rewrite E in H. apply bind_Ret_inv in H as ([] & Hb & H).
  apply bind_Ret_inv in Hb as ([] & Hb%assert_Ret & Hk%assert_Ret). apply negb_true_iff in Hb.
  destruct (env "SESSION_PASETO_KEY") as [k1|]; [|by cbn in Hk]. destruct (env "TRANSPORT_PASETO_KEY") as [k2|]; [|by cbn in Hk].
  cbn in H. exec_inv. split; [done|]. by exists k1, k2.
Qed.

(** Both read the same switch. *)
Lemma auth_new_bypass google s : auth_new env google = Ret s -> bypass_enabled s = env_flag "AETHERIS_AUTH_BYPASS".
Proof. unfold auth_new. intros Ha. apply bind_Ret_inv in Ha as ([] & _ & Ha). exec_inv. done. Qed.

(** C15 (safety): a server that starts to serve in production sends its codes by a provider and not
    to the log, has no authentication bypass and takes its token keys from the environment, serves
    gRPC with the certificate and key read from the configured files, lets in exactly the
    configured origin, and runs a Renet transport that takes at most five connections per second
    and address. *)
Theorem production_startup_is_secure i ts fs sv ts' fs' :
  production = true ->
  main i (ts, fs) = Ret (Ok sv, (ts', fs')) ->
  sv_sender sv <> LogEmailSender /\
  bypass_enabled (sv_auth sv) = false /\
  (exists k1 k2, env "SESSION_PASETO_KEY" = Some k1 /\ env "TRANSPORT_PASETO_KEY" = Some k2 /\
     session_key (sv_auth sv) = key_from k1 /\ transport_key (sv_auth sv) = key_from k2) /\
  (exists cert key, sv_tls sv = Some (cert, key) /\ fs_read fs' get_tls_paths.1 = Ok cert /\
     fs_read fs' get_tls_paths.2 = Ok key /\ is_ok (tls_config cert key) = true) /\
  (exists v, parse_header_value (env_or "ALLOWED_ORIGINS" "https://aetheris.io") = Ok v /\
     co_allow_origin (sv_cors sv) = ExactOrigin v) /\
  rc_max_new_connections_per_second renet_config = 5.
Proof.
  intros Hp H. apply main_Ok in H as (Hs & Ha & Hg & Hc & Ht). destruct (Hs Hp) as [Htls Hsender].
  destruct (auth_new_production_keys _ _ Ha Hp) as [Hb Hk].
  split; [done|]. split; [done|]. split; [done|].
  split; [by apply (proj2 (grpc_tls_Ok _ _ _ Ht))|]. split; [by apply (proj2 (grpc_cors_Ok _ _ _ Hc))|].
  unfold renet_config. cbn. rewrite <- (auth_new_bypass _ _ Ha), Hb. done.
Qed.
(** The telemetry endpoint is open to every origin in production too, beside a gRPC
    server that lets in one. *)
Theorem telemetry_open_in_production i ts fs sv ts' fs' :
  production = true ->
  main i (ts, fs) = Ret (Ok sv, (ts', fs')) ->
  (exists addr cors, TelemetryHttp addr cors ∈ ts' /\ co_allow_origin cors = AnyOrigin) /\
  exists v, co_allow_origin (sv_cors sv) = ExactOrigin v.
Proof.
  intros Hp (_ & _ & Hg & Hc & _)%main_Ok. split.
  - exists telemetry_addr, cors_http. split; [|done]. destruct phase1.
    + destruct Hg as (u & Hg). apply start_game_Ok in Hg as (? & ? & ? & ? & ? & _ & _ & _ & E). cbn in E. set_solver.
    + cbn in Hg. injection Hg as -> _. set_solver.
  - apply grpc_cors_Ok in Hc as [_ Hc]. destruct (Hc Hp) as (v & _ & E). eauto.
Qed.

(** ** Steps that spawn nothing and write nothing, whatever their outcome *)
Definition quiet {X} (m : Boot X) : Prop := forall s r s', m s = Ret (r, s') -> s' = s.

Lemma quiet_ret {X} (x : X) : quiet (mret x).
Proof. by intros s r s' [= <- <-]. Qed.
Lemma quiet_fail {X} e : quiet (X := X) (fail e).
Proof. by intros s r s' [= <- <-]. Qed.
Lemma quiet_try {X E} (show : E -> string) (r : result X E) : quiet (try_ show r).
Proof. by intros s r' s' [= <- <-]. Qed.
Lemma quiet_call {X} (m : exec X) : quiet (call m).
Proof. intros s r s'. unfold call. destruct m; cbn; intros [=]. done. Qed.
Lemma quiet_bind {X Y} (m : Boot X) (f : X -> Boot Y) : quiet m -> (forall x, quiet (f x)) -> quiet (m ≫= f).
Proof.
  intros Hm Hf s r s'. unfold mbind, Boot_bind. destruct (m s) as [[[x|e] s1]| |] eqn:E; try done.
  - intros H. apply Hf in H as ->. by apply Hm in E.
  - intros [= _ <-]. by apply Hm in E.
Qed.
Lemma quiet_parse_addr x : quiet (parse_addr x).
Proof. unfold parse_addr. destruct (parse_socket_addr _); [apply quiet_ret | apply quiet_fail]. Qed.
Lemma quiet_select_sender : quiet select_sender.
Proof.
  unfold select_sender. repeat case_match;
    eauto using quiet_ret, quiet_fail, quiet_bind, quiet_try.
Qed.

(** What a quiet step is followed by. *)
Lemma after_quiet {X Y} (m : Boot X) (f : X -> Boot Y) s r s' :
  quiet m -> (m ≫= f) s = Ret (r, s') ->
  (exists e, r = Err e /\ s' = s) \/ exists x, f x s = Ret (r, s').
Proof.
  intros Hm. unfold mbind, Boot_bind. destruct (m s) as [[[x|e] s1]| |] eqn:E; try done.
  - apply Hm in E as ->. eauto.
  - apply Hm in E as ->. intros [= <- <-]. eauto.
Qed.

(** In production without TLS the start fails, or panics, before any transport, the
    scheduler or gRPC is started and before any file is written; the telemetry endpoint is the only
    task that can have been spawned. *)
Theorem production_without_tls_is_refused i ts fs r ts' fs' :
  production = true -> use_tls = false ->
  main i (ts, fs) = Ret (r, (ts', fs')) ->
  is_ok r = false /\ fs' = fs /\ (ts' = ts \/ ts' = ts ++ [TelemetryHttp telemetry_addr cors_http]).
Proof.
  intros Hp Ht H. unfold main in H. rewrite Hp, Ht in H. cbn [andb negb] in H.
  apply after_quiet in H as [(e & -> & [= -> ->])|(? & H)]; [by eauto | | apply quiet_call].
  apply after_quiet in H as [(e & -> & [= -> ->])|(? & H)]; [by eauto | | apply quiet_call].
  apply after_quiet in H as [(e & -> & [= -> ->])|(? & H)]; [by eauto | | apply quiet_parse_addr].
  apply after_quiet in H as [(e & -> & [= -> ->])|(? & H)]; [by eauto | | apply quiet_select_sender].
  apply after_quiet in H as [(e & -> & [= -> ->])|(? & H)]; [by eauto | | apply quiet_call].
  injection H as <- <- <-. eauto.
Qed.

(** With the default paths, the certificate gRPC presents is the one the WebTransport
    bridge has just made or loaded for its own use, self-signed for the local host: TLS is on in
    production without a certificate having been configured. *)
Theorem default_tls_is_bridge_certificate `{!FileSystemLaws FS} i ts fs sv ts' fs' :
  phase1 = true -> use_tls = true ->
  env "AETHERIS_GRPC_TLS_CERT_PATH" = None -> env "AETHERIS_GRPC_TLS_KEY_PATH" = None ->
  main i (ts, fs) = Ret (Ok sv, (ts', fs')) ->
  exists identity hash cert key,
    generate_self_signed_identity (in_now_before i) (in_now_after i) (in_rng i) fs = Ret (identity, hash, fs') /\
    load_pemfiles fs' cert_path key_path = Ok identity /\
    fs_read fs' cert_path = Ok cert /\ fs_read fs' key_path = Ok key /\ sv_tls sv = Some (cert, key).
Proof.
  intros Hph Ht Hc Hk H. apply main_Ok in H as (_ & _ & Hg & _ & Htls). rewrite Hph in Hg.
  destruct Hg as (u & Hg). apply start_game_Ok in Hg as (_ & wt & _ & addr & _ & _ & Hw & _).
  apply grpc_tls_Ok in Htls as [_ Htls]. destruct (Htls Ht) as (cert & key & E & R1 & R2 & _). cbn in R1, R2, Hw.
  unfold env_or in R1, R2. rewrite Hc in R1. rewrite Hk in R2. cbn in R1, R2.
  unfold bridge_start in Hw. apply bind_Ret_inv in Hw as ([[identity hash] fs1] & Hi & Hw).
  apply bind_Ret_inv in Hw as (net & _ & Hw). injection Hw as _ <-.
  exists identity, hash, cert, key. split; [done|]. split; [by eapply identity_loaded|]. done.
Qed.
(** ** The server that was started *)
Section Started.
Context `{!EcsLaws W, !BiMapLaws B} {issued : Al -> NetworkId -> Prop} `{!AllocatorLaws Al issued}.
Context `{LAWS : !AuthLibLaws, !Wtransport C Net} {EN : Encoder} {HO : HashOrder}.
Context (golden_write : list Z -> bool) (fuel poll_fuel : nat).

(** C28 (invariant): the world the started server simulates is sound, and every run of its
    scheduler over its two transports, with any gRPC calls between the ticks, keeps it so. *)
Theorem started_server_keeps_world_sound i fs sv ts' fs' scheduler world transports s a t :
  (forall reg d, d ∈ values reg -> exists k, reg !! k = Some d) ->
  main i ([], fs) = Ret (Ok sv, (ts', fs')) ->
  SchedulerTask scheduler world transports ∈ ts' ->
  rtc (run_step (T := list (BoxedTransport (S := S) (N := N) (C := C) (Net := Net)))
         (PlatformTransport0 := multi_transport (PT := boxed_transport poll_fuel)) env golden_write fuel)
    (scheduler, world, transports) (s, a, t) ->
  wf issued a.
Proof.
  intros Hv (_ & _ & Hg & _)%main_Ok Hin Hrun. destruct phase1.
  - destruct Hg as (u & Hg). apply start_game_Ok in Hg as (renet & wt & w & ? & ? & _ & _ & Hb & E). cbn in E. subst ts'.
    repeat (apply elem_of_cons in Hin as [Hin|Hin]; [try discriminate Hin|]); [|by apply not_elem_of_nil in Hin].
    injection Hin as -> -> _.
    assert (adapter_ok (issued := issued) w) as Hw.
    { eapply bootstrap_ok; [exact Hb|]. intros reg reg' d [= <-] Hd. left. by apply Hv. }
    pose proof (run_keeps_ok env golden_write fuel _ _ _ _ _ _ _ Hw Hrun) as Hok. apply Hok.
  - cbn in Hg. injection Hg as -> _.
    repeat (apply elem_of_cons in Hin as [Hin|Hin]; [discriminate Hin|]). by apply not_elem_of_nil in Hin.
Qed.
End Started.
End Main.
