(* ===== verification/ServerWitness.v ===== *)
(** * Witnesses for the scheduler and the assembled server

    Small executable instances of the traits (a transport that replays lists of events, an
    encoder of a few one-byte messages), and concrete ticks of the scheduler on a toy world and on
    the ECS adapter. *)

From stdpp Require Import gmap strings list.
From Stdlib Require Import ZArith Lia Init.Byte.
From S2P Require Import Prelude F32 Protocol Components Ecs.
From S2P Require Import EcsModel Registry Extraction Interaction Adapter.
From S2P Require Import AdapterProps Simulate AdapterWitness RateLimit Auth.
From S2P Require Import AuthProps AuthWitness Matchmaking Config Tick.
From S2P Require Import TickProps Server TypedUpdates Outbound.

Open Scope Z_scope.

Module ServerWitness.

(** ** Instances *)

(** A world that records the events queued on it. *)
#[export] Instance toy_world : WorldState (list PlatformEvent) := {|
  ws_advance_tick w := w;
  ws_stress_test w _ _ := Ret w;
  ws_despawn_networked w _ := (Ok (), w);
  ws_spawn_kind_for w _ _ _ _ _ := Ret (mkNid 9, w);
  ws_spawn_session_agent w _ _ _ _ _ := Ret (mkNid 7, w);
  ws_queue_reliable_event w _ e := w ++ [e];
  ws_clear_world w := [];
  ws_apply_updates w _ := w;
  ws_simulate w := Ret w;
  ws_extract_deltas w := ([], w);
  ws_extract_reliable_events w := ([], w);
  ws_state_hash w := 0;
  ws_post_extract w := w;
  ws_get_entity_workspace w _ := None;
  ws_get_client_workspace w _ := None |}.

(** A token is its player's name and its session; the session [revoked] is not authorized. *)
#[export] Instance toy_verifier : AuthSessionVerifier unit := {|
  av_verify_session a token _ := (Ok (mkVerifiedSession token token), a);
  av_is_session_authorized a jti _ := (negb (String.eqb jti "revoked"), a) |}.

#[export] Instance toy_transport : PlatformTransport (list (list NetworkEvent)) := {|
  pt_poll_events t := Ret (match t with [] => (Ok [], []) | evs :: t => (Ok evs, t) end);
  pt_send_unreliable t _ _ := (Ok (), t);
  pt_send_reliable t _ _ := (Ok (), t);
  pt_broadcast_unreliable t _ := (Ok (), t);
  pt_disconnect t _ := (Ok (), t);
  pt_connected_client_count t := Ret 0 |}.

Definition a_replication : ReplicationEvent :=
  mkReplicationEvent (mkNid 1) (mkKind 1) [x01] 0.

(** One byte: an authentication as [alice], a session start, a batch, or nothing known. *)
#[export] Instance toy_encoder : Encoder := {|
  encode_event _ := Ok [x00];
  encode_event_into _ _ := Ok [x00];
  decode_event data :=
    match data with
    | [x01] => Ok (Auth "alice")
    | [x02] => Ok (StartSession (mkCid 0))
    | [x03] => Ok (ReplicationBatch (mkCid 0) [a_replication])
    | _ => Err BufferOverflow
    end;
  decode _ := Err BufferOverflow;
  max_encoded_size := 1200 |}.

#[export] Instance toy_reassembler : Reassembler unit := {|
  re_new := (); re_ingest r _ _ := (None, r); re_prune r := r |}.

#[export] Instance toy_protocol : WireProtocol := {|
  MAX_SAFE_PAYLOAD_SIZE := 4; MAX_FRAGMENT_PAYLOAD_SIZE := 2;
  PROTOCOL_VERSION := "1"; CARGO_PKG_VERSION := "1";
  into_network_event _ _ := Pong 0 |}.

#[export] Instance toy_order : HashOrder := {|
  hm_iter V m := map_to_list m; hm_iter_perm V m := Permutation_refl _ |}.

Definition no_env (_ : string) : option string := None.
Definition no_write (_ : list Z) : bool := false.

(** ** Results of closed ticks *)
Definition is_done {A R W T} (m : exec (tick_result A R W T)) : bool :=
  match m with Ret (TickDone _ _ _) => true | _ => false end.

Lemma is_done_ex {A R W T} (m : exec (tick_result A R W T)) :
  is_done m = true -> exists s w t, m = Ret (TickDone s w t).
Proof. destruct m as [[s w t|]| |]; cbn; try discriminate. eauto. Qed.

(** ** The scheduler on the toy world *)
Abbreviation toy_sched := (TickScheduler unit unit).
Definition c1 : ClientId := mkCid 1.
Definition c2 : ClientId := mkCid 2.
Definition alice : VerifiedSession := mkVerifiedSession "alice" "alice".

(** Two connections log in as the same player, then the second starts its session. *)
Definition polls : list (list NetworkEvent) :=
  [[UnreliableMessage c1 [x01]; ReliableMessage c2 [x01]; UnreliableMessage c2 [x02]]].

Definition toy_done : toy_sched * list PlatformEvent * list (list NetworkEvent) :=
  match tick_step no_env no_write (scheduler_new no_env 60 ()) [] polls with
  | Ret (TickDone s w t) => (s, w, t)
  | _ => (scheduler_new no_env 60 (), [], [])
  end.

Lemma toy_tick :
  tick_step no_env no_write (scheduler_new no_env 60 ()) [] polls
  = Ret (TickDone toy_done.1.1 toy_done.1.2 toy_done.2).
Proof. vm_compute. reflexivity. Qed.

Lemma one_session_per_player_witness :
  rtc (server_step no_env no_write) (scheduler_new no_env 60 (), [], polls)
    (toy_done.1.1, toy_done.1.2, toy_done.2) /\
  ts_authenticated_clients toy_done.1.1 !! c2 = Some (alice, Some (mkNid 7)) /\
  ts_authenticated_clients toy_done.1.1 !! c1 = None.
Proof.
  assert (rtc (server_step no_env no_write) (scheduler_new no_env 60 (), [], polls)
            (toy_done.1.1, toy_done.1.2, toy_done.2)) as Hrun.
  { apply rtc_once. apply ss_tick. exact toy_tick. }
  split; [exact Hrun|]. split; [vm_compute; reflexivity|].
  destruct (ts_authenticated_clients toy_done.1.1 !! c1) as [[v a]|] eqn:E; [|reflexivity].
  assert (c1 = c2); [|discriminate].
  apply (one_session_per_player no_env no_write 60 () [] polls _ _ _ c1 c2 v alice a (Some (mkNid 7))
           Hrun E); vm_compute; [reflexivity|].
  vm_compute in E. discriminate E.
Defined.

Definition cx0 : Ctx unit unit (list PlatformEvent) :=
  mkCtx (set_clients (scheduler_new no_env 60 ()) {[c1 := (alice, None)]} ∅) [] [] [] [] [].

Definition cx_gate : Ctx unit unit (list PlatformEvent) :=
  get_ret cx0 (process_event no_env 0 cx0 (UnreliableMessage c1 [x03])).

Lemma message_gate_witness :
  process_event no_env 0 cx0 (UnreliableMessage c1 [x03]) = Ret cx_gate /\
  exists us, cx_updates cx_gate = us /\ length us = 1%nat.
Proof.
  assert (process_event no_env 0 cx0 (UnreliableMessage c1 [x03]) = Ret cx_gate) as H
    by (apply get_ret_eq; vm_compute; reflexivity).
  split; [exact H|].
  destruct (message_gate no_env 0 cx0 (UnreliableMessage c1 [x03]) cx_gate H)
    as (us & acks & H1 & _ & _).
  exists us. split; [exact H1|]. change (length (cx_updates cx0 ++ us) = 1%nat). rewrite <- H1.
  vm_compute. reflexivity.
Defined.

(** A revoked session is dropped by the periodic check. *)
Definition cx_revoked : Ctx unit unit (list PlatformEvent) :=
  mkCtx (set_clients (scheduler_new no_env 60 ())
           (<[c1 := (mkVerifiedSession "bob" "revoked", None)]> {[c2 := (alice, None)]}) ∅)
    [] [] [] [] [].

Lemma periodic_check_purges_witness :
  c1 ∈ cx_to_disconnect (validate_sessions 120 cx_revoked).
Proof.
  apply (periodic_check_purges 120 cx_revoked eq_refl).
  - exists (mkVerifiedSession "bob" "revoked", None). reflexivity.
  - vm_compute. reflexivity.
Defined.

Definition cx_started : Ctx unit unit (list PlatformEvent) := get_ret cx0 (start_session cx0 c1).
Definition cx_restarted : Ctx unit unit (list PlatformEvent) :=
  get_ret cx0 (start_session cx_started c1).

Lemma start_session_idempotent_witness :
  exists v n, ts_authenticated_clients (cx_sched cx_started) !! c1 = Some (v, Some n) /\
    cx_world cx_restarted = cx_world cx_started ++ [Possession n].
Proof.
  destruct (start_session_idempotent cx0 c1 cx_started cx_restarted) as (v & n & H1 & _ & H2).
  - exists (alice, None). vm_compute. reflexivity.
  - apply get_ret_eq. vm_compute. reflexivity.
  - apply get_ret_eq. vm_compute. reflexivity.
  - exists v, n. split; [exact H1 | exact H2].
Defined.

(** Five bytes in fragments of two. *)
Definition sched_out : toy_sched := set_outbound_tx (scheduler_new no_env 60 ()).

Lemma fragment_roundtrip_witness :
  exists r s', fragment_and_send sched_out [x01; x02; x03; x04; x05] 5 (Recipients [c1])
               = Ret (r, s') /\ r = Ok 3.
Proof.
  destruct (fragment_roundtrip sched_out [x01; x02; x03; x04; x05] c1 (fun _ => [x00]) [])
    as (r & s' & H1 & _ & _ & _ & H2).
  - reflexivity.
  - reflexivity.
  - intros f. reflexivity.
  - exists r, s'. split; [exact H1|]. apply H2.
Defined.

(** ** The outbound channel *)
Lemma large_tick_deadlocks_witness :
  exists st', rtc out_step (mkOut (InTick (CHANNEL_CAPACITY + 2)) 0 TaskIdle) st' /\ nf out_step st'.
Proof. apply (large_tick_deadlocks (CHANNEL_CAPACITY + 2)). lia. Defined.

Lemma small_tick_ends_witness :
  rtc out_step (mkOut (InTick 2) 3 TaskWaiting) (mkOut BetweenTicks 5 TaskWaiting).
Proof. apply (small_tick_ends 2 3 TaskWaiting). apply Nat.leb_le. reflexivity. Defined.

Definition two_clients : toy_sched :=
  set_clients sched_out (<[c1 := (alice, None)]> {[c2 := (alice, None)]}) ∅.

Definition two_despawns : list (option ClientId * WireEvent) :=
  [(None, WEntityDespawned (mkNid 1)); (None, WEntityDespawned (mkNid 2))].

Lemma broadcast_messages_witness :
  exists out', ts_outbound_tx (foldl send_reliable_event two_clients two_despawns) = Some out' /\
    length out' = 4%nat.
Proof.
  destruct (broadcast_messages two_clients two_despawns []) as (out' & H1 & H2).
  - intros e c. reflexivity.
  - repeat constructor.
  - reflexivity.
  - exists out'. split; [exact H1|]. rewrite H2. vm_compute. reflexivity.
Defined.

(** ** The server on the adapter *)
#[local] Existing Instance sample_wire.
#[local] Existing Instance documented_consts.
#[local] Existing Instance sample_libm.
#[local] Existing Instance AdapterWitness.sample_range.
#[local] Existing Instance AdapterWitness.sample_hasher.
#[local] Existing Instance AuthWitness.demo_lib.
#[local] Existing Instance AuthWitness.demo_laws.
#[local] Existing Instance AuthWitness.demo_str.

Abbreviation ad := (Adapter mworld bilist Z).
Abbreviation issued := (fun (n : Z) (i : NetworkId) => nid_val i < n).
Abbreviation registry := (gmap ComponentKind (ComponentDescriptor mworld)).
#[local] Instance demo_world : WorldState ad := adapter_world 1000.

Definition values (reg : registry) : list (ComponentDescriptor mworld) := (map_to_list reg).*2.
Definition boot : exec ad := bootstrap_phase1_world 60 (fun reg => Ret reg) values.
Definition booted : ad := get_ret AdapterWitness.a0 boot.

Lemma boot_ok : boot = Ret booted.
Proof. apply get_ret_eq. vm_compute. reflexivity. Qed.

Lemma values_ok (reg : registry) d : d ∈ values reg -> exists kind, reg !! kind = Some d.
Proof.
  unfold values. intros Hd. apply list_elem_of_fmap in Hd as ([k d'] & -> & Hin).
  exists k. apply elem_of_map_to_list. exact Hin.
Qed.

(** Client 7 gets an agent in the started world, and sends its faction. *)
Definition joined : NetworkId * ad :=
  get_ret (mkNid 0, booted) (spawn_session_agent booted 1 f0 f0 f0 (mkCid 7)).
Definition joined_agent : Entity := default (mkEntity 0) (bi_left (ad_bimap joined.2) joined.1).
Definition faction : ClientId * ComponentUpdate :=
  (mkCid 7, mkComponentUpdate joined.1 (mkKind 7) [x03] 1).

Lemma joined_reached : rtc step booted joined.2.
Proof.
  apply rtc_once. apply (step_spawn_session_agent booted 1 f0 f0 f0 (mkCid 7) joined.1 joined.2).
  transitivity (Ret joined); [|by destruct joined].
  apply (get_ret_eq (mkNid 0, booted)). vm_compute. reflexivity.
Qed.

Lemma updates_are_typed_witness :
  (exists v, w_get (ad_world (apply_updates joined.2 [faction])) joined_agent CFactionTag = Some v /\
     decode_component CFactionTag [x03] = Some v) /\
  w_get (ad_world (apply_updates joined.2 [faction])) joined_agent CNetworkOwner = Some (mkCid 7).
Proof.
  split.
  - destruct (updates_are_typed 60 values booted joined.2 [faction] joined_agent CFactionTag
                boot_ok values_ok joined_reached) as [H | (c & u & v & Hin & _ & _ & _ & Hv & Hp)].
    + exfalso. revert H. vm_compute. discriminate.
    + apply list_elem_of_singleton in Hin. injection Hin as -> ->. exists v. exact (conj Hv Hp).
  - destruct (updates_are_typed 60 values booted joined.2 [faction] joined_agent CNetworkOwner
                boot_ok values_ok joined_reached) as [H | (c & u & v & _ & Hk & _)].
    + rewrite H. vm_compute. reflexivity.
    + discriminate Hk.
Defined.

Definition verifier : ClockedAuth := mkClockedAuth AuthWitness.s0 (fun _ => 0) 0.
Definition first_sched : TickScheduler ClockedAuth unit :=
  scheduler_new AuthWitness.prod_env 60 verifier.

(** A client connects and sends a message that is not an authentication. *)
Definition arrivals : list (list NetworkEvent) :=
  [[ClientConnected c1; UnreliableMessage c1 [x02]]].

Definition first_tick : exec (tick_result ClockedAuth unit ad (list (list NetworkEvent))) :=
  tick_step AuthWitness.prod_env no_write first_sched booted arrivals.

Lemma first_tick_run :
  exists s a t, first_tick = Ret (TickDone s a t).
Proof. apply is_done_ex. vm_compute. reflexivity. Qed.

Lemma server_keeps_world_sound_witness :
  exists s a t, first_tick = Ret (TickDone s a t) /\ wf issued a.
Proof.
  destruct first_tick_run as (s & a & t & H). exists s, a, t. split; [exact H|].
  apply (server_keeps_world_sound AuthWitness.prod_env no_write 1000 60 (fun reg => Ret reg) values
           verifier arrivals booted s a t).
  - exact boot_ok.
  - intros reg reg' d [= <-] Hd. left. exact (values_ok reg d Hd).
  - apply rtc_once. apply rs_tick. exact H.
Defined.

Lemma production_runs_no_playground_command_witness :
  exists s a t, first_tick = Ret (TickDone s a t) /\ rtc (world_call false) booted a.
Proof.
  destruct first_tick_run as (s & a & t & H). exists s, a, t. split; [exact H|].
  apply (production_runs_no_playground_command AuthWitness.prod_env no_write 1000 60 None
           AuthWitness.s0 (fun _ => 0) arrivals booted s a t).
  - reflexivity.
  - reflexivity.
  - exact AuthWitness.demo_claims_ok.
  - reflexivity.
  - apply rtc_once. apply rs_tick. exact H.
Defined.

(** Client 7 has an agent; client 1, an administrator, clears the world. *)
Definition admin : VerifiedSession := mkVerifiedSession "root" "admin".
Definition c7 : ClientId := mkCid 7.
Definition cx_play : Ctx ClockedAuth unit ad :=
  mkCtx (set_clients (scheduler_new no_env 60 verifier)
           (<[c7 := (alice, Some AdapterWitness.r2.1)]> {[c1 := (admin, None)]}) ∅)
    AdapterWitness.a2 [] [] [] [].
Definition cx_cleared : Ctx ClockedAuth unit ad :=
  get_ret cx_play (handle_event no_env cx_play c1 admin (ClearWorld c1)).
Definition cx_stranded : Ctx ClockedAuth unit ad :=
  get_ret cx_play (start_session cx_cleared c7).

Lemma clear_world_strands_other_agents_witness :
  ts_authenticated_clients (cx_sched cx_stranded) !! c7 = Some (alice, Some AdapterWitness.r2.1) /\
  bi_left (ad_bimap (cx_world cx_stranded)) AdapterWitness.r2.1 = None.
Proof.
  destruct (clear_world_strands_other_agents (issued := issued) no_env 1000 cx_play cx_cleared
              cx_stranded c1 c7 admin alice AdapterWitness.r2.1) as (H1 & H2 & _).
  - exact (proj1 AdapterWitness.a2_ok).
  - discriminate.
  - reflexivity.
  - reflexivity.
  - apply get_ret_eq. vm_compute. reflexivity.
  - apply get_ret_eq. vm_compute. reflexivity.
  - split; [exact H1 | exact H2].
Defined.

(** ** Matchmaking: the player of the open session joins twice *)
Definition mm0 : MatchmakingServiceImpl :=
  mkMatchmaking ∅ AuthWitness.s2 {[AuthWitness.demo_token := 1%nat]}
    {[1%nat := AuthWitness.demo_token]} [].

Lemma rejoin_cancels_both_witness :
  exists s3, rtc mm_step (join_queue mm0 AuthWitness.demo_token 2 (hours 2) (hours 2)).2 s3 /\
    mm_tasks s3 !! 2%nat = None.
Proof.
  destruct (rejoin_cancels_both mm0 AuthWitness.demo_token 1 2 (hours 2) (hours 2))
    as (s3 & H1 & _ & H2 & _).
  - discriminate.
  - reflexivity.
  - reflexivity.
  - vm_compute. reflexivity.
  - exists s3. split; [exact H1 | exact H2].
Defined.
End ServerWitness.
