(* ===== verification/BotWitness.v ===== *)
(** * A bot on a started server

    A codec of a few bytes, the started world with an agent of client 7, an open session, and two
    turns of a bot whose messages arrive in one tick. *)

From stdpp Require Import gmap strings list.
From Stdlib Require Import ZArith Lia Init.Byte.
From S2P Require Import Prelude F32 F64 Text Protocol Components Ecs.
From S2P Require Import EcsModel Registry Extraction Interaction Adapter.
From S2P Require Import AdapterProps Simulate AdapterWitness RateLimit Auth.
From S2P Require Import AuthProps AuthWitness Config Tick TickProps Renet.
From S2P Require Import Stress Server BotServer ServerWitness.

Open Scope Z_scope.

Module BotWitness.

#[local] Existing Instance documented_consts.
#[local] Existing Instance sample_libm.
#[local] Existing Instance AdapterWitness.sample_range.
#[local] Existing Instance AdapterWitness.sample_hasher.
#[local] Existing Instance AuthWitness.demo_lib.
#[local] Existing Instance AuthWitness.demo_str.
#[local] Existing Instance ServerWitness.toy_reassembler.
#[local] Existing Instance ServerWitness.toy_protocol.
#[local] Existing Instance ServerWitness.toy_order.

(** ** The codec: a command is the two bytes of its tick, a message one byte for the id and these *)
Definition word (h l : byte) : Z := 256 * Z.of_N (Byte.to_N h) + Z.of_N (Byte.to_N l).
Definition to_byte (z : Z) : byte := default x00 (Byte.of_N (Z.to_N z)).

#[local] Instance tiny_wire : Wire := {|
  encode_component _ _ := None; decode_component _ _ := None;
  decode_input b := match b with [h; l] => Some (bot_input (word h l) f0 f0) | _ => None end;
  validate_input _ := true |}.

#[local] Instance tiny_encoder : Encoder := {|
  encode_event _ := Ok []; encode_event_into _ _ := Ok [];
  decode_event data := match data with [] => Ok (Pong 0) | _ => Err BufferOverflow end;
  decode data :=
    match data with
    | [n; h; l] => Ok (mkComponentUpdate (mkNid (word x00 n)) INPUT_COMMAND_KIND [h; l] (word h l))
    | _ => Err BufferOverflow
    end;
  max_encoded_size := 1200 |}.

Definition is_standing (t : Z) (c : InputCommand) : bool :=
  match c with
  | mkInputCommand t' [Move x y] 0 None =>
      Z.eqb t' t && bool_decide (x = f0) && bool_decide (y = f0)
  | _ => false
  end.

Lemma is_standing_eq t c : is_standing t c = true -> c = bot_input t f0 f0.
Proof.
  destruct c as [t' acts mask seen]. cbn.
  destruct acts as [|[x y| |] [|? ?]]; try discriminate.
  all: destruct mask; try discriminate; destruct seen; try discriminate.
  rewrite !andb_true_iff, !bool_decide_eq_true, Z.eqb_eq. intros [[-> ->] ->]. done.
Qed.

#[local] Instance tiny_bot_wire : BotWire := {|
  rmp_input c :=
    let h := to_byte (ic_tick c / 256) in let l := to_byte (ic_tick c mod 256) in
    if is_standing (word h l) c then Ok [h; l] else Err "unsupported";
  encode_replication e _ :=
    match re_payload e with
    | [h; l] =>
        let n := to_byte (nid_val (re_network_id e)) in
        if bool_decide (re_network_id e = mkNid (word x00 n)) &&
           bool_decide (re_component_kind e = INPUT_COMMAND_KIND) && (re_tick e =? word h l)
        then Ok [n; h; l] else Err "unsupported"
    | _ => Err "unsupported"
    end;
  show_encode_error _ := "" |}.

#[local] Instance tiny_codec : CodecLaws.
Proof.
  split.
  - intros c payload. cbn. destruct (is_standing _ c) eqn:E; [|discriminate].
    intros [= <-]. by rewrite <- (is_standing_eq _ _ E).
  - intros [n k payload t] m data. cbn. destruct payload as [|h [|l [|? ?]]]; try discriminate.
    destruct (_ && _) eqn:E; [|discriminate]. intros [= <-].
    rewrite !andb_true_iff, !bool_decide_eq_true, Z.eqb_eq in E. destruct E as [[En ->] ->].
    by rewrite <- En.
  - intros [n k payload t] m data. cbn. destruct payload as [|h [|l [|? ?]]]; try discriminate.
    destruct (_ && _); [|discriminate]. intros [= <-]. by eexists.
Qed.

(** ** The server: the started world, an agent of client 7, its session *)
Abbreviation ad := (Adapter mworld bilist Z).
Abbreviation issued := (fun (n : Z) (i : NetworkId) => nid_val i < n).

Definition reps : list (ComponentReplicator mworld) :=
  cd_replicator <$> (canonical_descriptors ++ platform_descriptors ++ workspace_descriptors).
Abbreviation a1 := (foldl register_replicator AdapterWitness.a0 reps).
Definition joined : NetworkId * ad :=
  get_ret (mkNid 0, a1) (spawn_session_agent a1 1 f0 f0 f0 (mkCid 7)).
Definition joined_agent : Entity := default (mkEntity 0) (bi_left (ad_bimap joined.2) joined.1).

Lemma bot_joined : rtc step a1 joined.2.
Proof.
  apply rtc_once. apply (step_spawn_session_agent a1 1 f0 f0 f0 (mkCid 7) joined.1 joined.2).
  transitivity (Ret joined); [|by destruct joined].
  apply (get_ret_eq (mkNid 0, a1)). vm_compute. reflexivity.
Qed.

Lemma bot_reps_local : Forall rep_local reps.
Proof. unfold reps. apply Forall_fmap. exact platform_rep_local. Qed.

Lemma joined_ok :
  adapter_ok (issued := issued) joined.2 /\ ad_replicators joined.2 = ad_replicators a1.
Proof.
  pose proof (reachable_ok (issued := issued) w_new 60 AdapterWitness.a0 reps a1 AdapterWitness.a0_new bot_reps_local (rtc_refl _ _)) as H1.
  destruct (steps_config (issued := issued) a1 joined.2 H1 bot_joined) as [H2 Hc].
  split; [exact H2|]. unfold config in Hc. congruence.
Qed.

Lemma joined_steers : steers joined.2 (mkCid 7) joined.1 joined_agent.
Proof.
  split.
  - vm_compute. reflexivity.
  - vm_compute. reflexivity.
  - apply (bool_decide_eq_true_1 _). vm_compute. reflexivity.
  - rewrite (proj2 joined_ok). apply (registered_get reps InputCommandReplicator).
    + apply (bool_decide_eq_true_1 _). vm_compute. reflexivity.
    + unfold reps. rewrite !fmap_app. apply elem_of_app. right. apply elem_of_app. right.
      cbn. repeat (first [apply list_elem_of_here | apply list_elem_of_further]).
Qed.

(** The session of client 7 was active at the second the clock reads. *)
Definition jti : string := AuthWitness.ULID2.
Definition session : VerifiedSession := mkVerifiedSession AuthWitness.player jti.
Definition verifier : ClockedAuth :=
  mkClockedAuth AuthWitness.s2 (fun n => (3660 + Z.of_nat n mod 60) * NANOS) 0.

Lemma verifier_open : open_for_an_hour 3660 jti verifier.
Proof.
  split.
  - exists 3660. split; [vm_compute; reflexivity | lia].
  - intros n. cbn. unfold timestamp. rewrite Z.div_mul by (vm_compute; discriminate).
    pose proof (Z.mod_pos_bound (Z.of_nat n) 60). lia.
Qed.

Definition cx0 : Ctx ClockedAuth unit ad :=
  mkCtx (set_clients (scheduler_new AuthWitness.prod_env 60 verifier)
           (<[mkCid 8 := (session, None)]> {[mkCid 7 := (session, Some joined.1)]}) ∅) joined.2 [] [] [] [].

(** ** The bot, in turns 5 and 9 *)
#[local] Instance tiny_client : RenetClient unit := {|
  cl_new _ := tt; cl_update c _ := c; cl_is_connected _ := true; cl_send_message c _ _ := c;
  cl_receive_message c _ := (None, c); cl_network_info _ := (d0, d0) |}.
Definition still (_ : nat) : f32 := f0.
Definition bot_at (t : Z) : Bot unit unit :=
  mkBot tt tt (mkClock (fun _ => 0) 0) 0 0 0 t (Some joined.1) true 0 (stats_new 1) [].
Definition message_at (t : Z) : bytes := [to_byte (nid_val joined.1); x00; to_byte t].

Definition after (t : Z) : Bot unit unit :=
  (get_ret (Ok tt, bot_at t) (send_input still (bot_at t))).2.

Lemma bot_says (t : Z) :
  send_input still (bot_at t) = Ret (Ok tt, after t) ->
  b_sent (after t) = [(CHANNEL_UNRELIABLE, message_at t)] ->
  says still joined.1 (bot_at t) (message_at t).
Proof. intros H1 H2. split; [done|]. by exists tt, (after t). Qed.

(** Between the two messages client 8 sends a command for the bot's agent, of turn 90. *)
Definition arrivals : list NetworkEvent :=
  [UnreliableMessage (mkCid 7) (message_at 5); ReliableMessage (mkCid 8) (message_at 90);
   UnreliableMessage (mkCid 7) (message_at 9)].

Lemma bot_moves_its_agent_witness :
  exists cx', apply_events (WorldState0 := adapter_world 1000) AuthWitness.prod_env 60 cx0 arrivals
      = Ret cx' /\
    w_get (ad_world (cx_world cx')) joined_agent CLatestInput =
      Some (mkLatestInput (bot_input 9 f0 f0) 9).
Proof.
  destruct (bot_moves_its_agent (issued := issued) still AuthWitness.prod_env 1000 60 cx0 (mkCid 7)
    session (Some joined.1) joined.1 joined_agent 3660 arrivals [message_at 5; message_at 9]
    [bot_at 5; bot_at 9] (bot_at 9)) as (cx' & H1 & H2 & _).
  - vm_compute. reflexivity.
  - exact verifier_open.
  - reflexivity.
  - exact (proj1 joined_ok).
  - exact joined_steers.
  - apply tr_bot, (tr_other _ _ _ _ (mkCid 8) session None (message_at 90)), tr_bot, tr_nil.
    + right. reflexivity.
    + discriminate.
    + vm_compute. reflexivity.
    + exact verifier_open.
    + exact I.
  - constructor; [apply bot_says; vm_compute; reflexivity|].
    constructor; [apply bot_says; vm_compute; reflexivity | constructor].
  - repeat constructor.
  - vm_compute. intuition discriminate.
  - reflexivity.
  - exists cx'. exact (conj H1 H2).
Defined.
End BotWitness.
