(* ===== verification/TransportsWitness.v ===== *)
(** * Witnesses for the composed transports

    The Renet transport and the WebTransport bridge of the earlier witnesses behind one aggregator,
    and the scheduler of the toy world reading the events of a session that has ended. *)

From stdpp Require Import gmap strings list.
From Stdlib Require Import ZArith Lia Init.Byte.
From S2P Require Import Prelude Protocol Tick MultiTransport Renet RenetProps.
From S2P Require Import WebTransport WebTransportProps Transports ServerWitness.

Open Scope Z_scope.

Module TransportsWitness.
Import RenetWitness WtWitness.

#[local] Existing Instance ServerWitness.toy_order.
#[local] Existing Instance boxed_transport.

Abbreviation fuel := 10%nat.
Abbreviation boxes := (list (BoxedTransport (S := mini_server) (N := mini_net) (C := Z) (Net := unit))).

(** Client 9 is connected over WebTransport. *)
Definition nine : ClientId := mkCid 9.
Definition bridge9 : WebTransportBridge Z unit := mkBridge [] {[nine := 5]} 1 [] None tt.

(** Five bytes are more than the four of [mini_wire]. *)
Lemma large_message_never_reaches_bridge_witness :
  multi_send_reliable (PT := boxed_transport fuel) (server_transports fresh bridge9) nine (repeat x00 5) =
  (Err (PayloadTooLarge 5 4), server_transports fresh bridge9).
Proof.
  destruct (large_message_never_reaches_bridge fuel fresh bridge9 nine (repeat x00 5)) as [H _].
  - reflexivity.
  - reflexivity.
  - exact H.
Defined.

(** After the run in which the disconnected client left, with one Renet client. *)
Lemma server_client_count_witness :
  pt_connected_client_count (PlatformTransport := multi_transport (PT := boxed_transport fuel))
    (server_transports t1 (ws_bridge final)) = Panic.
Proof.
  destruct (server_client_count fuel [] (Some key_t) tt trace final t1 trace_run) as [_ H].
  - reflexivity.
  - vm_compute. split; discriminate.
  - vm_compute. discriminate.
  - cbv zeta in H. refine (H _). vm_compute. split; [reflexivity | discriminate].
Defined.

Section Late.
#[local] Existing Instance ServerWitness.toy_world.
#[local] Existing Instance ServerWitness.toy_verifier.
#[local] Existing Instance ServerWitness.toy_encoder.
#[local] Existing Instance ServerWitness.toy_reassembler.

(** The session of [ServerWitness.alice]. *)
Lemma late_auth_reenters_client_witness :
  exists tr st cx', wt_run (wt_init (C := Z) [] (Some key_t) tt) tr st /\
    for_each (process_event ServerWitness.no_env 3) ServerWitness.cx0 (history tr st) = Ret cx' /\
    ts_authenticated_clients (cx_sched cx') !! one = Some (ServerWitness.alice, None).
Proof.
  destruct (late_auth_reenters_client (WP := ServerWitness.toy_protocol) (R := unit) ServerWitness.no_env [] (Some key_t) tt one 7 (FmRead hello) [x01]
    "alice" ServerWitness.alice 3) as (tr & st & Hr & _ & _ & H).
  - vm_compute. reflexivity.
  - vm_compute. discriminate.
  - reflexivity.
  - destruct (H ServerWitness.cx0 () eq_refl) as (cx' & Hf & Hc). exists tr, st, cx'.
    split; [exact Hr|]. split; [exact Hf | exact Hc].
Defined.
End Late.
End TransportsWitness.
