(* ===== verification/MainWitness.v ===== *)
(** * Witnesses for the server binary

    The binary started in production on the instances of the earlier witnesses: an empty file
    system, a mail provider that takes everything, and the environment of a deployment that
    configures no certificate. *)

From stdpp Require Import gmap strings list.
From Stdlib Require Import ZArith Lia.
From S2P Require Import Prelude F32 F64 Text Protocol Components Ecs.
From S2P Require Import EcsModel Registry Extraction Interaction Adapter.
From S2P Require Import AdapterProps Simulate AdapterWitness RateLimit Email Certificate Config.
From S2P Require Import Tick MultiTransport Renet RenetProps WebTransport WebTransportProps.
From S2P Require Import Transports Google Auth AuthProps AuthWitness Server ServerWitness Main.

Open Scope Z_scope.

Module MainWitness.
Import RenetWitness WtWitness CertWitness.

#[local] Existing Instance sample_wire.
#[local] Existing Instance documented_consts.
#[local] Existing Instance sample_libm.
#[local] Existing Instance AdapterWitness.sample_range.
#[local] Existing Instance AdapterWitness.sample_hasher.
#[local] Existing Instance AuthWitness.demo_lib.
#[local] Existing Instance AuthWitness.demo_laws.
#[local] Existing Instance AuthWitness.demo_str.
#[local] Existing Instance ServerWitness.toy_reassembler.
#[local] Existing Instance ServerWitness.toy_encoder.
#[local] Existing Instance ServerWitness.toy_order.

#[local] Instance mini_lettre : Lettre unit := {|
  SmtpTransport := string; Mailbox := string; Message := string;
  smtp_relay url _ _ := Ok url; parse_mailbox s := Ok s; build_message _ _ _ text _ := Ok text;
  smtp_send w _ _ := (Ok (), w) |}.
#[local] Instance mini_reqwest : Reqwest unit := {|
  HttpClient := unit; client_build _ _ _ := Some tt; client_default := tt;
  http_post w _ _ _ _ := (Ok (mkResponse 200 None), w); show_status _ := "" |}.
#[local] Instance mini_endpoint : WtEndpoint (gmap string (list Z)) unit := {| endpoint_server _ _ _ _ := Ok tt |}.
#[local] Instance mini_oidc : OidcLib := {|
  OidcHttp := unit; http_builder_build _ := Ok tt; OidcRequest := unit; RqRequest := unit;
  RqResponse := unit; try_into_request r := Ok r; execute _ r := Ok r; resp_status _ := 200;
  resp_headers _ := []; resp_bytes _ := Ok []; IssuerUrl := string; issuer_url_new s := Ok s;
  ProviderMetadata := unit;
  discover_async _ perform := match perform tt with Ok _ => Ok tt | Err _ => Err "discovery" end;
  from_provider_metadata _ _ _ := tt |}.
#[local] Instance mini_platform : Platform := {|
  install_crypto := Ok (); install_prometheus _ := Ok (); build_encode_pool _ := Ok ();
  tls_config _ _ := Ok (); parse_header_value s := Ok s;
  show_transport_error _ := "transport" |}.

Definition live_env (name : string) : option string :=
  (list_to_map [("AETHERIS_ENV", "production"); ("OTP_EMAIL_SENDER", "resend"); ("RESEND_API_KEY", "key");
    ("SESSION_PASETO_KEY", "0123456789abcdef0123456789abcdef");
    ("TRANSPORT_PASETO_KEY", "fedcba9876543210fedcba9876543210"); ("AETHERIS_GRPC_TLS", "true")]
   : gmap string string) !! name.
(** The same without TLS. *)
Definition plain_env (name : string) : option string :=
  if String.eqb name "AETHERIS_GRPC_TLS" then None else live_env name.

Definition inputs : StartInputs := mkInputs _ (mkClock (fun _ => 0) 0) (fun _ => 0) (20 * DAY) (20 * DAY) 7.

Abbreviation task := (Task (W := mworld) (B := bilist) (Al := Z) (R := unit) (S := mini_server) (N := mini_net)
  (C := Z) (Net := unit)).
Abbreviation files := (gmap string (list Z)).
Definition start (env : string -> option string) :
    exec (result (Serving (Mail := unit)) string * (list task * files)) :=
  main env true key_t ServerWitness.values inputs ([], ∅).

(** Takes the outcome of a start that serves. *)
Lemma start_serves : exists sv ts fs, start live_env = Ret (Ok sv, (ts, fs)).
Proof.
  assert (match start live_env with Ret (Ok _, _) => true | _ => false end = true) as H by (vm_compute; reflexivity).
  destruct (start live_env) as [[[sv|e] [ts fs]]| |]; try discriminate H. eauto.
Qed.

Lemma start_refuses : exists e ts fs, start plain_env = Ret (Err e, (ts, fs)).
Proof.
  assert (match start plain_env with Ret (Err _, _) => true | _ => false end = true) as H by (vm_compute; reflexivity).
  destruct (start plain_env) as [[[sv|e] [ts fs]]| |]; try discriminate H. eauto.
Qed.

Lemma production_startup_is_secure_witness :
  exists sv ts fs, start live_env = Ret (Ok sv, (ts, fs)) /\ sv_sender sv <> LogEmailSender /\
    co_allow_origin (sv_cors sv) = ExactOrigin "https://aetheris.io".
Proof.
  destruct start_serves as (sv & ts & fs & H). exists sv, ts, fs. split; [exact H|].
  destruct (production_startup_is_secure live_env true key_t ServerWitness.values inputs [] ∅ sv ts fs)
    as (H1 & _ & _ & _ & (v & E & Hv) & _).
  - vm_compute. reflexivity.
  - exact H.
  - split; [exact H1|]. rewrite Hv. vm_compute in E. by injection E as <-.
Defined.

Lemma production_without_tls_is_refused_witness :
  exists e ts, start plain_env = Ret (Err e, (ts, ∅)).
Proof.
  destruct start_refuses as (e & ts & fs & H). exists e, ts. rewrite H.
  destruct (production_without_tls_is_refused plain_env true key_t ServerWitness.values inputs [] ∅ (Err e) ts fs)
    as (_ & Hf & _).
  - vm_compute. reflexivity.
  - vm_compute. reflexivity.
  - exact H.
  - by rewrite Hf.
Defined.

Lemma telemetry_open_in_production_witness :
  exists sv ts fs, start live_env = Ret (Ok sv, (ts, fs)) /\
    exists addr cors, TelemetryHttp addr cors ∈ ts /\ co_allow_origin cors = AnyOrigin.
Proof.
  destruct start_serves as (sv & ts & fs & H). exists sv, ts, fs. split; [exact H|].
  refine (proj1 (telemetry_open_in_production live_env true key_t ServerWitness.values inputs [] ∅ sv ts fs _ H)).
  vm_compute. reflexivity.
Defined.

Lemma default_tls_is_bridge_certificate_witness :
  exists sv ts fs cert key, start live_env = Ret (Ok sv, (ts, fs)) /\
    fs_read fs cert_path = Ok cert /\ sv_tls sv = Some (cert, key).
Proof.
  destruct start_serves as (sv & ts & fs & H).
  destruct (default_tls_is_bridge_certificate live_env true key_t ServerWitness.values inputs [] ∅ sv ts fs)
    as (identity & hash & cert & key & _ & _ & Hc & _ & Ht).
  - reflexivity.
  - vm_compute. reflexivity.
  - vm_compute. reflexivity.
  - vm_compute. reflexivity.
  - exact H.
  - exists sv, ts, fs, cert, key. split; [exact H|]. split; [exact Hc | exact Ht].
Defined.

(** The scheduler's task of a start, and its first tick. *)
Definition game_of (ts : list task) :=
  head (omap (fun t => match t with SchedulerTask s w x => Some (s, w, x) | _ => None end) ts).
Definition started := match start live_env with Ret (Ok _, (ts, _)) => game_of ts | _ => None end.

Abbreviation boxes := (list (BoxedTransport (S := mini_server) (N := mini_net) (C := Z) (Net := unit))).
Abbreviation ad := (Adapter mworld bilist Z).
#[local] Instance boxes_transport : PlatformTransport boxes := multi_transport (PT := boxed_transport 100).
#[local] Instance ad_world : WorldState ad := adapter_world 1000.

Definition first_tick : option (exec (tick_result ClockedAuth unit ad boxes)) :=
  (fun '(s, w, x) => tick_step live_env (fun _ => true) s w x) <$> started.

Lemma game_of_elem ts s w x : game_of ts = Some (s, w, x) -> SchedulerTask s w x ∈ ts.
Proof.
  unfold game_of. induction ts as [|t ts IH]; [discriminate|]. destruct t; cbn; try (intros H; right; by apply IH).
  intros [= -> -> ->]. left.
Qed.

Lemma first_tick_done : exists s w x s' a t, started = Some (s, w, x) /\
  tick_step live_env (fun _ => true) s w x = Ret (TickDone s' a t).
Proof.
  assert (match first_tick with Some (Ret (TickDone _ _ _)) => true | _ => false end = true) as H
    by (vm_compute; reflexivity).
  unfold first_tick in H. destruct started as [[[s w] x]|]; [|discriminate H]. cbn in H.
  destruct (tick_step _ _ _ _ _) as [[s' a t|]| |] eqn:E; try discriminate H. exists s, w, x, s', a, t. by rewrite E.
Qed.

Lemma started_server_keeps_world_sound_witness :
  exists s w x s' a t, started = Some (s, w, x) /\
    tick_step live_env (fun _ => true) s w x = Ret (TickDone s' a t) /\ wf (fun (n : Z) (i : NetworkId) => nid_val i < n) a.
Proof.
  destruct first_tick_done as (s & w & x & s' & a & t & Hs & Ht). exists s, w, x, s', a, t.
  split; [exact Hs|]. split; [exact Ht|].
  destruct start_serves as (sv & ts & fs & H). unfold started in Hs. rewrite H in Hs.
  refine (started_server_keeps_world_sound live_env true key_t ServerWitness.values (fun _ => true) 1000 100
    inputs ∅ sv ts fs s w x s' a t _ H (game_of_elem ts s w x Hs) (rtc_once _ _ (rs_tick _ _ _ _ _ _ _ _ _ Ht))).
  exact ServerWitness.values_ok.
Defined.
End MainWitness.
